(** * SGP4/SDP4 orbit propagator: a shallow embedding of [SGP4.cpp]

    The C++ class [SGP4] (files [SGP4.h], [SGP4.cpp]) is embedded function by
    function.  A C++ [double] is idealised as an exact rational ([Q]): sums,
    products and comparisons are the mathematical ones, there is no rounding,
    no infinity and no NaN, and a division by zero has [Q]'s value [0].  The
    routines of [<cmath>] that are not exact ([sin], [cos], [sqrt], [pow],
    [atan2]) and the repository's [Julian] date class are taken as an
    interface ([Extern]); [fabs] and [fmod] are exact and are defined.
    A member function that throws returns [Throw msg]; a [const] member
    function that writes the [mutable] integrator fields returns the new
    object state next to its result.

    The clock of the resonance integrator, on which the termination of its
    loop depends, is in addition run in binary64 (section "The clock of the
    resonance integrator"): there the rounding of the program is the
    rounding of the model. *)

From Stdlib Require Import QArith Qabs Qround Qminmax Lqa ZArith Lia Bool String List.
From Corelib Require PrimFloat SpecFloat FloatOps FloatAxioms.
Import ListNotations.

Open Scope Q_scope.

(** ** Numbers *)

Definition double : Type := Q.

Definition Qltb (x y : Q) : bool := negb (Qle_bool y x).
Definition Qleb (x y : Q) : bool := Qle_bool x y.
Definition Qgtb (x y : Q) : bool := Qltb y x.
Definition Qgeb (x y : Q) : bool := Qleb y x.

Infix "<?" := Qltb (at level 70, no associativity) : Q_scope.
Infix "<=?" := Qleb (at level 70, no associativity) : Q_scope.
Infix ">?" := Qgtb (at level 70, no associativity) : Q_scope.
Infix ">=?" := Qgeb (at level 70, no associativity) : Q_scope.

(** [fabs] of [<cmath>]. *)
Definition fabs (x : double) : double := Qabs x.

(** [fmod] of [<cmath>]: [x - n * y] with [n] the quotient [x / y] truncated
    toward zero (the result is exact in IEEE arithmetic too). *)
Definition Qtrunc (x : Q) : Z := if 0 <=? x then Qfloor x else Qceiling x.
Definition fmod (x y : double) : double := x - inject_Z (Qtrunc (x / y)) * y.

(** ** Exceptions *)

Inductive result (A : Type) : Type :=
| Ok (a : A)
| Throw (msg : string).
Arguments Ok {A} a.
Arguments Throw {A} msg%_string.

Definition bind {A B : Type} (r : result A) (k : A -> result B) : result B :=
  match r with
  | Ok a => k a
  | Throw msg => Throw msg
  end.

Notation "'do' x <- r ; k" := (bind r (fun x => k))
  (at level 10, x pattern, r at level 100, k at level 200).

Definition is_ok {A : Type} (r : result A) : bool :=
  match r with Ok _ => true | Throw _ => false end.

(** ** External collaborators

    [<cmath>] and the [Julian] class ([Julian.h] is outside the two source
    files).  Every theorem below holds for an arbitrary implementation. *)

Class Extern : Type := {
  sin : double -> double;
  cos : double -> double;
  sqrt : double -> double;
  pow : double -> double -> double;
  atan2 : double -> double -> double;
  Julian : Type;
  JulianDefault : Julian;                       (* Julian()                       *)
  ToGreenwichSiderealTime : Julian -> double;
  FromJan1_12h_1900 : Julian -> double;
  AddMin : Julian -> double -> Julian;
  SpanMin : Julian -> Julian -> double
}.

(** ** Constants ([SGP4.cpp], lines 9-43) *)

Definition AE : double := 1.0.
Definition Q0 : double := 120.0.
Definition S0 : double := 78.0.
Definition MU : double := 398600.8.
Definition XKMPER : double := 6378.135.
Definition XJ2 : double := 1.082616e-3.
Definition XJ3 : double := -2.53881e-6.
Definition XJ4 : double := -1.65597e-6.
Definition CK2 : double := 0.5 * XJ2 * AE * AE.
Definition CK4 : double := -0.375 * XJ4 * AE * AE * AE * AE.
Definition S : double := AE * (1.0 + S0 / XKMPER).
Definition PI : double := 3.14159265358979323846264338327950288419716939937510582.
Definition TWOPI : double := 2.0 * PI.
Definition TWOTHIRD : double := 2.0 / 3.0.
Definition THDT : double := 4.37526908801129966e-3.

(** Modelled from the spec: [Globals::MIN_PER_DAY] ([Globals.h] is not among
    the sources); section 4.1 converts revolutions per day to radians per
    minute by the factor 2 pi / 1440. *)
Definition MIN_PER_DAY : double := 1440.0.

(** Modelled from the spec: [Globals::Fmod2p] ([Globals.h] is not among the
    sources), the angle normalisation helper of section 2: reduction to
    the interval from 0 (included) to 2 pi (excluded). *)
Definition Fmod2p (arg : double) : double :=
  let modu := fmod arg TWOPI in
  if modu <? 0 then modu + TWOPI else modu.

(** ** The object state ([SGP4.h]) *)

(** "these variables are set at the very start and should not be changed
    after that" ([SGP4.h], lines 250-265). *)
Record Elements {E : Extern} : Type := {
  mean_anomoly_ : double;
  ascending_node_ : double;
  argument_perigee_ : double;
  eccentricity_ : double;
  inclination_ : double;
  mean_motion_ : double;
  bstar_ : double;
  recovered_semi_major_axis_ : double;
  recovered_mean_motion_ : double;
  perigee_ : double;
  period_ : double;
  epoch_ : Julian
}.

(** "variables are constants that wont be modified outside init"
    ([SGP4.h], lines 43-61). *)
Record InitConsts : Type := {
  i_cosio_ : double;
  i_sinio_ : double;
  i_eta_ : double;
  i_t2cof_ : double;
  i_a3ovk2_ : double;
  i_x1mth2_ : double;
  i_x3thm1_ : double;
  i_x7thm1_ : double;
  i_aycof_ : double;
  i_xlcof_ : double;
  i_xnodcf_ : double;
  i_c1_ : double;
  i_c4_ : double;
  i_omgdot_ : double;
  i_xnodot_ : double;
  i_xmdot_ : double
}.

(** "sgp4 constant" ([SGP4.h], lines 62-75). *)
Record NearConsts : Type := {
  n_c5_ : double;
  n_omgcof_ : double;
  n_xmcof_ : double;
  n_delmo_ : double;
  n_sinmo_ : double;
  n_d2_ : double;
  n_d3_ : double;
  n_d4_ : double;
  n_t3cof_ : double;
  n_t4cof_ : double;
  n_t5cof_ : double
}.

(** "lunar / solar constants for epoch, applied during DeepSpaceSecular()"
    ([SGP4.h], lines 92-100). *)
Record SecularConsts : Type := {
  d_sse_ : double;
  d_ssi_ : double;
  d_ssl_ : double;
  d_ssg_ : double;
  d_ssh_ : double
}.

(** "lunar / solar constants used during DeepSpaceCalculateLunarSolarTerms()"
    ([SGP4.h], lines 101-128). *)
Record PeriodicConsts : Type := {
  d_se2_ : double;
  d_si2_ : double;
  d_sl2_ : double;
  d_sgh2_ : double;
  d_sh2_ : double;
  d_se3_ : double;
  d_si3_ : double;
  d_sl3_ : double;
  d_sgh3_ : double;
  d_sh3_ : double;
  d_sl4_ : double;
  d_sgh4_ : double;
  d_ee2_ : double;
  d_e3_ : double;
  d_xi2_ : double;
  d_xi3_ : double;
  d_xl2_ : double;
  d_xl3_ : double;
  d_xl4_ : double;
  d_xgh2_ : double;
  d_xgh3_ : double;
  d_xgh4_ : double;
  d_xh2_ : double;
  d_xh3_ : double
}.

(** "used during DeepSpaceCalcDotTerms()" ([SGP4.h], lines 129-144). *)
Record ResonanceConsts : Type := {
  d_d2201_ : double;
  d_d2211_ : double;
  d_d3210_ : double;
  d_d3222_ : double;
  d_d4410_ : double;
  d_d4422_ : double;
  d_d5220_ : double;
  d_d5232_ : double;
  d_d5421_ : double;
  d_d5433_ : double;
  d_del1_ : double;
  d_del2_ : double;
  d_del3_ : double
}.

(** The [mutable] members: "integrator values" and "integrator values for
    current d_atime_" ([SGP4.h], lines 150-155 and 162-167). *)
Record Integrator : Type := {
  d_xli_ : double;
  d_xni_ : double;
  d_atime_ : double;
  d_xndot_t_ : double;
  d_xnddt_t_ : double;
  d_xldot_t_ : double
}.

Record SGP4 {E : Extern} : Type := {
  first_run_ : bool;
  i_use_simple_model_ : bool;
  i_use_deep_space_ : bool;
  init : InitConsts;
  near : NearConsts;
  d_gsto_ : double;
  d_zmol_ : double;
  d_zmos_ : double;
  d_resonance_flag_ : bool;
  d_synchronous_flag_ : bool;
  secular : SecularConsts;
  periodic : PeriodicConsts;
  resonance : ResonanceConsts;
  d_xfact_ : double;
  d_xlamo_ : double;
  integ : Integrator;
  d_xndot_0_ : double;
  d_xnddt_0_ : double;
  d_xldot_0_ : double;
  elems : Elements
}.

(** The element set read by [SetTle] through the accessors of [Tle]
    ([Tle.h] is outside the sources): angles in radians, mean motion in
    revolutions per day. *)
Record Tle {E : Extern} : Type := {
  tle_MeanAnomaly : double;
  tle_RightAscendingNode : double;
  tle_ArgumentPerigee : double;
  tle_Eccentricity : double;
  tle_Inclination : double;
  tle_MeanMotion : double;
  tle_BStar : double;
  tle_Epoch : Julian
}.

Record Vector : Type := { vec_x : double; vec_y : double; vec_z : double }.

Record Eci {E : Extern} : Type := {
  eci_date : Julian;
  eci_position : Vector;
  eci_velocity : Vector
}.

Section Propagator.

Context {E : Extern}.

Definition XKE : double := 60.0 / sqrt (XKMPER * XKMPER * XKMPER / MU).
Definition QOMS2T : double := pow ((Q0 - S0) / XKMPER) 4.0.

(** Accessors ([SGP4.h], lines 169-248). *)
Definition MeanAnomoly (s : SGP4) : double := mean_anomoly_ (elems s).
Definition AscendingNode (s : SGP4) : double := ascending_node_ (elems s).
Definition ArgumentPerigee (s : SGP4) : double := argument_perigee_ (elems s).
Definition Eccentricity (s : SGP4) : double := eccentricity_ (elems s).
Definition Inclination (s : SGP4) : double := inclination_ (elems s).
Definition MeanMotion (s : SGP4) : double := mean_motion_ (elems s).
Definition BStar (s : SGP4) : double := bstar_ (elems s).
Definition RecoveredSemiMajorAxis (s : SGP4) : double :=
  recovered_semi_major_axis_ (elems s).
Definition RecoveredMeanMotion (s : SGP4) : double :=
  recovered_mean_motion_ (elems s).
Definition Perigee (s : SGP4) : double := perigee_ (elems s).
Definition Period (s : SGP4) : double := period_ (elems s).
Definition Epoch (s : SGP4) : Julian := epoch_ (elems s).

(** ** [ResetGlobalVariables] ([SGP4.cpp], lines 1243-1290) *)

Definition zero_init : InitConsts :=
  {| i_cosio_ := 0.0; i_sinio_ := 0.0; i_eta_ := 0.0; i_t2cof_ := 0.0;
     i_a3ovk2_ := 0.0; i_x1mth2_ := 0.0; i_x3thm1_ := 0.0; i_x7thm1_ := 0.0;
     i_aycof_ := 0.0; i_xlcof_ := 0.0; i_xnodcf_ := 0.0; i_c1_ := 0.0;
     i_c4_ := 0.0; i_omgdot_ := 0.0; i_xnodot_ := 0.0; i_xmdot_ := 0.0 |}.

Definition zero_near : NearConsts :=
  {| n_c5_ := 0.0; n_omgcof_ := 0.0; n_xmcof_ := 0.0; n_delmo_ := 0.0;
     n_sinmo_ := 0.0; n_d2_ := 0.0; n_d3_ := 0.0; n_d4_ := 0.0;
     n_t3cof_ := 0.0; n_t4cof_ := 0.0; n_t5cof_ := 0.0 |}.

Definition zero_secular : SecularConsts :=
  {| d_sse_ := 0.0; d_ssi_ := 0.0; d_ssl_ := 0.0; d_ssg_ := 0.0; d_ssh_ := 0.0 |}.

Definition zero_periodic : PeriodicConsts :=
  {| d_se2_ := 0.0; d_si2_ := 0.0; d_sl2_ := 0.0; d_sgh2_ := 0.0; d_sh2_ := 0.0;
     d_se3_ := 0.0; d_si3_ := 0.0; d_sl3_ := 0.0; d_sgh3_ := 0.0; d_sh3_ := 0.0;
     d_sl4_ := 0.0; d_sgh4_ := 0.0; d_ee2_ := 0.0; d_e3_ := 0.0; d_xi2_ := 0.0;
     d_xi3_ := 0.0; d_xl2_ := 0.0; d_xl3_ := 0.0; d_xl4_ := 0.0; d_xgh2_ := 0.0;
     d_xgh3_ := 0.0; d_xgh4_ := 0.0; d_xh2_ := 0.0; d_xh3_ := 0.0 |}.

Definition zero_resonance : ResonanceConsts :=
  {| d_d2201_ := 0.0; d_d2211_ := 0.0; d_d3210_ := 0.0; d_d3222_ := 0.0;
     d_d4410_ := 0.0; d_d4422_ := 0.0; d_d5220_ := 0.0; d_d5232_ := 0.0;
     d_d5421_ := 0.0; d_d5433_ := 0.0; d_del1_ := 0.0; d_del2_ := 0.0;
     d_del3_ := 0.0 |}.

Definition zero_integ : Integrator :=
  {| d_xli_ := 0.0; d_xni_ := 0.0; d_atime_ := 0.0;
     d_xndot_t_ := 0.0; d_xnddt_t_ := 0.0; d_xldot_t_ := 0.0 |}.

Definition zero_elems : Elements :=
  {| mean_anomoly_ := 0.0; ascending_node_ := 0.0; argument_perigee_ := 0.0;
     eccentricity_ := 0.0; inclination_ := 0.0; mean_motion_ := 0.0;
     bstar_ := 0.0; recovered_semi_major_axis_ := 0.0;
     recovered_mean_motion_ := 0.0; perigee_ := 0.0; period_ := 0.0;
     epoch_ := JulianDefault |}.

Definition ResetGlobalVariables : SGP4 :=
  {| first_run_ := true;
     i_use_simple_model_ := false;
     i_use_deep_space_ := false;
     init := zero_init;
     near := zero_near;
     d_gsto_ := 0.0; d_zmol_ := 0.0; d_zmos_ := 0.0;
     d_resonance_flag_ := false;
     d_synchronous_flag_ := false;
     secular := zero_secular;
     periodic := zero_periodic;
     resonance := zero_resonance;
     d_xfact_ := 0.0; d_xlamo_ := 0.0;
     integ := zero_integ;
     d_xndot_0_ := 0.0; d_xnddt_0_ := 0.0; d_xldot_0_ := 0.0;
     elems := zero_elems |}.

(** Assignments to single members; a triple [d] holds what
    [DeepSpaceCalcDotTerms] returns in [(xndot, xnddt, xldot)]. *)

Definition set_integ (s : SGP4) (ig : Integrator) : SGP4 :=
  {| first_run_ := first_run_ s;
     i_use_simple_model_ := i_use_simple_model_ s;
     i_use_deep_space_ := i_use_deep_space_ s;
     init := init s; near := near s;
     d_gsto_ := d_gsto_ s; d_zmol_ := d_zmol_ s; d_zmos_ := d_zmos_ s;
     d_resonance_flag_ := d_resonance_flag_ s;
     d_synchronous_flag_ := d_synchronous_flag_ s;
     secular := secular s; periodic := periodic s; resonance := resonance s;
     d_xfact_ := d_xfact_ s; d_xlamo_ := d_xlamo_ s;
     integ := ig;
     d_xndot_0_ := d_xndot_0_ s; d_xnddt_0_ := d_xnddt_0_ s;
     d_xldot_0_ := d_xldot_0_ s;
     elems := elems s |}.

Definition set_first_run (s : SGP4) (b : bool) : SGP4 :=
  {| first_run_ := b;
     i_use_simple_model_ := i_use_simple_model_ s;
     i_use_deep_space_ := i_use_deep_space_ s;
     init := init s; near := near s;
     d_gsto_ := d_gsto_ s; d_zmol_ := d_zmol_ s; d_zmos_ := d_zmos_ s;
     d_resonance_flag_ := d_resonance_flag_ s;
     d_synchronous_flag_ := d_synchronous_flag_ s;
     secular := secular s; periodic := periodic s; resonance := resonance s;
     d_xfact_ := d_xfact_ s; d_xlamo_ := d_xlamo_ s;
     integ := integ s;
     d_xndot_0_ := d_xndot_0_ s; d_xnddt_0_ := d_xnddt_0_ s;
     d_xldot_0_ := d_xldot_0_ s;
     elems := elems s |}.

Definition set_dot_0 (s : SGP4) (d : double * double * double) : SGP4 :=
  {| first_run_ := first_run_ s;
     i_use_simple_model_ := i_use_simple_model_ s;
     i_use_deep_space_ := i_use_deep_space_ s;
     init := init s; near := near s;
     d_gsto_ := d_gsto_ s; d_zmol_ := d_zmol_ s; d_zmos_ := d_zmos_ s;
     d_resonance_flag_ := d_resonance_flag_ s;
     d_synchronous_flag_ := d_synchronous_flag_ s;
     secular := secular s; periodic := periodic s; resonance := resonance s;
     d_xfact_ := d_xfact_ s; d_xlamo_ := d_xlamo_ s;
     integ := integ s;
     d_xndot_0_ := fst (fst d); d_xnddt_0_ := snd (fst d); d_xldot_0_ := snd d;
     elems := elems s |}.

Definition set_dot_t (ig : Integrator) (d : double * double * double) : Integrator :=
  {| d_xli_ := d_xli_ ig; d_xni_ := d_xni_ ig; d_atime_ := d_atime_ ig;
     d_xndot_t_ := fst (fst d); d_xnddt_t_ := snd (fst d); d_xldot_t_ := snd d |}.

(** ** [DeepSpaceCalcDotTerms] ([SGP4.cpp], lines 1173-1223)

    The three reference parameters are returned as a triple
    [(xndot, xnddt, xldot)]. *)

Definition DeepSpaceCalcDotTerms (s : SGP4) : double * double * double :=
  let G22 := 5.7686396 in
  let G32 := 0.95240898 in
  let G44 := 1.8014998 in
  let G52 := 1.0508330 in
  let G54 := 4.4108898 in
  let FASX2 := 0.13130908 in
  let FASX4 := 2.8843198 in
  let FASX6 := 0.37448087 in
  let r := resonance s in
  let xli := d_xli_ (integ s) in
  let '(xndot, xnddt) :=
    if d_synchronous_flag_ s then
      (d_del1_ r * sin (xli - FASX2) +
       d_del2_ r * sin (2.0 * (xli - FASX4)) +
       d_del3_ r * sin (3.0 * (xli - FASX6)),
       d_del1_ r * cos (xli - FASX2) + 2.0 *
       d_del2_ r * cos (2.0 * (xli - FASX4)) + 3.0 *
       d_del3_ r * cos (3.0 * (xli - FASX6)))
    else
      let xomi := ArgumentPerigee s + i_omgdot_ (init s) * d_atime_ (integ s) in
      let x2omi := xomi + xomi in
      let x2li := xli + xli in
      (d_d2201_ r * sin (x2omi + xli - G22)
       + d_d2211_ r * sin (xli - G22)
       + d_d3210_ r * sin (xomi + xli - G32)
       + d_d3222_ r * sin (- xomi + xli - G32)
       + d_d4410_ r * sin (x2omi + x2li - G44)
       + d_d4422_ r * sin (x2li - G44)
       + d_d5220_ r * sin (xomi + xli - G52)
       + d_d5232_ r * sin (- xomi + xli - G52)
       + d_d5421_ r * sin (xomi + x2li - G54)
       + d_d5433_ r * sin (- xomi + x2li - G54),
       d_d2201_ r * cos (x2omi + xli - G22)
       + d_d2211_ r * cos (xli - G22)
       + d_d3210_ r * cos (xomi + xli - G32)
       + d_d3222_ r * cos (- xomi + xli - G32)
       + d_d5220_ r * cos (xomi + xli - G52)
       + d_d5232_ r * cos (- xomi + xli - G52)
       + 2.0 * (d_d4410_ r * cos (x2omi + x2li - G44)
       + d_d4422_ r * cos (x2li - G44)
       + d_d5421_ r * cos (xomi + x2li - G54)
       + d_d5433_ r * cos (- xomi + x2li - G54)))
  in
  let xldot := d_xni_ (integ s) + d_xfact_ s in
  let xnddt := xnddt * xldot in
  (xndot, xnddt, xldot).

(** ** [DeepSpaceIntegrator] ([SGP4.cpp], lines 1228-1241) *)

Definition DeepSpaceIntegrator (delt step2 xndot xnddt xldot : double)
  (s : SGP4) : SGP4 :=
  let ig := integ s in
  set_integ s
    {| d_xli_ := d_xli_ ig + (xldot * delt + xndot * step2);
       d_xni_ := d_xni_ ig + (xndot * delt + xnddt * step2);
       d_atime_ := d_atime_ ig + delt;
       d_xndot_t_ := d_xndot_t_ ig;
       d_xnddt_t_ := d_xnddt_t_ ig;
       d_xldot_t_ := d_xldot_t_ ig |}.

(** ** [DeepSpaceInitialize] ([SGP4.cpp], lines 608-938) *)

(** What one pass of the loop over [cnt] (lines 685-790) computes from the
    geometry of the perturbing body: the locals [se], [si], [sl], [sgh],
    [shdq] and the values it stores in [d_ee2_] ... [d_xh3_]. *)
Record ThirdBody : Type := {
  tb_se : double; tb_si : double; tb_sl : double; tb_sgh : double;
  tb_shdq : double;
  tb_ee2 : double; tb_e3 : double; tb_xi2 : double; tb_xi3 : double;
  tb_xl2 : double; tb_xl3 : double; tb_xl4 : double;
  tb_xgh2 : double; tb_xgh3 : double; tb_xgh4 : double;
  tb_xh2 : double; tb_xh3 : double
}.

(** The loop body, lines 689-757. *)
Definition third_body_terms (s : SGP4)
  (eosq sinio cosio betao betao2 sing cosg xnoi : double)
  (zcosg zsing zcosi zsini zcosh zsinh cc zn ze : double) : ThirdBody :=
  let a1 := zcosg * zcosh + zsing * zcosi * zsinh in
  let a3 := - zsing * zcosh + zcosg * zcosi * zsinh in
  let a7 := - zcosg * zsinh + zsing * zcosi * zcosh in
  let a8 := zsing * zsini in
  let a9 := zsing * zsinh + zcosg * zcosi * zcosh in
  let a10 := zcosg * zsini in
  let a2 := cosio * a7 + sinio * a8 in
  let a4 := cosio * a9 + sinio * a10 in
  let a5 := - sinio * a7 + cosio * a8 in
  let a6 := - sinio * a9 + cosio * a10 in
  let x1 := a1 * cosg + a2 * sing in
  let x2 := a3 * cosg + a4 * sing in
  let x3 := - a1 * sing + a2 * cosg in
  let x4 := - a3 * sing + a4 * cosg in
  let x5 := a5 * sing in
  let x6 := a6 * sing in
  let x7 := a5 * cosg in
  let x8 := a6 * cosg in
  let z31 := 12.0 * x1 * x1 - 3.0 * x3 * x3 in
  let z32 := 24.0 * x1 * x2 - 6.0 * x3 * x4 in
  let z33 := 12.0 * x2 * x2 - 3.0 * x4 * x4 in
  let z1 := 3.0 * (a1 * a1 + a2 * a2) + z31 * eosq in
  let z2 := 6.0 * (a1 * a3 + a2 * a4) + z32 * eosq in
  let z3 := 3.0 * (a3 * a3 + a4 * a4) + z33 * eosq in
  let z11 := -6.0 * a1 * a5 + eosq * (-24.0 * x1 * x7 - 6.0 * x3 * x5) in
  let z12 := -6.0 * (a1 * a6 + a3 * a5) +
             eosq * (-24.0 * (x2 * x7 + x1 * x8) - 6.0 * (x3 * x6 + x4 * x5)) in
  let z13 := -6.0 * a3 * a6 + eosq * (-24.0 * x2 * x8 - 6.0 * x4 * x6) in
  let z21 := 6.0 * a2 * a5 + eosq * (24.0 * x1 * x5 - 6.0 * x3 * x7) in
  let z22 := 6.0 * (a4 * a5 + a2 * a6) +
             eosq * (24.0 * (x2 * x5 + x1 * x6) - 6.0 * (x4 * x7 + x3 * x8)) in
  let z23 := 6.0 * a4 * a6 + eosq * (24.0 * x2 * x6 - 6.0 * x4 * x8) in
  let z1 := z1 + z1 + betao2 * z31 in
  let z2 := z2 + z2 + betao2 * z32 in
  let z3 := z3 + z3 + betao2 * z33 in
  let s3 := cc * xnoi in
  let s2 := -0.5 * s3 / betao in
  let s4 := s3 * betao in
  let s1 := -15.0 * Eccentricity s * s4 in
  let s5 := x1 * x3 + x2 * x4 in
  let s6 := x2 * x3 + x1 * x4 in
  let s7 := x2 * x4 - x1 * x3 in
  let se := s1 * zn * s5 in
  let si := s2 * zn * (z11 + z13) in
  let sl := - zn * s3 * (z1 + z3 - 14.0 - 6.0 * eosq) in
  let sgh := s4 * zn * (z31 + z33 - 6.0) in
  let shdq :=
    if (Inclination s <? 5.2359877e-2) || (Inclination s >? PI - 5.2359877e-2)
    then 0.0
    else (- zn * s2 * (z21 + z23)) / sinio in
  {| tb_se := se; tb_si := si; tb_sl := sl; tb_sgh := sgh; tb_shdq := shdq;
     tb_ee2 := 2.0 * s1 * s6;
     tb_e3 := 2.0 * s1 * s7;
     tb_xi2 := 2.0 * s2 * z12;
     tb_xi3 := 2.0 * s2 * (z13 - z11);
     tb_xl2 := -2.0 * s3 * z2;
     tb_xl3 := -2.0 * s3 * (z3 - z1);
     tb_xl4 := -2.0 * s3 * (-21.0 - 9.0 * eosq) * ze;
     tb_xgh2 := 2.0 * s4 * z32;
     tb_xgh3 := 2.0 * s4 * (z33 - z31);
     tb_xgh4 := -18.0 * s4 * ze;
     tb_xh2 := -2.0 * s2 * z22;
     tb_xh3 := -2.0 * s2 * (z23 - z21) |}.

(** The 24h synchronous resonance terms, lines 811-821. *)
Definition synchronous_terms (s : SGP4) (eosq sinio cosio aqnv : double)
  : ResonanceConsts :=
  let Q22 := 1.7891679E-6 in
  let Q31 := 2.1460748E-6 in
  let Q33 := 2.2123015E-7 in
  let g200 := 1.0 + eosq * (-2.5 + 0.8125 * eosq) in
  let g310 := 1.0 + 2.0 * eosq in
  let g300 := 1.0 + eosq * (-6.0 + 6.60937 * eosq) in
  let f220 := 0.75 * (1.0 + cosio) * (1.0 + cosio) in
  let f311 := 0.9375 * sinio * sinio * (1.0 + 3.0 * cosio) - 0.75 * (1.0 + cosio) in
  let f330 := 1.0 + cosio in
  let f330 := 1.875 * f330 * f330 * f330 in
  let del1 := 3.0 * RecoveredMeanMotion s * RecoveredMeanMotion s * aqnv * aqnv in
  let del2 := 2.0 * del1 * f220 * g200 * Q22 in
  let del3 := 3.0 * del1 * f330 * g300 * Q33 * aqnv in
  let del1 := del1 * f311 * g310 * Q31 * aqnv in
  {| d_d2201_ := d_d2201_ (resonance s); d_d2211_ := d_d2211_ (resonance s);
     d_d3210_ := d_d3210_ (resonance s); d_d3222_ := d_d3222_ (resonance s);
     d_d4410_ := d_d4410_ (resonance s); d_d4422_ := d_d4422_ (resonance s);
     d_d5220_ := d_d5220_ (resonance s); d_d5232_ := d_d5232_ (resonance s);
     d_d5421_ := d_d5421_ (resonance s); d_d5433_ := d_d5433_ (resonance s);
     d_del1_ := del1; d_del2_ := del2; d_del3_ := del3 |}.

(** The geopotential resonance terms for 12 hour orbits, lines 835-918. *)
Definition geopotential_terms (s : SGP4) (eosq sinio cosio theta2 aqnv : double)
  : ResonanceConsts :=
  let ROOT22 := 1.7891679E-6 in
  let ROOT32 := 3.7393792E-7 in
  let ROOT44 := 7.3636953E-9 in
  let ROOT52 := 1.1428639E-7 in
  let ROOT54 := 2.1765803E-9 in
  let ecc := Eccentricity s in
  let eoc := ecc * eosq in
  let g201 := -0.306 - (ecc - 0.64) * 0.440 in
  let '(g211, g310, g322, g410, g422, g520) :=
    if ecc <=? 0.65 then
      (3.616 - 13.247 * ecc + 16.290 * eosq,
       -19.302 + 117.390 * ecc - 228.419 * eosq + 156.591 * eoc,
       -18.9068 + 109.7927 * ecc - 214.6334 * eosq + 146.5816 * eoc,
       -41.122 + 242.694 * ecc - 471.094 * eosq + 313.953 * eoc,
       -146.407 + 841.880 * ecc - 1629.014 * eosq + 1083.435 * eoc,
       -532.114 + 3017.977 * ecc - 5740.032 * eosq + 3708.276 * eoc)
    else
      (-72.099 + 331.819 * ecc - 508.738 * eosq + 266.724 * eoc,
       -346.844 + 1582.851 * ecc - 2415.925 * eosq + 1246.113 * eoc,
       -342.585 + 1554.908 * ecc - 2366.899 * eosq + 1215.972 * eoc,
       -1052.797 + 4758.686 * ecc - 7193.992 * eosq + 3651.957 * eoc,
       -3581.69 + 16178.11 * ecc - 24462.77 * eosq + 12422.52 * eoc,
       if ecc <=? 0.715
       then 1464.74 - 4664.75 * ecc + 3763.64 * eosq
       else -5149.66 + 29936.92 * ecc - 54087.36 * eosq + 31324.56 * eoc) in
  let '(g533, g521, g532) :=
    if ecc <? 0.7 then
      (-919.2277 + 4988.61 * ecc - 9064.77 * eosq + 5542.21 * eoc,
       -822.71072 + 4568.6173 * ecc - 8491.4146 * eosq + 5337.524 * eoc,
       -853.666 + 4690.25 * ecc - 8624.77 * eosq + 5341.4 * eoc)
    else
      (-37995.78 + 161616.52 * ecc - 229838.2 * eosq + 109377.94 * eoc,
       -51752.104 + 218913.95 * ecc - 309468.16 * eosq + 146349.42 * eoc,
       -40023.88 + 170470.89 * ecc - 242699.48 * eosq + 115605.82 * eoc) in
  let sini2 := sinio * sinio in
  let f220 := 0.75 * (1.0 + 2.0 * cosio + theta2) in
  let f221 := 1.5 * sini2 in
  let f321 := 1.875 * sinio * (1.0 - 2.0 * cosio - 3.0 * theta2) in
  let f322 := -1.875 * sinio * (1.0 + 2.0 * cosio - 3.0 * theta2) in
  let f441 := 35.0 * sini2 * f220 in
  let f442 := 39.3750 * sini2 * sini2 in
  let f522 := 9.84375 * sinio * (sini2 * (1.0 - 2.0 * cosio - 5.0 * theta2)
              + 0.33333333 * (-2.0 + 4.0 * cosio + 6.0 * theta2)) in
  let f523 := sinio * (4.92187512 * sini2 * (-2.0 - 4.0 * cosio + 10.0 * theta2)
              + 6.56250012 * (1.0 + 2.0 * cosio - 3.0 * theta2)) in
  let f542 := 29.53125 * sinio * (2.0 - 8.0 * cosio + theta2 *
              (-12.0 + 8.0 * cosio + 10.0 * theta2)) in
  let f543 := 29.53125 * sinio * (-2.0 - 8.0 * cosio + theta2 *
              (12.0 + 8.0 * cosio - 10.0 * theta2)) in
  let xno2 := RecoveredMeanMotion s * RecoveredMeanMotion s in
  let ainv2 := aqnv * aqnv in
  let temp1 := 3.0 * xno2 * ainv2 in
  let temp := temp1 * ROOT22 in
  let d2201 := temp * f220 * g201 in
  let d2211 := temp * f221 * g211 in
  let temp1 := temp1 * aqnv in
  let temp := temp1 * ROOT32 in
  let d3210 := temp * f321 * g310 in
  let d3222 := temp * f322 * g322 in
  let temp1 := temp1 * aqnv in
  let temp := 2.0 * temp1 * ROOT44 in
  let d4410 := temp * f441 * g410 in
  let d4422 := temp * f442 * g422 in
  let temp1 := temp1 * aqnv in
  let temp := temp1 * ROOT52 in
  let d5220 := temp * f522 * g520 in
  let d5232 := temp * f523 * g532 in
  let temp := 2.0 * temp1 * ROOT54 in
  let d5421 := temp * f542 * g521 in
  let d5433 := temp * f543 * g533 in
  {| d_d2201_ := d2201; d_d2211_ := d2211; d_d3210_ := d3210; d_d3222_ := d3222;
     d_d4410_ := d4410; d_d4422_ := d4422; d_d5220_ := d5220; d_d5232_ := d5232;
     d_d5421_ := d5421; d_d5433_ := d5433;
     d_del1_ := d_del1_ (resonance s); d_del2_ := d_del2_ (resonance s);
     d_del3_ := d_del3_ (resonance s) |}.

Definition set_lunar_solar (s : SGP4) (zmol zmos : double)
  (sec : SecularConsts) (per : PeriodicConsts) : SGP4 :=
  {| first_run_ := first_run_ s;
     i_use_simple_model_ := i_use_simple_model_ s;
     i_use_deep_space_ := i_use_deep_space_ s;
     init := init s; near := near s;
     d_gsto_ := d_gsto_ s; d_zmol_ := zmol; d_zmos_ := zmos;
     d_resonance_flag_ := d_resonance_flag_ s;
     d_synchronous_flag_ := d_synchronous_flag_ s;
     secular := sec; periodic := per; resonance := resonance s;
     d_xfact_ := d_xfact_ s; d_xlamo_ := d_xlamo_ s;
     integ := integ s;
     d_xndot_0_ := d_xndot_0_ s; d_xnddt_0_ := d_xnddt_0_ s;
     d_xldot_0_ := d_xldot_0_ s;
     elems := elems s |}.

Definition set_resonance (s : SGP4) (rf sf : bool) (res : ResonanceConsts)
  (xfact xlamo : double) (ig : Integrator) : SGP4 :=
  {| first_run_ := first_run_ s;
     i_use_simple_model_ := i_use_simple_model_ s;
     i_use_deep_space_ := i_use_deep_space_ s;
     init := init s; near := near s;
     d_gsto_ := d_gsto_ s; d_zmol_ := d_zmol_ s; d_zmos_ := d_zmos_ s;
     d_resonance_flag_ := rf;
     d_synchronous_flag_ := sf;
     secular := secular s; periodic := periodic s; resonance := res;
     d_xfact_ := xfact; d_xlamo_ := xlamo;
     integ := ig;
     d_xndot_0_ := d_xndot_0_ s; d_xnddt_0_ := d_xnddt_0_ s;
     d_xldot_0_ := d_xldot_0_ s;
     elems := elems s |}.

(** What lines 641-796 compute: [d_zmol_], [d_zmos_] and the lunar / solar
    constants. *)
Record LunarSolar : Type := {
  ls_zmol : double;
  ls_zmos : double;
  ls_secular : SecularConsts;
  ls_periodic : PeriodicConsts
}.

(** Lines 641-796: "initialize lunar / solar terms", the two passes of the
    loop over [cnt] and the sums after it. *)
Definition lunar_solar_terms (s : SGP4) (eosq sinio cosio betao betao2 : double)
  : LunarSolar :=
  let ZNS := 1.19459E-5 in
  let C1SS := 2.9864797E-6 in
  let ZES := 0.01675 in
  let ZNL := 1.5835218E-4 in
  let C1L := 4.7968065E-7 in
  let ZEL := 0.05490 in
  let ZCOSIS := 0.91744867 in
  let ZSINI := 0.39785416 in
  let ZSINGS := -0.98088458 in
  let ZCOSGS := 0.1945905 in
  let sinq := sin (AscendingNode s) in
  let cosq := cos (AscendingNode s) in
  let sing := sin (ArgumentPerigee s) in
  let cosg := cos (ArgumentPerigee s) in
  (* initialize lunar / solar terms *)
  let d_day_ := FromJan1_12h_1900 (Epoch s) in
  let xnodce := 4.5236020 - 9.2422029e-4 * d_day_ in
  let xnodce_temp := fmod xnodce TWOPI in
  let stem := sin xnodce_temp in
  let ctem := cos xnodce_temp in
  let zcosil := 0.91375164 - 0.03568096 * ctem in
  let zsinil := sqrt (1.0 - zcosil * zcosil) in
  let zsinhl := 0.089683511 * stem / zsinil in
  let zcoshl := sqrt (1.0 - zsinhl * zsinhl) in
  let c := 4.7199672 + 0.22997150 * d_day_ in
  let gam := 5.8351514 + 0.0019443680 * d_day_ in
  let zmol := Fmod2p (c - gam) in
  let zx := 0.39785416 * stem / zsinil in
  let zy := zcoshl * ctem + 0.91744867 * zsinhl * stem in
  let zx := atan2 zx zy in
  let zx := fmod (gam + zx - xnodce) TWOPI in
  let zcosgl := cos zx in
  let zsingl := sin zx in
  let zmos := Fmod2p (6.2565837 + 0.017201977 * d_day_) in
  let xnoi := 1.0 / RecoveredMeanMotion s in
  (* cnt = 0: solar terms *)
  let sol := third_body_terms s eosq sinio cosio betao betao2 sing cosg xnoi
               ZCOSGS ZSINGS ZCOSIS ZSINI cosq sinq C1SS ZNS ZES in
  (* cnt = 1: lunar terms, left by the [break] *)
  let lun := third_body_terms s eosq sinio cosio betao betao2 sing cosg xnoi
               zcosgl zsingl zcosil zsinil
               (zcoshl * cosq + zsinhl * sinq) (sinq * zcoshl - cosq * zsinhl)
               C1L ZNL ZEL in
  {| ls_zmol := zmol;
     ls_zmos := zmos;
     ls_secular :=
       {| d_sse_ := tb_se sol + tb_se lun;
          d_ssi_ := tb_si sol + tb_si lun;
          d_ssl_ := tb_sl sol + tb_sl lun;
          d_ssg_ := (tb_sgh sol - cosio * tb_shdq sol) +
                    (tb_sgh lun - cosio * tb_shdq lun);
          d_ssh_ := tb_shdq sol + tb_shdq lun |};
     ls_periodic :=
       {| d_se2_ := tb_ee2 sol; d_si2_ := tb_xi2 sol; d_sl2_ := tb_xl2 sol;
          d_sgh2_ := tb_xgh2 sol; d_sh2_ := tb_xh2 sol;
          d_se3_ := tb_e3 sol; d_si3_ := tb_xi3 sol; d_sl3_ := tb_xl3 sol;
          d_sgh3_ := tb_xgh3 sol; d_sh3_ := tb_xh3 sol;
          d_sl4_ := tb_xl4 sol; d_sgh4_ := tb_xgh4 sol;
          d_ee2_ := tb_ee2 lun; d_e3_ := tb_e3 lun;
          d_xi2_ := tb_xi2 lun; d_xi3_ := tb_xi3 lun;
          d_xl2_ := tb_xl2 lun; d_xl3_ := tb_xl3 lun; d_xl4_ := tb_xl4 lun;
          d_xgh2_ := tb_xgh2 lun; d_xgh3_ := tb_xgh3 lun;
          d_xgh4_ := tb_xgh4 lun;
          d_xh2_ := tb_xh2 lun; d_xh3_ := tb_xh3 lun |} |}.

(** The tests of lines 803 and 827. *)
Definition synchronous_test (s : SGP4) : bool :=
  (RecoveredMeanMotion s <? 0.0052359877) &&
  (RecoveredMeanMotion s >? 0.0034906585).

Definition no_resonance_test (s : SGP4) : bool :=
  (RecoveredMeanMotion s <? 8.26e-3) ||
  (RecoveredMeanMotion s >? 9.24e-3) ||
  (Eccentricity s <? 0.5).

(** Lines 929-936: "initialize integrator" with [bfact], and "precompute
    dot terms for epoch". *)
Definition initialize_integrator (s : SGP4) (bfact : double) : SGP4 :=
  let s3 := set_resonance s (d_resonance_flag_ s) (d_synchronous_flag_ s)
              (resonance s)
              (bfact - RecoveredMeanMotion s) (d_xlamo_ s)
              {| d_xli_ := d_xlamo_ s;
                 d_xni_ := RecoveredMeanMotion s;
                 d_atime_ := 0.0;
                 d_xndot_t_ := d_xndot_t_ (integ s);
                 d_xnddt_t_ := d_xnddt_t_ (integ s);
                 d_xldot_t_ := d_xldot_t_ (integ s) |} in
  set_dot_0 s3 (DeepSpaceCalcDotTerms s3).

(** Lines 799-937: the resonance flags and terms and the integrator, with
    the locals [aqnv] and [xpidot] of lines 639-640. *)
Definition resonance_initialize (s : SGP4)
  (eosq sinio cosio theta2 xmdot omgdot xnodot : double) : SGP4 :=
  let aqnv := 1.0 / RecoveredSemiMajorAxis s in
  let xpidot := omgdot + xnodot in
  let sec := secular s in
  (* lines 799-801 *)
  let s1 := set_resonance s false false (resonance s) (d_xfact_ s) (d_xlamo_ s)
              (integ s) in
  if synchronous_test s then
    (* 24h synchronous resonance terms initialization *)
    let xlamo := MeanAnomoly s + AscendingNode s + ArgumentPerigee s - d_gsto_ s in
    let bfact := xmdot + xpidot - THDT in
    let bfact := bfact + (d_ssl_ sec + d_ssg_ sec + d_ssh_ sec) in
    initialize_integrator
      (set_resonance s1 true true (synchronous_terms s1 eosq sinio cosio aqnv)
         (d_xfact_ s1) xlamo (integ s1))
      bfact
  else if no_resonance_test s then
    (* initialize_integrator = false *)
    s1
  else
    (* geopotential resonance initialization for 12 hour orbits *)
    let xlamo := MeanAnomoly s + AscendingNode s + AscendingNode s
                 - d_gsto_ s - d_gsto_ s in
    let bfact := xmdot + xnodot + xnodot - THDT - THDT in
    let bfact := bfact + d_ssl_ sec + d_ssh_ sec + d_ssh_ sec in
    initialize_integrator
      (set_resonance s1 true false
         (geopotential_terms s1 eosq sinio cosio theta2 aqnv)
         (d_xfact_ s1) xlamo (integ s1))
      bfact.

Definition DeepSpaceInitialize (s : SGP4)
  (eosq sinio cosio betao theta2 betao2 xmdot omgdot xnodot : double) : SGP4 :=
  let ls := lunar_solar_terms s eosq sinio cosio betao betao2 in
  resonance_initialize
    (set_lunar_solar s (ls_zmol ls) (ls_zmos ls) (ls_secular ls) (ls_periodic ls))
    eosq sinio cosio theta2 xmdot omgdot xnodot.

(** ** [Initialize] ([SGP4.cpp], lines 116-243) *)

(** Lines 138-147: the locals [s4] and [qoms24], as the pair
    [(s4, qoms24)], from [Perigee()]. *)
Definition select_s4_qoms24 (perigee : double) : double * double :=
  let s4 := S in
  let qoms24 := QOMS2T in
  if perigee <? 156.0 then
    let s4 := perigee - 78.0 in
    let s4 := if perigee <? 98.0 then 20.0 else s4 in
    let qoms24 := pow ((120.0 - s4) * AE / XKMPER) 4.0 in
    let s4 := s4 / XKMPER + AE in
    (s4, qoms24)
  else (s4, qoms24).

(** The locals of [Initialize] that the near-space branch reads. *)
Record InitLocals : Type := {
  l_s4 : double;
  l_tsi : double;
  l_etasq : double;
  l_eeta : double;
  l_coef : double;
  l_coef1 : double
}.

(** Lines 152-197: "generate constants". *)
Definition generate_constants (s : SGP4)
  (theta2 betao2 betao eosq s4 qoms24 : double) : InitConsts * InitLocals :=
  let aodp := RecoveredSemiMajorAxis s in
  let xnodp := RecoveredMeanMotion s in
  let eo := Eccentricity s in
  let pinvsq := 1.0 / (aodp * aodp * betao2 * betao2) in
  let tsi := 1.0 / (aodp - s4) in
  let eta := aodp * eo * tsi in
  let etasq := eta * eta in
  let eeta := eo * eta in
  let psisq := fabs (1.0 - etasq) in
  let coef := qoms24 * pow tsi 4.0 in
  let coef1 := coef / pow psisq 3.5 in
  let x3thm1 := i_x3thm1_ (init s) in
  let cosio := i_cosio_ (init s) in
  let sinio := i_sinio_ (init s) in
  let c2 := coef1 * xnodp * (aodp *
            (1.0 + 1.5 * etasq + eeta * (4.0 + etasq)) +
            0.75 * CK2 * tsi / psisq *
            x3thm1 * (8.0 + 3.0 * etasq *
            (8.0 + etasq))) in
  let c1 := BStar s * c2 in
  let a3ovk2 := - XJ3 / CK2 * pow AE 3.0 in
  let x1mth2 := 1.0 - theta2 in
  let c4 := 2.0 * xnodp * coef1 * aodp * betao2 *
            (eta * (2.0 + 0.5 * etasq) + eo * (0.5 + 2.0 * etasq) -
            2.0 * CK2 * tsi / (aodp * psisq) *
            (-3.0 * x3thm1 * (1.0 - 2.0 * eeta + etasq *
            (1.5 - 0.5 * eeta)) + 0.75 * x1mth2 * (2.0 * etasq - eeta *
            (1.0 + etasq)) * cos (2.0 * ArgumentPerigee s))) in
  let theta4 := theta2 * theta2 in
  let temp1 := 3.0 * CK2 * pinvsq * xnodp in
  let temp2 := temp1 * CK2 * pinvsq in
  let temp3 := 1.25 * CK4 * pinvsq * pinvsq * xnodp in
  let xmdot := xnodp + 0.5 * temp1 * betao *
               x3thm1 + 0.0625 * temp2 * betao *
               (13.0 - 78.0 * theta2 + 137.0 * theta4) in
  let x1m5th := 1.0 - 5.0 * theta2 in
  let omgdot := -0.5 * temp1 * x1m5th +
                0.0625 * temp2 * (7.0 - 114.0 * theta2 + 395.0 * theta4) +
                temp3 * (3.0 - 36.0 * theta2 + 49.0 * theta4) in
  let xhdot1_ := - temp1 * cosio in
  let xnodot := xhdot1_ + (0.5 * temp2 * (4.0 - 19.0 * theta2) + 2.0 * temp3 *
                (3.0 - 7.0 * theta2)) * cosio in
  let xnodcf := 3.5 * betao2 * xhdot1_ * c1 in
  let t2cof := 1.5 * c1 in
  let xlcof :=
    if fabs (cosio + 1.0) >? 1.5e-12
    then 0.125 * a3ovk2 * sinio * (3.0 + 5.0 * cosio) / (1.0 + cosio)
    else 0.125 * a3ovk2 * sinio * (3.0 + 5.0 * cosio) / 1.5e-12 in
  let aycof := 0.25 * a3ovk2 * sinio in
  let x7thm1 := 7.0 * theta2 - 1.0 in
  ({| i_cosio_ := cosio; i_sinio_ := sinio; i_eta_ := eta; i_t2cof_ := t2cof;
      i_a3ovk2_ := a3ovk2; i_x1mth2_ := x1mth2; i_x3thm1_ := x3thm1;
      i_x7thm1_ := x7thm1; i_aycof_ := aycof; i_xlcof_ := xlcof;
      i_xnodcf_ := xnodcf; i_c1_ := c1; i_c4_ := c4; i_omgdot_ := omgdot;
      i_xnodot_ := xnodot; i_xmdot_ := xmdot |},
   {| l_s4 := s4; l_tsi := tsi; l_etasq := etasq; l_eeta := eeta;
      l_coef := coef; l_coef1 := coef1 |}).

(** Lines 209-239: the near-space members, from the members [ic] and the
    locals [l] that "generate constants" left. *)
Definition near_space_constants (s : SGP4) (ic : InitConsts) (l : InitLocals)
  (betao2 : double) (use_simple_model : bool) : NearConsts :=
  let aodp := RecoveredSemiMajorAxis s in
  let xnodp := RecoveredMeanMotion s in
  let eo := Eccentricity s in
  let s4 := l_s4 l in
  let tsi := l_tsi l in
  let etasq := l_etasq l in
  let eeta := l_eeta l in
  let coef := l_coef l in
  let coef1 := l_coef1 l in
  let c1 := i_c1_ ic in
  let c3 :=
    if eo >? 1.0e-4
    then coef * tsi * i_a3ovk2_ ic * xnodp * AE * i_sinio_ ic / eo
    else 0.0 in
  let c5 := 2.0 * coef1 * aodp * betao2 * (1.0 + 2.75 *
            (etasq + eeta) + eeta * etasq) in
  let omgcof := BStar s * c3 * cos (ArgumentPerigee s) in
  let xmcof :=
    if eo >? 1.0e-4
    then - TWOTHIRD * coef * BStar s * AE / eeta
    else 0.0 in
  let delmo := pow (1.0 + i_eta_ ic * (cos (MeanAnomoly s))) 3.0 in
  let sinmo := sin (MeanAnomoly s) in
  if negb use_simple_model then
    let c1sq := c1 * c1 in
    let d2 := 4.0 * aodp * tsi * c1sq in
    let temp := d2 * tsi * c1 / 3.0 in
    let d3 := (17.0 * aodp + s4) * temp in
    let d4 := 0.5 * temp * aodp *
              tsi * (221.0 * aodp + 31.0 * s4) * c1 in
    let t3cof := d2 + 2.0 * c1sq in
    let t4cof := 0.25 * (3.0 * d3 + c1 *
                 (12.0 * d2 + 10.0 * c1sq)) in
    let t5cof := 0.2 * (3.0 * d4 + 12.0 * c1 *
                 d3 + 6.0 * d2 * d2 + 15.0 *
                 c1sq * (2.0 * d2 + c1sq)) in
    {| n_c5_ := c5; n_omgcof_ := omgcof; n_xmcof_ := xmcof;
       n_delmo_ := delmo; n_sinmo_ := sinmo;
       n_d2_ := d2; n_d3_ := d3; n_d4_ := d4;
       n_t3cof_ := t3cof; n_t4cof_ := t4cof; n_t5cof_ := t5cof |}
  else
    {| n_c5_ := c5; n_omgcof_ := omgcof; n_xmcof_ := xmcof;
       n_delmo_ := delmo; n_sinmo_ := sinmo;
       n_d2_ := n_d2_ (near s); n_d3_ := n_d3_ (near s);
       n_d4_ := n_d4_ (near s);
       n_t3cof_ := n_t3cof_ (near s); n_t4cof_ := n_t4cof_ (near s);
       n_t5cof_ := n_t5cof_ (near s) |}.

Definition set_initialized (s : SGP4) (use_simple_model use_deep_space : bool)
  (ic : InitConsts) (nc : NearConsts) (gsto : double) : SGP4 :=
  {| first_run_ := first_run_ s;
     i_use_simple_model_ := use_simple_model;
     i_use_deep_space_ := use_deep_space;
     init := ic; near := nc;
     d_gsto_ := gsto; d_zmol_ := d_zmol_ s; d_zmos_ := d_zmos_ s;
     d_resonance_flag_ := d_resonance_flag_ s;
     d_synchronous_flag_ := d_synchronous_flag_ s;
     secular := secular s; periodic := periodic s; resonance := resonance s;
     d_xfact_ := d_xfact_ s; d_xlamo_ := d_xlamo_ s;
     integ := integ s;
     d_xndot_0_ := d_xndot_0_ s; d_xnddt_0_ := d_xnddt_0_ s;
     d_xldot_0_ := d_xldot_0_ s;
     elems := elems s |}.

Definition Initialize (s : SGP4) (theta2 betao2 betao eosq : double) : SGP4 :=
  let use_deep_space := Period s >=? 225.0 in
  (* for perigee less than 220 kilometers, the simple_model flag is set *)
  let use_simple_model :=
    if use_deep_space then i_use_simple_model_ s else Perigee s <? 220.0 in
  (* for perigee below 156km, the values of s4 and qoms2t are altered *)
  let sq := select_s4_qoms24 (Perigee s) in
  (* generate constants *)
  let g := generate_constants s theta2 betao2 betao eosq (fst sq) (snd sq) in
  let ic := fst g in
  let s2 :=
    if use_deep_space then
      DeepSpaceInitialize
        (set_initialized s use_simple_model use_deep_space ic (near s)
           (ToGreenwichSiderealTime (Epoch s)))
        eosq (i_sinio_ ic) (i_cosio_ ic) betao theta2 betao2
        (i_xmdot_ ic) (i_omgdot_ ic) (i_xnodot_ ic)
    else
      set_initialized s use_simple_model use_deep_space ic
        (near_space_constants s ic (snd g) betao2 use_simple_model)
        (d_gsto_ s)
  in
  set_first_run s2 false.

(** ** [SetTle] ([SGP4.cpp], lines 52-114) *)

(** What lines 62-111 compute: the element members, the members
    [i_cosio_], [i_sinio_], [i_x3thm1_] and the arguments of [Initialize]. *)
Record Recovered : Type := {
  r_elems : Elements;
  r_cosio : double;
  r_sinio : double;
  r_x3thm1 : double;
  r_theta2 : double;
  r_betao2 : double;
  r_betao : double;
  r_eosq : double
}.

(** Lines 62-69 and 86-111. *)
Definition recover_elements (tle : Tle) : Recovered :=
  (* extract and format tle data *)
  let mean_anomoly := tle_MeanAnomaly tle in
  let ascending_node := tle_RightAscendingNode tle in
  let argument_perigee := tle_ArgumentPerigee tle in
  let eccentricity := tle_Eccentricity tle in
  let inclination := tle_Inclination tle in
  let mean_motion := tle_MeanMotion tle * TWOPI / MIN_PER_DAY in
  let bstar := tle_BStar tle in
  let epoch := tle_Epoch tle in
  (* recover original mean motion (xnodp) and semimajor axis (aodp) *)
  let a1 := pow (XKE / mean_motion) TWOTHIRD in
  let cosio := cos inclination in
  let sinio := sin inclination in
  let theta2 := cosio * cosio in
  let x3thm1 := 3.0 * theta2 - 1.0 in
  let eosq := eccentricity * eccentricity in
  let betao2 := 1.0 - eosq in
  let betao := sqrt betao2 in
  let temp := (1.5 * CK2) * x3thm1 / (betao * betao2) in
  let del1 := temp / (a1 * a1) in
  let a0 := a1 * (1.0 - del1 * (1.0 / 3.0 + del1 * (1.0 + del1 * 134.0 / 81.0))) in
  let del0 := temp / (a0 * a0) in
  let recovered_mean_motion := mean_motion / (1.0 + del0) in
  let recovered_semi_major_axis := a0 / (1.0 - del0) in
  (* find perigee and period *)
  let perigee := (recovered_semi_major_axis * (1.0 - eccentricity) - AE) * XKMPER in
  let period := TWOPI / recovered_mean_motion in
  {| r_elems :=
       {| mean_anomoly_ := mean_anomoly;
          ascending_node_ := ascending_node;
          argument_perigee_ := argument_perigee;
          eccentricity_ := eccentricity;
          inclination_ := inclination;
          mean_motion_ := mean_motion;
          bstar_ := bstar;
          recovered_semi_major_axis_ := recovered_semi_major_axis;
          recovered_mean_motion_ := recovered_mean_motion;
          perigee_ := perigee;
          period_ := period;
          epoch_ := epoch |};
     r_cosio := cosio; r_sinio := sinio; r_x3thm1 := x3thm1;
     r_theta2 := theta2; r_betao2 := betao2; r_betao := betao;
     r_eosq := eosq |}.

(** Lines 57-69 and 82-113: [ResetGlobalVariables], the members set from
    the element set, and the call of [Initialize]. *)
Definition recover_and_initialize (tle : Tle) : SGP4 :=
  (* reset all constants etc *)
  let s := ResetGlobalVariables in
  let r := recover_elements tle in
  let ic0 := init s in
  let s' :=
    {| first_run_ := first_run_ s;
       i_use_simple_model_ := i_use_simple_model_ s;
       i_use_deep_space_ := i_use_deep_space_ s;
       init :=
         {| i_cosio_ := r_cosio r; i_sinio_ := r_sinio r; i_eta_ := i_eta_ ic0;
            i_t2cof_ := i_t2cof_ ic0; i_a3ovk2_ := i_a3ovk2_ ic0;
            i_x1mth2_ := i_x1mth2_ ic0; i_x3thm1_ := r_x3thm1 r;
            i_x7thm1_ := i_x7thm1_ ic0; i_aycof_ := i_aycof_ ic0;
            i_xlcof_ := i_xlcof_ ic0; i_xnodcf_ := i_xnodcf_ ic0;
            i_c1_ := i_c1_ ic0; i_c4_ := i_c4_ ic0;
            i_omgdot_ := i_omgdot_ ic0; i_xnodot_ := i_xnodot_ ic0;
            i_xmdot_ := i_xmdot_ ic0 |};
       near := near s;
       d_gsto_ := d_gsto_ s; d_zmol_ := d_zmol_ s; d_zmos_ := d_zmos_ s;
       d_resonance_flag_ := d_resonance_flag_ s;
       d_synchronous_flag_ := d_synchronous_flag_ s;
       secular := secular s; periodic := periodic s; resonance := resonance s;
       d_xfact_ := d_xfact_ s; d_xlamo_ := d_xlamo_ s;
       integ := integ s;
       d_xndot_0_ := d_xndot_0_ s; d_xnddt_0_ := d_xnddt_0_ s;
       d_xldot_0_ := d_xldot_0_ s;
       elems := r_elems r |} in
  Initialize s' (r_theta2 r) (r_betao2 r) (r_betao r) (r_eosq r).

Definition SetTle (tle : Tle) : result SGP4 :=
  let eccentricity := tle_Eccentricity tle in
  let inclination := tle_Inclination tle in
  (* error checks, lines 74-80 *)
  if (eccentricity <? 0.0) || (eccentricity >? 1.0 - 1.0e-3) then
    Throw "Eccentricity out of range"
  else if (inclination <? 0.0) || (eccentricity >? PI) then
    Throw "Inclination out of range"
  else
    Ok (recover_and_initialize tle).

(** ** [CalculateFinalPositionVelocity] ([SGP4.cpp], lines 448-603) *)

(** The variables the Newton-Raphson loop (lines 481-530) reads and writes. *)
Record Kepler : Type := {
  epw : double;
  sinepw : double;
  cosepw : double;
  ecose : double;
  esine : double;
  kepler_running : bool
}.

(** The residual [f] of line 501 at the eccentric anomaly [x]. *)
Definition kepler_f (capu axn ayn x : double) : double :=
  let sinepw := sin x in
  let cosepw := cos x in
  let esine := axn * sinepw - ayn * cosepw in
  capu - x + esine.

(** The loop body, lines 496-529, at loop counter [i]. *)
Definition kepler_body (capu axn ayn max_newton_naphson : double)
  (i : nat) (k : Kepler) : Kepler :=
  let sinepw := sin (epw k) in
  let cosepw := cos (epw k) in
  let ecose := axn * cosepw + ayn * sinepw in
  let esine := axn * sinepw - ayn * cosepw in
  let f := capu - epw k + esine in
  if fabs f <? 1.0e-12 then
    {| epw := epw k; sinepw := sinepw; cosepw := cosepw; ecose := ecose;
       esine := esine; kepler_running := false |}
  else
    (* 1st order Newton-Raphson correction *)
    let fdot := 1.0 - ecose in
    let delta_epw := f / fdot in
    (* 2nd order Newton-Raphson correction *)
    let delta_epw :=
      match i with
      | O =>
          if delta_epw >? max_newton_naphson then max_newton_naphson
          else if delta_epw <? - max_newton_naphson then - max_newton_naphson
          else delta_epw
      | _ => f / (fdot + 0.5 * esine * delta_epw)
      end in
    {| epw := epw k + delta_epw; sinepw := sinepw; cosepw := cosepw;
       ecose := ecose; esine := esine; kepler_running := kepler_running k |}.

(** [for (int i = 0; i < 10 && kepler_running; i++)]: [n] is [10 - i], the
    number of passes the bound [i < 10] still allows; the result is the
    final value of [i] with the final variables. *)
Fixpoint kepler_loop (capu axn ayn max_newton_naphson : double)
  (n i : nat) (k : Kepler) : nat * Kepler :=
  match n with
  | O => (i, k)
  | Datatypes.S n' =>
      if kepler_running k
      then kepler_loop capu axn ayn max_newton_naphson n' (Datatypes.S i)
             (kepler_body capu axn ayn max_newton_naphson i k)
      else (i, k)
  end.

(** The variables of the loop on entry, lines 481-493. *)
Definition kepler_start (capu : double) : Kepler :=
  {| epw := capu; sinepw := 0.0; cosepw := 0.0; ecose := 0.0; esine := 0.0;
     kepler_running := true |}.

(** Lines 481-530: the solution of Kepler's equation. *)
Definition solve_kepler (capu axn ayn elsq : double) : nat * Kepler :=
  let max_newton_naphson := 1.25 * fabs (sqrt elsq) in
  kepler_loop capu axn ayn max_newton_naphson 10 0 (kepler_start capu).

Definition CalculateFinalPositionVelocity (s : SGP4) (tsince e a omega xl xnode
  xincl xlcof aycof x3thm1 x1mth2 x7thm1 cosio sinio : double) : result Eci :=
  let beta := sqrt (1.0 - e * e) in
  let xn := XKE / pow a 1.5 in
  (* long period periodics *)
  let axn := e * cos omega in
  let temp := 1.0 / (a * beta * beta) in
  let xll := temp * xlcof * axn in
  let aynl := temp * aycof in
  let xlt := xl + xll in
  let ayn := e * sin omega + aynl in
  let elsq := axn * axn + ayn * ayn in
  (* solve keplers equation *)
  let capu := fmod (xlt - xnode) TWOPI in
  let k := snd (solve_kepler capu axn ayn elsq) in
  (* short period preliminary quantities *)
  let temp := 1.0 - elsq in
  let pl := a * temp in
  if pl <? 0.0 then Throw "Error: #4 (pl < 0.0)" else
  let r := a * (1.0 - ecose k) in
  let temp1 := 1.0 / r in
  let rdot := XKE * sqrt a * esine k * temp1 in
  let rfdot := XKE * sqrt pl * temp1 in
  let temp2 := a * temp1 in
  let betal := sqrt temp in
  let temp3 := 1.0 / (1.0 + betal) in
  let cosu := temp2 * (cosepw k - axn + ayn * esine k * temp3) in
  let sinu := temp2 * (sinepw k - ayn - axn * esine k * temp3) in
  let u := atan2 sinu cosu in
  let sin2u := 2.0 * sinu * cosu in
  let cos2u := 2.0 * cosu * cosu - 1.0 in
  let temp := 1.0 / pl in
  let temp1 := CK2 * temp in
  let temp2 := temp1 * temp in
  (* update for short periodics *)
  let rk := r * (1.0 - 1.5 * temp2 * betal * x3thm1) + 0.5 * temp1 * x1mth2 * cos2u in
  let uk := u - 0.25 * temp2 * x7thm1 * sin2u in
  let xnodek := xnode + 1.5 * temp2 * cosio * sin2u in
  let xinck := xincl + 1.5 * temp2 * cosio * sinio * cos2u in
  let rdotk := rdot - xn * temp1 * x1mth2 * sin2u in
  let rfdotk := rfdot + xn * temp1 * (x1mth2 * cos2u + 1.5 * x3thm1) in
  if rk <? 1.0 then Throw "Error: #6 Satellite decayed (rk < 1.0)" else
  (* orientation vectors *)
  let sinuk := sin uk in
  let cosuk := cos uk in
  let sinik := sin xinck in
  let cosik := cos xinck in
  let sinnok := sin xnodek in
  let cosnok := cos xnodek in
  let xmx := - sinnok * cosik in
  let xmy := cosnok * cosik in
  let ux := xmx * sinuk + cosnok * cosuk in
  let uy := xmy * sinuk + sinnok * cosuk in
  let uz := sinik * sinuk in
  let vx := xmx * cosuk - cosnok * sinuk in
  let vy := xmy * cosuk - sinnok * sinuk in
  let vz := sinik * cosuk in
  (* position and velocity *)
  let x := rk * ux * XKMPER in
  let y := rk * uy * XKMPER in
  let z := rk * uz * XKMPER in
  let position := {| vec_x := x; vec_y := y; vec_z := z |} in
  let xdot := (rdotk * ux + rfdotk * vx) * XKMPER / 60.0 in
  let ydot := (rdotk * uy + rfdotk * vy) * XKMPER / 60.0 in
  let zdot := (rdotk * uz + rfdotk * vz) * XKMPER / 60.0 in
  let velocity := {| vec_x := xdot; vec_y := ydot; vec_z := zdot |} in
  let julian := AddMin (Epoch s) tsince in
  Ok {| eci_date := julian; eci_position := position; eci_velocity := velocity |}.

(** ** [DeepSpaceCalculateLunarSolarTerms] ([SGP4.cpp], lines 940-988) *)

(** Lines 951-953: the solar mean argument [zm]. *)
Definition solar_zm (s : SGP4) (t : double) : double :=
  let ZNS := 1.19459E-5 in
  let zm := d_zmos_ s + ZNS * t in
  if first_run_ s then d_zmos_ s else zm.

(** Lines 967-969: the lunar mean argument [zm]. *)
Definition lunar_zm (s : SGP4) (t : double) : double :=
  let ZNL := 1.5835218E-4 in
  let zm := d_zmol_ s + ZNL * t in
  if first_run_ s then d_zmol_ s else zm.

(** The reference parameters are returned as [(pe, pinc, pl, pgh, ph)]. *)
Definition DeepSpaceCalculateLunarSolarTerms (s : SGP4) (t : double)
  : double * double * double * double * double :=
  let ZES := 0.01675 in
  let ZEL := 0.05490 in
  let p := periodic s in
  (* calculate solar terms for time t *)
  let zm := solar_zm s t in
  let zf := zm + 2.0 * ZES * sin zm in
  let sinzf := sin zf in
  let f2 := 0.5 * sinzf * sinzf - 0.25 in
  let f3 := -0.5 * sinzf * cos zf in
  let ses := d_se2_ p * f2 + d_se3_ p * f3 in
  let sis := d_si2_ p * f2 + d_si3_ p * f3 in
  let sls := d_sl2_ p * f2 + d_sl3_ p * f3 + d_sl4_ p * sinzf in
  let sghs := d_sgh2_ p * f2 + d_sgh3_ p * f3 + d_sgh4_ p * sinzf in
  let shs := d_sh2_ p * f2 + d_sh3_ p * f3 in
  (* calculate lunar terms for time t *)
  let zm := lunar_zm s t in
  let zf := zm + 2.0 * ZEL * sin zm in
  let sinzf := sin zf in
  let f2 := 0.5 * sinzf * sinzf - 0.25 in
  let f3 := -0.5 * sinzf * cos zf in
  let sel := d_ee2_ p * f2 + d_e3_ p * f3 in
  let sil := d_xi2_ p * f2 + d_xi3_ p * f3 in
  let sll := d_xl2_ p * f2 + d_xl3_ p * f3 + d_xl4_ p * sinzf in
  let sghl := d_xgh2_ p * f2 + d_xgh3_ p * f3 + d_xgh4_ p * sinzf in
  let shl := d_xh2_ p * f2 + d_xh3_ p * f3 in
  (* merge calculated values *)
  (ses + sel, sis + sil, sls + sll, sghs + sghl, shs + shl).

(** ** [DeepSpacePeriodics] ([SGP4.cpp], lines 993-1083)

    The reference parameters are returned as
    [(em, xinc, omgasm, xnodes, xll)]. *)
Definition DeepSpacePeriodics (s : SGP4) (t em xinc omgasm xnodes xll : double)
  : double * double * double * double * double :=
  let '(pe, pinc, pl, pgh, ph) := DeepSpaceCalculateLunarSolarTerms s t in
  if negb (first_run_ s) then
    let xinc := xinc + pinc in
    let em := em + pe in
    let sinis := sin xinc in
    let cosis := cos xinc in
    if xinc >=? 0.2 then
      (* apply periodics directly *)
      let tmp_ph := ph / sinis in
      let omgasm := omgasm + (pgh - cosis * tmp_ph) in
      let xnodes := xnodes + tmp_ph in
      let xll := xll + pl in
      (em, xinc, omgasm, xnodes, xll)
    else
      (* apply periodics with lyddane modification *)
      let sinok := sin xnodes in
      let cosok := cos xnodes in
      let alfdp := sinis * sinok in
      let betdp := sinis * cosok in
      let dalf := ph * cosok + pinc * cosis * sinok in
      let dbet := - ph * sinok + pinc * cosis * cosok in
      let alfdp := alfdp + dalf in
      let betdp := betdp + dbet in
      let xnodes := fmod xnodes TWOPI in
      let xnodes := if xnodes <? 0.0 then xnodes + TWOPI else xnodes in
      let xls := xll + omgasm + cosis * xnodes in
      let dls := pl + pgh - pinc * xnodes * sinis in
      let xls := xls + dls in
      (* save old xnodes value *)
      let oldxnodes := xnodes in
      let xnodes := atan2 alfdp betdp in
      let xnodes := if xnodes <? 0.0 then xnodes + TWOPI else xnodes in
      (* get perturbed xnodes in to same quadrant as original *)
      let xnodes :=
        if fabs (oldxnodes - xnodes) >? PI then
          if xnodes <? oldxnodes then xnodes + TWOPI else xnodes - TWOPI
        else xnodes in
      let xll := xll + pl in
      let omgasm := xls - xll - cosis * xnodes in
      (em, xinc, omgasm, xnodes, xll)
  else (em, xinc, omgasm, xnodes, xll).

(** ** [DeepSpaceSecular] ([SGP4.cpp], lines 1088-1168) *)

Definition STEP : double := 720.0.
Definition STEP2 : double := 259200.0.

(** The condition of lines 1108-1110. *)
Definition restart_condition (s : SGP4) (t : double) : bool :=
  (fabs t <? STEP) ||
  (t * d_atime_ (integ s) <=? 0.0) ||
  (fabs t <? fabs (d_atime_ (integ s))).

(** Lines 1114-1123: restart from epoch. *)
Definition restart_from_epoch (s : SGP4) : SGP4 :=
  set_integ s
    {| d_xli_ := d_xlamo_ s;
       d_xni_ := RecoveredMeanMotion s;
       d_atime_ := 0.0;
       d_xndot_t_ := d_xndot_0_ s;
       d_xnddt_t_ := d_xnddt_0_ s;
       d_xldot_t_ := d_xldot_0_ s |}.

(** One pass of the body of the [do ... while] loop, lines 1146-1151. *)
Definition integrator_step (delt : double) (s : SGP4) : SGP4 :=
  let s1 := DeepSpaceIntegrator delt STEP2
              (d_xndot_t_ (integ s)) (d_xnddt_t_ (integ s)) (d_xldot_t_ (integ s))
              s in
  set_integ s1 (set_dot_t (integ s1) (DeepSpaceCalcDotTerms s1)).

(** [do { ... ft = t - d_atime_; } while (fabs(ft) >= STEP)], lines
    1142-1154, with a bound [fuel] on the number of passes: [None] when the
    bound is reached with the loop condition still true. *)
Fixpoint integrator_loop (fuel : nat) (t delt : double) (s : SGP4) : option SGP4 :=
  match fuel with
  | O => None
  | Datatypes.S fuel' =>
      let s' := integrator_step delt s in
      let ft := t - d_atime_ (integ s') in
      if fabs ft >=? STEP then integrator_loop fuel' t delt s' else Some s'
  end.

(** A number of passes that is enough for the loop entered with time
    difference [ft] (lemma [integrator_loop_passes]). *)
Definition integrator_fuel (ft : double) : nat :=
  Datatypes.S (Z.to_nat (Qfloor (fabs ft / STEP))).

(** Lines 1126-1155: the integration from the current integrator state up
    to within one step of [t]; the object state on leaving the loop. *)
Definition advance_integrator (s : SGP4) (t : double) : SGP4 :=
  let ft := t - d_atime_ (integ s) in
  if fabs ft >=? STEP then
    let delt := if ft >=? 0.0 then STEP else - STEP in
    match integrator_loop (integrator_fuel ft) t delt s with
    | Some s' => s'
    | None => s
    end
  else s.

(** Lines 1108-1155: the restart test, then the integration. *)
Definition integrate_to (s : SGP4) (t : double) : SGP4 :=
  advance_integrator
    (if restart_condition s t then restart_from_epoch s else s) t.

(** The reference parameters are returned as
    [(xll, omgasm, xnodes, em, xinc, xn)], next to the object state. *)
Definition DeepSpaceSecular (s : SGP4) (t xll omgasm xnodes em xinc xn : double)
  : SGP4 * (double * double * double * double * double * double) :=
  let xll := xll + d_ssl_ (secular s) * t in
  let omgasm := omgasm + d_ssg_ (secular s) * t in
  let xnodes := xnodes + d_ssh_ (secular s) * t in
  let em := em + d_sse_ (secular s) * t in
  let xinc := xinc + d_ssi_ (secular s) * t in
  if negb (d_resonance_flag_ s) then
    (s, (xll, omgasm, xnodes, em, xinc, xn))
  else
    let s := integrate_to s t in
    let ig := integ s in
    let ft := t - d_atime_ ig in
    (* integrator *)
    let xn := d_xni_ ig + d_xndot_t_ ig * ft + d_xnddt_t_ ig * ft * ft * 0.5 in
    let xl := d_xli_ ig + d_xldot_t_ ig * ft + d_xndot_t_ ig * ft * ft * 0.5 in
    let temp := - xnodes + d_gsto_ s + t * THDT in
    let xll :=
      if d_synchronous_flag_ s
      then xl + temp - omgasm
      else xl + temp + temp in
    (s, (xll, omgasm, xnodes, em, xinc, xn)).

(** ** [FindPositionSDP4] and [FindPositionSGP4] *)

(** Lines 301-308 of [FindPositionSDP4] and, word for word, lines 427-434 of
    [FindPositionSGP4]: "fix tolerance for error recognition" and "fix
    tolerance to avoid a divide by zero"; the value is the new [e]. *)
Definition check_eccentricity (e : double) : result double :=
  if (e >=? 1.0) || (e <? -0.001) then
    Throw "Error: #1 (e >= 1.0 || e < -0.001)"
  else
    Ok (if e <? 1.0e-6 then 1.0e-6 else e).

(** The arguments handed to [CalculateFinalPositionVelocity]. *)
Record KeplerInput : Type := {
  k_e : double; k_a : double; k_omega : double; k_xl : double;
  k_xnode : double; k_xincl : double; k_xlcof : double; k_aycof : double;
  k_x3thm1 : double; k_x1mth2 : double; k_x7thm1 : double;
  k_cosio : double; k_sinio : double
}.

Definition call_CalculateFinalPositionVelocity (s : SGP4) (tsince : double)
  (k : KeplerInput) : result Eci :=
  CalculateFinalPositionVelocity s tsince (k_e k) (k_a k) (k_omega k) (k_xl k)
    (k_xnode k) (k_xincl k) (k_xlcof k) (k_aycof k)
    (k_x3thm1 k) (k_x1mth2 k) (k_x7thm1 k) (k_cosio k) (k_sinio k).

(** [FindPositionSDP4], lines 275-289: the secular update, with the
    integrator run of [DeepSpaceSecular]; the value is the object state and
    [(xmdf, omgadf, xnode, e, xincl, xn)] with [(tempa, tempe, templ)]. *)
Definition sdp4_secular (s : SGP4) (tsince : double)
  : SGP4 * (double * double * double * double * double * double)
         * (double * double * double) :=
  let xmdf := MeanAnomoly s + i_xmdot_ (init s) * tsince in
  let omgadf := ArgumentPerigee s + i_omgdot_ (init s) * tsince in
  let xnoddf := AscendingNode s + i_xnodot_ (init s) * tsince in
  let tsq := tsince * tsince in
  let xnode := xnoddf + i_xnodcf_ (init s) * tsq in
  let tempa := 1.0 - i_c1_ (init s) * tsince in
  let tempe := BStar s * i_c4_ (init s) * tsince in
  let templ := i_t2cof_ (init s) * tsq in
  let xn := RecoveredMeanMotion s in
  let e := Eccentricity s in
  let xincl := Inclination s in
  (DeepSpaceSecular s tsince xmdf omgadf xnode e xincl xn, (tempa, tempe, templ)).

(** [FindPositionSDP4], lines 291-321: the value of [e] after
    [DeepSpacePeriodics], with the other perturbed elements
    [(e, xincl, omgadf, xnode, xmam)] and the semi-major axis [a]. *)
Definition sdp4_periodics (s : SGP4) (tsince : double)
  : result (double * double * double * double * double * double) :=
  let '(_, (xmdf, omgadf, xnode, e, xincl, xn), (tempa, tempe, templ)) :=
    sdp4_secular s tsince in
  if xn <=? 0.0 then Throw "Error: #2 (xn <= 0.0)" else
  let a := pow (XKE / xn) TWOTHIRD * pow tempa 2.0 in
  let e := e - tempe in
  do e <- check_eccentricity e;
  let xmam := xmdf + RecoveredMeanMotion s * templ in
  let '(e, xincl, omgadf, xnode, xmam) :=
    DeepSpacePeriodics s tsince e xincl omgadf xnode xmam in
  Ok (e, xincl, omgadf, xnode, xmam, a).

(** [FindPositionSDP4], lines 323-358: what is handed to the Kepler stage. *)
Definition sdp4_kepler_input (s : SGP4) (tsince : double) : result KeplerInput :=
  do (e, xincl, omgadf, xnode, xmam, a) <- sdp4_periodics s tsince;
  (* keeping xincl positive *)
  let '(xincl, xnode, omgadf) :=
    if xincl <? 0.0 then (- xincl, xnode + PI, omgadf - PI)
    else (xincl, xnode, omgadf) in
  let xl := xmam + omgadf + xnode in
  let omega := omgadf in
  if (e <? 0.0) || (e >? 1.0) then Throw "Error: #3 (e < 0.0 || e > 1.0)" else
  (* re-compute the perturbed values *)
  let perturbed_sinio := sin xincl in
  let perturbed_cosio := cos xincl in
  let perturbed_theta2 := perturbed_cosio * perturbed_cosio in
  let perturbed_x3thm1 := 3.0 * perturbed_theta2 - 1.0 in
  let perturbed_x1mth2 := 1.0 - perturbed_theta2 in
  let perturbed_x7thm1 := 7.0 * perturbed_theta2 - 1.0 in
  let perturbed_xlcof :=
    if fabs (perturbed_cosio + 1.0) >? 1.5e-12
    then 0.125 * i_a3ovk2_ (init s) * perturbed_sinio *
         (3.0 + 5.0 * perturbed_cosio) / (1.0 + perturbed_cosio)
    else 0.125 * i_a3ovk2_ (init s) * perturbed_sinio *
         (3.0 + 5.0 * perturbed_cosio) / 1.5e-12 in
  let perturbed_aycof := 0.25 * i_a3ovk2_ (init s) * perturbed_sinio in
  Ok {| k_e := e; k_a := a; k_omega := omega; k_xl := xl; k_xnode := xnode;
        k_xincl := xincl; k_xlcof := perturbed_xlcof; k_aycof := perturbed_aycof;
        k_x3thm1 := perturbed_x3thm1; k_x1mth2 := perturbed_x1mth2;
        k_x7thm1 := perturbed_x7thm1;
        k_cosio := perturbed_cosio; k_sinio := perturbed_sinio |}.

(** [FindPositionSDP4] ([SGP4.cpp], lines 260-369).  The writes to the
    [mutable] members happen in [DeepSpaceSecular], before any [throw]:
    the new object state is returned on every path. *)
Definition FindPositionSDP4 (s : SGP4) (tsince : double) : SGP4 * result Eci :=
  let s' := fst (fst (sdp4_secular s tsince)) in
  (s',
   do k <- sdp4_kepler_input s tsince;
   call_CalculateFinalPositionVelocity s tsince k).

(** [FindPositionSGP4], lines 386-418: the eccentricity after the update
    for secular gravity and atmospheric drag, with the other elements
    [(e, a, omega, xl, xnode, xincl)]. *)
Definition sgp4_secular (s : SGP4) (tsince : double)
  : double * double * double * double * double * double :=
  let xmdf := MeanAnomoly s + i_xmdot_ (init s) * tsince in
  let omgadf := ArgumentPerigee s + i_omgdot_ (init s) * tsince in
  let xnoddf := AscendingNode s + i_xnodot_ (init s) * tsince in
  let tsq := tsince * tsince in
  let xnode := xnoddf + i_xnodcf_ (init s) * tsq in
  let tempa := 1.0 - i_c1_ (init s) * tsince in
  let tempe := BStar s * i_c4_ (init s) * tsince in
  let templ := i_t2cof_ (init s) * tsq in
  let xincl := Inclination s in
  let omega := omgadf in
  let xmp := xmdf in
  let '(xmp, omega, tempa, tempe, templ) :=
    if negb (i_use_simple_model_ s) then
      let delomg := n_omgcof_ (near s) * tsince in
      let delm := n_xmcof_ (near s) *
                  (pow (1.0 + i_eta_ (init s) * cos xmdf) 3.0 - n_delmo_ (near s)) in
      let temp := delomg + delm in
      let xmp := xmp + temp in
      let omega := omega - temp in
      let tcube := tsq * tsince in
      let tfour := tsince * tcube in
      let tempa := tempa - n_d2_ (near s) * tsq - n_d3_ (near s) * tcube
                   - n_d4_ (near s) * tfour in
      let tempe := tempe + BStar s * n_c5_ (near s) * (sin xmp - n_sinmo_ (near s)) in
      let templ := templ + (n_t3cof_ (near s) * tcube +
                   tfour * (n_t4cof_ (near s) + tsince * n_t5cof_ (near s))) in
      (xmp, omega, tempa, tempe, templ)
    else (xmp, omega, tempa, tempe, templ) in
  let a := RecoveredSemiMajorAxis s * pow tempa 2.0 in
  let e := Eccentricity s - tempe in
  let xl := xmp + omega + xnode + RecoveredMeanMotion s * templ in
  (e, a, omega, xl, xnode, xincl).

(** [FindPositionSGP4], lines 420-444: what is handed to the Kepler stage. *)
Definition sgp4_kepler_input (s : SGP4) (tsince : double) : result KeplerInput :=
  let '(e, a, omega, xl, xnode, xincl) := sgp4_secular s tsince in
  if xl <=? 0.0 then Throw "Error: #2 (xl <= 0.0)" else
  do e <- check_eccentricity e;
  Ok {| k_e := e; k_a := a; k_omega := omega; k_xl := xl; k_xnode := xnode;
        k_xincl := xincl; k_xlcof := i_xlcof_ (init s); k_aycof := i_aycof_ (init s);
        k_x3thm1 := i_x3thm1_ (init s); k_x1mth2 := i_x1mth2_ (init s);
        k_x7thm1 := i_x7thm1_ (init s);
        k_cosio := i_cosio_ (init s); k_sinio := i_sinio_ (init s) |}.

(** [FindPositionSGP4] ([SGP4.cpp], lines 371-446). *)
Definition FindPositionSGP4 (s : SGP4) (tsince : double) : SGP4 * result Eci :=
  (s,
   do k <- sgp4_kepler_input s tsince;
   call_CalculateFinalPositionVelocity s tsince k).

(** ** [FindPosition] ([SGP4.cpp], lines 245-258) *)

Definition FindPosition (s : SGP4) (tsince : double) : SGP4 * result Eci :=
  if i_use_deep_space_ s
  then FindPositionSDP4 s tsince
  else FindPositionSGP4 s tsince.

Definition FindPosition_date (s : SGP4) (date : Julian) : SGP4 * result Eci :=
  let tsince := SpanMin date (Epoch s) in
  FindPosition s tsince.

(** The object after a sequence of calls of [FindPosition], whatever each
    call returned or threw. *)
Definition propagate_all (s : SGP4) (ts : list double) : SGP4 :=
  fold_left (fun s t => fst (FindPosition s t)) ts s.

(** ** Names for the intermediate values the properties speak of *)

Definition error_1 : string := "Error: #1 (e >= 1.0 || e < -0.001)".
Definition error_2_xn : string := "Error: #2 (xn <= 0.0)".
Definition error_2_xl : string := "Error: #2 (xl <= 0.0)".
Definition error_3 : string := "Error: #3 (e < 0.0 || e > 1.0)".

(** The eccentricity that [FindPositionSGP4] validates, [e] of line 417,
    and the longitude [xl] tested on line 420. *)
Definition sgp4_e (s : SGP4) (tsince : double) : double :=
  let '(e, _, _, _, _, _) := sgp4_secular s tsince in e.

Definition sgp4_xl (s : SGP4) (tsince : double) : double :=
  let '(_, _, _, xl, _, _) := sgp4_secular s tsince in xl.

(** The eccentricity that [FindPositionSDP4] validates, [e] of line 296,
    and the mean motion [xn] tested on line 291. *)
Definition sdp4_e (s : SGP4) (tsince : double) : double :=
  let '(_, (_, _, _, e, _, _), (_, tempe, _)) := sdp4_secular s tsince in
  e - tempe.

Definition sdp4_xn (s : SGP4) (tsince : double) : double :=
  let '(_, (_, _, _, _, _, xn), _) := sdp4_secular s tsince in xn.




(** The members that only the resonance branches of [DeepSpaceInitialize]
    write are as [ResetGlobalVariables] left them. *)
Definition integrator_untouched (s : SGP4) : Prop :=
  d_resonance_flag_ s = false /\ d_synchronous_flag_ s = false /\
  integ s = zero_integ /\ resonance s = zero_resonance /\
  d_xfact_ s = 0.0 /\ d_xlamo_ s = 0.0 /\
  d_xndot_0_ s = 0.0 /\ d_xnddt_0_ s = 0.0 /\ d_xldot_0_ s = 0.0.

(** The integrator state is [(atime = 0, xli = xlamo, xni = n'')], as
    numbers. *)
Definition integrator_at_epoch (s : SGP4) : Prop :=
  d_atime_ (integ s) == 0 /\
  d_xli_ (integ s) == d_xlamo_ s /\
  d_xni_ (integ s) == RecoveredMeanMotion s.

(** The object [s'] is [s] up to the [mutable] integrator members. *)
Definition same_constants (s s' : SGP4) : Prop :=
  exists ig : Integrator, s' = set_integ s ig.

Definition error_4 : string := "Error: #4 (pl < 0.0)".
Definition error_6 : string := "Error: #6 Satellite decayed (rk < 1.0)".

(** A count of passes, as a double. *)
Definition N2Q (n : nat) : Q := inject_Z (Z.of_nat n).

(** The object after [n] passes of the integrator loop with step [delt]. *)
Fixpoint passes (n : nat) (delt : double) (s : SGP4) : SGP4 :=
  match n with
  | O => s
  | Datatypes.S n' => integrator_step delt (passes n' delt s)
  end.

(** The step of line 1138-1140 for the time difference [ft]. *)
Definition step_toward (ft : double) : double :=
  if ft >=? 0.0 then STEP else - STEP.

(** The integrator states that propagation can leave in an object
    initialized as [s0]: the constants are those of [s0], and either
    [atime] is zero or the state is the one after some number of passes,
    all with the same step, from the epoch values. *)
Definition integrator_reachable (s0 s : SGP4) : Prop :=
  same_constants s0 s /\
  (d_atime_ (integ s) == 0 \/
   exists (k : nat) (delt : double),
     (delt = STEP \/ delt = - STEP) /\
     s = passes k delt (restart_from_epoch s0)).

(** What a cleared [kepler_running] records: the residual at [epw] is
    below the tolerance, and the sine and cosine are those of [epw]. *)
Definition kepler_converged (capu axn ayn : double) (k : Kepler) : Prop :=
  kepler_running k = false ->
  fabs (kepler_f capu axn ayn (epw k)) < 1.0e-12 /\
  sinepw k = sin (epw k) /\ cosepw k = cos (epw k).


(** ** Names for values of the Lyddane branch of [DeepSpacePeriodics] *)

(** The inclination and the node among the values that
    [DeepSpacePeriodics] hands back, [(em, xinc, omgasm, xnodes, xll)]. *)
Definition periodics_xinc (r : double * double * double * double * double)
  : double := snd (fst (fst (fst r))).

Definition periodics_xnodes (r : double * double * double * double * double)
  : double := snd (fst r).

(** [oldxnodes] of line 1061: the node handed in, after lines 1050-1052
    have reduced it to the interval from 0 to 2 pi. *)
Definition lyddane_oldxnodes (xnodes : double) : double :=
  let xnodes := fmod xnodes TWOPI in
  if xnodes <? 0.0 then xnodes + TWOPI else xnodes.

(** [atan2(alfdp, betdp)] of line 1063, from the time, the inclination and
    the node handed in (lines 1008-1048). *)
Definition lyddane_atan2 (s : SGP4) (t xinc xnodes : double) : double :=
  let '(pe, pinc, pl, pgh, ph) := DeepSpaceCalculateLunarSolarTerms s t in
  let xinc := xinc + pinc in
  let sinis := sin xinc in
  let cosis := cos xinc in
  let sinok := sin xnodes in
  let cosok := cos xnodes in
  let alfdp := sinis * sinok in
  let betdp := sinis * cosok in
  let dalf := ph * cosok + pinc * cosis * sinok in
  let dbet := - ph * sinok + pinc * cosis * cosok in
  let alfdp := alfdp + dalf in
  let betdp := betdp + dbet in
  atan2 alfdp betdp.

(** ** Names for the stages of [CalculateFinalPositionVelocity] *)

(** Lines 459-487: the arguments of the Kepler solver,
    [(capu, axn, ayn, elsq)]. *)
Definition kepler_arguments (e a omega xl xnode xlcof aycof : double)
  : double * double * double * double :=
  let beta := sqrt (1.0 - e * e) in
  let axn := e * cos omega in
  let temp := 1.0 / (a * beta * beta) in
  let xll := temp * xlcof * axn in
  let aynl := temp * aycof in
  let xlt := xl + xll in
  let ayn := e * sin omega + aynl in
  let elsq := axn * axn + ayn * ayn in
  let capu := fmod (xlt - xnode) TWOPI in
  (capu, axn, ayn, elsq).

(** [rk] of line 562, from the values [cosepw], [ecose] and [esine] that
    the loop leaves. *)
Definition radius_rk (a axn ayn elsq x3thm1 x1mth2 cosepw ecose esine : double)
  : double :=
  let temp := 1.0 - elsq in
  let pl := a * temp in
  let r := a * (1.0 - ecose) in
  let temp1 := 1.0 / r in
  let temp2 := a * temp1 in
  let betal := sqrt temp in
  let temp3 := 1.0 / (1.0 + betal) in
  let cosu := temp2 * (cosepw - axn + ayn * esine * temp3) in
  let cos2u := 2.0 * cosu * cosu - 1.0 in
  let temp := 1.0 / pl in
  let temp1 := CK2 * temp in
  let temp2 := temp1 * temp in
  r * (1.0 - 1.5 * temp2 * betal * x3thm1) + 0.5 * temp1 * x1mth2 * cos2u.

(** Lines 531-603: what follows the loop, from [xn] of line 460, the
    arguments [axn], [ayn], [elsq] of the solver, and the values [sinepw],
    [cosepw], [ecose], [esine] that the loop leaves.  Neither
    [kepler_running] nor the loop counter is read. *)
Definition short_period_state (s : SGP4) (tsince a xnode xincl
  x3thm1 x1mth2 x7thm1 cosio sinio : double)
  (xn axn ayn elsq : double) (sinepw cosepw ecose esine : double)
  : result Eci :=
  (* short period preliminary quantities *)
  let temp := 1.0 - elsq in
  let pl := a * temp in
  if pl <? 0.0 then Throw "Error: #4 (pl < 0.0)" else
  let r := a * (1.0 - ecose) in
  let temp1 := 1.0 / r in
  let rdot := XKE * sqrt a * esine * temp1 in
  let rfdot := XKE * sqrt pl * temp1 in
  let temp2 := a * temp1 in
  let betal := sqrt temp in
  let temp3 := 1.0 / (1.0 + betal) in
  let cosu := temp2 * (cosepw - axn + ayn * esine * temp3) in
  let sinu := temp2 * (sinepw - ayn - axn * esine * temp3) in
  let u := atan2 sinu cosu in
  let sin2u := 2.0 * sinu * cosu in
  let cos2u := 2.0 * cosu * cosu - 1.0 in
  let temp := 1.0 / pl in
  let temp1 := CK2 * temp in
  let temp2 := temp1 * temp in
  (* update for short periodics *)
  let rk := r * (1.0 - 1.5 * temp2 * betal * x3thm1) + 0.5 * temp1 * x1mth2 * cos2u in
  let uk := u - 0.25 * temp2 * x7thm1 * sin2u in
  let xnodek := xnode + 1.5 * temp2 * cosio * sin2u in
  let xinck := xincl + 1.5 * temp2 * cosio * sinio * cos2u in
  let rdotk := rdot - xn * temp1 * x1mth2 * sin2u in
  let rfdotk := rfdot + xn * temp1 * (x1mth2 * cos2u + 1.5 * x3thm1) in
  if rk <? 1.0 then Throw "Error: #6 Satellite decayed (rk < 1.0)" else
  (* orientation vectors *)
  let sinuk := sin uk in
  let cosuk := cos uk in
  let sinik := sin xinck in
  let cosik := cos xinck in
  let sinnok := sin xnodek in
  let cosnok := cos xnodek in
  let xmx := - sinnok * cosik in
  let xmy := cosnok * cosik in
  let ux := xmx * sinuk + cosnok * cosuk in
  let uy := xmy * sinuk + sinnok * cosuk in
  let uz := sinik * sinuk in
  let vx := xmx * cosuk - cosnok * sinuk in
  let vy := xmy * cosuk - sinnok * sinuk in
  let vz := sinik * cosuk in
  (* position and velocity *)
  let x := rk * ux * XKMPER in
  let y := rk * uy * XKMPER in
  let z := rk * uz * XKMPER in
  let position := {| vec_x := x; vec_y := y; vec_z := z |} in
  let xdot := (rdotk * ux + rfdotk * vx) * XKMPER / 60.0 in
  let ydot := (rdotk * uy + rfdotk * vy) * XKMPER / 60.0 in
  let zdot := (rdotk * uz + rfdotk * vz) * XKMPER / 60.0 in
  let velocity := {| vec_x := xdot; vec_y := ydot; vec_z := zdot |} in
  let julian := AddMin (Epoch s) tsince in
  Ok {| eci_date := julian; eci_position := position; eci_velocity := velocity |}.

(** ** Names for the stages of the lunar / solar periodics *)

(** Lines 954-961 and 970-977 of [DeepSpaceCalculateLunarSolarTerms], with
    the merge of lines 982-986: the five terms [(pe, pinc, pl, pgh, ph)]
    from the solar and the lunar mean argument [zm]. *)
Definition periodic_terms_at (p : PeriodicConsts) (zms zml : double)
  : double * double * double * double * double :=
  let ZES := 0.01675 in
  let ZEL := 0.05490 in
  (* solar terms *)
  let zf := zms + 2.0 * ZES * sin zms in
  let sinzf := sin zf in
  let f2 := 0.5 * sinzf * sinzf - 0.25 in
  let f3 := -0.5 * sinzf * cos zf in
  let ses := d_se2_ p * f2 + d_se3_ p * f3 in
  let sis := d_si2_ p * f2 + d_si3_ p * f3 in
  let sls := d_sl2_ p * f2 + d_sl3_ p * f3 + d_sl4_ p * sinzf in
  let sghs := d_sgh2_ p * f2 + d_sgh3_ p * f3 + d_sgh4_ p * sinzf in
  let shs := d_sh2_ p * f2 + d_sh3_ p * f3 in
  (* lunar terms *)
  let zf := zml + 2.0 * ZEL * sin zml in
  let sinzf := sin zf in
  let f2 := 0.5 * sinzf * sinzf - 0.25 in
  let f3 := -0.5 * sinzf * cos zf in
  let sel := d_ee2_ p * f2 + d_e3_ p * f3 in
  let sil := d_xi2_ p * f2 + d_xi3_ p * f3 in
  let sll := d_xl2_ p * f2 + d_xl3_ p * f3 + d_xl4_ p * sinzf in
  let sghl := d_xgh2_ p * f2 + d_xgh3_ p * f3 + d_xgh4_ p * sinzf in
  let shl := d_xh2_ p * f2 + d_xh3_ p * f3 in
  (ses + sel, sis + sil, sls + sll, sghs + sghl, shs + shl).

(** Lines 1016-1081 of [DeepSpacePeriodics], the block under
    [if (!first_run_)]: the elements [(em, xinc, omgasm, xnodes, xll)] with
    the terms [(pe, pinc, pl, pgh, ph)] applied to them. *)
Definition apply_periodics (terms : double * double * double * double * double)
  (em xinc omgasm xnodes xll : double)
  : double * double * double * double * double :=
  let '(pe, pinc, pl, pgh, ph) := terms in
  let xinc := xinc + pinc in
  let em := em + pe in
  let sinis := sin xinc in
  let cosis := cos xinc in
  if xinc >=? 0.2 then
    (* apply periodics directly *)
    let tmp_ph := ph / sinis in
    let omgasm := omgasm + (pgh - cosis * tmp_ph) in
    let xnodes := xnodes + tmp_ph in
    let xll := xll + pl in
    (em, xinc, omgasm, xnodes, xll)
  else
    (* apply periodics with lyddane modification *)
    let sinok := sin xnodes in
    let cosok := cos xnodes in
    let alfdp := sinis * sinok in
    let betdp := sinis * cosok in
    let dalf := ph * cosok + pinc * cosis * sinok in
    let dbet := - ph * sinok + pinc * cosis * cosok in
    let alfdp := alfdp + dalf in
    let betdp := betdp + dbet in
    let xnodes := fmod xnodes TWOPI in
    let xnodes := if xnodes <? 0.0 then xnodes + TWOPI else xnodes in
    let xls := xll + omgasm + cosis * xnodes in
    let dls := pl + pgh - pinc * xnodes * sinis in
    let xls := xls + dls in
    (* save old xnodes value *)
    let oldxnodes := xnodes in
    let xnodes := atan2 alfdp betdp in
    let xnodes := if xnodes <? 0.0 then xnodes + TWOPI else xnodes in
    (* get perturbed xnodes in to same quadrant as original *)
    let xnodes :=
      if fabs (oldxnodes - xnodes) >? PI then
        if xnodes <? oldxnodes then xnodes + TWOPI else xnodes - TWOPI
      else xnodes in
    let xll := xll + pl in
    let omgasm := xls - xll - cosis * xnodes in
    (em, xinc, omgasm, xnodes, xll).
End Propagator.


(** ** A reference instance of the external interface

    Used only to run the embedding on concrete element sets (the closed
    examples at the end): [<cmath>] to 30 decimals by series over the
    rationals, and a [Julian] date as its Julian day number. *)

Module RefMath.

Definition prec : positive := 1000000000000000000000000000000.

(** Round down to a multiple of [1 / prec]. *)
Definition rnd (x : Q) : Q := Qred (Qfloor (x * inject_Z (Zpos prec)) # prec).

Definition sqrt (x : Q) : Q :=
  if x <=? 0 then 0
  else Qred (Z.sqrt (Qfloor (x * inject_Z (Zpos prec) * inject_Z (Zpos prec))) # prec).

(** [sum_{k < n} term_k] with [term_{k+1} = term_k * ratio k], rounded. *)
Fixpoint series (n : nat) (k : Z) (term acc : Q) (ratio : Z -> Q) : Q :=
  match n with
  | O => acc
  | Datatypes.S n' =>
      series n' (k + 1)%Z (rnd (term * ratio k)) (rnd (acc + term)) ratio
  end.

(** Reduction of an angle to the interval from [- PI] to [PI]. *)
Definition reduce (x : Q) : Q :=
  let r := fmod (rnd x) TWOPI in
  if r >? PI then r - TWOPI else if r <? - PI then r + TWOPI else r.

Definition sin (x : Q) : Q :=
  let r := rnd (reduce x) in
  let r2 := rnd (r * r) in
  series 24 1 r 0 (fun k => - r2 / inject_Z ((2 * k) * (2 * k + 1))).

Definition cos (x : Q) : Q :=
  let r := rnd (reduce x) in
  let r2 := rnd (r * r) in
  series 24 1 1 0 (fun k => - r2 / inject_Z ((2 * k - 1) * (2 * k))).

(** [exp x = (exp (x / 2^m))^(2^m)]. *)
Fixpoint exp_scaled (m : nat) (x : Q) : Q :=
  match m with
  | O => series 40 1 1 0 (fun k => x / inject_Z k)
  | Datatypes.S m' => let y := exp_scaled m' (rnd (x / 2)) in rnd (y * y)
  end.

Definition exp (x : Q) : Q := exp_scaled 12 (rnd x).

(** [2 * atanh z] for [z] of absolute value at most a third. *)
Definition ln_core (y : Q) : Q :=
  let z := rnd ((y - 1) / (y + 1)) in
  let z2 := rnd (z * z) in
  2 * series 40 0 z 0
        (fun k => z2 * inject_Z (2 * k + 1) / inject_Z (2 * k + 3)).

Definition ln2 : Q := ln_core 2.

(** [ln x] for [0 < x]: halve or double [x] into the interval from a half
    to two. *)
Fixpoint ln_scaled (fuel : nat) (x : Q) (k : Z) : Q :=
  match fuel with
  | O => ln_core x + inject_Z k * ln2
  | Datatypes.S fuel' =>
      if x >? 2 then ln_scaled fuel' (x / 2) (k + 1)%Z
      else if x <? 0.5 then ln_scaled fuel' (x * 2) (k - 1)%Z
      else ln_core x + inject_Z k * ln2
  end.

Definition ln (x : Q) : Q := rnd (ln_scaled 400 (rnd x) 0).

(** An integer exponent is applied exactly; otherwise [exp (y * ln x)] for a
    positive base, and zero where [<cmath>] has no finite value. *)
Definition pow (x y : Q) : Q :=
  let y' := Qred y in
  match Qden y' with
  | 1%positive => rnd (Qpower x (Qnum y'))
  | _ => if x >? 0 then exp (y * ln x) else 0
  end.

(** [atan z] by two halvings of the angle and the series. *)
Definition atan_small (z : Q) : Q :=
  let z2 := rnd (z * z) in
  series 40 0 z 0
    (fun k => - z2 * inject_Z (2 * k + 1) / inject_Z (2 * k + 3)).

Definition halve (z : Q) : Q := rnd (z / (1 + sqrt (1 + z * z))).

Definition atan_unit (z : Q) : Q := 4 * atan_small (halve (halve (rnd z))).

Definition atan (z : Q) : Q :=
  if z >? 1 then PI / 2 - atan_unit (1 / z)
  else if z <? -1 then - (PI / 2) - atan_unit (1 / z)
  else atan_unit z.

Definition atan2 (y x : Q) : Q :=
  if x >? 0 then rnd (atan (y / x))
  else if x <? 0 then
    if y >=? 0 then rnd (atan (y / x) + PI) else rnd (atan (y / x) - PI)
  else if y >? 0 then PI / 2
  else if y <? 0 then - (PI / 2)
  else 0.

(** Greenwich mean sidereal time of a Julian day number, in radians. *)
Definition gmst (jd : Q) : Q :=
  let ut := fmod (jd + 0.5) 1 in
  let jd0 := jd - ut in
  let tu := (jd0 - 2451545.0) / 36525.0 in
  let g := 24110.54841 + tu * (8640184.812866 + tu * (0.093104 - tu * 6.2e-6)) in
  let g := fmod (g + 86400.0 * 1.00273790934 * ut) 86400.0 in
  let g := if g <? 0 then g + 86400.0 else g in
  TWOPI * (g / 86400.0).

Definition extern : Extern :=
  Build_Extern sin cos sqrt pow atan2
    Q 0 gmst
    (fun jd => jd - 2415020.0)
    (fun jd m => jd + m / 1440.0)
    (fun a b => (a - b) * 1440.0).

End RefMath.

(** ** Element sets used in the examples *)

(** An element set with eccentricity 0.5 and an inclination of 4 radians. *)
Definition tle_inclination_4 {E : Extern} : Tle :=
  {| tle_MeanAnomaly := 0.0;
     tle_RightAscendingNode := 0.0;
     tle_ArgumentPerigee := 0.0;
     tle_Eccentricity := 0.5;
     tle_Inclination := 4.0;
     tle_MeanMotion := 15.0;
     tle_BStar := 0.0;
     tle_Epoch := JulianDefault |}.

(** Degrees to radians. *)
Definition deg (x : Q) : Q := x * PI / 180.

(** The near-Earth test case of Spacetrack Report 3 (object 88888, epoch
    80275.98708465). *)
Definition tle_near_earth : @Tle RefMath.extern :=
  @Build_Tle RefMath.extern
    (deg 110.5714) (deg 115.9689) (deg 52.6988) 0.0086731 (deg 72.8435)
    16.05824518 0.66816e-4 2444514.48708465.

(** The deep-space test case of Spacetrack Report 3 (object 11801, epoch
    80230.29629788): a period of 630 minutes, no resonance. *)
Definition tle_deep_space : @Tle RefMath.extern :=
  @Build_Tle RefMath.extern
    (deg 10.4117) (deg 230.4354) (deg 47.4722) 0.7318036 (deg 46.7916)
    2.28537848 0.14311e-1 2444468.79629788.

(** A geosynchronous element set: one revolution per sidereal day. *)
Definition tle_geosynchronous : @Tle RefMath.extern :=
  @Build_Tle RefMath.extern
    (deg 10.4117) (deg 230.4354) (deg 47.4722) 0.0003 (deg 0.05)
    1.00273 0.0001 2444468.79629788.

(** A Molniya-type element set: two revolutions per day, eccentricity 0.72. *)
Definition tle_molniya : @Tle RefMath.extern :=
  @Build_Tle RefMath.extern
    (deg 10.4117) (deg 230.4354) (deg 280.0) 0.72 (deg 63.4)
    2.00561 0.0001 2444468.79629788.

(** An element set with a mean motion of zero revolutions per day. *)
Definition tle_zero_mean_motion : @Tle RefMath.extern :=
  @Build_Tle RefMath.extern
    (deg 10.0) (deg 20.0) (deg 30.0) 0.1 (deg 45.0)
    0.0 0.0001 2444468.79629788.

(** The objects that [SetTle] builds from them. *)
Abbreviation obj_deep_space :=
  (@recover_and_initialize RefMath.extern tle_deep_space).
Abbreviation obj_geosynchronous :=
  (@recover_and_initialize RefMath.extern tle_geosynchronous).
Abbreviation obj_zero_mean_motion :=
  (@recover_and_initialize RefMath.extern tle_zero_mean_motion).

Abbreviation obj_near_earth :=
  (@recover_and_initialize RefMath.extern tle_near_earth).
Abbreviation obj_molniya :=
  (@recover_and_initialize RefMath.extern tle_molniya).

(** An object with its constants zero and [first_run_] cleared. *)
Definition obj_reset_first_run_cleared : @SGP4 RefMath.extern :=
  set_first_run ResetGlobalVariables false.

(** ** The clock of the resonance integrator

    Lines 1108-1155 of [DeepSpaceSecular] decide on the restart and run the
    [do ... while] loop from the clock [d_atime_] and the time [t] alone:
    [DeepSpaceIntegrator] adds [delt] to the clock (line 1240), and nothing
    else in the loop writes it.  This control is written here once, over
    the operations on [double] that it uses, to be read in exact arithmetic,
    as in the embedding above, and in binary64, as the program runs. *)

Record ClockArith (T : Type) : Type := {
  c_zero : T;                  (* 0.0 *)
  c_STEP : T;                  (* 720.0 *)
  c_add : T -> T -> T;
  c_sub : T -> T -> T;
  c_mul : T -> T -> T;
  c_opp : T -> T;
  c_fabs : T -> T;
  c_ltb : T -> T -> bool;      (* x < y *)
  c_leb : T -> T -> bool       (* x <= y *)
}.

Arguments c_zero {T}.
Arguments c_STEP {T}.
Arguments c_add {T}.
Arguments c_sub {T}.
Arguments c_mul {T}.
Arguments c_opp {T}.
Arguments c_fabs {T}.
Arguments c_ltb {T}.
Arguments c_leb {T}.

Section Clock.

Context {T : Type} (A : ClockArith T).

(** The condition of lines 1108-1110. *)
Definition clock_restart_condition (t atime : T) : bool :=
  c_ltb A (c_fabs A t) (c_STEP A) ||
  c_leb A (c_mul A t atime) (c_zero A) ||
  c_ltb A (c_fabs A t) (c_fabs A atime).

(** Line 1114 under the condition: the clock with which line 1125 is
    reached. *)
Definition clock_after_restart_test (t atime : T) : T :=
  if clock_restart_condition t atime then c_zero A else atime.

(** [if (fabs(ft) >= STEP)], line 1131, with [ft = t - d_atime_]. *)
Definition clock_loop_entered (t atime : T) : bool :=
  c_leb A (c_STEP A) (c_fabs A (c_sub A t atime)).

(** Lines 1137-1139: [delt] from [ft]. *)
Definition clock_delt (ft : T) : T :=
  if c_leb A (c_zero A) ft then c_STEP A else c_opp A (c_STEP A).

(** The loop of lines 1142-1154 with a bound [fuel] on the number of
    passes: [None] when the bound is reached with the loop condition still
    true. *)
Fixpoint clock_loop (fuel : nat) (t delt atime : T) : option T :=
  match fuel with
  | O => None
  | Datatypes.S fuel' =>
      let atime' := c_add A atime delt in
      let ft := c_sub A t atime' in
      if c_leb A (c_STEP A) (c_fabs A ft) then clock_loop fuel' t delt atime'
      else Some atime'
  end.

(** The clock after [n] passes of the loop. *)
Fixpoint clock_passes (n : nat) (delt atime : T) : T :=
  match n with
  | O => atime
  | Datatypes.S n' => c_add A (clock_passes n' delt atime) delt
  end.

(** Lines 1108-1155 on the clock: the clock that they leave, [None] when
    the bound [fuel] on the passes of the loop is reached. *)
Definition clock_integrate_to (fuel : nat) (t atime : T) : option T :=
  let atime := clock_after_restart_test t atime in
  if clock_loop_entered t atime
  then clock_loop fuel t (clock_delt (c_sub A t atime)) atime
  else Some atime.

(** The clock after calls at the times [ts], one after the other. *)
Fixpoint clock_calls (fuel : nat) (ts : list T) (atime : T) : option T :=
  match ts with
  | nil => Some atime
  | t :: ts' =>
      match clock_integrate_to fuel t atime with
      | Some atime' => clock_calls fuel ts' atime'
      | None => None
      end
  end.

End Clock.

(** The arithmetic of the embedding. *)
Definition exact_clock : ClockArith double :=
  {| c_zero := 0.0; c_STEP := STEP;
     c_add := Qplus; c_sub := Qminus; c_mul := Qmult; c_opp := Qopp;
     c_fabs := fabs; c_ltb := Qltb; c_leb := Qleb |}.

(** The arithmetic of the program: IEEE 754 binary64, rounding to nearest,
    ties to even (Rocq's primitive floats, specified by [SpecFloat]). *)
Module Binary64.

Import PrimFloat.

Definition binary64_clock : ClockArith PrimFloat.float :=
  {| c_zero := 0%float; c_STEP := 720%float;
     c_add := PrimFloat.add; c_sub := PrimFloat.sub; c_mul := PrimFloat.mul;
     c_opp := PrimFloat.opp; c_fabs := PrimFloat.abs;
     c_ltb := PrimFloat.ltb; c_leb := PrimFloat.leb |}.

(** The value of a finite float in units of [2^-1074], the smallest
    positive binary64 number: every finite float is a whole number of
    them. *)
Definition SF2Z (x : SpecFloat.spec_float) : Z :=
  match x with
  | SpecFloat.S754_finite s m e =>
      SpecFloat.cond_Zopp s (Zpos m * 2 ^ (e + 1074))%Z
  | _ => 0%Z
  end.

Definition F2Z (x : PrimFloat.float) : Z := SF2Z (FloatOps.Prim2SF x).

Definition two_1074 : positive := 2 ^ 1074.

(** The value of a finite float. *)
Definition F2Q (x : PrimFloat.float) : Q := F2Z x # two_1074.

(** Neither infinite nor a NaN. *)
Definition SFreal (x : SpecFloat.spec_float) : bool :=
  match x with
  | SpecFloat.S754_zero _ | SpecFloat.S754_finite _ _ _ => true
  | _ => false
  end.

Definition SFgood (x : SpecFloat.spec_float) : Prop :=
  SFreal x = true /\
  SpecFloat.valid_binary FloatOps.prec FloatOps.emax x = true.

Definition Freal (x : PrimFloat.float) : Prop :=
  SFreal (FloatOps.Prim2SF x) = true.

(** [v], in units of [2^-1074], is the value of a finite float. *)
Definition representable (v : Z) : Prop :=
  v = 0%Z \/
  exists (m : positive) (e : Z),
    SpecFloat.bounded FloatOps.prec FloatOps.emax m e = true /\
    Z.abs v = (Zpos m * 2 ^ (e + 1074))%Z.

(** The float is a whole number. *)
Definition Fint (a : PrimFloat.float) : Prop :=
  exists n : Z, F2Z a = (n * 2 ^ 1074)%Z.

(** The float is a whole multiple of 720. *)
Definition Fsteps (a : PrimFloat.float) : Prop :=
  exists n : Z, F2Z a = (n * (720 * 2 ^ 1074))%Z.

(** [a] lies between zero and [t]. *)
Definition Fbetween (a t : PrimFloat.float) : Prop :=
  (0 <= F2Z a <= F2Z t)%Z \/ (F2Z t <= F2Z a <= 0)%Z.

(** [2^63], [2^63 - 1024] and [2^58] minutes, and [1e19] minutes. *)
Definition two_63 : PrimFloat.float := 9223372036854775808%float.
Definition below_two_63 : PrimFloat.float := 9223372036854774784%float.
Definition two_58 : PrimFloat.float := 288230376151711744%float.
Definition ten_19 : PrimFloat.float := 1e19%float.
Definition minutes_704 : PrimFloat.float := 704%float.

(** 2000.5 minutes. *)
Definition minutes_2000_5 : PrimFloat.float := 2000.5%float.

End Binary64.

(** * Properties *)

(** ** Comparisons of doubles *)

Lemma Qltb_true (x y : Q) : (x <? y) = true <-> x < y.
Proof.
  unfold Qltb. rewrite negb_true_iff. split; intro H.
  - apply Qnot_le_lt. intro H1. apply Qle_bool_iff in H1. congruence.
  - destruct (Qle_bool y x) eqn:Hle; trivial.
    apply Qle_bool_iff in Hle. lra.
Qed.

Lemma Qltb_false (x y : Q) : (x <? y) = false <-> y <= x.
Proof.
  unfold Qltb. rewrite negb_false_iff. apply Qle_bool_iff.
Qed.

Lemma Qleb_true (x y : Q) : (x <=? y) = true <-> x <= y.
Proof. apply Qle_bool_iff. Qed.

Lemma Qleb_false (x y : Q) : (x <=? y) = false <-> y < x.
Proof.
  unfold Qleb. split; intro H.
  - apply Qnot_le_lt. intro H1. apply Qle_bool_iff in H1. congruence.
  - destruct (Qle_bool x y) eqn:Hle; trivial.
    apply Qle_bool_iff in Hle. lra.
Qed.

Lemma Qgtb_true (x y : Q) : (x >? y) = true <-> y < x.
Proof. apply Qltb_true. Qed.

Lemma Qgtb_false (x y : Q) : (x >? y) = false <-> x <= y.
Proof. apply Qltb_false. Qed.

Lemma Qgeb_true (x y : Q) : (x >=? y) = true <-> y <= x.
Proof. apply Qleb_true. Qed.

Lemma Qgeb_false (x y : Q) : (x >=? y) = false <-> x < y.
Proof. apply Qleb_false. Qed.

(** Literals written with an exponent, such as [1.0e-3], are parsed as a
    quotient by a power of ten; [qlits] evaluates them for [lra]. *)
Ltac qlits :=
  repeat match goal with
  | |- context [Qdiv (Qmake ?n ?d) (Qmake (Z.pow_pos ?b ?e) ?f)] =>
      let t := constr:(Qdiv (Qmake n d) (Qmake (Z.pow_pos b e) f)) in
      let v := eval vm_compute in t in change t with v
  | H : context [Qdiv (Qmake ?n ?d) (Qmake (Z.pow_pos ?b ?e) ?f)] |- _ =>
      let t := constr:(Qdiv (Qmake n d) (Qmake (Z.pow_pos b e) f)) in
      let v := eval vm_compute in t in change t with v in H
  end.

Ltac qlra := qlits; lra.

(** Boolean tests in the hypotheses become order facts. *)
Ltac cmp_hyps :=
  repeat match goal with
  | H : (_ || _) = true |- _ => apply orb_true_iff in H; destruct H as [H | H]
  | H : (_ || _) = false |- _ => apply orb_false_iff in H; destruct H
  | H : (_ && _) = true |- _ => apply andb_true_iff in H; destruct H
  | H : (_ && _) = false |- _ => apply andb_false_iff in H; destruct H as [H | H]
  | H : negb _ = true |- _ => apply negb_true_iff in H
  | H : negb _ = false |- _ => apply negb_false_iff in H
  | H : (_ <? _) = true |- _ => apply Qltb_true in H
  | H : (_ <? _) = false |- _ => apply Qltb_false in H
  | H : (_ <=? _) = true |- _ => apply Qleb_true in H
  | H : (_ <=? _) = false |- _ => apply Qleb_false in H
  | H : (_ >? _) = true |- _ => apply Qgtb_true in H
  | H : (_ >? _) = false |- _ => apply Qgtb_false in H
  | H : (_ >=? _) = true |- _ => apply Qgeb_true in H
  | H : (_ >=? _) = false |- _ => apply Qgeb_false in H
  end.

(** A boolean test, as the order fact it decides. *)
Ltac cmp_goal :=
  repeat match goal with
  | |- (_ || _) = true => apply orb_true_iff
  | |- (_ || _) = false => apply orb_false_iff; split
  | |- (_ && _) = true => apply andb_true_iff; split
  | |- (_ && _) = false => apply andb_false_iff
  | |- (_ <? _) = true => apply Qltb_true
  | |- (_ <? _) = false => apply Qltb_false
  | |- (_ <=? _) = true => apply Qleb_true
  | |- (_ <=? _) = false => apply Qleb_false
  | |- (_ >? _) = true => apply Qgtb_true
  | |- (_ >? _) = false => apply Qgtb_false
  | |- (_ >=? _) = true => apply Qgeb_true
  | |- (_ >=? _) = false => apply Qgeb_false
  end.

Lemma fabs_lt (x y : Q) : fabs x < y <-> - y < x /\ x < y.
Proof.
  unfold fabs. split.
  - intro H. apply Qabs_Qlt_condition in H. exact H.
  - intro H. apply Qabs_Qlt_condition. exact H.
Qed.

Lemma fabs_ge (x y : Q) : y <= fabs x <-> x <= - y \/ y <= x.
Proof.
  unfold fabs. split.
  - intro H. destruct (Qlt_le_dec x 0) as [Hn | Hp].
    + rewrite Qabs_neg in H by lra. left. lra.
    + rewrite Qabs_pos in H by lra. right. lra.
  - intros [H | H]; destruct (Qlt_le_dec x 0) as [Hn | Hp].
    + rewrite Qabs_neg by lra. lra.
    + rewrite Qabs_pos by lra. lra.
    + rewrite Qabs_neg by lra. lra.
    + rewrite Qabs_pos by lra. lra.
Qed.


(** ** Binary64: the sums and differences of the clock that are exact

    What [SpecFloat] gives for an operation whose exact result is a
    float: the result is that float, and comparisons are those of the
    values.  With it, lines 1108-1155 run on the clock in binary64 as they
    do in exact arithmetic, for a time below [2^53] minutes. *)

Module Binary64Facts.

Import SpecFloat.
Import Binary64.

Local Open Scope Z_scope.

Abbreviation prec := FloatOps.prec.
Abbreviation emax := FloatOps.emax.
Abbreviation A64 := binary64_clock.
Abbreviation U := (2 ^ 1074).

Lemma digits2_pos_size (p : positive) : digits2_pos p = Pos.size p.
Proof. induction p; cbn; congruence. Qed.

Lemma digits2_bounds (p : positive) :
  2 ^ (Zpos (digits2_pos p) - 1) <= Zpos p < 2 ^ Zpos (digits2_pos p).
Proof.
  rewrite digits2_pos_size.
  pose proof (Pos.size_gt p) as Hg. pose proof (Pos.size_le p) as Hl.
  split.
  - assert (H : (2 ^ Pos.size p <= p~0)%positive) by exact Hl.
    assert (H2 : 2 ^ Zpos (Pos.size p) <= 2 * Zpos p).
    { change (2 * Zpos p) with (Zpos p~0). rewrite <- Pos2Z.inj_pow. apply Pos2Z.pos_le_pos. exact H. }
    replace (Zpos (Pos.size p)) with (Z.succ (Zpos (Pos.size p) - 1)) in H2 by lia.
    rewrite Z.pow_succ_r in H2 by lia. lia.
  - rewrite <- Pos2Z.inj_pow. apply Pos2Z.pos_lt_pos. exact Hg.
Qed.

Lemma digits2_unique (p : positive) (d : Z) :
  2 ^ (d - 1) <= Zpos p < 2 ^ d -> Zpos (digits2_pos p) = d.
Proof.
  intros [Hl Hu]. pose proof (digits2_bounds p) as [Hl' Hu'].
  set (d' := Zpos (digits2_pos p)) in *.
  assert (0 < d') by (subst d'; lia).
  destruct (Z_lt_le_dec d 1) as [Hd | Hd].
  - exfalso. assert (2 ^ d <= 2 ^ 0) by (destruct (Z_lt_le_dec d 0); [rewrite Z.pow_neg_r by lia; cbn; lia | apply Z.pow_le_mono_r; lia]).
    cbn in H0. lia.
  - destruct (Z.lt_trichotomy d d') as [Hlt | [Heq | Hgt]]; [| lia |].
    + exfalso. assert (2 ^ d <= 2 ^ (d' - 1)) by (apply Z.pow_le_mono_r; lia). lia.
    + exfalso. assert (2 ^ d' <= 2 ^ (d - 1)) by (apply Z.pow_le_mono_r; lia). lia.
Qed.

Lemma digits2_shift (p q : positive) (k : Z) :
  0 <= k -> Zpos q = Zpos p * 2 ^ k ->
  Zpos (digits2_pos q) = Zpos (digits2_pos p) + k.
Proof.
  intros Hk Hq. apply digits2_unique.
  pose proof (digits2_bounds p) as [Hl Hu].
  set (d := Zpos (digits2_pos p)) in *.
  assert (0 < d) by (subst d; lia).
  rewrite Hq.
  replace (d + k - 1) with ((d - 1) + k) by lia.
  rewrite !Z.pow_add_r by lia.
  assert (0 < 2 ^ k) by (apply Z.pow_pos_nonneg; lia).
  split; nia.
Qed.

(* iter_pos is Pos.iter *)
Lemma iter_pos_iter {A} (f : A -> A) (n : positive) (x : A) :
  iter_pos f n x = Pos.iter f x n.
Proof.
  revert x. induction n; intro x; cbn.
  - rewrite !IHn, !Pos.iter_swap. reflexivity.
  - rewrite !IHn. reflexivity.
  - reflexivity.
Qed.

Lemma shr_1_exact (m : Z) :
  0 <= m ->
  shr_1 (Build_shr_record (2 * m) false false) = Build_shr_record m false false.
Proof.
  intro Hm. destruct m as [| p | p]; [reflexivity | reflexivity | lia].
Qed.

Lemma iter_shr_exact (n : positive) (m : Z) :
  0 <= m ->
  iter_pos shr_1 n (Build_shr_record (m * 2 ^ Zpos n) false false) =
  Build_shr_record m false false.
Proof.
  intro Hm. rewrite iter_pos_iter. revert m Hm.
  induction n using Pos.peano_ind; intros m Hm.
  - cbn [Pos.iter]. change (2 ^ 1) with 2. rewrite Z.mul_comm. apply shr_1_exact. exact Hm.
  - rewrite Pos.iter_succ_r.
    rewrite Pos2Z.inj_succ, Z.pow_succ_r by lia.
    replace (m * (2 * 2 ^ Zpos n)) with (2 * (m * 2 ^ Zpos n)) by ring.
    rewrite shr_1_exact by (assert (0 < 2 ^ Zpos n) by (apply Z.pow_pos_nonneg; lia); nia).
    apply IHn. exact Hm.
Qed.

Lemma iter_xO (n p : positive) : Zpos (Pos.iter xO p n) = Zpos p * 2 ^ Zpos n.
Proof.
  induction n using Pos.peano_ind.
  - cbn. lia.
  - rewrite Pos.iter_succ, Pos2Z.inj_succ, Z.pow_succ_r by lia.
    rewrite Pos2Z.inj_xO, IHn. ring.
Qed.

Lemma bounded_facts (m : positive) (e : Z) :
  bounded prec emax m e = true ->
  -1074 <= e <= 971 /\
  Zpos (digits2_pos m) <= 53 /\
  (-1074 < e -> Zpos (digits2_pos m) = 53) /\
  fexp prec emax (Zpos (digits2_pos m) + e) = e.
Proof.
  unfold bounded, canonical_mantissa, fexp, emin. intro H.
  apply andb_true_iff in H. destruct H as [H1 H2].
  apply Z.eqb_eq in H1. apply Z.leb_le in H2.
  change (3 - emax - prec) with (-1074) in *. change prec with 53 in *.
  change (emax - 53) with 971 in H2.
  repeat split; first [lia | exact H1].
Qed.

Lemma bounded_intro (m : positive) (e : Z) :
  -1074 <= e <= 971 ->
  Zpos (digits2_pos m) <= 53 ->
  (-1074 < e -> Zpos (digits2_pos m) = 53) ->
  bounded prec emax m e = true.
Proof.
  intros He Hd Hn. unfold bounded, canonical_mantissa, fexp, emin.
  change (3 - emax - prec) with (-1074). change prec with 53.
  change (emax - 53) with 971.
  apply andb_true_iff. split; [apply Z.eqb_eq | apply Z.leb_le; lia].
  destruct (Z.eq_dec e (-1074)); [lia |]. rewrite Hn by lia. lia.
Qed.

(** Two positive numbers [M * 2^a = m * 2^b] have the same magnitude. *)
Lemma same_magnitude (M m : positive) (a b : Z) :
  0 <= a -> 0 <= b ->
  Zpos M * 2 ^ a = Zpos m * 2 ^ b ->
  Zpos (digits2_pos M) + a = Zpos (digits2_pos m) + b.
Proof.
  intros Ha Hb H.
  assert (Hpos : 0 < Zpos M * 2 ^ a)
    by (assert (0 < 2 ^ a) by (apply Z.pow_pos_nonneg; lia); nia).
  destruct (Zpos M * 2 ^ a) as [| q |] eqn:Hq; try lia.
  rewrite <- (digits2_shift M q a Ha (eq_sym Hq)).
  rewrite <- (digits2_shift m q b Hb H). reflexivity.
Qed.

Lemma shr_fexp_exact (M m : positive) (E e : Z) :
  bounded prec emax m e = true ->
  -1074 <= E <= e ->
  Zpos M = Zpos m * 2 ^ (e - E) ->
  shr_fexp prec emax (Zpos M) E loc_Exact =
  (Build_shr_record (Zpos m) false false, e).
Proof.
  intros Hb HE HM.
  destruct (bounded_facts m e Hb) as (He & Hd & Hn & Hf).
  assert (Hmag : Zpos (digits2_pos M) + E = Zpos (digits2_pos m) + e).
  { rewrite (digits2_shift m M (e - E)) by (lia || exact HM). lia. }
  unfold shr_fexp. cbn [Zdigits2 shr_record_of_loc].
  rewrite Hmag, Hf. unfold shr.
  destruct (e - E) as [| k | k] eqn:Hk; try lia.
  - assert (E = e) by lia. subst E.
    rewrite Z.pow_0_r, Z.mul_1_r in HM. injection HM as ->. reflexivity.
  - rewrite HM. rewrite iter_shr_exact by lia. f_equal. lia.
Qed.

Lemma binary_round_aux_exact (s : bool) (M m : positive) (E e : Z) :
  bounded prec emax m e = true ->
  -1074 <= E <= e ->
  Zpos M = Zpos m * 2 ^ (e - E) ->
  binary_round_aux prec emax s (Zpos M) E loc_Exact = S754_finite s m e.
Proof.
  intros Hb HE HM. unfold binary_round_aux.
  rewrite (shr_fexp_exact M m E e Hb HE HM).
  cbn [shr_m loc_of_shr_record round_nearest_even].
  rewrite (shr_fexp_exact m m e e Hb).
  - cbn [shr_m]. destruct (bounded_facts m e Hb) as (He & _).
    replace (e <=? emax - prec) with true; [reflexivity |].
    symmetry. apply Z.leb_le. change (emax - prec) with 971. lia.
  - destruct (bounded_facts m e Hb) as (He & _). lia.
  - rewrite Z.sub_diag, Z.pow_0_r. lia.
Qed.

(** Rounding a number that has a canonical representation gives this
    representation. *)
Lemma binary_round_exact (s : bool) (M m : positive) (E e : Z) :
  bounded prec emax m e = true ->
  -1074 <= E ->
  Zpos M * 2 ^ (E + 1074) = Zpos m * 2 ^ (e + 1074) ->
  binary_round prec emax s M E = S754_finite s m e.
Proof.
  intros Hb HE HM.
  destruct (bounded_facts m e Hb) as (He & Hd & Hn & Hf).
  pose proof (same_magnitude M m (E + 1074) (e + 1074)
                ltac:(lia) ltac:(lia) HM) as Hmag.
  unfold binary_round.
  replace (Zpos (digits2_pos M) + E) with (Zpos (digits2_pos m) + e) by lia.
  rewrite Hf. unfold shl_align.
  destruct (e - E) as [| k | k] eqn:Hk.
  - assert (E = e) by lia. subst E.
    apply binary_round_aux_exact; [exact Hb | lia |].
    rewrite Z.sub_diag, Z.pow_0_r, Z.mul_1_r.
    assert (0 < 2 ^ (e + 1074)) by (apply Z.pow_pos_nonneg; lia). nia.
  - apply binary_round_aux_exact; [exact Hb | lia |].
    rewrite Hk.
    replace (e + 1074) with ((E + 1074) + Zpos k) in HM by lia.
    rewrite (Z.pow_add_r 2 (E + 1074) (Zpos k)) in HM by lia.
    assert (0 < 2 ^ (E + 1074)) by (apply Z.pow_pos_nonneg; lia).
    apply (Z.mul_cancel_r _ _ (2 ^ (E + 1074))); [lia |].
    rewrite HM. ring.
  - apply binary_round_aux_exact; [exact Hb | lia |].
    rewrite Z.sub_diag, Z.pow_0_r, Z.mul_1_r.
    rewrite iter_xO.
    replace (E + 1074) with ((e + 1074) + Zpos k) in HM by lia.
    rewrite (Z.pow_add_r 2 (e + 1074) (Zpos k)) in HM by lia.
    assert (0 < 2 ^ (e + 1074)) by (apply Z.pow_pos_nonneg; lia).
    apply (Z.mul_cancel_r _ _ (2 ^ (e + 1074))); [lia |].
    rewrite <- HM. ring.
Qed.

Lemma pow2_pos (k : Z) : 0 <= k -> 0 < 2 ^ k.
Proof. intro. apply Z.pow_pos_nonneg; lia. Qed.

Lemma binary_normalize_exact (M E : Z) :
  -1074 <= E ->
  representable (M * 2 ^ (E + 1074)) ->
  let z := binary_normalize prec emax M E false in
  SFgood z /\ SF2Z z = M * 2 ^ (E + 1074).
Proof.
  intros HE Hrep z. subst z.
  pose proof (pow2_pos (E + 1074) ltac:(lia)) as Hp.
  destruct M as [| p | p]; cbn [binary_normalize].
  - split; [split; reflexivity | reflexivity].
  - destruct Hrep as [H0 | (m & e & Hb & Hv)]; [nia |].
    rewrite Z.abs_eq in Hv by nia.
    rewrite (binary_round_exact false p m E e Hb HE Hv).
    split; [split; [reflexivity | exact Hb] |].
    cbn [SF2Z cond_Zopp]. lia.
  - destruct Hrep as [H0 | (m & e & Hb & Hv)]; [nia |].
    rewrite Z.abs_neq in Hv by nia.
    assert (Hv' : Zpos p * 2 ^ (E + 1074) = Zpos m * 2 ^ (e + 1074)).
    { rewrite <- Hv. change (Zneg p) with (- Zpos p). ring. }
    rewrite (binary_round_exact true p m E e Hb HE Hv').
    split; [split; [reflexivity | exact Hb] |].
    cbn [SF2Z cond_Zopp]. rewrite <- Hv'. change (Zneg p) with (- Zpos p). ring.
Qed.

Lemma shl_align_value (m : positive) (e ez : Z) :
  ez <= e ->
  Zpos (fst (shl_align m e ez)) = Zpos m * 2 ^ (e - ez).
Proof.
  intro H. unfold shl_align.
  destruct (ez - e) as [| k | k] eqn:Hk; cbn [fst]; try lia.
  - replace (e - ez) with 0 by lia. lia.
  - rewrite iter_xO. f_equal. f_equal. lia.
Qed.

Lemma aligned_value (s : bool) (m : positive) (e ez : Z) :
  -1074 <= ez <= e ->
  cond_Zopp s (Zpos (fst (shl_align m e ez))) * 2 ^ (ez + 1074) =
  cond_Zopp s (Zpos m * 2 ^ (e + 1074)).
Proof.
  intro H. rewrite shl_align_value by lia.
  replace (e + 1074) with ((e - ez) + (ez + 1074)) by lia.
  rewrite (Z.pow_add_r 2 (e - ez) (ez + 1074)) by lia.
  destruct s; cbn [cond_Zopp]; ring.
Qed.

Lemma SFgood_exp (s : bool) (m : positive) (e : Z) :
  SFgood (S754_finite s m e) -> -1074 <= e <= 971.
Proof.
  intros [_ H]. cbn [valid_binary] in H. apply (bounded_facts m e H).
Qed.

Lemma SFadd_exact (x y : spec_float) :
  SFgood x -> SFgood y ->
  representable (SF2Z x + SF2Z y) ->
  SFgood (SFadd prec emax x y) /\
  SF2Z (SFadd prec emax x y) = SF2Z x + SF2Z y.
Proof.
  intros Hx Hy Hrep.
  destruct x as [sx | sx | | sx mx ex]; try (destruct Hx as [Hx _]; discriminate);
  destruct y as [sy | sy | | sy my ey]; try (destruct Hy as [Hy _]; discriminate).
  - cbn [SFadd]. split; [| destruct sx, sy; reflexivity].
    destruct sx, sy; split; reflexivity.
  - cbn [SFadd]. split; [exact Hy | reflexivity].
  - cbn [SFadd]. split; [exact Hx | cbn [SF2Z]; lia].
  - pose proof (SFgood_exp _ _ _ Hx) as Hex.
    pose proof (SFgood_exp _ _ _ Hy) as Hey.
    cbn [SFadd]. cbv zeta.
    set (ez := Z.min ex ey).
    assert (Hval :
      (cond_Zopp sx (Zpos (fst (shl_align mx ex ez))) +
       cond_Zopp sy (Zpos (fst (shl_align my ey ez)))) * 2 ^ (ez + 1074) =
      SF2Z (S754_finite sx mx ex) + SF2Z (S754_finite sy my ey)).
    { rewrite Z.mul_add_distr_r, !aligned_value by (subst ez; lia).
      reflexivity. }
    rewrite <- Hval in Hrep |- *.
    apply binary_normalize_exact; [subst ez; lia | exact Hrep].
Qed.

Lemma SFsub_exact (x y : spec_float) :
  SFgood x -> SFgood y ->
  representable (SF2Z x - SF2Z y) ->
  SFgood (SFsub prec emax x y) /\
  SF2Z (SFsub prec emax x y) = SF2Z x - SF2Z y.
Proof.
  intros Hx Hy Hrep.
  destruct x as [sx | sx | | sx mx ex]; try (destruct Hx as [Hx _]; discriminate);
  destruct y as [sy | sy | | sy my ey]; try (destruct Hy as [Hy _]; discriminate).
  - cbn [SFsub]. split; [| destruct sx, sy; reflexivity].
    destruct sx, sy; split; reflexivity.
  - cbn [SFsub]. split; [exact Hy |].
    cbn [SF2Z]. destruct sy; cbn [negb cond_Zopp]; lia.
  - cbn [SFsub]. split; [exact Hx | cbn [SF2Z]; lia].
  - pose proof (SFgood_exp _ _ _ Hx) as Hex.
    pose proof (SFgood_exp _ _ _ Hy) as Hey.
    cbn [SFsub]. cbv zeta.
    set (ez := Z.min ex ey).
    assert (Hval :
      (cond_Zopp sx (Zpos (fst (shl_align mx ex ez))) -
       cond_Zopp sy (Zpos (fst (shl_align my ey ez)))) * 2 ^ (ez + 1074) =
      SF2Z (S754_finite sx mx ex) - SF2Z (S754_finite sy my ey)).
    { rewrite Z.mul_sub_distr_r, !aligned_value by (subst ez; lia).
      reflexivity. }
    rewrite <- Hval in Hrep |- *.
    apply binary_normalize_exact; [subst ez; lia | exact Hrep].
Qed.

Lemma mag_lt (m1 m2 : positive) (e1 e2 : Z) :
  bounded prec emax m1 e1 = true -> bounded prec emax m2 e2 = true ->
  e1 < e2 ->
  Zpos m1 * 2 ^ (e1 + 1074) < Zpos m2 * 2 ^ (e2 + 1074).
Proof.
  intros H1 H2 Hlt.
  destruct (bounded_facts _ _ H1) as (He1 & Hd1 & _).
  destruct (bounded_facts _ _ H2) as (He2 & _ & Hn2 & _).
  pose proof (digits2_bounds m1) as [_ Hu1].
  pose proof (digits2_bounds m2) as [Hl2 _].
  rewrite Hn2 in Hl2 by lia. change (2 ^ (53 - 1)) with 4503599627370496 in Hl2.
  assert (Hm1 : Zpos m1 < 9007199254740992).
  { apply (Z.lt_le_trans _ _ _ Hu1). change 9007199254740992 with (2 ^ 53).
    apply Z.pow_le_mono_r; lia. }
  replace (e2 + 1074) with ((e1 + 1074) + 1 + (e2 - e1 - 1)) by lia.
  rewrite (Z.pow_add_r 2 (e1 + 1074 + 1) (e2 - e1 - 1)) by lia.
  rewrite (Z.pow_add_r 2 (e1 + 1074) 1) by lia. change (2 ^ 1) with 2.
  pose proof (pow2_pos (e1 + 1074) ltac:(lia)) as Hp.
  pose proof (pow2_pos (e2 - e1 - 1) ltac:(lia)) as Hq.
  set (P := 2 ^ (e1 + 1074)) in *. set (R := 2 ^ (e2 - e1 - 1)) in *.
  assert (Zpos m1 * P < 9007199254740992 * P) by nia.
  assert (4503599627370496 * (P * 2) <= Zpos m2 * (P * 2)) by nia.
  assert (Zpos m2 * (P * 2) * 1 <= Zpos m2 * (P * 2) * R) by nia.
  lia.
Qed.

Lemma pos_compare_exact (m1 m2 : positive) (e1 e2 : Z) :
  bounded prec emax m1 e1 = true -> bounded prec emax m2 e2 = true ->
  match e1 ?= e2 with
  | Lt => Lt
  | Gt => Gt
  | Eq => Pos.compare_cont Eq m1 m2
  end = (Zpos m1 * 2 ^ (e1 + 1074) ?= Zpos m2 * 2 ^ (e2 + 1074)).
Proof.
  intros H1 H2. destruct (Z.compare_spec e1 e2) as [Heq | Hlt | Hgt].
  - subst e2. destruct (bounded_facts _ _ H1) as (He1 & _).
    pose proof (pow2_pos (e1 + 1074) ltac:(lia)) as Hp.
    change (Pos.compare_cont Eq m1 m2) with (Pos.compare m1 m2).
    destruct (Pos.compare_spec m1 m2) as [Hm | Hm | Hm]; symmetry.
    + subst m2. apply Z.compare_refl.
    + apply Z.compare_lt_iff. apply Pos2Z.pos_lt_pos in Hm. nia.
    + apply Z.compare_gt_iff. apply Pos2Z.pos_lt_pos in Hm. nia.
  - symmetry. apply Z.compare_lt_iff. apply mag_lt; assumption.
  - symmetry. apply Z.compare_gt_iff. apply mag_lt; assumption.
Qed.

Lemma SFcompare_exact (x y : spec_float) :
  SFgood x -> SFgood y ->
  SFcompare x y = Some (SF2Z x ?= SF2Z y).
Proof.
  intros Hx Hy.
  destruct x as [sx | sx | | sx mx ex]; try (destruct Hx as [Hx _]; discriminate);
  destruct y as [sy | sy | | sy my ey]; try (destruct Hy as [Hy _]; discriminate).
  - reflexivity.
  - pose proof (SFgood_exp _ _ _ Hy) as Hey.
    pose proof (pow2_pos (ey + 1074) ltac:(lia)) as Hp.
    cbn [SFcompare SF2Z]. f_equal. symmetry.
    destruct sy; cbn [cond_Zopp].
    + apply Z.compare_gt_iff. nia.
    + apply Z.compare_lt_iff. nia.
  - pose proof (SFgood_exp _ _ _ Hx) as Hex.
    pose proof (pow2_pos (ex + 1074) ltac:(lia)) as Hp.
    cbn [SFcompare SF2Z]. f_equal. symmetry.
    destruct sx; cbn [cond_Zopp].
    + apply Z.compare_lt_iff. nia.
    + apply Z.compare_gt_iff. nia.
  - pose proof (SFgood_exp _ _ _ Hx) as Hex.
    pose proof (SFgood_exp _ _ _ Hy) as Hey.
    pose proof (pow2_pos (ex + 1074) ltac:(lia)) as Hp.
    pose proof (pow2_pos (ey + 1074) ltac:(lia)) as Hq.
    destruct Hx as [_ Hx]. destruct Hy as [_ Hy]. cbn [valid_binary] in Hx, Hy.
    cbn [SFcompare SF2Z]. f_equal.
    destruct sx, sy; cbn [cond_Zopp].
    + rewrite Z.compare_opp.
      rewrite <- (pos_compare_exact my mx ey ex Hy Hx).
      rewrite (Z.compare_antisym ey ex).
      destruct (ey ?= ex); cbn [CompOpp]; try reflexivity.
      rewrite Pos.compare_cont_antisym. reflexivity.
    + symmetry. apply Z.compare_lt_iff. nia.
    + symmetry. apply Z.compare_gt_iff. nia.
    + apply pos_compare_exact; assumption.
Qed.

Lemma digits2_mono (k m : positive) :
  Zpos k <= Zpos m -> Zpos (digits2_pos k) <= Zpos (digits2_pos m).
Proof.
  intro H. pose proof (digits2_bounds k) as [Hl _].
  pose proof (digits2_bounds m) as [_ Hu].
  destruct (Z_lt_le_dec (Zpos (digits2_pos m)) (Zpos (digits2_pos k)))
    as [Hlt | Hle]; [exfalso | exact Hle].
  assert (2 ^ Zpos (digits2_pos m) <= 2 ^ (Zpos (digits2_pos k) - 1))
    by (apply Z.pow_le_mono_r; lia).
  lia.
Qed.

(** A multiple of the unit in the last place of a float that is not
    larger than the float is a float. *)
Lemma representable_on_grid (m : positive) (e w : Z) :
  bounded prec emax m e = true ->
  (exists k : Z, w = k * 2 ^ (e + 1074)) ->
  Z.abs w <= Zpos m * 2 ^ (e + 1074) ->
  representable w.
Proof.
  intros Hb [k Hk] Hle.
  destruct (bounded_facts m e Hb) as (He & Hd & _).
  pose proof (pow2_pos (e + 1074) ltac:(lia)) as Hp.
  destruct (Z.eq_dec w 0) as [Hz | Hnz]; [left; exact Hz | right].
  assert (Habs : Z.abs w = Z.abs k * 2 ^ (e + 1074))
    by (rewrite Hk, Z.abs_mul, (Z.abs_eq (2 ^ (e + 1074))) by lia; reflexivity).
  assert (Hk0 : 0 < Z.abs k) by (destruct (Z.eq_dec k 0); [subst k; lia | lia]).
  destruct (Z.abs k) as [| p |] eqn:Hp'; try lia.
  assert (Hpm : Zpos p <= Zpos m) by nia.
  pose proof (digits2_mono p m Hpm) as Hdp.
  set (d := Zpos (digits2_pos p)) in *.
  assert (Hd0 : 0 < d) by (subst d; lia).
  set (e' := Z.max (d + e - 53) (-1074)).
  assert (He' : -1074 <= e' <= e) by (subst e'; lia).
  pose proof (pow2_pos (e - e') ltac:(lia)) as Hq.
  destruct (Zpos p * 2 ^ (e - e')) as [| m' |] eqn:Hm'; try nia.
  assert (Hdm : Zpos (digits2_pos m') = d + (e - e'))
    by (apply digits2_shift; [lia | exact (eq_sym Hm')]).
  exists m', e'. split.
  - apply bounded_intro; subst e'; lia.
  - rewrite Habs, <- Hm'.
    replace (e + 1074) with ((e - e') + (e' + 1074)) at 1 by lia.
    rewrite (Z.pow_add_r 2 (e - e') (e' + 1074)) by lia. ring.
Qed.

Lemma representable_integer (n : Z) :
  Z.abs n < 2 ^ 53 -> representable (n * 2 ^ 1074).
Proof.
  intro H.
  apply (representable_on_grid 9007199254740991 0).
  - vm_compute. reflexivity.
  - exists n. reflexivity.
  - change (0 + 1074) with 1074.
    assert (0 < 2 ^ 1074) by (apply pow2_pos; lia).
    rewrite Z.abs_mul, (Z.abs_eq (2 ^ 1074)) by lia.
    change (2 ^ 53) with 9007199254740992 in H. nia.
Qed.

Lemma shr_1_nonneg (mrs : shr_record) :
  0 <= shr_m mrs -> 0 <= shr_m (shr_1 mrs).
Proof.
  destruct mrs as [m r s]. cbn [shr_m]. intro H.
  destruct m as [| [p | p |] | p]; cbn; lia.
Qed.

Lemma shr_nonneg (mrs : shr_record) (e n : Z) :
  0 <= shr_m mrs -> 0 <= shr_m (fst (shr mrs e n)).
Proof.
  intro H. unfold shr. destruct n as [| p | p]; cbn [fst]; try exact H.
  rewrite iter_pos_iter. revert mrs H.
  induction p using Pos.peano_ind; intros mrs H.
  - cbn. apply shr_1_nonneg. exact H.
  - rewrite Pos.iter_succ. apply shr_1_nonneg. apply IHp. exact H.
Qed.

Lemma shr_fexp_nonneg (m e : Z) (l : location) :
  0 <= m -> 0 <= shr_m (fst (shr_fexp prec emax m e l)).
Proof.
  intro H. unfold shr_fexp. apply shr_nonneg.
  destruct l as [| []]; cbn [shr_record_of_loc shr_m]; exact H.
Qed.

(** The result of a rounding has the sign that was given to it. *)
Lemma binary_round_aux_sign (s : bool) (m e : Z) :
  0 <= m ->
  match binary_round_aux prec emax s m e loc_Exact with
  | S754_zero s' | S754_infinity s' | S754_finite s' _ _ => s' = s
  | S754_nan => False
  end.
Proof.
  intro H. unfold binary_round_aux.
  pose proof (shr_fexp_nonneg m e loc_Exact H) as H1.
  destruct (shr_fexp prec emax m e loc_Exact) as [mrs' e'].
  cbn [fst] in H1.
  assert (H2 : 0 <= round_nearest_even (shr_m mrs') (loc_of_shr_record mrs')).
  { unfold round_nearest_even.
    destruct (loc_of_shr_record mrs') as [| []]; try lia.
    destruct (Z.even (shr_m mrs')); lia. }
  pose proof (shr_fexp_nonneg _ e' loc_Exact H2) as H3.
  destruct (shr_fexp prec emax _ e' loc_Exact) as [mrs'' e''].
  cbn [fst] in H3.
  destruct (shr_m mrs'') as [| p | p]; [reflexivity | | lia].
  destruct (e'' <=? emax - prec); reflexivity.
Qed.

(** A product that is not [<= 0] is one of two numbers of the same sign,
    neither of them zero. *)
Lemma SFmul_positive (x y : spec_float) :
  SFgood x -> SFgood y ->
  SFleb (SFmul prec emax x y) (S754_zero false) = false ->
  0 < SF2Z x * SF2Z y.
Proof.
  intros Hx Hy.
  destruct x as [sx | sx | | sx mx ex]; try (destruct Hx as [Hx _]; discriminate);
  destruct y as [sy | sy | | sy my ey]; try (destruct Hy as [Hy _]; discriminate);
  try (cbn; discriminate).
  pose proof (SFgood_exp _ _ _ Hx) as Hex.
  pose proof (SFgood_exp _ _ _ Hy) as Hey.
  pose proof (pow2_pos (ex + 1074) ltac:(lia)) as Hp.
  pose proof (pow2_pos (ey + 1074) ltac:(lia)) as Hq.
  cbn [SFmul SF2Z].
  pose proof (binary_round_aux_sign (xorb sx sy) (Zpos (mx * my)) (ex + ey)
                ltac:(lia)) as Hs.
  destruct (binary_round_aux prec emax (xorb sx sy) (Zpos (mx * my)) (ex + ey)
              loc_Exact) as [s' | s' | | s' m' e'];
    try contradiction; unfold SFleb; cbn [SFcompare]; try discriminate;
    destruct s'; try discriminate; intros _;
    destruct sx, sy; try discriminate; cbn [cond_Zopp]; nia.
Qed.

Lemma Freal_good (x : PrimFloat.float) : Freal x -> SFgood (FloatOps.Prim2SF x).
Proof. intro H. split; [exact H | apply FloatAxioms.Prim2SF_valid]. Qed.

Lemma is_finite_Freal (x : PrimFloat.float) :
  PrimFloat.is_finite x = true -> Freal x.
Proof.
  unfold PrimFloat.is_finite, Freal, FloatOps.Prim2SF. intro H.
  apply negb_true_iff, orb_false_iff in H. destruct H as [-> ->].
  destruct (PrimFloat.is_zero x); [reflexivity |].
  destruct (FloatOps.Z.frexp x) as [r ex].
  destruct (shr_fexp _ _ _ _ _) as [sh e'].
  destruct (shr_m sh); reflexivity.
Qed.

Lemma add_exact (x y : PrimFloat.float) :
  Freal x -> Freal y -> representable (F2Z x + F2Z y) ->
  Freal (PrimFloat.add x y) /\ F2Z (PrimFloat.add x y) = F2Z x + F2Z y.
Proof.
  intros Hx Hy Hrep. unfold Freal, F2Z. rewrite FloatAxioms.add_spec.
  destruct (SFadd_exact _ _ (Freal_good x Hx) (Freal_good y Hy) Hrep)
    as [[H1 _] H2].
  split; assumption.
Qed.

Lemma sub_exact (x y : PrimFloat.float) :
  Freal x -> Freal y -> representable (F2Z x - F2Z y) ->
  Freal (PrimFloat.sub x y) /\ F2Z (PrimFloat.sub x y) = F2Z x - F2Z y.
Proof.
  intros Hx Hy Hrep. unfold Freal, F2Z. rewrite FloatAxioms.sub_spec.
  destruct (SFsub_exact _ _ (Freal_good x Hx) (Freal_good y Hy) Hrep)
    as [[H1 _] H2].
  split; assumption.
Qed.

Lemma abs_exact (x : PrimFloat.float) :
  Freal x ->
  Freal (PrimFloat.abs x) /\ F2Z (PrimFloat.abs x) = Z.abs (F2Z x).
Proof.
  intro Hx. pose proof (Freal_good x Hx) as Hg.
  unfold Freal, F2Z in *. rewrite FloatAxioms.abs_spec.
  destruct (FloatOps.Prim2SF x) as [s | s | | s m e]; try discriminate.
  - split; reflexivity.
  - pose proof (SFgood_exp _ _ _ Hg) as He.
    pose proof (pow2_pos (e + 1074) ltac:(lia)) as Hp.
    split; [reflexivity |]. cbn [SFabs SF2Z].
    destruct s; cbn [cond_Zopp]; nia.
Qed.

Lemma opp_exact (x : PrimFloat.float) :
  Freal x ->
  Freal (PrimFloat.opp x) /\ F2Z (PrimFloat.opp x) = - F2Z x.
Proof.
  intro Hx. unfold Freal, F2Z in *. rewrite FloatAxioms.opp_spec.
  destruct (FloatOps.Prim2SF x) as [s | s | | s m e]; try discriminate.
  - split; reflexivity.
  - split; [reflexivity |]. cbn [SFopp SF2Z].
    destruct s; cbn [negb cond_Zopp]; lia.
Qed.

Lemma leb_exact (x y : PrimFloat.float) :
  Freal x -> Freal y ->
  PrimFloat.leb x y = (F2Z x <=? F2Z y).
Proof.
  intros Hx Hy. rewrite FloatAxioms.leb_spec. unfold SFleb, F2Z, Z.leb.
  rewrite (SFcompare_exact _ _ (Freal_good x Hx) (Freal_good y Hy)).
  destruct (SF2Z (FloatOps.Prim2SF x) ?= SF2Z (FloatOps.Prim2SF y)); reflexivity.
Qed.

Lemma ltb_exact (x y : PrimFloat.float) :
  Freal x -> Freal y ->
  PrimFloat.ltb x y = (F2Z x <? F2Z y).
Proof.
  intros Hx Hy. rewrite FloatAxioms.ltb_spec. unfold SFltb, F2Z, Z.ltb.
  rewrite (SFcompare_exact _ _ (Freal_good x Hx) (Freal_good y Hy)).
  destruct (SF2Z (FloatOps.Prim2SF x) ?= SF2Z (FloatOps.Prim2SF y)); reflexivity.
Qed.

Lemma Prim2SF_zero : FloatOps.Prim2SF PrimFloat.zero = S754_zero false.
Proof. vm_compute. reflexivity. Qed.

Lemma mul_positive (x y : PrimFloat.float) :
  Freal x -> Freal y ->
  PrimFloat.leb (PrimFloat.mul x y) PrimFloat.zero = false ->
  0 < F2Z x * F2Z y.
Proof.
  intros Hx Hy H. rewrite FloatAxioms.leb_spec, FloatAxioms.mul_spec in H.
  rewrite Prim2SF_zero in H.
  apply (SFmul_positive _ _ (Freal_good x Hx) (Freal_good y Hy)).
  exact H.
Qed.

Lemma clock_passes_front {T} (A : ClockArith T) (n : nat) (delt a : T) :
  clock_passes A (Datatypes.S n) delt a = clock_passes A n delt (c_add A a delt).
Proof.
  induction n as [| n IH]; [reflexivity |].
  change (clock_passes A (Datatypes.S (Datatypes.S n)) delt a)
    with (c_add A (clock_passes A (Datatypes.S n) delt a) delt).
  rewrite IH. reflexivity.
Qed.

Lemma binary64_STEP_value : Freal (c_STEP A64) /\ F2Z (c_STEP A64) = 720 * U.
Proof. split; vm_compute; reflexivity. Qed.

Lemma binary64_zero_value : Freal (c_zero A64) /\ F2Z (c_zero A64) = 0.
Proof. split; vm_compute; reflexivity. Qed.

Lemma U_pos : 0 < U.
Proof. apply pow2_pos. lia. Qed.

(** A finite float below [2^53] has its unit in the last place at most
    one. *)
Lemma small_float_grid (m : positive) (e : Z) :
  bounded prec emax m e = true ->
  Zpos m * 2 ^ (e + 1074) < 2 ^ 53 * U ->
  e <= 0.
Proof.
  intros Hb Hlt.
  destruct (bounded_facts m e Hb) as (He & _ & Hn & _).
  destruct (Z_le_gt_dec e 0) as [Hle | Hgt]; [exact Hle | exfalso].
  pose proof (digits2_bounds m) as [Hl _].
  rewrite Hn in Hl by lia. change (2 ^ (53 - 1)) with 4503599627370496 in Hl.
  replace (e + 1074) with (1 + 1074 + (e - 1)) in Hlt by lia.
  rewrite (Z.pow_add_r 2 (1 + 1074) (e - 1)) in Hlt by lia.
  rewrite (Z.pow_add_r 2 1 1074) in Hlt by lia.
  change (2 ^ 1) with 2 in Hlt. change (2 ^ 53) with 9007199254740992 in Hlt.
  pose proof U_pos. pose proof (pow2_pos (e - 1) ltac:(lia)).
  set (R := 2 ^ (e - 1)) in *. set (V := 2 ^ 1074) in *.
  assert (4503599627370496 * (2 * V) * 1 <= Zpos m * (2 * V) * R) by nia.
  lia.
Qed.

Section Run.

Variable t : PrimFloat.float.
Hypothesis t_real : Freal t.
Hypothesis t_small : Z.abs (F2Z t) < 2 ^ 53 * U.

(** The difference of [t] and an integer between zero and [t] is a
    float. *)
Lemma difference_representable (a : PrimFloat.float) :
  Fint a -> Fbetween a t -> representable (F2Z t - F2Z a).
Proof.
  intros [n Hn] Hbt. unfold Fbetween in Hbt.
  pose proof (Freal_good t t_real) as Hg. unfold F2Z in *.
  destruct (FloatOps.Prim2SF t) as [s | s | | s m e] eqn:Ht;
    try (destruct Hg as [Hg _]; discriminate).
  - cbn [SF2Z] in *. left. lia.
  - destruct Hg as [_ Hb]. cbn [valid_binary] in Hb.
    destruct (bounded_facts m e Hb) as (He & _).
    pose proof (pow2_pos (e + 1074) ltac:(lia)) as Hp.
    assert (Hval : Z.abs (SF2Z (S754_finite s m e)) = Zpos m * 2 ^ (e + 1074))
      by (cbn [SF2Z]; destruct s; cbn [cond_Zopp]; lia).
    assert (He0 : e <= 0).
    { apply (small_float_grid m e Hb). rewrite <- Hval. exact t_small. }
    apply (representable_on_grid m e); [exact Hb | | lia].
    assert (HU : U = 2 ^ (- e) * 2 ^ (e + 1074)).
    { rewrite <- Z.pow_add_r by lia. f_equal. lia. }
    exists (cond_Zopp s (Zpos m) - n * 2 ^ (- e)).
    rewrite Hn, HU. cbn [SF2Z]. destruct s; cbn [cond_Zopp]; ring.
Qed.

Lemma integer_representable (v : Z) :
  (exists n : Z, v = n * U) -> Z.abs v <= Z.abs (F2Z t) -> representable v.
Proof.
  intros [n Hn] Hle. rewrite Hn. apply representable_integer.
  pose proof U_pos. rewrite Hn, Z.abs_mul, (Z.abs_eq U) in Hle by lia.
  nia.
Qed.


(** The restart test leaves a clock that is an integer between zero and
    [t]. *)
Lemma restart_test_exact (a0 : PrimFloat.float) :
  Freal a0 -> Fint a0 ->
  let a1 := clock_after_restart_test A64 t a0 in
  Freal a1 /\ Fint a1 /\ Fbetween a1 t /\
  (a1 = c_zero A64 \/ a1 = a0 /\ 720 * U <= Z.abs (F2Z t)) /\
  (Z.abs (F2Z t) < 720 * U -> a1 = c_zero A64).
Proof.
  intros Ha Hi a1. subst a1.
  unfold clock_after_restart_test, clock_restart_condition.
  destruct binary64_STEP_value as [Hs1 Hs2]. destruct binary64_zero_value as [Hz1 Hz2].
  destruct (abs_exact t t_real) as [Hat1 Hat2].
  destruct (abs_exact a0 Ha) as [Haa1 Haa2].
  change (c_ltb A64) with PrimFloat.ltb. change (c_leb A64) with PrimFloat.leb.
  change (c_fabs A64) with PrimFloat.abs. change (c_mul A64) with PrimFloat.mul.
  rewrite (ltb_exact _ _ Hat1 Hs1), (ltb_exact _ _ Hat1 Haa1).
  rewrite Hat2, Haa2, Hs2.
  assert (Hzero : Freal (c_zero A64) /\ Fint (c_zero A64) /\
                  Fbetween (c_zero A64) t).
  { split; [exact Hz1 | split; [exists 0; rewrite Hz2; reflexivity |]].
    unfold Fbetween. rewrite Hz2. lia. }
  destruct (Z.abs (F2Z t) <? 720 * U) eqn:H1; cbn [orb].
  - destruct Hzero as (Z1 & Z2 & Z3).
    split; [exact Z1 | split; [exact Z2 | split; [exact Z3 | split; [left; reflexivity | intros _; reflexivity]]]].
  - apply Z.ltb_ge in H1.
    destruct (PrimFloat.leb (PrimFloat.mul t a0) (c_zero A64)) eqn:H2; cbn [orb].
    + destruct Hzero as (Z1 & Z2 & Z3).
      split; [exact Z1 | split; [exact Z2 | split; [exact Z3 | split; [left; reflexivity | intros _; reflexivity]]]].
    + destruct (Z.abs (F2Z t) <? Z.abs (F2Z a0)) eqn:H3.
      * destruct Hzero as (Z1 & Z2 & Z3).
        split; [exact Z1 | split; [exact Z2 | split; [exact Z3 | split; [left; reflexivity | intros _; reflexivity]]]].
      * apply Z.ltb_ge in H3.
        pose proof (mul_positive t a0 t_real Ha H2) as Hpos.
        split; [exact Ha | split; [exact Hi | split; [| split]]].
        -- unfold Fbetween. nia.
        -- right. split; [reflexivity | exact H1].
        -- lia.
Qed.

Section Direction.

Variables (sg : Z) (delt : PrimFloat.float).
Hypothesis sg_cases : sg = 1 \/ sg = -1.
Hypothesis delt_real : Freal delt.
Hypothesis delt_value : F2Z delt = sg * (720 * U).

Lemma one_pass (a : PrimFloat.float) :
  Freal a -> Fint a -> 0 <= sg * F2Z a ->
  720 * U <= sg * (F2Z t - F2Z a) ->
  let a' := c_add A64 a delt in
  Freal a' /\ Fint a' /\ F2Z a' = F2Z a + sg * (720 * U) /\
  0 <= sg * F2Z a' /\ 0 <= sg * (F2Z t - F2Z a') /\
  c_leb A64 (c_STEP A64) (c_fabs A64 (c_sub A64 t a')) =
    (720 * U <=? sg * (F2Z t - F2Z a')).
Proof.
  intros Ha [n Hn] H0 Hfar a'. subst a'.
  pose proof U_pos as HU.
  change (c_add A64) with PrimFloat.add. change (c_sub A64) with PrimFloat.sub.
  change (c_leb A64) with PrimFloat.leb. change (c_fabs A64) with PrimFloat.abs.
  assert (Hrep : representable (F2Z a + F2Z delt)).
  { apply integer_representable.
    - exists (n + sg * 720). rewrite Hn, delt_value. ring.
    - rewrite delt_value. destruct sg_cases as [-> | ->]; lia. }
  destruct (add_exact a delt Ha delt_real Hrep) as [Hr Hv].
  rewrite delt_value in Hv.
  set (a' := PrimFloat.add a delt) in *.
  assert (Hi' : Fint a') by (exists (n + sg * 720); rewrite Hv, Hn; ring).
  assert (Hb' : Fbetween a' t)
    by (unfold Fbetween; rewrite Hv; destruct sg_cases as [-> | ->]; lia).
  destruct (sub_exact t a' t_real Hr (difference_representable a' Hi' Hb'))
    as [Hsr Hsv].
  destruct (abs_exact _ Hsr) as [Har Hav].
  destruct binary64_STEP_value as [Hs1 Hs2].
  rewrite (leb_exact _ _ Hs1 Har), Hs2, Hav, Hsv.
  split; [exact Hr | split; [exact Hi' | split; [exact Hv |]]].
  split; [rewrite Hv; destruct sg_cases as [-> | ->]; lia |].
  split; [rewrite Hv; destruct sg_cases as [-> | ->]; lia |].
  f_equal. rewrite Hv. destruct sg_cases as [-> | ->]; lia.
Qed.

Lemma loop_exact (k : nat) (a : PrimFloat.float) :
  Freal a -> Fint a -> 0 <= sg * F2Z a ->
  720 * U <= sg * (F2Z t - F2Z a) < (Z.of_nat k + 1) * (720 * U) ->
  exists n : nat,
    (1 <= n <= k)%nat /\
    (forall fuel, (n <= fuel)%nat ->
       clock_loop A64 fuel t delt a = Some (clock_passes A64 n delt a)) /\
    (forall j, (j <= n)%nat ->
       Freal (clock_passes A64 j delt a) /\
       Fint (clock_passes A64 j delt a) /\
       F2Z (clock_passes A64 j delt a) = F2Z a + Z.of_nat j * (sg * (720 * U))) /\
    (forall j, (j < n)%nat ->
       720 * U <= sg * (F2Z t - F2Z (clock_passes A64 j delt a))) /\
    0 <= sg * (F2Z t - F2Z (clock_passes A64 n delt a)) < 720 * U.
Proof.
  revert a. induction k as [| k IH]; intros a Ha Hi H0 Hfar.
  - exfalso. change (Z.of_nat 0) with 0 in Hfar. lia.
  - destruct (one_pass a Ha Hi H0 (proj1 Hfar))
      as (Hr & Hi' & Hv & H0' & Hd' & Hc).
    cbv zeta in Hr, Hi', Hv, H0', Hd', Hc.
    set (a' := c_add A64 a delt) in *.
    destruct (720 * U <=? sg * (F2Z t - F2Z a')) eqn:Hgo.
    + apply Z.leb_le in Hgo.
      destruct (IH a' Hr Hi' H0') as (n & Hn & Hloop & Hpass & Hcont & Hstop).
      { split; [exact Hgo |]. rewrite Hv. rewrite Nat2Z.inj_succ in Hfar. lia. }
      exists (Datatypes.S n). split; [lia |].
      split; [| split; [| split]].
      * intros fuel Hfuel. destruct fuel as [| fuel]; [lia |].
        cbn [clock_loop]. cbv zeta. fold a'. rewrite Hc.
        rewrite clock_passes_front. fold a'. apply Hloop. lia.
      * intros j Hj. destruct j as [| j].
        -- cbn [clock_passes]. split; [exact Ha | split; [exact Hi |]].
           change (Z.of_nat 0) with 0. lia.
        -- rewrite clock_passes_front. fold a'.
           destruct (Hpass j ltac:(lia)) as (P1 & P2 & P3).
           split; [exact P1 | split; [exact P2 |]].
           rewrite P3, Hv, Nat2Z.inj_succ. ring.
      * intros j Hj. destruct j as [| j].
        -- cbn [clock_passes]. apply Hfar.
        -- rewrite clock_passes_front. fold a'. apply Hcont. lia.
      * rewrite clock_passes_front. fold a'. exact Hstop.
    + apply Z.leb_gt in Hgo.
      exists 1%nat. split; [lia |].
      split; [| split; [| split]].
      * intros fuel Hfuel. destruct fuel as [| fuel]; [lia |].
        cbn [clock_loop clock_passes]. cbv zeta. fold a'. rewrite Hc.
        reflexivity.
      * intros j Hj. destruct j as [| [| j]]; [| | lia].
        -- cbn [clock_passes]. split; [exact Ha | split; [exact Hi |]].
           change (Z.of_nat 0) with 0. lia.
        -- cbn [clock_passes]. fold a'.
           split; [exact Hr | split; [exact Hi' |]]. rewrite Hv.
           change (Z.of_nat 1) with 1. lia.
      * intros j Hj. destruct j as [| j]; [| lia].
        cbn [clock_passes]. apply Hfar.
      * cbn [clock_passes]. fold a'. lia.
Qed.

End Direction.

End Run.

Lemma Prim2SF_infinity :
  FloatOps.Prim2SF PrimFloat.infinity = S754_infinity false.
Proof. vm_compute. reflexivity. Qed.

Lemma Freal_is_finite (x : PrimFloat.float) :
  Freal x -> PrimFloat.is_finite x = true.
Proof.
  intro Hx. pose proof (Freal_good x Hx) as Hg.
  unfold PrimFloat.is_finite, PrimFloat.is_nan, PrimFloat.is_infinity.
  rewrite !FloatAxioms.eqb_spec, FloatAxioms.abs_spec, Prim2SF_infinity.
  unfold SFeqb. rewrite (SFcompare_exact _ _ Hg Hg), Z.compare_refl.
  unfold Freal in Hx.
  destruct (FloatOps.Prim2SF x) as [s | s | | s m e]; try discriminate;
    reflexivity.
Qed.

(** The run of lines 1108-1155 on the clock, in binary64, for a time below
    [2^53] minutes and a clock that is an integer: in units of
    [2^-1074] minutes. *)
Lemma binary64_run_exact (t a0 : PrimFloat.float) :
  Freal t -> Z.abs (F2Z t) < 2 ^ 53 * U ->
  Freal a0 -> Fint a0 ->
  let a1 := clock_after_restart_test A64 t a0 in
  let delt := clock_delt A64 (c_sub A64 t a1) in
  exists sg : Z,
    (sg = 1 /\ delt = c_STEP A64 \/ sg = -1 /\ delt = c_opp A64 (c_STEP A64)) /\
    F2Z delt = sg * (720 * U) /\
    (a1 = c_zero A64 \/ a1 = a0) /\
    if clock_loop_entered A64 t a1 then
      exists n : nat,
        (1 <= n)%nat /\
        (forall fuel, (n <= fuel)%nat ->
           clock_loop A64 fuel t delt a1 = Some (clock_passes A64 n delt a1)) /\
        (forall j, (j <= n)%nat ->
           Freal (clock_passes A64 j delt a1) /\
           Fint (clock_passes A64 j delt a1) /\
           F2Z (clock_passes A64 j delt a1) =
             F2Z a1 + Z.of_nat j * (sg * (720 * U))) /\
        (forall j, (j < n)%nat ->
           720 * U <= sg * (F2Z t - F2Z (clock_passes A64 j delt a1))) /\
        0 <= sg * (F2Z t - F2Z (clock_passes A64 n delt a1)) < 720 * U /\
        0 <= sg * F2Z a1 /\
        F2Z (c_sub A64 t (clock_passes A64 n delt a1)) =
          F2Z t - F2Z (clock_passes A64 n delt a1)
    else
      Freal a1 /\ Fint a1 /\ Z.abs (F2Z t - F2Z a1) < 720 * U /\
      Fbetween a1 t /\
      F2Z (c_sub A64 t a1) = F2Z t - F2Z a1.
Proof.
  intros Ht Hsmall Ha Hi a1 delt.
  destruct (restart_test_exact t Ht Hsmall a0 Ha Hi) as (Hr1 & Hi1 & Hb1 & Hor & _).
  fold a1 in Hr1, Hi1, Hb1, Hor.
  destruct binary64_STEP_value as [Hs1 Hs2]. destruct binary64_zero_value as [Hz1 Hz2].
  destruct (sub_exact t a1 Ht Hr1
              (difference_representable t Ht Hsmall a1 Hi1 Hb1)) as [Hfr Hfv].
  destruct (abs_exact _ Hfr) as [Har Hav].
  destruct (opp_exact _ Hs1) as [Hor1 Hov].
  pose proof U_pos as HU.
  set (sg := if 0 <=? F2Z t - F2Z a1 then 1 else -1).
  assert (Hdelt : sg = 1 /\ delt = c_STEP A64 \/
                  sg = -1 /\ delt = c_opp A64 (c_STEP A64)).
  { subst delt sg. unfold clock_delt.
    change (c_leb A64) with PrimFloat.leb. change (c_sub A64) with PrimFloat.sub.
    rewrite (leb_exact _ _ Hz1 Hfr), Hz2, Hfv.
    destruct (0 <=? F2Z t - F2Z a1); [left | right]; split; reflexivity. }
  assert (Hdv : F2Z delt = sg * (720 * U)).
  { destruct Hdelt as [[-> ->] | [-> ->]].
    - rewrite Hs2. lia.
    - change (c_opp A64) with PrimFloat.opp. rewrite Hov, Hs2. lia. }
  assert (Hdr : Freal delt).
  { destruct Hdelt as [[_ ->] | [_ ->]]; [exact Hs1 | exact Hor1]. }
  assert (Hsg : sg = 1 \/ sg = -1) by (destruct Hdelt as [[-> _] | [-> _]]; auto).
  exists sg. split; [exact Hdelt | split; [exact Hdv | split]].
  { destruct Hor as [-> | [-> _]]; auto. }
  unfold clock_loop_entered.
  change (c_leb A64) with PrimFloat.leb. change (c_sub A64) with PrimFloat.sub.
  change (c_fabs A64) with PrimFloat.abs.
  rewrite (leb_exact _ _ Hs1 Har), Hs2, Hav, Hfv.
  destruct (720 * U <=? Z.abs (F2Z t - F2Z a1)) eqn:Hgo.
  - apply Z.leb_le in Hgo.
    assert (Hdir : 720 * U <= sg * (F2Z t - F2Z a1)).
    { subst sg. destruct (0 <=? F2Z t - F2Z a1) eqn:Hd;
        [apply Z.leb_le in Hd | apply Z.leb_gt in Hd]; lia. }
    assert (H0 : 0 <= sg * F2Z a1).
    { unfold Fbetween in Hb1. destruct Hsg as [E | E]; rewrite E in *; lia. }
    set (x := sg * (F2Z t - F2Z a1)) in *.
    assert (Hk : x < (Z.of_nat (Z.to_nat (x / (720 * U))) + 1) * (720 * U)).
    { rewrite Z2Nat.id by (apply Z.div_pos; lia).
      pose proof (Z.mul_succ_div_gt x (720 * U) ltac:(lia)). lia. }
    destruct (loop_exact t Ht Hsmall sg delt Hsg Hdr Hdv
                (Z.to_nat (x / (720 * U))) a1 Hr1 Hi1 H0 (conj Hdir Hk))
      as (n & Hn & Hloop & Hpass & Hcont & Hstop).
    exists n. split; [lia |].
    split; [exact Hloop | split; [exact Hpass | split; [exact Hcont |]]].
    split; [exact Hstop | split; [exact H0 |]].
    destruct (Hpass n ltac:(lia)) as (Pr & Pi & Pv).
    assert (Hbn : Fbetween (clock_passes A64 n delt a1) t).
    { unfold Fbetween. subst x.
      assert (0 <= Z.of_nat n * (720 * U)) by (apply Z.mul_nonneg_nonneg; lia).
      rewrite Pv in *. destruct Hsg as [E | E]; rewrite E in *; lia. }
    apply (sub_exact t _ Ht Pr
             (difference_representable t Ht Hsmall _ Pi Hbn)).
  - apply Z.leb_gt in Hgo.
    split; [exact Hr1 | split; [exact Hi1 | split; [exact Hgo |]]].
    split; [exact Hb1 | reflexivity].
Qed.

Lemma two_1074_value : Zpos two_1074 = U.
Proof. vm_compute. reflexivity. Qed.

Lemma F2Q_eq_int (x : PrimFloat.float) (k : Z) :
  (F2Q x == inject_Z k)%Q <-> F2Z x = k * U.
Proof.
  unfold F2Q, Qeq. cbn [Qnum Qden inject_Z]. rewrite two_1074_value. lia.
Qed.

Lemma F2Q_lt_int (v k : Z) :
  (v # two_1074 < inject_Z k)%Q <-> v < k * U.
Proof.
  unfold Qlt. cbn [Qnum Qden inject_Z]. rewrite two_1074_value. lia.
Qed.

Lemma F2Q_plus (x y z : PrimFloat.float) :
  F2Z x = F2Z y + F2Z z -> (F2Q x == F2Q y + F2Q z)%Q.
Proof.
  intro H. unfold F2Q. rewrite Qinv_plus_distr, H. reflexivity.
Qed.

Lemma F2Q_minus (x y z : PrimFloat.float) :
  F2Z x = F2Z y - F2Z z -> (F2Q x == F2Q y - F2Q z)%Q.
Proof.
  intro H. unfold F2Q, Qminus. rewrite Qinv_minus_distr, H. reflexivity.
Qed.

Lemma F2Q_abs_minus (x y : PrimFloat.float) :
  Qabs (F2Q x - F2Q y) == (Z.abs (F2Z x - F2Z y) # two_1074).
Proof.
  unfold F2Q.
  transitivity (Qabs (F2Z x - F2Z y # two_1074));
    [apply Qabs_wd, Qinv_minus_distr | reflexivity].
Qed.

Lemma inject_Z_two_1074 (k : Z) : (inject_Z k == (k * U # two_1074))%Q.
Proof.
  unfold Qeq. cbn [Qnum Qden inject_Z]. rewrite two_1074_value. lia.
Qed.

Lemma Zq_lt (v w : Z) : (v # two_1074 < w # two_1074)%Q <-> v < w.
Proof.
  unfold Qlt. cbn [Qnum Qden]. rewrite two_1074_value. pose proof U_pos. nia.
Qed.

Lemma Zq_eq (v w : Z) : (v # two_1074 == w # two_1074)%Q <-> v = w.
Proof.
  unfold Qeq. cbn [Qnum Qden]. rewrite two_1074_value. pose proof U_pos. nia.
Qed.

Lemma Zq_step (v w : Z) :
  v = w - 720 * U -> (v # two_1074 == (w # two_1074) - 720)%Q.
Proof.
  intros ->. unfold Qeq, Qminus, Qplus, Qopp. cbn [Qnum Qden].
  rewrite Pos2Z.inj_mul, two_1074_value. ring.
Qed.

Lemma Fint_F2Q (a : PrimFloat.float) :
  Fint a <-> exists k : Z, (F2Q a == inject_Z k)%Q.
Proof.
  split; intros [k Hk]; exists k;
    [exact (proj2 (F2Q_eq_int _ _) Hk) | exact (proj1 (F2Q_eq_int _ _) Hk)].
Qed.

(** In binary64, for a time [t] below [2^53] minutes and a clock that is an
    integer, lines 1108-1155 run on the clock as they do in exact
    arithmetic. *)
Lemma binary64_run (t a0 : PrimFloat.float) :
  PrimFloat.is_finite t = true ->
  (Qabs (F2Q t) < 9007199254740992)%Q ->
  PrimFloat.is_finite a0 = true ->
  (exists k : Z, (F2Q a0 == inject_Z k)%Q) ->
  let a1 := clock_after_restart_test A64 t a0 in
  let delt := clock_delt A64 (c_sub A64 t a1) in
  (delt = c_STEP A64 /\ (F2Q delt == 720)%Q \/
   delt = c_opp A64 (c_STEP A64) /\ (F2Q delt == -720)%Q) /\
  (a1 = c_zero A64 \/ a1 = a0) /\
  if clock_loop_entered A64 t a1 then
    exists n : nat,
      (1 <= n)%nat /\
      (forall fuel, (n <= fuel)%nat ->
         clock_loop A64 fuel t delt a1 = Some (clock_passes A64 n delt a1)) /\
      (forall j, (j < n)%nat ->
         (F2Q (clock_passes A64 (Datatypes.S j) delt a1) ==
            F2Q (clock_passes A64 j delt a1) + F2Q delt)%Q /\
         (Qabs (F2Q t - F2Q (clock_passes A64 (Datatypes.S j) delt a1)) ==
            Qabs (F2Q t - F2Q (clock_passes A64 j delt a1)) - 720)%Q) /\
      (Qabs (F2Q t - F2Q (clock_passes A64 n delt a1)) < 720)%Q /\
      (F2Q (c_sub A64 t (clock_passes A64 n delt a1)) ==
         F2Q t - F2Q (clock_passes A64 n delt a1))%Q /\
      PrimFloat.is_finite (clock_passes A64 n delt a1) = true /\
      (exists k : Z, (F2Q (clock_passes A64 n delt a1) == inject_Z k)%Q)
  else
    (Qabs (F2Q t - F2Q a1) < 720)%Q /\
    (F2Q (c_sub A64 t a1) == F2Q t - F2Q a1)%Q /\
    PrimFloat.is_finite a1 = true /\
    (exists k : Z, (F2Q a1 == inject_Z k)%Q).
Proof.
  intros Ht Hsmall Ha Hi a1 delt.
  apply is_finite_Freal in Ht, Ha. apply (proj2 (Fint_F2Q _)) in Hi.
  assert (Hsmall' : Z.abs (F2Z t) < 2 ^ 53 * U).
  { change (Qabs (F2Q t)) with (Z.abs (F2Z t) # two_1074)%Q in Hsmall.
    change 9007199254740992%Q with (inject_Z (2 ^ 53)) in Hsmall.
    exact (proj1 (F2Q_lt_int _ _) Hsmall). }
  destruct (binary64_run_exact t a0 Ht Hsmall' Ha Hi)
    as (sg & Hdelt & Hdv & Hor & Hrun).
  fold a1 in Hdelt, Hdv, Hor, Hrun. fold delt in Hdelt, Hdv, Hrun.
  assert (Hsg : sg = 1 \/ sg = -1) by (destruct Hdelt as [[-> _] | [-> _]]; auto).
  pose proof U_pos as HU.
  split; [| split; [exact Hor |]].
  { destruct Hdelt as [[E1 E2] | [E1 E2]]; [left | right];
      (split; [exact E2 |]).
    - change 720%Q with (inject_Z 720). apply (proj2 (F2Q_eq_int _ _)). rewrite Hdv, E1. lia.
    - change (-720)%Q with (inject_Z (-720)). apply (proj2 (F2Q_eq_int _ _)).
      rewrite Hdv, E1. lia. }
  destruct (clock_loop_entered A64 t a1).
  - destruct Hrun as (n & Hn & Hloop & Hpass & Hcont & Hstop & _ & Hft).
    exists n. split; [exact Hn | split; [exact Hloop |
      split; [| split; [| split; [| split]]]]].
    + intros j Hj.
      destruct (Hpass j ltac:(lia)) as (_ & _ & Pj).
      destruct (Hpass (Datatypes.S j) ltac:(lia)) as (_ & _ & PSj).
      pose proof (Hcont j Hj) as Cj.
      rewrite Nat2Z.inj_succ in PSj.
      split.
      * apply F2Q_plus. rewrite PSj, Pj, Hdv. ring.
      * rewrite !F2Q_abs_minus.
        apply Zq_step. rewrite PSj, Pj in *.
        destruct Hsg as [E | E]; rewrite E in *; lia.
    + rewrite F2Q_abs_minus. change 720%Q with (inject_Z 720).
      apply (proj2 (F2Q_lt_int _ _)). destruct Hsg as [E | E]; rewrite E in *; lia.
    + apply F2Q_minus. exact Hft.
    + apply Freal_is_finite. apply (Hpass n ltac:(lia)).
    + apply (proj1 (Fint_F2Q _)). apply (Hpass n ltac:(lia)).
  - destruct Hrun as (Hr1 & Hi1 & Hnear & _ & Hft).
    split; [| split; [| split]].
    + rewrite F2Q_abs_minus. change 720%Q with (inject_Z 720).
      apply (proj2 (F2Q_lt_int _ _)). exact Hnear.
    + apply F2Q_minus. exact Hft.
    + apply Freal_is_finite. exact Hr1.
    + apply (proj1 (Fint_F2Q _)). exact Hi1.
Qed.

(** The clock that a call leaves, in units of [2^-1074] minutes. *)
Lemma binary64_integrate_to_exact (t a0 : PrimFloat.float) :
  Freal t -> Z.abs (F2Z t) < 2 ^ 53 * U ->
  Freal a0 -> Fint a0 ->
  exists (n : nat) (af : PrimFloat.float),
    (forall fuel, (n <= fuel)%nat ->
       clock_integrate_to A64 fuel t a0 = Some af) /\
    Freal af /\ Fint af /\ Fbetween af t /\
    Z.abs (F2Z t - F2Z af) < 720 * U /\
    (720 * U <= Z.abs (F2Z t) -> F2Z af <> 0) /\
    (Fsteps a0 -> Fsteps af).
Proof.
  intros Ht Hsmall Ha Hi.
  destruct (binary64_run_exact t a0 Ht Hsmall Ha Hi)
    as (sg & Hdelt & Hdv & Hor & Hrun).
  cbv zeta in Hdelt, Hdv, Hor, Hrun.
  destruct binary64_zero_value as [Hz1 Hz2]. pose proof U_pos as HU.
  assert (Hsg : sg = 1 \/ sg = -1) by (destruct Hdelt as [[-> _] | [-> _]]; auto).
  set (a1 := clock_after_restart_test A64 t a0) in *.
  set (delt := clock_delt A64 (c_sub A64 t a1)) in *.
  assert (Hs1 : Fsteps a0 -> Fsteps a1).
  { intro Hs. destruct Hor as [-> | ->]; [| exact Hs].
    exists 0. rewrite Hz2. reflexivity. }
  unfold clock_integrate_to. cbv zeta. fold a1. fold delt.
  destruct (clock_loop_entered A64 t a1).
  - destruct Hrun as (n & Hn & Hloop & Hpass & Hcont & Hstop & H0 & _).
    destruct (Hpass n ltac:(lia)) as (Pr & Pi & Pv).
    assert (Hnn : 0 <= Z.of_nat n * (720 * U))
      by (apply Z.mul_nonneg_nonneg; lia).
    assert (Hn1 : 720 * U <= Z.of_nat n * (720 * U)).
    { replace (720 * U) with (1 * (720 * U)) at 1 by ring.
      apply Z.mul_le_mono_nonneg_r; lia. }
    exists n, (clock_passes A64 n delt a1).
    split; [exact Hloop | split; [exact Pr | split; [exact Pi |]]].
    split; [| split; [| split]].
    + unfold Fbetween. rewrite Pv in *.
      destruct Hsg as [E | E]; rewrite E in *; lia.
    + rewrite Pv in *. destruct Hsg as [E | E]; rewrite E in *; lia.
    + intros _. rewrite Pv. destruct Hsg as [E | E]; rewrite E in *; lia.
    + intro Hs. destruct (Hs1 Hs) as [k Hk].
      exists (k + Z.of_nat n * sg). rewrite Pv, Hk. ring.
  - destruct Hrun as (Hr1 & Hi1 & Hnear & Hb1 & _).
    exists 0%nat, a1.
    split; [intros; reflexivity | split; [exact Hr1 | split; [exact Hi1 |]]].
    split; [exact Hb1 | split; [exact Hnear | split; [| exact Hs1]]].
    intros Hfar Hz. rewrite Hz in Hnear. lia.
Qed.

(** The whole multiple of 720 that is less than 720 away from [t], on the
    side of zero. *)
Lemma steps_closed_form (T A : Z) :
  (0 <= A <= T \/ T <= A <= 0) ->
  Z.abs (T - A) < 720 * U ->
  (exists k : Z, A = k * (720 * U)) ->
  A = (if 0 <=? T then 1 else -1) * (720 * U) * (Z.abs T / (720 * U)).
Proof.
  intros Hb Hnear [k Hk]. pose proof U_pos as HU.
  destruct (0 <=? T) eqn:Hs; [apply Z.leb_le in Hs | apply Z.leb_gt in Hs].
  - assert (Hq : Z.abs T / (720 * U) = k).
    { symmetry. apply (Z.div_unique _ _ k (T - A)); lia. }
    rewrite Hq, Hk. ring.
  - assert (Hq : Z.abs T / (720 * U) = - k).
    { symmetry. apply (Z.div_unique _ _ (- k) (A - T)); lia. }
    rewrite Hq, Hk. ring.
Qed.

Lemma Zq_le (v w : Z) : (v # two_1074 <= w # two_1074)%Q <-> v <= w.
Proof.
  unfold Qle. cbn [Qnum Qden]. rewrite two_1074_value. pose proof U_pos. nia.
Qed.

Lemma F2Q_le_int (v k : Z) : (inject_Z k <= v # two_1074)%Q <-> k * U <= v.
Proof.
  unfold Qle. cbn [Qnum Qden inject_Z]. rewrite two_1074_value. lia.
Qed.

Lemma Fsteps_F2Q (a : PrimFloat.float) :
  Fsteps a <-> exists k : Z, (F2Q a == 720 * inject_Z k)%Q.
Proof.
  assert (H : forall k : Z,
             (F2Q a == 720 * inject_Z k)%Q <-> F2Z a = k * (720 * U)).
  { intro k. unfold F2Q, Qeq, Qmult. cbn [Qnum Qden inject_Z].
    rewrite two_1074_value. lia. }
  split; intros [k Hk]; exists k; apply H; exact Hk.
Qed.

Lemma F2Q_ge_int (v k : Z) : (v # two_1074 <= inject_Z k)%Q <-> v <= k * U.
Proof.
  unfold Qle. cbn [Qnum Qden inject_Z]. rewrite two_1074_value. lia.
Qed.

Lemma Fbetween_F2Q (a t : PrimFloat.float) :
  Fbetween a t <->
  (0 <= F2Q a /\ F2Q a <= F2Q t \/ F2Q t <= F2Q a /\ F2Q a <= 0)%Q.
Proof.
  unfold Fbetween, F2Q. change 0%Q with (inject_Z 0).
  rewrite !Zq_le, F2Q_le_int, F2Q_ge_int. lia.
Qed.

Lemma STEP_720 : (STEP == inject_Z 720)%Q.
Proof. vm_compute. reflexivity. Qed.

(** The number of steps of 720 minutes in [|t|]. *)
Lemma Qfloor_steps (t : PrimFloat.float) :
  Qfloor (fabs (F2Q t) / STEP) = Z.abs (F2Z t) / (720 * U).
Proof.
  pose proof U_pos as HU.
  set (q := Z.abs (F2Z t) / (720 * U)).
  assert (Hlo : q * (720 * U) <= Z.abs (F2Z t))
    by (subst q; rewrite Z.mul_comm; apply Z.mul_div_le; lia).
  assert (Hhi : Z.abs (F2Z t) < (q + 1) * (720 * U)).
  { subst q. pose proof (Z.mul_succ_div_gt (Z.abs (F2Z t)) (720 * U) ltac:(lia)).
    lia. }
  change (fabs (F2Q t)) with (Z.abs (F2Z t) # two_1074)%Q.
  rewrite (Qfloor_comp _ ((Z.abs (F2Z t) # two_1074) / inject_Z 720))
    by (rewrite STEP_720; reflexivity).
  set (x := ((Z.abs (F2Z t) # two_1074) / inject_Z 720)%Q).
  assert (H1 : (inject_Z q <= x)%Q).
  { subst x. apply Qle_shift_div_l; [reflexivity |].
    unfold Qle, Qmult. cbn [Qnum Qden inject_Z].
    rewrite two_1074_value. lia. }
  assert (H2 : (x < inject_Z (q + 1))%Q).
  { subst x. apply Qlt_shift_div_r; [reflexivity |].
    unfold Qlt, Qmult. cbn [Qnum Qden inject_Z].
    rewrite two_1074_value. lia. }
  apply Qfloor_resp_le in H1. rewrite Qfloor_Z in H1.
  pose proof (Qfloor_le x) as H3.
  assert (H4 : (inject_Z (Qfloor x) < inject_Z (q + 1))%Q)
    by (apply (Qle_lt_trans _ x); assumption).
  rewrite <- Zlt_Qlt in H4. lia.
Qed.

(** In binary64, a call at a finite time [t] below [2^53] minutes, on a
    clock that is a whole number. *)
Lemma binary64_integrate_to (t a0 : PrimFloat.float) :
  PrimFloat.is_finite t = true ->
  (Qabs (F2Q t) < 9007199254740992)%Q ->
  PrimFloat.is_finite a0 = true ->
  (exists k : Z, (F2Q a0 == inject_Z k)%Q) ->
  exists (n : nat) (af : PrimFloat.float),
    (forall fuel, (n <= fuel)%nat ->
       clock_integrate_to A64 fuel t a0 = Some af) /\
    PrimFloat.is_finite af = true /\
    (exists k : Z, (F2Q af == inject_Z k)%Q) /\
    (fabs (F2Q t - F2Q af) < STEP)%Q /\
    (0 <= F2Q af /\ F2Q af <= F2Q t \/ F2Q t <= F2Q af /\ F2Q af <= 0)%Q /\
    (STEP <= fabs (F2Q t) -> ~ F2Q af == 0)%Q /\
    ((exists k : Z, (F2Q a0 == 720 * inject_Z k)%Q) ->
     (F2Q af ==
        step_toward (F2Q t) * inject_Z (Qfloor (fabs (F2Q t) / STEP)))%Q).
Proof.
  intros Ht Hsmall Ha Hi.
  apply is_finite_Freal in Ht, Ha. apply (proj2 (Fint_F2Q _)) in Hi.
  assert (Hsmall' : Z.abs (F2Z t) < 2 ^ 53 * U).
  { change (Qabs (F2Q t)) with (Z.abs (F2Z t) # two_1074)%Q in Hsmall.
    change 9007199254740992%Q with (inject_Z (2 ^ 53)) in Hsmall.
    exact (proj1 (F2Q_lt_int _ _) Hsmall). }
  destruct (binary64_integrate_to_exact t a0 Ht Hsmall' Ha Hi)
    as (n & af & Hrun & Hr & Hint & Hb & Hnear & Hnz & Hst).
  pose proof U_pos as HU.
  exists n, af. split; [exact Hrun |].
  split; [apply Freal_is_finite; exact Hr |].
  split; [apply (proj1 (Fint_F2Q _)); exact Hint |].
  split; [| split; [apply (proj1 (Fbetween_F2Q _ _)); exact Hb | split]].
  - unfold fabs. rewrite F2Q_abs_minus, STEP_720.
    apply (proj2 (F2Q_lt_int _ _)). exact Hnear.
  - intros Hfar Hz.
    change (fabs (F2Q t)) with (Z.abs (F2Z t) # two_1074)%Q in Hfar.
    rewrite STEP_720 in Hfar.
    apply (proj1 (F2Q_le_int _ _)) in Hfar.
    change 0%Q with (inject_Z 0) in Hz.
    apply (proj1 (F2Q_eq_int _ _)) in Hz. apply (Hnz Hfar). lia.
  - intro Hs0. apply (proj2 (Fsteps_F2Q _)) in Hs0.
    destruct (Hst Hs0) as [k Hk].
    pose proof (steps_closed_form (F2Z t) (F2Z af) Hb Hnear
                  (ex_intro _ k Hk)) as Hcf.
    rewrite Qfloor_steps. unfold step_toward.
    assert (Hsign : (F2Q t >=? 0.0)%Q = (0 <=? F2Z t)%Z).
    { destruct (0 <=? F2Z t)%Z eqn:Hs.
      - apply Qgeb_true. apply Z.leb_le in Hs.
        assert (G : (inject_Z 0 <= F2Q t)%Q)
          by (apply (proj2 (F2Q_le_int _ _)); lia).
        change (inject_Z 0) with 0%Q in G. qlra.
      - apply Qgeb_false. apply Z.leb_gt in Hs.
        assert (G : (F2Q t < inject_Z 0)%Q)
          by (apply (proj2 (F2Q_lt_int _ _)); lia).
        change (inject_Z 0) with 0%Q in G. qlra. }
    rewrite Hsign.
    set (q := (Z.abs (F2Z t) / (720 * U))%Z) in *.
    destruct (0 <=? F2Z t)%Z.
    + rewrite STEP_720, <- inject_Z_mult.
      apply (proj2 (F2Q_eq_int _ _)). rewrite Hcf. ring.
    + rewrite STEP_720, <- inject_Z_opp, <- inject_Z_mult.
      apply (proj2 (F2Q_eq_int _ _)). rewrite Hcf. ring.
Qed.

Lemma Fsteps_Fint (a : PrimFloat.float) : Fsteps a -> Fint a.
Proof. intros [k Hk]. exists (k * 720)%Z. rewrite Hk. ring. Qed.

Lemma is_finite_small (x : PrimFloat.float) :
  PrimFloat.is_finite x = true /\ (Qabs (F2Q x) < 9007199254740992)%Q ->
  Freal x /\ Z.abs (F2Z x) < 2 ^ 53 * U.
Proof.
  intros [Hx Hsmall]. split; [apply is_finite_Freal; exact Hx |].
  change (Qabs (F2Q x)) with (Z.abs (F2Z x) # two_1074)%Q in Hsmall.
  change 9007199254740992%Q with (inject_Z (2 ^ 53)) in Hsmall.
  exact (proj1 (F2Q_lt_int _ _) Hsmall).
Qed.

(** Calls at finite times below [2^53] minutes leave a clock that is a
    whole multiple of 720 as they found it. *)
Lemma binary64_calls_exact (ts : list PrimFloat.float) (a0 : PrimFloat.float) :
  (forall x, In x ts ->
     PrimFloat.is_finite x = true /\ (Qabs (F2Q x) < 9007199254740992)%Q) ->
  Freal a0 -> Fsteps a0 ->
  exists (n : nat) (a : PrimFloat.float),
    (forall fuel, (n <= fuel)%nat -> clock_calls A64 fuel ts a0 = Some a) /\
    Freal a /\ Fsteps a.
Proof.
  revert a0. induction ts as [| x ts IH]; intros a0 Hts Ha Hs.
  - exists 0%nat, a0. split; [intros; reflexivity | split; assumption].
  - destruct (is_finite_small x (Hts x (or_introl eq_refl))) as [Hx Hsmall].
    destruct (binary64_integrate_to_exact x a0 Hx Hsmall Ha (Fsteps_Fint _ Hs))
      as (n1 & a1 & Hrun & Hr1 & _ & _ & _ & _ & Hst).
    destruct (IH a1 (fun y Hy => Hts y (or_intror Hy)) Hr1 (Hst Hs))
      as (n2 & a & Hcalls & Hr & Hsa).
    exists (Nat.max n1 n2), a. split; [| split; assumption].
    intros fuel Hfuel. cbn [clock_calls].
    rewrite (Hrun fuel) by lia. apply Hcalls. lia.
Qed.

(** In binary64, after [SetTle] (a clock of zero), calls at the times
    [ts] and a call at the time [t], all finite and below [2^53] minutes,
    leave the clock at the whole number of steps of 720 minutes that fit
    between the epoch and [t]. *)
Lemma binary64_clock_closed_form (ts : list PrimFloat.float)
  (t : PrimFloat.float) :
  (forall x, In x (t :: ts) ->
     PrimFloat.is_finite x = true /\ (Qabs (F2Q x) < 9007199254740992)%Q) ->
  exists (n : nat) (a af : PrimFloat.float),
    (forall fuel, (n <= fuel)%nat ->
       clock_calls A64 fuel ts (c_zero A64) = Some a /\
       clock_integrate_to A64 fuel t a = Some af) /\
    (F2Q af ==
       step_toward (F2Q t) * inject_Z (Qfloor (fabs (F2Q t) / STEP)))%Q.
Proof.
  intro Hall. destruct binary64_zero_value as [Hz1 Hz2].
  assert (Hz3 : Fsteps (c_zero A64)) by (exists 0%Z; rewrite Hz2; reflexivity).
  destruct (binary64_calls_exact ts (c_zero A64)
              (fun y Hy => Hall y (or_intror Hy)) Hz1 Hz3)
    as (n1 & a & Hcalls & Hr & Hs).
  destruct (Hall t (or_introl eq_refl)) as [Ht Hsmall].
  destruct (binary64_integrate_to t a Ht Hsmall (Freal_is_finite a Hr)
              (proj1 (Fint_F2Q _) (Fsteps_Fint _ Hs)))
    as (n2 & af & Hrun & _ & _ & _ & _ & _ & Hcf).
  exists (Nat.max n1 n2), a, af. split.
  - intros fuel Hfuel. split; [apply Hcalls | apply Hrun]; lia.
  - apply Hcf. apply (proj1 (Fsteps_F2Q _)). exact Hs.
Qed.

End Binary64Facts.
Section Properties.

Context {E : Extern}.

(** ** Element intake *)

Lemma SetTle_Ok_inv (tle : Tle) (s : SGP4) :
  SetTle tle = Ok s ->
  s = recover_and_initialize tle /\
  0.0 <= tle_Eccentricity tle /\ tle_Eccentricity tle <= 1.0 - 1.0e-3 /\
  0.0 <= tle_Inclination tle.
Proof.
  unfold SetTle.
  destruct ((tle_Eccentricity tle <? 0.0) || (tle_Eccentricity tle >? 1.0 - 1.0e-3))
    eqn:He; [discriminate |].
  destruct ((tle_Inclination tle <? 0.0) || (tle_Eccentricity tle >? PI))
    eqn:Hi; [discriminate |].
  intro H. injection H as <-. cmp_hyps. auto.
Qed.

Lemma SetTle_Ok_intro (tle : Tle) :
  0.0 <= tle_Eccentricity tle -> tle_Eccentricity tle <= 1.0 - 1.0e-3 ->
  0.0 <= tle_Inclination tle ->
  SetTle tle = Ok (recover_and_initialize tle).
Proof.
  intros H1 H2 H3. unfold SetTle.
  replace ((tle_Eccentricity tle <? 0.0) || (tle_Eccentricity tle >? 1.0 - 1.0e-3))
    with false.
  2:{ symmetry. cmp_goal; qlra. }
  replace ((tle_Inclination tle <? 0.0) || (tle_Eccentricity tle >? PI)) with false.
  2:{ symmetry. cmp_goal; [lra |]. unfold PI. qlra. }
  reflexivity.
Qed.

(** C1.  [SetTle] accepts an element set whose inclination is above pi:
    with eccentricity 0.5 and inclination 4 radians no exception is thrown,
    the second test of line 78 reading the eccentricity. *)
Theorem SetTle_accepts_inclination_above_PI :
  PI < tle_Inclination tle_inclination_4 /\
  SetTle tle_inclination_4 = Ok (recover_and_initialize tle_inclination_4).
Proof.
  split.
  - unfold tle_inclination_4. cbn [tle_Inclination]. unfold PI. lra.
  - apply SetTle_Ok_intro; unfold tle_inclination_4;
      cbn [tle_Inclination tle_Eccentricity]; qlra.
Qed.

(** [SetTle] throws exactly when the eccentricity is out of range or the
    inclination is negative; the inclination is never compared with pi. *)
Lemma SetTle_throws_iff (tle : Tle) :
  is_ok (SetTle tle) = false <->
  tle_Eccentricity tle < 0.0 \/ 1.0 - 1.0e-3 < tle_Eccentricity tle \/
  tle_Inclination tle < 0.0.
Proof.
  unfold SetTle.
  destruct ((tle_Eccentricity tle <? 0.0) || (tle_Eccentricity tle >? 1.0 - 1.0e-3))
    eqn:He.
  - simpl. cmp_hyps; split; auto.
  - destruct ((tle_Inclination tle <? 0.0) || (tle_Eccentricity tle >? PI)) eqn:Hi.
    + simpl. cmp_hyps; split; auto. intros _. right. left. unfold PI in Hi. qlra.
    + simpl. cmp_hyps. split; [discriminate |]. intros [G | [G | G]]; qlra.
Qed.


(** ** Eccentricity validation in the two propagation paths *)

Lemma check_eccentricity_throws (e : double) :
  check_eccentricity e = Throw error_1 <-> (1.0 <= e \/ e < -0.001).
Proof.
  unfold check_eccentricity.
  destruct ((e >=? 1.0) || (e <? -0.001)) eqn:Hc.
  - cmp_hyps; split; auto.
  - cmp_hyps. split; [discriminate |]. intros [G | G]; lra.
Qed.

Lemma check_eccentricity_clamps (e : double) :
  -0.001 <= e -> e < 1.0e-6 -> check_eccentricity e = Ok 1.0e-6.
Proof.
  intros H1 H2. unfold check_eccentricity.
  replace ((e >=? 1.0) || (e <? -0.001)) with false
    by (symmetry; cmp_goal; qlra).
  replace (e <? 1.0e-6) with true by (symmetry; cmp_goal; qlra).
  reflexivity.
Qed.

Lemma check_eccentricity_keeps (e : double) :
  1.0e-6 <= e -> e < 1.0 -> check_eccentricity e = Ok e.
Proof.
  intros H1 H2. unfold check_eccentricity.
  replace ((e >=? 1.0) || (e <? -0.001)) with false
    by (symmetry; cmp_goal; qlra).
  replace (e <? 1.0e-6) with false by (symmetry; cmp_goal; qlra).
  reflexivity.
Qed.

Lemma check_eccentricity_Ok_inv (e e' : double) :
  check_eccentricity e = Ok e' ->
  -0.001 <= e /\ e < 1.0 /\
  ((e < 1.0e-6 /\ e' = 1.0e-6) \/ (1.0e-6 <= e /\ e' = e)).
Proof.
  unfold check_eccentricity.
  destruct ((e >=? 1.0) || (e <? -0.001)) eqn:Hc; [discriminate |].
  intro H. injection H as <-.
  destruct (e <? 1.0e-6) eqn:Hs; cmp_hyps; auto.
Qed.

Lemma sgp4_kepler_input_unfold (s : SGP4) (tsince : double) :
  0.0 < sgp4_xl s tsince ->
  sgp4_kepler_input s tsince =
  bind (check_eccentricity (sgp4_e s tsince))
    (fun e =>
       let '(_, a, omega, xl, xnode, xincl) := sgp4_secular s tsince in
       Ok {| k_e := e; k_a := a; k_omega := omega; k_xl := xl; k_xnode := xnode;
             k_xincl := xincl; k_xlcof := i_xlcof_ (init s);
             k_aycof := i_aycof_ (init s);
             k_x3thm1 := i_x3thm1_ (init s); k_x1mth2 := i_x1mth2_ (init s);
             k_x7thm1 := i_x7thm1_ (init s);
             k_cosio := i_cosio_ (init s); k_sinio := i_sinio_ (init s) |}).
Proof.
  unfold sgp4_kepler_input, sgp4_xl, sgp4_e.
  destruct (sgp4_secular s tsince) as [[[[[e a] omega] xl] xnode] xincl].
  intro Hxl.
  replace (xl <=? 0.0) with false by (symmetry; cmp_goal; lra).
  reflexivity.
Qed.

Lemma sgp4_kepler_input_e (s : SGP4) (tsince : double) (k : KeplerInput) :
  sgp4_kepler_input s tsince = Ok k ->
  check_eccentricity (sgp4_e s tsince) = Ok (k_e k).
Proof.
  unfold sgp4_kepler_input, sgp4_e.
  destruct (sgp4_secular s tsince) as [[[[[e a] omega] xl] xnode] xincl].
  destruct (xl <=? 0.0); [discriminate |].
  destruct (check_eccentricity e) as [e' | msg]; simpl; [| discriminate].
  intro H. injection H as <-. reflexivity.
Qed.

Lemma sgp4_kepler_input_throws_1 (s : SGP4) (tsince : double) :
  0.0 < sgp4_xl s tsince ->
  (sgp4_kepler_input s tsince = Throw error_1 <->
   check_eccentricity (sgp4_e s tsince) = Throw error_1).
Proof.
  intro Hxl. rewrite sgp4_kepler_input_unfold by exact Hxl.
  destruct (sgp4_secular s tsince) as [[[[[e a] omega] xl] xnode] xincl].
  destruct (check_eccentricity (sgp4_e s tsince)) as [e' | msg]; simpl.
  - split; discriminate.
  - split; intro H; injection H as ->; reflexivity.
Qed.

Lemma sdp4_periodics_unfold (s : SGP4) (tsince : double) :
  0.0 < sdp4_xn s tsince ->
  sdp4_periodics s tsince =
  bind (check_eccentricity (sdp4_e s tsince))
    (fun e =>
       let '(_, (xmdf, omgadf, xnode, _, xincl, xn), (tempa, _, templ)) :=
         sdp4_secular s tsince in
       let a := pow (XKE / xn) TWOTHIRD * pow tempa 2.0 in
       let xmam := xmdf + RecoveredMeanMotion s * templ in
       let '(e, xincl, omgadf, xnode, xmam) :=
         DeepSpacePeriodics s tsince e xincl omgadf xnode xmam in
       Ok (e, xincl, omgadf, xnode, xmam, a)).
Proof.
  unfold sdp4_periodics, sdp4_xn, sdp4_e.
  destruct (sdp4_secular s tsince)
    as [[s' [[[[[xmdf omgadf] xnode] e] xincl] xn]] [[tempa tempe] templ]].
  intro Hxn.
  replace (xn <=? 0.0) with false by (symmetry; cmp_goal; lra).
  reflexivity.
Qed.

Lemma sdp4_periodics_throws_1 (s : SGP4) (tsince : double) :
  0.0 < sdp4_xn s tsince ->
  (sdp4_periodics s tsince = Throw error_1 <->
   check_eccentricity (sdp4_e s tsince) = Throw error_1).
Proof.
  intro Hxn. rewrite sdp4_periodics_unfold by exact Hxn.
  destruct (sdp4_secular s tsince)
    as [[s' [[[[[xmdf omgadf] xnode] e] xincl] xn]] [[tempa tempe] templ]].
  destruct (check_eccentricity (sdp4_e s tsince)) as [e' | msg]; simpl.
  - split; [| discriminate].
    destruct (DeepSpacePeriodics s tsince e' xincl omgadf xnode
                (xmdf + RecoveredMeanMotion s * templ))
      as [[[[e1 x1] o1] n1] m1].
    discriminate.
  - split; intro H; injection H as ->; reflexivity.
Qed.

(** C6, as the code has it.  In both propagation paths the eccentricity
    after the secular update goes through the same validation: the call
    throws error #1 exactly when [e >= 1] or [e < -0.001]; [e] is replaced
    by [1.0e-6] exactly when [-0.001 <= e < 1.0e-6], the lower end
    included; and [e] with [1.0e-6 <= e < 1] is left as it is. *)
Theorem eccentricity_validation (s : SGP4) (tsince : double) :
  (* the validation itself *)
  (forall e : double,
     (check_eccentricity e = Throw error_1 <-> (1.0 <= e \/ e < -0.001)) /\
     (check_eccentricity e = Ok 1.0e-6 /\ ~ e == 1.0e-6 <->
        (-0.001 <= e /\ e < 1.0e-6)) /\
     (1.0e-6 <= e /\ e < 1.0 -> check_eccentricity e = Ok e)) /\
  (* near-space path *)
  (0.0 < sgp4_xl s tsince ->
     (sgp4_kepler_input s tsince = Throw error_1 <->
        (1.0 <= sgp4_e s tsince \/ sgp4_e s tsince < -0.001)) /\
     (forall k, sgp4_kepler_input s tsince = Ok k ->
        check_eccentricity (sgp4_e s tsince) = Ok (k_e k))) /\
  (* deep-space path *)
  (0.0 < sdp4_xn s tsince ->
     (sdp4_periodics s tsince = Throw error_1 <->
        (1.0 <= sdp4_e s tsince \/ sdp4_e s tsince < -0.001)) /\
     sdp4_periodics s tsince =
       bind (check_eccentricity (sdp4_e s tsince))
         (fun e =>
            let '(_, (xmdf, omgadf, xnode, _, xincl, xn), (tempa, _, templ)) :=
              sdp4_secular s tsince in
            let a := pow (XKE / xn) TWOTHIRD * pow tempa 2.0 in
            let xmam := xmdf + RecoveredMeanMotion s * templ in
            let '(e, xincl, omgadf, xnode, xmam) :=
              DeepSpacePeriodics s tsince e xincl omgadf xnode xmam in
            Ok (e, xincl, omgadf, xnode, xmam, a))).
Proof.
  split; [| split].
  - intro e. split; [apply check_eccentricity_throws | split].
    + split.
      * intros [H Hne]. apply check_eccentricity_Ok_inv in H.
        destruct H as (H1 & H2 & [[H3 _] | [H3 H4]]); [tauto |].
        exfalso. apply Hne. rewrite <- H4. reflexivity.
      * intros [H1 H2]. split; [apply check_eccentricity_clamps; assumption |].
        intro Heq. qlra.
    + intros [H1 H2]. apply check_eccentricity_keeps; assumption.
  - intro Hxl. split.
    + rewrite sgp4_kepler_input_throws_1 by exact Hxl.
      apply check_eccentricity_throws.
    + intros k Hk. apply sgp4_kepler_input_e. exact Hk.
  - intro Hxn. split.
    + rewrite sdp4_periodics_throws_1 by exact Hxn.
      apply check_eccentricity_throws.
    + apply sdp4_periodics_unfold. exact Hxn.
Qed.

(** ** Drag parameters at initialization *)



(** ** What initialization leaves in the object *)

Lemma set_integ_integ (s : SGP4) : set_integ s (integ s) = s.
Proof. destruct s; reflexivity. Qed.

Lemma set_integ_twice (s : SGP4) (a b : Integrator) :
  set_integ (set_integ s a) b = set_integ s b.
Proof. reflexivity. Qed.

Lemma resonance_initialize_frame (s : SGP4)
  (eosq sinio cosio theta2 xmdot omgdot xnodot : double) :
  let s' := resonance_initialize s eosq sinio cosio theta2 xmdot omgdot xnodot in
  elems s' = elems s /\ init s' = init s /\ near s' = near s /\
  first_run_ s' = first_run_ s /\
  i_use_deep_space_ s' = i_use_deep_space_ s /\
  i_use_simple_model_ s' = i_use_simple_model_ s /\
  d_gsto_ s' = d_gsto_ s /\ d_zmos_ s' = d_zmos_ s /\ d_zmol_ s' = d_zmol_ s /\
  secular s' = secular s /\ periodic s' = periodic s.
Proof.
  unfold resonance_initialize.
  destruct (synchronous_test s); [| destruct (no_resonance_test s)];
    repeat split; reflexivity.
Qed.

Lemma resonance_initialize_cases (s : SGP4)
  (eosq sinio cosio theta2 xmdot omgdot xnodot : double) :
  let s' := resonance_initialize s eosq sinio cosio theta2 xmdot omgdot xnodot in
  if synchronous_test s then
    d_resonance_flag_ s' = true /\ d_synchronous_flag_ s' = true /\
    d_xli_ (integ s') = d_xlamo_ s' /\
    d_xni_ (integ s') = RecoveredMeanMotion s /\
    d_atime_ (integ s') = 0.0
  else if no_resonance_test s then
    d_resonance_flag_ s' = false /\ d_synchronous_flag_ s' = false /\
    integ s' = integ s /\ resonance s' = resonance s /\
    d_xfact_ s' = d_xfact_ s /\ d_xlamo_ s' = d_xlamo_ s /\
    d_xndot_0_ s' = d_xndot_0_ s /\ d_xnddt_0_ s' = d_xnddt_0_ s /\
    d_xldot_0_ s' = d_xldot_0_ s
  else
    d_resonance_flag_ s' = true /\ d_synchronous_flag_ s' = false /\
    d_xli_ (integ s') = d_xlamo_ s' /\
    d_xni_ (integ s') = RecoveredMeanMotion s /\
    d_atime_ (integ s') = 0.0.
Proof.
  unfold resonance_initialize.
  destruct (synchronous_test s); [| destruct (no_resonance_test s)];
    repeat split; reflexivity.
Qed.

Lemma DeepSpaceInitialize_frame (s : SGP4)
  (eosq sinio cosio betao theta2 betao2 xmdot omgdot xnodot : double) :
  let s' := DeepSpaceInitialize s eosq sinio cosio betao theta2 betao2
              xmdot omgdot xnodot in
  elems s' = elems s /\ init s' = init s /\ near s' = near s /\
  first_run_ s' = first_run_ s /\
  i_use_deep_space_ s' = i_use_deep_space_ s /\
  i_use_simple_model_ s' = i_use_simple_model_ s /\
  d_gsto_ s' = d_gsto_ s.
Proof.
  unfold DeepSpaceInitialize. cbv zeta.
  match goal with
  | |- context [resonance_initialize ?s1 ?a ?b ?c ?d ?e ?f ?g] =>
      destruct (resonance_initialize_frame s1 a b c d e f g)
        as (H1 & H2 & H3 & H4 & H5 & H6 & H7 & _)
  end.
  rewrite H1, H2, H3, H4, H5, H6, H7. repeat split; reflexivity.
Qed.

Lemma DeepSpaceInitialize_cases (s : SGP4)
  (eosq sinio cosio betao theta2 betao2 xmdot omgdot xnodot : double) :
  let s' := DeepSpaceInitialize s eosq sinio cosio betao theta2 betao2
              xmdot omgdot xnodot in
  if synchronous_test s then
    d_resonance_flag_ s' = true /\ d_synchronous_flag_ s' = true /\
    d_xli_ (integ s') = d_xlamo_ s' /\
    d_xni_ (integ s') = RecoveredMeanMotion s /\
    d_atime_ (integ s') = 0.0
  else if no_resonance_test s then
    d_resonance_flag_ s' = false /\ d_synchronous_flag_ s' = false /\
    integ s' = integ s /\ resonance s' = resonance s /\
    d_xfact_ s' = d_xfact_ s /\ d_xlamo_ s' = d_xlamo_ s /\
    d_xndot_0_ s' = d_xndot_0_ s /\ d_xnddt_0_ s' = d_xnddt_0_ s /\
    d_xldot_0_ s' = d_xldot_0_ s
  else
    d_resonance_flag_ s' = true /\ d_synchronous_flag_ s' = false /\
    d_xli_ (integ s') = d_xlamo_ s' /\
    d_xni_ (integ s') = RecoveredMeanMotion s /\
    d_atime_ (integ s') = 0.0.
Proof.
  unfold DeepSpaceInitialize. cbv zeta.
  match goal with
  | |- context [resonance_initialize ?s1 ?a ?b ?c ?d ?e ?f ?g] =>
      exact (resonance_initialize_cases s1 a b c d e f g)
  end.
Qed.

Lemma Initialize_frame (s : SGP4) (theta2 betao2 betao eosq : double) :
  let s' := Initialize s theta2 betao2 betao eosq in
  elems s' = elems s /\ first_run_ s' = false /\
  i_use_deep_space_ s' = (Period s >=? 225.0).
Proof.
  unfold Initialize. cbv zeta.
  destruct (Period s >=? 225.0).
  - match goal with
    | |- context [DeepSpaceInitialize ?s1 ?a ?b ?c ?d ?e ?f ?g ?h ?i] =>
        destruct (DeepSpaceInitialize_frame s1 a b c d e f g h i)
          as (H1 & _ & _ & _ & H5 & _)
    end.
    cbn [elems first_run_ i_use_deep_space_ set_first_run].
    rewrite H1, H5. repeat split; reflexivity.
  - repeat split; reflexivity.
Qed.

(** The resonance members after [Initialize], when the object handed to it
    has them as [ResetGlobalVariables] left them. *)
Lemma Initialize_resonance (s : SGP4) (theta2 betao2 betao eosq : double) :
  integrator_untouched s ->
  let s' := Initialize s theta2 betao2 betao eosq in
  if i_use_deep_space_ s' then
    if synchronous_test s' then
      d_resonance_flag_ s' = true /\ d_synchronous_flag_ s' = true /\
      d_xli_ (integ s') = d_xlamo_ s' /\
      d_xni_ (integ s') = RecoveredMeanMotion s' /\
      d_atime_ (integ s') = 0.0
    else if no_resonance_test s' then integrator_untouched s'
    else
      d_resonance_flag_ s' = true /\ d_synchronous_flag_ s' = false /\
      d_xli_ (integ s') = d_xlamo_ s' /\
      d_xni_ (integ s') = RecoveredMeanMotion s' /\
      d_atime_ (integ s') = 0.0
  else integrator_untouched s'.
Proof.
  intros Hu s'.
  destruct (Initialize_frame s theta2 betao2 betao eosq) as (He & _ & Hd).
  fold s' in He, Hd.
  assert (Hsync : synchronous_test s' = synchronous_test s)
    by (unfold synchronous_test, RecoveredMeanMotion; rewrite He; reflexivity).
  assert (Hnone : no_resonance_test s' = no_resonance_test s)
    by (unfold no_resonance_test, RecoveredMeanMotion, Eccentricity;
        rewrite He; reflexivity).
  assert (Hn : RecoveredMeanMotion s' = RecoveredMeanMotion s)
    by (unfold RecoveredMeanMotion; rewrite He; reflexivity).
  rewrite Hd, Hsync, Hnone, Hn. clear He Hd Hsync Hnone Hn.
  subst s'. unfold Initialize. cbv zeta.
  destruct Hu as (U1 & U2 & U3 & U4 & U5 & U6 & U7 & U8 & U9).
  destruct (Period s >=? 225.0).
  - match goal with
    | |- context [DeepSpaceInitialize ?s1 ?a ?b ?c ?d ?e ?f ?g ?h ?i] =>
        pose proof (DeepSpaceInitialize_cases s1 a b c d e f g h i) as Hc;
        set (s2 := DeepSpaceInitialize s1 a b c d e f g h i) in *
    end.
    cbv zeta in Hc.
    change (synchronous_test
              (set_initialized s (i_use_simple_model_ s) true
                 (fst (generate_constants s theta2 betao2 betao eosq
                         (fst (select_s4_qoms24 (Perigee s)))
                         (snd (select_s4_qoms24 (Perigee s)))))
                 (near s) (ToGreenwichSiderealTime (Epoch s))))
      with (synchronous_test s) in Hc.
    change (no_resonance_test
              (set_initialized s (i_use_simple_model_ s) true
                 (fst (generate_constants s theta2 betao2 betao eosq
                         (fst (select_s4_qoms24 (Perigee s)))
                         (snd (select_s4_qoms24 (Perigee s)))))
                 (near s) (ToGreenwichSiderealTime (Epoch s))))
      with (no_resonance_test s) in Hc.
    destruct (synchronous_test s); [| destruct (no_resonance_test s)].
    + exact Hc.
    + destruct Hc as (C1 & C2 & C3 & C4 & C5 & C6 & C7 & C8 & C9).
      unfold integrator_untouched.
      cbn [d_resonance_flag_ d_synchronous_flag_ integ resonance d_xfact_
           d_xlamo_ d_xndot_0_ d_xnddt_0_ d_xldot_0_ set_first_run].
      rewrite C1, C2, C3, C4, C5, C6, C7, C8, C9.
      cbn [integ resonance d_xfact_ d_xlamo_ d_xndot_0_ d_xnddt_0_ d_xldot_0_
           set_initialized].
      repeat split; assumption.
    + exact Hc.
  - unfold integrator_untouched.
    cbn [d_resonance_flag_ d_synchronous_flag_ integ resonance d_xfact_
         d_xlamo_ d_xndot_0_ d_xnddt_0_ d_xldot_0_ set_first_run
         set_initialized].
    repeat split; assumption.
Qed.

Lemma ResetGlobalVariables_untouched : integrator_untouched ResetGlobalVariables.
Proof. repeat split; reflexivity. Qed.

(** The object after a successful [SetTle]. *)
Lemma SetTle_state (tle : Tle) (s : SGP4) :
  SetTle tle = Ok s ->
  elems s = r_elems (recover_elements tle) /\
  first_run_ s = false /\
  (if i_use_deep_space_ s then
     if synchronous_test s then
       d_resonance_flag_ s = true /\ d_synchronous_flag_ s = true /\
       d_xli_ (integ s) = d_xlamo_ s /\
       d_xni_ (integ s) = RecoveredMeanMotion s /\
       d_atime_ (integ s) = 0.0
     else if no_resonance_test s then integrator_untouched s
     else
       d_resonance_flag_ s = true /\ d_synchronous_flag_ s = false /\
       d_xli_ (integ s) = d_xlamo_ s /\
       d_xni_ (integ s) = RecoveredMeanMotion s /\
       d_atime_ (integ s) = 0.0
   else integrator_untouched s).
Proof.
  intro H. apply SetTle_Ok_inv in H. destruct H as (-> & _).
  unfold recover_and_initialize. cbv zeta.
  match goal with
  | |- context [Initialize ?s0 ?a ?b ?c ?d] =>
      destruct (Initialize_frame s0 a b c d) as (He & Hf & _);
      pose proof (Initialize_resonance s0 a b c d) as Hr;
      set (s1 := Initialize s0 a b c d) in *
  end.
  split; [exact He | split; [exact Hf |]].
  apply Hr. repeat split; reflexivity.
Qed.

(** ** Resonance classification *)

(** The flags that lines 799-937 leave in a deep-space object, by the
    tests of lines 803 and 827. *)
Lemma resonance_flags (tle : Tle) (s : SGP4) :
  SetTle tle = Ok s ->
  i_use_deep_space_ s = true ->
  d_synchronous_flag_ s = synchronous_test s /\
  d_resonance_flag_ s = (synchronous_test s || negb (no_resonance_test s)) /\
  (d_resonance_flag_ s = false -> integrator_untouched s).
Proof.
  intros Hset Hdeep.
  apply SetTle_state in Hset. destruct Hset as (_ & _ & Hs).
  rewrite Hdeep in Hs.
  destruct (synchronous_test s); [| destruct (no_resonance_test s)].
  - destruct Hs as (F1 & F2 & _). rewrite F1, F2.
    split; [reflexivity | split; [reflexivity | discriminate]].
  - pose proof Hs as (F1 & F2 & _). rewrite F1, F2.
    split; [reflexivity | split; [reflexivity | intros _; exact Hs]].
  - destruct Hs as (F1 & F2 & _). rewrite F1, F2.
    split; [reflexivity | split; [reflexivity | discriminate]].
Qed.

(** C5.  For a deep-space element set the classification computed at
    initialization is: synchronous exactly when the recovered mean motion is
    strictly between 0.0034906585 and 0.0052359877; geopotential (12 hours)
    exactly when it is between 0.00826 and 0.00924, ends included, and the
    eccentricity is at least 0.5; none otherwise, and then the integrator
    is not initialized and the resonance members stay zero. *)
Theorem resonance_classification (tle : Tle) (s : SGP4) :
  SetTle tle = Ok s ->
  i_use_deep_space_ s = true ->
  (d_resonance_flag_ s = true /\ d_synchronous_flag_ s = true <->
     0.0034906585 < RecoveredMeanMotion s /\
     RecoveredMeanMotion s < 0.0052359877) /\
  (d_resonance_flag_ s = true /\ d_synchronous_flag_ s = false <->
     0.00826 <= RecoveredMeanMotion s /\ RecoveredMeanMotion s <= 0.00924 /\
     0.5 <= Eccentricity s) /\
  (d_resonance_flag_ s = false -> integrator_untouched s) /\
  (d_resonance_flag_ s = false <->
     ~ (0.0034906585 < RecoveredMeanMotion s /\
        RecoveredMeanMotion s < 0.0052359877) /\
     ~ (0.00826 <= RecoveredMeanMotion s /\ RecoveredMeanMotion s <= 0.00924 /\
        0.5 <= Eccentricity s)).
Proof.
  intros Hset Hdeep.
  destruct (resonance_flags tle s Hset Hdeep) as (F2 & F1 & Hu).
  rewrite F1, F2 in *. clear F1 F2.
  unfold synchronous_test, no_resonance_test in *.
  destruct ((RecoveredMeanMotion s <? 0.0052359877) &&
            (RecoveredMeanMotion s >? 0.0034906585)) eqn:Hsync;
    [| destruct ((RecoveredMeanMotion s <? 8.26e-3) ||
                 (RecoveredMeanMotion s >? 9.24e-3) ||
                 (Eccentricity s <? 0.5)) eqn:Hnone ];
    cbn [orb negb] in *;
    cmp_hyps;
    (split; [| split; [| split]]);
    try exact Hu;
    try discriminate;
    split; intros G; try discriminate;
    repeat match goal with
           | H : _ /\ _ |- _ => destruct H
           end;
    try discriminate;
    try (exfalso; qlra);
    repeat split; try reflexivity; try qlra;
    try (intros G'; destruct G' as (? & ? & ?); qlra);
    try (intros G'; destruct G' as (? & ?); qlra);
    try (exfalso; match goal with H : ~ _ |- _ => apply H; repeat split; qlra end).
Qed.


(** ** The integrator state after initialization *)

Lemma integrator_untouched_at_epoch (s : SGP4) :
  integrator_untouched s ->
  (integrator_at_epoch s <-> RecoveredMeanMotion s == 0).
Proof.
  intros (_ & _ & Hi & _ & _ & Hl & _).
  unfold integrator_at_epoch. rewrite Hi, Hl. cbn [d_atime_ d_xli_ d_xni_ zero_integ].
  split.
  - intros (_ & _ & H). rewrite <- H. reflexivity.
  - intro H. rewrite H. repeat split; reflexivity.
Qed.

Lemma SetTle_resonance_flag (tle : Tle) (s : SGP4) :
  SetTle tle = Ok s ->
  (d_resonance_flag_ s = true /\
   d_xli_ (integ s) = d_xlamo_ s /\
   d_xni_ (integ s) = RecoveredMeanMotion s /\
   d_atime_ (integ s) = 0.0) \/
  integrator_untouched s.
Proof.
  intro Hset. apply SetTle_state in Hset. destruct Hset as (_ & _ & Hs).
  destruct (i_use_deep_space_ s); [| right; exact Hs].
  destruct (synchronous_test s); [| destruct (no_resonance_test s)].
  - left. tauto.
  - right. exact Hs.
  - left. tauto.
Qed.

(** C4, as the code has it.  After a successful [SetTle] of a resonant
    element set the integrator state is [(atime = 0, xli = xlamo,
    xni = n'')]; with no resonance the integrator members and [xlamo] are
    all zero, so that the state is that triple exactly when the recovered
    mean motion [n''] is zero.  Hence, for a nonzero [n''], the state is the
    triple if and only if the resonance is not none. *)
Theorem integrator_state_after_SetTle (tle : Tle) (s : SGP4) :
  SetTle tle = Ok s ->
  (d_resonance_flag_ s = true -> integrator_at_epoch s) /\
  (d_resonance_flag_ s = false ->
     integ s = zero_integ /\ d_xlamo_ s = 0.0 /\
     (integrator_at_epoch s <-> RecoveredMeanMotion s == 0)) /\
  (~ RecoveredMeanMotion s == 0 ->
     (integrator_at_epoch s <-> d_resonance_flag_ s = true)).
Proof.
  intro Hset.
  destruct (SetTle_resonance_flag tle s Hset) as [(F & H1 & H2 & H3) | Hu].
  - split; [| split].
    + intros _. unfold integrator_at_epoch. rewrite H1, H2, H3.
      repeat split; reflexivity.
    + rewrite F. discriminate.
    + intros _. split; [intros _; exact F |]. intros _.
      unfold integrator_at_epoch. rewrite H1, H2, H3.
      repeat split; reflexivity.
  - pose proof (integrator_untouched_at_epoch s Hu) as Hiff.
    destruct Hu as (F & _ & Hi & _ & _ & Hl & _).
    split; [| split].
    + rewrite F. discriminate.
    + intros _. auto.
    + intro Hn. rewrite F. split; [| discriminate].
      intro H. apply Hiff in H. contradiction.
Qed.


(** ** Propagation writes the integrator members only *)

Lemma same_constants_refl (s : SGP4) : same_constants s s.
Proof. exists (integ s). symmetry. apply set_integ_integ. Qed.

Lemma same_constants_trans (s1 s2 s3 : SGP4) :
  same_constants s1 s2 -> same_constants s2 s3 -> same_constants s1 s3.
Proof.
  intros [a ->] [b ->]. exists b. reflexivity.
Qed.

Lemma integrator_step_constants (delt : double) (s : SGP4) :
  same_constants s (integrator_step delt s).
Proof. unfold integrator_step, DeepSpaceIntegrator. eexists. reflexivity. Qed.

Lemma integrator_loop_constants (fuel : nat) (t delt : double) (s s' : SGP4) :
  integrator_loop fuel t delt s = Some s' -> same_constants s s'.
Proof.
  revert s. induction fuel as [| fuel IH]; intros s H; [discriminate |].
  cbn [integrator_loop] in H.
  destruct (fabs (t - d_atime_ (integ (integrator_step delt s))) >=? STEP).
  - apply (same_constants_trans _ (integrator_step delt s)).
    + apply integrator_step_constants.
    + apply IH. exact H.
  - injection H as <-. apply integrator_step_constants.
Qed.

Lemma integrate_to_constants (s : SGP4) (t : double) :
  same_constants s (integrate_to s t).
Proof.
  unfold integrate_to, advance_integrator.
  set (s1 := if restart_condition s t then restart_from_epoch s else s).
  assert (H1 : same_constants s s1).
  { subst s1. destruct (restart_condition s t).
    - unfold restart_from_epoch. eexists. reflexivity.
    - apply same_constants_refl. }
  destruct (fabs (t - d_atime_ (integ s1)) >=? STEP); [| exact H1].
  match goal with
  | |- context [integrator_loop ?f ?t ?d ?s0] =>
      destruct (integrator_loop f t d s0) as [s2 |] eqn:Hl
  end; [| exact H1].
  apply (same_constants_trans _ s1); [exact H1 |].
  apply (integrator_loop_constants _ _ _ _ _ Hl).
Qed.

Lemma FindPosition_constants (s : SGP4) (t : double) :
  same_constants s (fst (FindPosition s t)).
Proof.
  unfold FindPosition, FindPositionSDP4, FindPositionSGP4, sdp4_secular,
    DeepSpaceSecular.
  destruct (i_use_deep_space_ s); [| apply same_constants_refl].
  cbn [fst].
  destruct (negb (d_resonance_flag_ s)); cbn [fst].
  - apply same_constants_refl.
  - apply integrate_to_constants.
Qed.

Lemma propagate_all_constants (ts : list double) (s : SGP4) :
  same_constants s (propagate_all s ts).
Proof.
  unfold propagate_all. revert s.
  induction ts as [| t ts IH]; intro s; cbn [fold_left].
  - apply same_constants_refl.
  - apply (same_constants_trans _ (fst (FindPosition s t))).
    + apply FindPosition_constants.
    + apply IH.
Qed.

(** ** The first-run gate of the lunar / solar periodics *)

(** The five periodic terms are those of the two mean arguments. *)
Lemma DeepSpaceCalculateLunarSolarTerms_at (s : SGP4) (t : double) :
  DeepSpaceCalculateLunarSolarTerms s t =
  periodic_terms_at (periodic s) (solar_zm s t) (lunar_zm s t).
Proof. reflexivity. Qed.


(** With [first_run_] cleared, [DeepSpacePeriodics] is the block of lines
    1016-1081 on the terms of the requested time. *)
Lemma DeepSpacePeriodics_applied (s : SGP4) (t em xinc omgasm xnodes xll : double) :
  first_run_ s = false ->
  DeepSpacePeriodics s t em xinc omgasm xnodes xll =
  apply_periodics (DeepSpaceCalculateLunarSolarTerms s t)
    em xinc omgasm xnodes xll.
Proof.
  intro Hf. unfold DeepSpacePeriodics, apply_periodics. rewrite Hf.
  destruct (DeepSpaceCalculateLunarSolarTerms s t) as [[[[pe pinc] pl] pgh] ph].
  reflexivity.
Qed.


(** What the block does to the elements, in both of its branches. *)
Lemma apply_periodics_elements (pe pinc pl pgh ph : double)
  (em xinc omgasm xnodes xll : double) :
  let r := apply_periodics (pe, pinc, pl, pgh, ph) em xinc omgasm xnodes xll in
  fst (fst (fst (fst r))) = em + pe /\
  periodics_xinc r = xinc + pinc /\
  snd r = xll + pl /\
  (0.2 <= xinc + pinc ->
     periodics_xnodes r = xnodes + ph / sin (xinc + pinc) /\
     snd (fst (fst r)) =
       omgasm + (pgh - cos (xinc + pinc) * (ph / sin (xinc + pinc)))).
Proof.
  unfold apply_periodics, periodics_xinc, periodics_xnodes. cbv zeta.
  destruct (xinc + pinc >=? 0.2) eqn:Hb; cmp_hyps; cbn [fst snd].
  - repeat split; reflexivity.
  - repeat split; try reflexivity; exfalso; lra.
Qed.


(** C2, as the code has it.  [Initialize] ends by clearing [first_run_],
    and propagation never sets it: on every propagation call after a
    successful [SetTle], the first one included, the solar and lunar mean
    arguments are taken at the requested time [t], the five periodic terms
    are those of these two arguments, and [DeepSpacePeriodics] applies them
    to the elements (lines 1016-1081), also in the call that
    [FindPositionSDP4] makes of it.  Applying the terms adds [pe] to the
    eccentricity, [pinc] to the inclination and [pl] to the mean anomaly
    and, for an inclination of at least 0.2, [ph / sin xinc] to the node.
    The gate forces the epoch values, and leaves the elements unperturbed,
    only in an object whose [first_run_] is still set. *)
Theorem periodics_use_requested_time (tle : Tle) (s : SGP4) :
  SetTle tle = Ok s ->
  first_run_ s = false /\
  (forall (ts : list double) (t : double),
     let s' := propagate_all s ts in
     first_run_ s' = false /\
     d_zmos_ s' = d_zmos_ s /\ d_zmol_ s' = d_zmol_ s /\
     solar_zm s' t = d_zmos_ s + 1.19459E-5 * t /\
     lunar_zm s' t = d_zmol_ s + 1.5835218E-4 * t /\
     (* the terms are those of the arguments at [t] *)
     DeepSpaceCalculateLunarSolarTerms s' t =
       periodic_terms_at (periodic s)
         (d_zmos_ s + 1.19459E-5 * t) (d_zmol_ s + 1.5835218E-4 * t) /\
     (* and they are applied to the elements *)
     (forall em xinc omgasm xnodes xll : double,
        DeepSpacePeriodics s' t em xinc omgasm xnodes xll =
          apply_periodics (DeepSpaceCalculateLunarSolarTerms s' t)
            em xinc omgasm xnodes xll) /\
     (* in the call of [FindPositionSDP4] at the time [t] *)
     (0.0 < sdp4_xn s' t ->
        sdp4_periodics s' t =
        bind (check_eccentricity (sdp4_e s' t))
          (fun e =>
             let '(_, (xmdf, omgadf, xnode, _, xincl, xn), (tempa, _, templ)) :=
               sdp4_secular s' t in
             let a := pow (XKE / xn) TWOTHIRD * pow tempa 2.0 in
             let xmam := xmdf + RecoveredMeanMotion s' * templ in
             let '(e, xincl, omgadf, xnode, xmam) :=
               apply_periodics (DeepSpaceCalculateLunarSolarTerms s' t)
                 e xincl omgadf xnode xmam in
             Ok (e, xincl, omgadf, xnode, xmam, a)))) /\
  (* what applying the terms does to the elements *)
  (forall pe pinc pl pgh ph em xinc omgasm xnodes xll : double,
     let r := apply_periodics (pe, pinc, pl, pgh, ph) em xinc omgasm xnodes xll in
     fst (fst (fst (fst r))) = em + pe /\
     periodics_xinc r = xinc + pinc /\
     snd r = xll + pl /\
     (0.2 <= xinc + pinc ->
        periodics_xnodes r = xnodes + ph / sin (xinc + pinc) /\
        snd (fst (fst r)) =
          omgasm + (pgh - cos (xinc + pinc) * (ph / sin (xinc + pinc))))) /\
  (forall (g : SGP4) (t em xinc omgasm xnodes xll : double),
     first_run_ g = true ->
     solar_zm g t = d_zmos_ g /\ lunar_zm g t = d_zmol_ g /\
     DeepSpaceCalculateLunarSolarTerms g t =
       periodic_terms_at (periodic g) (d_zmos_ g) (d_zmol_ g) /\
     DeepSpacePeriodics g t em xinc omgasm xnodes xll =
       (em, xinc, omgasm, xnodes, xll)).
Proof.
  intro Hset. apply SetTle_state in Hset. destruct Hset as (_ & Hf & _).
  split; [exact Hf | split; [| split]].
  - intros ts t s'.
    destruct (propagate_all_constants ts s) as [ig Hig].
    assert (Hf' : first_run_ s' = false) by (subst s'; rewrite Hig; exact Hf).
    assert (Hzs : solar_zm s' t = d_zmos_ s + 1.19459E-5 * t).
    { subst s'. rewrite Hig. unfold solar_zm.
      cbn [first_run_ d_zmos_ set_integ]. rewrite Hf. reflexivity. }
    assert (Hzl : lunar_zm s' t = d_zmol_ s + 1.5835218E-4 * t).
    { subst s'. rewrite Hig. unfold lunar_zm.
      cbn [first_run_ d_zmol_ set_integ]. rewrite Hf. reflexivity. }
    assert (Hp : periodic s' = periodic s) by (subst s'; rewrite Hig; reflexivity).
    split; [exact Hf' |].
    split; [subst s'; rewrite Hig; reflexivity |].
    split; [subst s'; rewrite Hig; reflexivity |].
    split; [exact Hzs | split; [exact Hzl |]].
    split; [| split].
    + rewrite DeepSpaceCalculateLunarSolarTerms_at, Hzs, Hzl, Hp. reflexivity.
    + intros em xinc omgasm xnodes xll.
      apply DeepSpacePeriodics_applied. exact Hf'.
    + intro Hxn. rewrite (sdp4_periodics_unfold s' t Hxn).
      destruct (check_eccentricity (sdp4_e s' t)) as [e | msg];
        cbn [bind]; [| reflexivity].
      destruct (sdp4_secular s' t)
        as [[s2 [[[[[xmdf omgadf] xnode] e0] xincl] xn]] [[tempa tempe] templ]].
      rewrite (DeepSpacePeriodics_applied s' t _ _ _ _ _ Hf'). reflexivity.
  - intros pe pinc pl pgh ph em xinc omgasm xnodes xll.
    apply apply_periodics_elements.
  - intros g t em xinc omgasm xnodes xll Hg.
    assert (Hzs : solar_zm g t = d_zmos_ g) by (unfold solar_zm; rewrite Hg; reflexivity).
    assert (Hzl : lunar_zm g t = d_zmol_ g) by (unfold lunar_zm; rewrite Hg; reflexivity).
    split; [exact Hzs | split; [exact Hzl | split]].
    + rewrite DeepSpaceCalculateLunarSolarTerms_at, Hzs, Hzl. reflexivity.
    + unfold DeepSpacePeriodics. rewrite Hg. cbn [negb].
      destruct (DeepSpaceCalculateLunarSolarTerms g t) as [[[[pe pinc] pl] pgh] ph].
      reflexivity.
Qed.

(** ** The Newton-Raphson loop of the Kepler solver *)

Section KeplerLoop.

Variables capu axn ayn mnn : double.

Lemma kepler_body_converged (i : nat) (k : Kepler) :
  kepler_running k = true ->
  kepler_converged capu axn ayn (kepler_body capu axn ayn mnn i k).
Proof.
  intro Hr. unfold kepler_converged, kepler_body.
  destruct (fabs (capu - epw k + (axn * sin (epw k) - ayn * cos (epw k)))
            <? 1.0e-12) eqn:Hf.
  - cbn [kepler_running epw sinepw cosepw]. intros _.
    unfold kepler_f. cmp_hyps. auto.
  - cbn [kepler_running]. rewrite Hr. discriminate.
Qed.

Lemma kepler_loop_spec (n i : nat) (k : Kepler) :
  kepler_converged capu axn ayn k ->
  let r := kepler_loop capu axn ayn mnn n i k in
  (i <= fst r <= i + n)%nat /\
  ((fst r < i + n)%nat -> kepler_running (snd r) = false) /\
  kepler_converged capu axn ayn (snd r).
Proof.
  revert i k. induction n as [| n IH]; intros i k Hk; cbn [kepler_loop].
  - cbn [fst snd]. split; [lia | split; [lia | exact Hk]].
  - destruct (kepler_running k) eqn:Hr.
    + destruct (IH (Datatypes.S i) (kepler_body capu axn ayn mnn i k)
                  (kepler_body_converged i k Hr)) as (H1 & H2 & H3).
      split; [lia | split; [| exact H3]].
      intro Hlt. apply H2. lia.
    + cbn [fst snd]. split; [lia | split; [| exact Hk]].
      intros _. exact Hr.
Qed.

Lemma kepler_loop_unfold (n i : nat) (k : Kepler) :
  kepler_loop capu axn ayn mnn (Datatypes.S n) i k =
  if kepler_running k
  then kepler_loop capu axn ayn mnn n (Datatypes.S i)
         (kepler_body capu axn ayn mnn i k)
  else (i, k).
Proof. reflexivity. Qed.

(** The loop, one pass at the end: after [n + 1] allowed passes the
    variables are those after [n], put through the body once more if
    [kepler_running] still holds. *)
Lemma kepler_loop_last (n i : nat) (k : Kepler) :
  kepler_loop capu axn ayn mnn (Datatypes.S n) i k =
  let r := kepler_loop capu axn ayn mnn n i k in
  if kepler_running (snd r) && (fst r =? i + n)%nat
  then (Datatypes.S (fst r), kepler_body capu axn ayn mnn (fst r) (snd r))
  else r.
Proof.
  revert i k. induction n as [| n IH]; intros i k.
  - cbn [kepler_loop fst snd]. rewrite Nat.add_0_r, Nat.eqb_refl.
    destruct (kepler_running k); reflexivity.
  - rewrite (kepler_loop_unfold (Datatypes.S n) i k).
    rewrite (kepler_loop_unfold n i k).
    destruct (kepler_running k) eqn:Hr.
    + rewrite IH. cbv zeta.
      replace (Datatypes.S i + n)%nat with (i + Datatypes.S n)%nat by lia.
      reflexivity.
    + cbv zeta. cbn [fst snd]. rewrite Hr. reflexivity.
Qed.

End KeplerLoop.

Lemma CalculateFinalPositionVelocity_errors (s : SGP4)
  (tsince e a omega xl xnode xincl xlcof aycof x3thm1 x1mth2 x7thm1 cosio sinio
     : double) (msg : string) :
  CalculateFinalPositionVelocity s tsince e a omega xl xnode xincl xlcof aycof
    x3thm1 x1mth2 x7thm1 cosio sinio = Throw msg ->
  msg = error_4 \/ msg = error_6.
Proof.
  unfold CalculateFinalPositionVelocity. cbv zeta.
  match goal with
  | |- (if ?c then _ else _) = _ -> _ => destruct c
  end.
  - intro H. injection H as <-. left. reflexivity.
  - match goal with
    | |- (if ?c then _ else _) = _ -> _ => destruct c
    end.
    + intro H. injection H as <-. right. reflexivity.
    + discriminate.
Qed.

(** What follows the loop is a function of the four values [sinepw],
    [cosepw], [ecose] and [esine] that the loop leaves. *)
Lemma CalculateFinalPositionVelocity_stages (s : SGP4)
  (tsince e a omega xl xnode xincl xlcof aycof x3thm1 x1mth2 x7thm1 cosio sinio
     : double) :
  let '(capu, axn, ayn, elsq) := kepler_arguments e a omega xl xnode xlcof aycof in
  let k := snd (solve_kepler capu axn ayn elsq) in
  CalculateFinalPositionVelocity s tsince e a omega xl xnode xincl xlcof aycof
    x3thm1 x1mth2 x7thm1 cosio sinio =
  short_period_state s tsince a xnode xincl x3thm1 x1mth2 x7thm1 cosio sinio
    (XKE / pow a 1.5) axn ayn elsq (sinepw k) (cosepw k) (ecose k) (esine k).
Proof. reflexivity. Qed.


(** It throws for [pl < 0] and for [rk < 1], and for nothing else. *)
Lemma short_period_state_outcome (s : SGP4) (tsince a xnode xincl
  x3thm1 x1mth2 x7thm1 cosio sinio : double)
  (xn axn ayn elsq : double) (sinepw cosepw ecose esine : double) :
  let pl := a * (1.0 - elsq) in
  let rk := radius_rk a axn ayn elsq x3thm1 x1mth2 cosepw ecose esine in
  let r := short_period_state s tsince a xnode xincl x3thm1 x1mth2 x7thm1
             cosio sinio xn axn ayn elsq sinepw cosepw ecose esine in
  (r = Throw error_4 <-> pl < 0.0) /\
  (r = Throw error_6 <-> 0.0 <= pl /\ rk < 1.0) /\
  (is_ok r = true <-> 0.0 <= pl /\ 1.0 <= rk).
Proof.
  intros pl rk r. subst pl rk r.
  unfold short_period_state, radius_rk. cbv zeta.
  destruct (a * (1.0 - elsq) <? 0.0) eqn:Hpl; cmp_hyps.
  - split; [| split].
    + split; [intros _; exact Hpl | reflexivity].
    + split; [discriminate | intros [G _]; lra].
    + cbn [is_ok]. split; [discriminate | intros [G _]; lra].
  - match goal with
    | |- context [if ?c then Throw _ else _] => destruct c eqn:Hrk
    end; cmp_hyps.
    + split; [| split].
      * split; [discriminate | intro G; lra].
      * split; [intros _; split; assumption | reflexivity].
      * cbn [is_ok]. split; [discriminate | intros [_ G]; lra].
    + split; [| split].
      * split; [discriminate | intro G; lra].
      * split; [discriminate | intros [_ G]; lra].
      * cbn [is_ok]. split; [intros _; split; assumption | reflexivity].
Qed.


(** C10.  The Kepler solver never reports a failure to converge: the
    Newton-Raphson loop makes at least one and at most ten passes; it stops
    before the tenth only with [kepler_running] cleared, which happens only
    when the residual [f] is below [1.0e-12] in absolute value; when the
    tolerance is never met, the loop leaves the values of the tenth pass;
    the routine goes on, in either case, with the values [sinepw],
    [cosepw], [ecose] and [esine] that the loop leaves and reads neither
    [kepler_running] nor the number of passes; and it throws exactly for
    [pl < 0] (#4) and for [rk < 1] (#6), where [pl] does not depend on the
    loop and [rk] depends on it through these values only: whether the
    tolerance was met raises no error. *)
Theorem kepler_never_reports_failure (capu axn ayn elsq : double) :
  let mnn := 1.25 * fabs (sqrt elsq) in
  let r := solve_kepler capu axn ayn elsq in
  (1 <= fst r <= 10)%nat /\
  ((fst r < 10)%nat -> kepler_running (snd r) = false) /\
  (kepler_running (snd r) = false ->
     fabs (kepler_f capu axn ayn (epw (snd r))) < 1.0e-12 /\
     sinepw (snd r) = sin (epw (snd r)) /\ cosepw (snd r) = cos (epw (snd r))) /\
  (kepler_running (snd r) = true ->
     fst r = 10%nat /\
     snd r = kepler_body capu axn ayn mnn 9
               (snd (kepler_loop capu axn ayn mnn 9 0 (kepler_start capu)))) /\
  (forall (s : SGP4) (tsince e a omega xl xnode xincl xlcof aycof
             x3thm1 x1mth2 x7thm1 cosio sinio : double) (msg : string),
     CalculateFinalPositionVelocity s tsince e a omega xl xnode xincl xlcof
       aycof x3thm1 x1mth2 x7thm1 cosio sinio = Throw msg ->
     msg = error_4 \/ msg = error_6) /\
  (* what follows the loop reads its four values only *)
  (forall (s : SGP4) (tsince e a omega xl xnode xincl xlcof aycof
             x3thm1 x1mth2 x7thm1 cosio sinio : double),
     kepler_arguments e a omega xl xnode xlcof aycof = (capu, axn, ayn, elsq) ->
     CalculateFinalPositionVelocity s tsince e a omega xl xnode xincl xlcof
       aycof x3thm1 x1mth2 x7thm1 cosio sinio =
     short_period_state s tsince a xnode xincl x3thm1 x1mth2 x7thm1 cosio sinio
       (XKE / pow a 1.5) axn ayn elsq
       (sinepw (snd r)) (cosepw (snd r)) (ecose (snd r)) (esine (snd r))) /\
  (* and throws for [pl < 0] and for [rk < 1] only *)
  (forall (s : SGP4) (tsince a xnode xincl x3thm1 x1mth2 x7thm1 cosio sinio
             xn sinepw cosepw ecose esine : double),
     let pl := a * (1.0 - elsq) in
     let rk := radius_rk a axn ayn elsq x3thm1 x1mth2 cosepw ecose esine in
     let res := short_period_state s tsince a xnode xincl x3thm1 x1mth2 x7thm1
                  cosio sinio xn axn ayn elsq sinepw cosepw ecose esine in
     (res = Throw error_4 <-> pl < 0.0) /\
     (res = Throw error_6 <-> 0.0 <= pl /\ rk < 1.0) /\
     (is_ok res = true <-> 0.0 <= pl /\ 1.0 <= rk)) /\
  (* so the outcome of the routine is decided by [pl] and [rk] alone *)
  (forall (s : SGP4) (tsince e a omega xl xnode xincl xlcof aycof
             x3thm1 x1mth2 x7thm1 cosio sinio : double),
     kepler_arguments e a omega xl xnode xlcof aycof = (capu, axn, ayn, elsq) ->
     let pl := a * (1.0 - elsq) in
     let rk := radius_rk a axn ayn elsq x3thm1 x1mth2
                 (cosepw (snd r)) (ecose (snd r)) (esine (snd r)) in
     let res := CalculateFinalPositionVelocity s tsince e a omega xl xnode
                  xincl xlcof aycof x3thm1 x1mth2 x7thm1 cosio sinio in
     (res = Throw error_4 <-> pl < 0.0) /\
     (res = Throw error_6 <-> 0.0 <= pl /\ rk < 1.0) /\
     (is_ok res = true <-> 0.0 <= pl /\ 1.0 <= rk)).
Proof.
  intros mnn r.
  assert (Hstart : kepler_converged capu axn ayn (kepler_start capu))
    by (unfold kepler_converged, kepler_start; cbn [kepler_running]; discriminate).
  assert (Hr : r = kepler_loop capu axn ayn mnn 10 0 (kepler_start capu))
    by reflexivity.
  destruct (kepler_loop_spec capu axn ayn mnn 10 0 (kepler_start capu) Hstart)
    as (H1 & H2 & H3).
  rewrite <- Hr in H1, H2, H3.
  assert (Hge : (1 <= fst r)%nat).
  { rewrite Hr, kepler_loop_unfold.
    change (kepler_running (kepler_start capu)) with true. cbv iota.
    destruct (kepler_loop_spec capu axn ayn mnn 9 1
                (kepler_body capu axn ayn mnn 0 (kepler_start capu)))
      as (G & _).
    - apply kepler_body_converged. reflexivity.
    - lia. }
  split; [lia | split; [exact H2 | split; [exact H3 |
    split; [| split; [| split; [| split]]]]]].
  - intro Hrun.
    assert (Hten : fst r = 10%nat).
    { destruct (Nat.eq_dec (fst r) 10) as [Heq | Hne]; [exact Heq |].
      assert (Hlt : (fst r < 0 + 10)%nat) by lia.
      apply H2 in Hlt. congruence. }
    split; [exact Hten |].
    rewrite Hr in Hrun, Hten |- *.
    rewrite kepler_loop_last in Hrun, Hten |- *. cbv zeta in Hrun, Hten |- *.
    destruct (kepler_loop_spec capu axn ayn mnn 9 0 (kepler_start capu) Hstart)
      as (G1 & G2 & _).
    set (r9 := kepler_loop capu axn ayn mnn 9 0 (kepler_start capu)) in *.
    destruct (kepler_running (snd r9) && (fst r9 =? 0 + 9)%nat) eqn:Hc.
    + apply andb_true_iff in Hc. destruct Hc as [_ Hc].
      apply Nat.eqb_eq in Hc. cbn [snd]. rewrite Hc. reflexivity.
    + cbn [fst] in Hten. lia.
  - apply CalculateFinalPositionVelocity_errors.
  - intros s tsince e a omega xl xnode xincl xlcof aycof
      x3thm1 x1mth2 x7thm1 cosio sinio Hargs.
    pose proof (CalculateFinalPositionVelocity_stages s tsince e a omega xl
                  xnode xincl xlcof aycof x3thm1 x1mth2 x7thm1 cosio sinio)
      as Hst.
    rewrite Hargs in Hst. exact Hst.
  - intros s tsince a xnode xincl x3thm1 x1mth2 x7thm1 cosio sinio
      xn sinepw cosepw ecose esine.
    apply short_period_state_outcome.
  - intros s tsince e a omega xl xnode xincl xlcof aycof
      x3thm1 x1mth2 x7thm1 cosio sinio Hargs pl rk res.
    pose proof (CalculateFinalPositionVelocity_stages s tsince e a omega xl
                  xnode xincl xlcof aycof x3thm1 x1mth2 x7thm1 cosio sinio)
      as Hst.
    rewrite Hargs in Hst. subst res. rewrite Hst.
    apply short_period_state_outcome.
Qed.

(** ** The eccentricity check after the deep-space periodics *)

Lemma sdp4_kepler_input_cases (s : SGP4) (t : double) :
  match sdp4_periodics s t with
  | Ok (e, xincl, omgadf, xnode, xmam, a) =>
      if (e <? 0.0) || (e >? 1.0)
      then sdp4_kepler_input s t = Throw error_3
      else exists k, sdp4_kepler_input s t = Ok k /\ k_e k = e
  | Throw msg => sdp4_kepler_input s t = Throw msg
  end.
Proof.
  unfold sdp4_kepler_input.
  destruct (sdp4_periodics s t) as [[[[[[e xincl] omgadf] xnode] xmam] a] | msg];
    cbn [bind]; [| reflexivity].
  destruct (xincl <? 0.0); destruct ((e <? 0.0) || (e >? 1.0));
    try reflexivity; eexists; split; reflexivity.
Qed.

Lemma call_CalculateFinalPositionVelocity_errors (s : SGP4) (t : double)
  (k : KeplerInput) (msg : string) :
  call_CalculateFinalPositionVelocity s t k = Throw msg ->
  msg = error_4 \/ msg = error_6.
Proof.
  unfold call_CalculateFinalPositionVelocity.
  apply CalculateFinalPositionVelocity_errors.
Qed.

Lemma FindPositionSGP4_errors (s : SGP4) (t : double) (msg : string) :
  snd (FindPositionSGP4 s t) = Throw msg ->
  msg = error_2_xl \/ msg = error_1 \/ msg = error_4 \/ msg = error_6.
Proof.
  unfold FindPositionSGP4. cbn [snd]. unfold sgp4_kepler_input.
  destruct (sgp4_secular s t) as [[[[[e a] omega] xl] xnode] xincl].
  destruct (xl <=? 0.0).
  - cbn [bind]. intro H. injection H as <-. left. reflexivity.
  - unfold check_eccentricity.
    destruct ((e >=? 1.0) || (e <? -0.001)).
    + cbn [bind]. intro H. injection H as <-. right. left. reflexivity.
    + cbn [bind]. intro H. right. right.
      apply call_CalculateFinalPositionVelocity_errors in H. exact H.
Qed.

(** C9.  Only the deep-space path checks the eccentricity again after the
    lunar / solar periodics.  In [FindPositionSDP4], when the elements
    reach the periodics, an eccentricity below 0 or above 1 after them makes
    the call throw error #3, and otherwise that eccentricity goes to the
    Kepler stage; a call that returns a position had it between 0 and 1.
    [FindPositionSGP4] never throws error #3: it hands the validated
    eccentricity of the secular update to the Kepler stage. *)
Theorem post_periodics_check_in_deep_space_only (s : SGP4) (t : double) :
  (forall e xincl omgadf xnode xmam a : double,
     sdp4_periodics s t = Ok (e, xincl, omgadf, xnode, xmam, a) ->
     (e < 0.0 \/ 1.0 < e ->
        sdp4_kepler_input s t = Throw error_3 /\
        snd (FindPositionSDP4 s t) = Throw error_3) /\
     (0.0 <= e /\ e <= 1.0 ->
        exists k, sdp4_kepler_input s t = Ok k /\ k_e k = e)) /\
  (forall eci : Eci,
     snd (FindPositionSDP4 s t) = Ok eci ->
     exists k, sdp4_kepler_input s t = Ok k /\ 0.0 <= k_e k /\ k_e k <= 1.0) /\
  snd (FindPositionSGP4 s t) <> Throw error_3 /\
  (forall k : KeplerInput,
     sgp4_kepler_input s t = Ok k ->
     check_eccentricity (sgp4_e s t) = Ok (k_e k)).
Proof.
  pose proof (sdp4_kepler_input_cases s t) as Hc.
  split; [| split; [| split]].
  - intros e xincl omgadf xnode xmam a Hp. rewrite Hp in Hc.
    split.
    + intro Hout.
      replace ((e <? 0.0) || (e >? 1.0)) with true in Hc.
      2:{ symmetry. cmp_goal. destruct Hout; [left | right]; cmp_goal; lra. }
      split; [exact Hc |].
      unfold FindPositionSDP4. cbn [snd]. rewrite Hc. reflexivity.
    + intros [H0 H1].
      replace ((e <? 0.0) || (e >? 1.0)) with false in Hc
        by (symmetry; cmp_goal; lra).
      exact Hc.
  - intros eci Heci. unfold FindPositionSDP4 in Heci. cbn [snd] in Heci.
    destruct (sdp4_periodics s t)
      as [[[[[[e xincl] omgadf] xnode] xmam] a] | msg].
    + destruct ((e <? 0.0) || (e >? 1.0)) eqn:He.
      * rewrite Hc in Heci. discriminate.
      * destruct Hc as (k & Hk & Hke). exists k. cmp_hyps.
        rewrite Hke. auto.
    + rewrite Hc in Heci. discriminate.
  - intro H. apply FindPositionSGP4_errors in H.
    destruct H as [H | [H | [H | H]]]; discriminate.
  - intros k Hk. apply sgp4_kepler_input_e. exact Hk.
Qed.

(** ** The resonance integrator *)

Lemma N2Q_0 : N2Q 0 == 0.
Proof. reflexivity. Qed.

Lemma N2Q_S (n : nat) : N2Q (Datatypes.S n) == N2Q n + 1.
Proof.
  unfold N2Q. rewrite Nat2Z.inj_succ. unfold Z.succ.
  rewrite inject_Z_plus. reflexivity.
Qed.

Lemma N2Q_add (n m : nat) : N2Q (n + m) == N2Q n + N2Q m.
Proof.
  unfold N2Q. rewrite Nat2Z.inj_add, inject_Z_plus. reflexivity.
Qed.

Lemma N2Q_nonneg (n : nat) : 0 <= N2Q n.
Proof.
  unfold N2Q. change 0 with (inject_Z 0). rewrite <- Zle_Qle. lia.
Qed.

Lemma N2Q_le (n m : nat) : (n <= m)%nat -> N2Q n <= N2Q m.
Proof. intro H. unfold N2Q. rewrite <- Zle_Qle. lia. Qed.

Lemma N2Q_lt (n m : nat) : (n < m)%nat -> N2Q n + 1 <= N2Q m.
Proof.
  intro H. rewrite <- N2Q_S. apply N2Q_le. lia.
Qed.

Lemma N2Q_pos (n : nat) : (1 <= n)%nat -> 1 <= N2Q n.
Proof.
  intro H. apply (N2Q_lt 0 n) in H. rewrite N2Q_0 in H. lra.
Qed.

Lemma integrator_step_atime (delt : double) (s : SGP4) :
  d_atime_ (integ (integrator_step delt s)) = d_atime_ (integ s) + delt.
Proof. reflexivity. Qed.

Lemma passes_S (n : nat) (delt : double) (s : SGP4) :
  passes (Datatypes.S n) delt s = integrator_step delt (passes n delt s).
Proof. reflexivity. Qed.

Lemma passes_S_first (n : nat) (delt : double) (s : SGP4) :
  passes (Datatypes.S n) delt s = passes n delt (integrator_step delt s).
Proof.
  induction n as [| n IH]; [reflexivity |].
  rewrite passes_S, IH. reflexivity.
Qed.

Lemma passes_add (n m : nat) (delt : double) (s : SGP4) :
  passes (n + m) delt s = passes n delt (passes m delt s).
Proof.
  induction n as [| n IH]; [reflexivity |].
  cbn [Nat.add]. rewrite !passes_S, IH. reflexivity.
Qed.

(** Each pass moves [atime] by exactly [delt]. *)
Lemma passes_atime (n : nat) (delt : double) (s : SGP4) :
  d_atime_ (integ (passes n delt s)) == d_atime_ (integ s) + N2Q n * delt.
Proof.
  induction n as [| n IH].
  - cbn [passes]. rewrite N2Q_0. lra.
  - rewrite passes_S, integrator_step_atime, IH, N2Q_S. lra.
Qed.

Lemma passes_constants (n : nat) (delt : double) (s : SGP4) :
  same_constants s (passes n delt s).
Proof.
  induction n as [| n IH].
  - apply same_constants_refl.
  - rewrite passes_S.
    apply (same_constants_trans _ (passes n delt s)); [exact IH |].
    apply integrator_step_constants.
Qed.

(** The loop makes [n + 1] passes when the loop condition holds after each
    of the first [n] and fails after the last, whatever bound above [n]
    it is run with. *)
Lemma integrator_loop_passes (t delt : double) (n : nat) :
  forall (fuel : nat) (s : SGP4),
    (n <= fuel)%nat ->
    (forall j, (1 <= j <= n)%nat ->
       STEP <= fabs (t - d_atime_ (integ (passes j delt s)))) ->
    fabs (t - d_atime_ (integ (passes (Datatypes.S n) delt s))) < STEP ->
    integrator_loop (Datatypes.S fuel) t delt s =
    Some (passes (Datatypes.S n) delt s).
Proof.
  induction n as [| n IH]; intros fuel s Hfuel Hcont Hstop.
  - cbn [integrator_loop].
    replace (fabs (t - d_atime_ (integ (integrator_step delt s))) >=? STEP)
      with false.
    + reflexivity.
    + symmetry. cmp_goal. exact Hstop.
  - destruct fuel as [| fuel]; [lia |].
    change (integrator_loop (Datatypes.S (Datatypes.S fuel)) t delt s)
      with (if fabs (t - d_atime_ (integ (integrator_step delt s))) >=? STEP
            then integrator_loop (Datatypes.S fuel) t delt (integrator_step delt s)
            else Some (integrator_step delt s)).
    replace (fabs (t - d_atime_ (integ (integrator_step delt s))) >=? STEP)
      with true.
    + rewrite (passes_S_first (Datatypes.S n)).
      apply IH.
      * lia.
      * intros j Hj. rewrite <- passes_S_first. apply Hcont. lia.
      * rewrite <- passes_S_first. exact Hstop.
    + symmetry. cmp_goal. apply (Hcont 1%nat). lia.
Qed.

Lemma Qfloor_ge (x : Q) (n : nat) : N2Q n <= x -> (n <= Z.to_nat (Qfloor x))%nat.
Proof.
  intro H. unfold N2Q in H. apply Qfloor_resp_le in H.
  rewrite Qfloor_Z in H. lia.
Qed.

Lemma step_toward_cases (ft : double) :
  (0 <= ft /\ step_toward ft = STEP) \/ (ft < 0 /\ step_toward ft = - STEP).
Proof.
  unfold step_toward. destruct (ft >=? 0.0) eqn:H; cmp_hyps; [left | right];
    split; trivial; lra.
Qed.

Lemma STEP_value : STEP == 720.
Proof. reflexivity. Qed.

(** Stepping toward [t] from [a], at least one step away: there is a count
    [n] of passes, at least one, such that the loop condition holds after
    each of the first [n - 1] passes and fails after pass [n]; and [n]
    steps do not overshoot. *)
Lemma toward_stop (a t : double) :
  STEP <= fabs (t - a) ->
  exists n : nat,
    (1 <= n)%nat /\
    n = Z.to_nat (Qfloor (fabs (t - a) / STEP)) /\
    N2Q n * STEP <= fabs (t - a) /\
    fabs (t - a) < (N2Q n + 1) * STEP.
Proof.
  intro Hfar.
  set (x := fabs (t - a) / STEP).
  assert (Hx : x * STEP == fabs (t - a)).
  { subst x. unfold STEP. field. }
  assert (H1 : 1 <= x).
  { assert (G : 1 * STEP <= x * STEP) by (rewrite Hx; lra).
    unfold STEP in *. lra. }
  pose proof (Qfloor_le x) as Hlo. pose proof (Qlt_floor x) as Hhi.
  assert (Hz : (1 <= Qfloor x)%Z).
  { apply Qfloor_resp_le in H1. change 1 with (inject_Z 1) in H1.
    rewrite Qfloor_Z in H1. exact H1. }
  exists (Z.to_nat (Qfloor x)).
  assert (HN : N2Q (Z.to_nat (Qfloor x)) == inject_Z (Qfloor x)).
  { unfold N2Q. rewrite Z2Nat.id by lia. reflexivity. }
  rewrite inject_Z_plus in Hhi. change (inject_Z 1) with 1 in Hhi.
  split; [lia | split; [reflexivity |]].
  rewrite HN. rewrite <- Hx. unfold STEP. split; lra.
Qed.

(** The loop entered at least one step away from [t], with the step of
    lines 1138-1140, terminates: it makes [n] passes, and then [atime] is
    less than one step away from [t]. *)
Lemma integrator_loop_toward (s : SGP4) (t : double) :
  let ft := t - d_atime_ (integ s) in
  STEP <= fabs ft ->
  exists n : nat,
    (1 <= n)%nat /\
    n = Z.to_nat (Qfloor (fabs ft / STEP)) /\
    N2Q n * STEP <= fabs ft /\
    (forall j, (1 <= j < n)%nat ->
       STEP <= fabs (t - d_atime_ (integ (passes j (step_toward ft) s)))) /\
    fabs (t - d_atime_ (integ (passes n (step_toward ft) s))) < STEP /\
    (forall fuel, (n <= fuel)%nat ->
       integrator_loop fuel t (step_toward ft) s =
       Some (passes n (step_toward ft) s)).
Proof.
  intros ft Hfar.
  destruct (toward_stop (d_atime_ (integ s)) t Hfar) as (n & Hn1 & Hn & Hlo & Hhi).
  fold ft in Hn, Hlo, Hhi.
  exists n. split; [exact Hn1 | split; [exact Hn | split; [exact Hlo |]]].
  assert (Hcont : forall j, (1 <= j < n)%nat ->
            STEP <= fabs (t - d_atime_ (integ (passes j (step_toward ft) s)))).
  { intros j Hj. apply fabs_ge. pose proof (passes_atime j (step_toward ft) s) as Ha.
    assert (Hjn : N2Q j + 1 <= N2Q n) by (apply N2Q_lt; lia).
    pose proof (N2Q_nonneg j) as Hj0.
    destruct (step_toward_cases ft) as [[Hs Hd] | [Hs Hd]]; rewrite Hd in *.
    - right. unfold fabs in Hlo, Hhi. rewrite Qabs_pos in Hlo, Hhi by exact Hs.
      subst ft. unfold STEP in *. nra.
    - left. unfold fabs in Hlo, Hhi. rewrite Qabs_neg in Hlo, Hhi by lra.
      subst ft. unfold STEP in *. nra. }
  assert (Hstop : fabs (t - d_atime_ (integ (passes n (step_toward ft) s))) < STEP).
  { apply fabs_lt. pose proof (passes_atime n (step_toward ft) s) as Ha.
    destruct (step_toward_cases ft) as [[Hs Hd] | [Hs Hd]]; rewrite Hd in *.
    - unfold fabs in Hlo, Hhi. rewrite Qabs_pos in Hlo, Hhi by exact Hs.
      subst ft. unfold STEP in *. split; lra.
    - unfold fabs in Hlo, Hhi. rewrite Qabs_neg in Hlo, Hhi by lra.
      subst ft. unfold STEP in *. split; lra. }
  split; [exact Hcont | split; [exact Hstop |]].
  intros fuel Hfuel.
  destruct n as [| n]; [lia |].
  destruct fuel as [| fuel]; [lia |].
  apply integrator_loop_passes.
  - lia.
  - intros j Hj. apply Hcont. lia.
  - exact Hstop.
Qed.

Lemma advance_integrator_spec (s : SGP4) (t : double) :
  let ft := t - d_atime_ (integ s) in
  if fabs ft >=? STEP then
    exists n : nat,
      (1 <= n)%nat /\
      integrator_fuel ft = Datatypes.S n /\
      N2Q n * STEP <= fabs ft /\
      (forall j, (1 <= j < n)%nat ->
         STEP <= fabs (t - d_atime_ (integ (passes j (step_toward ft) s)))) /\
      (forall fuel, (n <= fuel)%nat ->
         integrator_loop fuel t (step_toward ft) s =
         Some (passes n (step_toward ft) s)) /\
      advance_integrator s t = passes n (step_toward ft) s /\
      fabs (t - d_atime_ (integ (passes n (step_toward ft) s))) < STEP
  else advance_integrator s t = s /\ fabs ft < STEP.
Proof.
  intro ft. unfold advance_integrator. fold ft.
  destruct (fabs ft >=? STEP) eqn:Hfar; cmp_hyps.
  - destruct (integrator_loop_toward s t Hfar)
      as (n & Hn1 & Hn & Hlo & Hcont & Hstop & Hloop).
    fold ft in Hn, Hlo, Hcont, Hstop, Hloop.
    exists n.
    assert (Hfuel : integrator_fuel ft = Datatypes.S n)
      by (unfold integrator_fuel; rewrite <- Hn; reflexivity).
    split; [exact Hn1 | split; [exact Hfuel | split; [exact Hlo |]]].
    split; [exact Hcont | split; [exact Hloop | split; [| exact Hstop]]].
    change (if ft >=? 0.0 then STEP else - STEP) with (step_toward ft).
    rewrite (Hloop (integrator_fuel ft)) by (rewrite Hfuel; lia).
    reflexivity.
  - split; [reflexivity | exact Hfar].
Qed.

(** Each pass of the loop brings [atime] one step nearer to [t]. *)
Lemma passes_toward (s : SGP4) (t : double) (n j : nat) :
  let ft := t - d_atime_ (integ s) in
  N2Q n * STEP <= fabs ft ->
  (j < n)%nat ->
  fabs (t - d_atime_ (integ (passes (Datatypes.S j) (step_toward ft) s))) ==
  fabs (t - d_atime_ (integ (passes j (step_toward ft) s))) - STEP.
Proof.
  intros ft Hlo Hj.
  pose proof (passes_atime j (step_toward ft) s) as Ha.
  pose proof (passes_atime (Datatypes.S j) (step_toward ft) s) as Hb.
  rewrite N2Q_S in Hb.
  assert (Hjn : N2Q j + 1 <= N2Q n) by (apply N2Q_lt; lia).
  pose proof (N2Q_nonneg j) as Hj0.
  unfold fabs in *.
  destruct (step_toward_cases ft) as [[Hs Hd] | [Hs Hd]]; rewrite Hd in *.
  - rewrite Qabs_pos in Hlo by exact Hs. subst ft. unfold STEP in *.
    rewrite !Qabs_pos by nra. nra.
  - rewrite Qabs_neg in Hlo by lra. subst ft. unfold STEP in *.
    rewrite !Qabs_neg by nra. nra.
Qed.

(** The clock of the embedding is the clock in exact arithmetic. *)
Lemma integrator_loop_clock (fuel : nat) (t delt : double) (s : SGP4) :
  option_map (fun s' => d_atime_ (integ s')) (integrator_loop fuel t delt s) =
  clock_loop exact_clock fuel t delt (d_atime_ (integ s)).
Proof.
  revert s. induction fuel as [| fuel IH]; intro s; [reflexivity |].
  cbn [integrator_loop clock_loop]. cbv zeta.
  rewrite integrator_step_atime.
  change (c_leb exact_clock (c_STEP exact_clock)
            (c_fabs exact_clock
               (c_sub exact_clock t
                  (c_add exact_clock (d_atime_ (integ s)) delt))))
    with (fabs (t - (d_atime_ (integ s) + delt)) >=? STEP).
  change (c_add exact_clock (d_atime_ (integ s)) delt)
    with (d_atime_ (integ s) + delt).
  destruct (fabs (t - (d_atime_ (integ s) + delt)) >=? STEP).
  - rewrite IH, integrator_step_atime. reflexivity.
  - cbn [option_map]. rewrite integrator_step_atime. reflexivity.
Qed.

Lemma restart_test_clock (s : SGP4) (t : double) :
  d_atime_ (integ (if restart_condition s t then restart_from_epoch s else s)) =
  clock_after_restart_test exact_clock t (d_atime_ (integ s)).
Proof.
  unfold clock_after_restart_test.
  change (clock_restart_condition exact_clock t (d_atime_ (integ s)))
    with (restart_condition s t).
  destruct (restart_condition s t); reflexivity.
Qed.

(** C8.  In exact arithmetic, for every object state and every time [t]
    the integrator loop of [DeepSpaceSecular] terminates: after the restart
    test, when [atime] is at least one step away from [t] the loop makes
    some [n >= 1] passes, for every bound on the passes that is at least
    [n] and for the bound the embedding runs it with; each pass adds the
    step of plus or minus 720 minutes to [atime] and takes 720 minutes off
    its distance to [t]; and at the interpolation that follows [atime] is
    less than 720 minutes away from [t].  The restart test and the loop of
    the embedding are the clock control [clock_restart_condition],
    [clock_delt], [clock_loop] in exact arithmetic.

    In binary64 the same control, for a finite time [tf] below [2^53]
    minutes in absolute value and a clock [a0] that is a whole number of
    minutes (as it is after [SetTle], and after such a call), does the
    same: every sum [atime + delt] and every difference [tf - atime] that
    it forms is exact, the loop terminates after some [n >= 1] passes that
    add plus or minus 720 minutes each, and it leaves a clock that is a
    whole number less than 720 minutes away from [tf]. *)
Theorem integrator_terminates_within_one_step (s : SGP4) (t : double) :
  let s1 := if restart_condition s t then restart_from_epoch s else s in
  let ft := t - d_atime_ (integ s1) in
  let delt := step_toward ft in
  (delt = STEP \/ delt = - STEP) /\
  (if fabs ft >=? STEP then
     exists n : nat,
       (1 <= n)%nat /\
       (forall fuel, (n <= fuel)%nat ->
          integrator_loop fuel t delt s1 = Some (passes n delt s1)) /\
       (n <= integrator_fuel ft)%nat /\
       integrate_to s t = passes n delt s1 /\
       (forall j, (j < n)%nat ->
          d_atime_ (integ (passes (Datatypes.S j) delt s1)) =
            d_atime_ (integ (passes j delt s1)) + delt /\
          fabs (t - d_atime_ (integ (passes (Datatypes.S j) delt s1))) ==
            fabs (t - d_atime_ (integ (passes j delt s1))) - STEP)
   else integrate_to s t = s1) /\
  fabs (t - d_atime_ (integ (integrate_to s t))) < STEP /\
  (forall xll omgasm xnodes em xinc xn : double,
     fst (DeepSpaceSecular s t xll omgasm xnodes em xinc xn) =
     if d_resonance_flag_ s then integrate_to s t else s) /\
  (* the control of the embedding is the clock control, in exact arithmetic *)
  (restart_condition s t =
     clock_restart_condition exact_clock t (d_atime_ (integ s)) /\
   d_atime_ (integ s1) =
     clock_after_restart_test exact_clock t (d_atime_ (integ s)) /\
   (fabs ft >=? STEP) = clock_loop_entered exact_clock t (d_atime_ (integ s1)) /\
   delt = clock_delt exact_clock ft /\
   forall fuel : nat,
     option_map (fun s' => d_atime_ (integ s')) (integrator_loop fuel t delt s1) =
     clock_loop exact_clock fuel t delt (d_atime_ (integ s1))) /\
  (* the clock control in binary64, below 2^53 minutes *)
  (forall tf a0 : PrimFloat.float,
     PrimFloat.is_finite tf = true ->
     Qabs (Binary64.F2Q tf) < 9007199254740992 ->
     PrimFloat.is_finite a0 = true ->
     (exists k : Z, Binary64.F2Q a0 == inject_Z k) ->
     let A := Binary64.binary64_clock in
     let a1 := clock_after_restart_test A tf a0 in
     let deltf := clock_delt A (c_sub A tf a1) in
     (deltf = c_STEP A /\ Binary64.F2Q deltf == 720 \/
      deltf = c_opp A (c_STEP A) /\ Binary64.F2Q deltf == -720) /\
     (a1 = c_zero A \/ a1 = a0) /\
     if clock_loop_entered A tf a1 then
       exists n : nat,
         (1 <= n)%nat /\
         (forall fuel, (n <= fuel)%nat ->
            clock_loop A fuel tf deltf a1 = Some (clock_passes A n deltf a1)) /\
         (forall j, (j < n)%nat ->
            Binary64.F2Q (clock_passes A (Datatypes.S j) deltf a1) ==
              Binary64.F2Q (clock_passes A j deltf a1) + Binary64.F2Q deltf /\
            Qabs (Binary64.F2Q tf -
                  Binary64.F2Q (clock_passes A (Datatypes.S j) deltf a1)) ==
              Qabs (Binary64.F2Q tf -
                    Binary64.F2Q (clock_passes A j deltf a1)) - 720) /\
         Qabs (Binary64.F2Q tf - Binary64.F2Q (clock_passes A n deltf a1))
           < 720 /\
         Binary64.F2Q (c_sub A tf (clock_passes A n deltf a1)) ==
           Binary64.F2Q tf - Binary64.F2Q (clock_passes A n deltf a1) /\
         PrimFloat.is_finite (clock_passes A n deltf a1) = true /\
         (exists k : Z,
            Binary64.F2Q (clock_passes A n deltf a1) == inject_Z k)
     else
       Qabs (Binary64.F2Q tf - Binary64.F2Q a1) < 720 /\
       Binary64.F2Q (c_sub A tf a1) ==
         Binary64.F2Q tf - Binary64.F2Q a1 /\
       PrimFloat.is_finite a1 = true /\
       (exists k : Z, Binary64.F2Q a1 == inject_Z k)).
Proof.
  intros s1 ft delt.
  pose proof (advance_integrator_spec s1 t) as Hspec. cbv zeta in Hspec.
  fold ft in Hspec. fold delt in Hspec.
  assert (Hto : integrate_to s t = advance_integrator s1 t) by reflexivity.
  split; [| split; [| split; [| split; [| split]]]].
  - subst delt. destruct (step_toward_cases ft) as [[_ H] | [_ H]]; auto.
  - destruct (fabs ft >=? STEP).
    + destruct Hspec as (n & Hn1 & Hfuel & Hlo & Hcont & Hloop & Hadv & Hstop).
      exists n. split; [exact Hn1 | split; [exact Hloop |]].
      split; [rewrite Hfuel; lia |].
      split; [rewrite Hto; exact Hadv |].
      intros j Hj. split; [reflexivity |].
      apply (passes_toward s1 t n j); assumption.
    + rewrite Hto. apply Hspec.
  - rewrite Hto. destruct (fabs ft >=? STEP).
    + destruct Hspec as (n & _ & _ & _ & _ & _ & Hadv & Hstop).
      rewrite Hadv. exact Hstop.
    + destruct Hspec as [Hadv Hnear]. rewrite Hadv. exact Hnear.
  - intros xll omgasm xnodes em xinc xn. unfold DeepSpaceSecular.
    destruct (d_resonance_flag_ s); reflexivity.
  - split; [reflexivity | split; [apply restart_test_clock |]].
    split; [reflexivity | split; [reflexivity |]].
    intro fuel. apply integrator_loop_clock.
  - intros tf a0 Htf Hsmall Ha0 Hint.
    exact (Binary64Facts.binary64_run tf a0 Htf Hsmall Ha0 Hint).
Qed.

(** ** Propagation does not depend on the calls made before *)

Lemma restart_from_epoch_constants (s0 s : SGP4) :
  same_constants s0 s -> restart_from_epoch s = restart_from_epoch s0.
Proof. intros [ig ->]. reflexivity. Qed.

Lemma restart_condition_at_zero (s : SGP4) (t : double) :
  d_atime_ (integ s) == 0 -> restart_condition s t = true.
Proof.
  intro H. unfold restart_condition.
  replace (t * d_atime_ (integ s) <=? 0.0) with true.
  - destruct (fabs t <? STEP); reflexivity.
  - symmetry. cmp_goal. rewrite H. lra.
Qed.

Lemma Qmult_pos_cases (t a : Q) :
  0 < t * a -> (0 < t /\ 0 < a) \/ (t < 0 /\ a < 0).
Proof.
  intro H.
  destruct (Qlt_le_dec 0 t) as [Ht | Ht]; destruct (Qlt_le_dec 0 a) as [Ha | Ha].
  - left. auto.
  - exfalso. nra.
  - exfalso. nra.
  - right. split.
    + destruct (Qlt_le_dec t 0) as [G | G]; [exact G |].
      exfalso. assert (t == 0) as Hz by lra. rewrite Hz in H. lra.
    + destruct (Qlt_le_dec a 0) as [G | G]; [exact G |].
      exfalso. assert (a == 0) as Hz by lra. rewrite Hz in H. lra.
Qed.

(** From the epoch values the integration stops after the pass count [n]
    that is determined by the loop condition: no other count fits. *)
Lemma advance_from_epoch_unique (s0 : SGP4) (t delt : double) (n : nat) :
  STEP <= fabs t ->
  (0 <= t /\ delt = STEP \/ t < 0 /\ delt = - STEP) ->
  (1 <= n)%nat ->
  (forall j, (1 <= j < n)%nat ->
     STEP <= fabs (t - d_atime_ (integ (passes j delt (restart_from_epoch s0))))) ->
  fabs (t - d_atime_ (integ (passes n delt (restart_from_epoch s0)))) < STEP ->
  advance_integrator (restart_from_epoch s0) t =
  passes n delt (restart_from_epoch s0).
Proof.
  intros Hfar Hdir Hn1 Hcont Hstop.
  pose proof (advance_integrator_spec (restart_from_epoch s0) t) as Hspec.
  cbv zeta in Hspec.
  change (d_atime_ (integ (restart_from_epoch s0))) with 0.0 in Hspec.
  assert (Hft : fabs (t - 0.0) == fabs t).
  { unfold fabs. apply Qabs_wd. lra. }
  replace (fabs (t - 0.0) >=? STEP) with true in Hspec
    by (symmetry; cmp_goal; rewrite Hft; exact Hfar).
  assert (Hd : step_toward (t - 0.0) = delt).
  { destruct (step_toward_cases (t - 0.0)) as [[G1 G2] | [G1 G2]];
      destruct Hdir as [[D1 D2] | [D1 D2]]; rewrite G2, D2;
      try reflexivity; exfalso; lra. }
  rewrite Hd in Hspec.
  destruct Hspec as (m & Hm1 & _ & _ & Hcont' & _ & Hadv & Hstop').
  rewrite Hadv.
  destruct (Nat.lt_trichotomy m n) as [Hlt | [Heq | Hgt]].
  - exfalso. assert (G : STEP <= fabs (t - d_atime_
                 (integ (passes m delt (restart_from_epoch s0)))))
      by (apply Hcont; lia).
    lra.
  - rewrite Heq. reflexivity.
  - exfalso. assert (G : STEP <= fabs (t - d_atime_
                 (integ (passes n delt (restart_from_epoch s0)))))
      by (apply Hcont'; lia).
    lra.
Qed.

(** The integration to [t] from a state reached by earlier calls ends in
    the state that the integration from an object just initialized
    ends in. *)
Lemma integrate_to_history (s0 s : SGP4) (t : double) :
  d_atime_ (integ s0) == 0 ->
  integrator_reachable s0 s ->
  integrate_to s t = integrate_to s0 t.
Proof.
  intros H0 [Hc Hr].
  unfold integrate_to at 2. rewrite (restart_condition_at_zero s0 t H0).
  unfold integrate_to.
  destruct (restart_condition s t) eqn:Hrc.
  { rewrite (restart_from_epoch_constants s0 s Hc). reflexivity. }
  destruct Hr as [Hz | (k & delt & Hdelt & Hk)].
  { rewrite (restart_condition_at_zero s t Hz) in Hrc. discriminate. }
  unfold restart_condition in Hrc.
  apply orb_false_iff in Hrc. destruct Hrc as [Hrc Hin].
  apply orb_false_iff in Hrc. destruct Hrc as [Hfar Hsign].
  apply Qltb_false in Hfar. apply Qltb_false in Hin. apply Qleb_false in Hsign.
  pose proof (passes_atime k delt (restart_from_epoch s0)) as Ha.
  rewrite <- Hk in Ha.
  change (d_atime_ (integ (restart_from_epoch s0))) with 0.0 in Ha.
  pose proof (N2Q_nonneg k) as Hk0.
  set (a := d_atime_ (integ s)) in *.
  assert (Hdir : (0 < t /\ delt = STEP /\ 0 < a /\ a <= t) \/
                 (t < 0 /\ delt = - STEP /\ a < 0 /\ t <= a)).
  { assert (Hsign' : 0 < t * a) by lra. clear Hsign.
    apply Qmult_pos_cases in Hsign'. rename Hsign' into Hsign.
    unfold fabs in Hin.
    destruct Hsign as [[Ht Hap] | [Ht Han]].
    - left. rewrite (Qabs_pos t), (Qabs_pos a) in Hin by lra.
      destruct Hdelt as [-> | ->]; [auto |].
      exfalso. unfold STEP in Ha. nra.
    - right. rewrite (Qabs_neg t), (Qabs_neg a) in Hin by lra.
      destruct Hdelt as [-> | ->]; [| split; [| split; [| split]]];
        trivial; try lra.
      exfalso. unfold STEP in Ha. nra. }
  assert (Hk1 : (1 <= k)%nat).
  { destruct k as [| k]; [| lia]. exfalso. rewrite N2Q_0 in Ha.
    destruct Hdir as [(_ & _ & G & _) | (_ & _ & G & _)]; lra. }
  assert (Hdir' : 0 <= t /\ delt = STEP \/ t < 0 /\ delt = - STEP)
    by (destruct Hdir as [(G1 & G2 & _) | (G1 & G2 & _)];
        [left | right]; split; trivial; lra).
  (* the passes before [k], counted from the epoch values *)
  assert (Hbefore : forall j, (1 <= j < k)%nat ->
            STEP <= fabs (t - d_atime_
                      (integ (passes j delt (restart_from_epoch s0))))).
  { intros j Hj. apply fabs_ge.
    pose proof (passes_atime j delt (restart_from_epoch s0)) as Hj'.
    change (d_atime_ (integ (restart_from_epoch s0))) with 0.0 in Hj'.
    assert (Hjk : N2Q j + 1 <= N2Q k) by (apply N2Q_lt; lia).
    pose proof (N2Q_nonneg j) as Hj0.
    destruct Hdir as [(G1 & -> & G3 & G4) | (G1 & -> & G3 & G4)];
      unfold STEP in *; [right | left]; nra. }
  pose proof (advance_integrator_spec s t) as Hspec. cbv zeta in Hspec.
  fold a in Hspec.
  destruct (fabs (t - a) >=? STEP) eqn:Hc1.
  - (* further passes from [s] *)
    apply Qgeb_true in Hc1.
    assert (Hd : step_toward (t - a) = delt).
    { pose proof Hc1 as Hc2. apply fabs_ge in Hc2.
      destruct (step_toward_cases (t - a)) as [[G1 G2] | [G1 G2]];
        destruct Hdir as [(D1 & D2 & D3 & D4) | (D1 & D2 & D3 & D4)];
        rewrite G2, D2; try reflexivity; exfalso; unfold STEP in Hc2;
        destruct Hc2; lra. }
    rewrite Hd in Hspec.
    destruct Hspec as (n1 & Hn1 & _ & _ & Hcont1 & _ & Hadv & Hstop1).
    rewrite Hadv, Hk, <- passes_add.
    symmetry. apply advance_from_epoch_unique; trivial; try lia.
    + intros j Hj.
      destruct (Nat.lt_trichotomy j k) as [Hlt | [Heq | Hgt]].
      * apply Hbefore. lia.
      * rewrite Heq, <- Hk. exact Hc1.
      * replace j with ((j - k) + k)%nat by lia.
        rewrite passes_add, <- Hk. apply Hcont1. lia.
    + rewrite passes_add, <- Hk. exact Hstop1.
  - (* [s] is within one step of [t] *)
    destruct Hspec as [Hadv Hnear]. rewrite Hadv.
    rewrite Hk. symmetry. apply advance_from_epoch_unique; trivial.
    rewrite <- Hk. exact Hnear.
Qed.

Lemma integrate_to_reachable (s0 : SGP4) (t : double) :
  d_atime_ (integ s0) == 0 ->
  integrator_reachable s0 (integrate_to s0 t).
Proof.
  intro H0. split; [apply integrate_to_constants |].
  right. unfold integrate_to. rewrite (restart_condition_at_zero s0 t H0).
  pose proof (advance_integrator_spec (restart_from_epoch s0) t) as Hspec.
  cbv zeta in Hspec.
  destruct (fabs (t - d_atime_ (integ (restart_from_epoch s0))) >=? STEP).
  - destruct Hspec as (n & _ & _ & _ & _ & _ & Hadv & _).
    exists n. eexists. split; [| exact Hadv].
    match goal with
    | |- step_toward ?ft = _ \/ _ =>
        destruct (step_toward_cases ft) as [[_ G] | [_ G]]; auto
    end.
  - destruct Hspec as [Hadv _]. exists 0%nat, STEP. split; [auto |].
    rewrite Hadv. reflexivity.
Qed.

(** What [DeepSpaceSecular] returns in its reference parameters depends on
    the object through its constants and the integrator state after the
    integration only. *)
Lemma DeepSpaceSecular_history (s0 : SGP4) (ig : Integrator)
  (t xll omgasm xnodes em xinc xn : double) :
  integrate_to (set_integ s0 ig) t = integrate_to s0 t ->
  snd (DeepSpaceSecular (set_integ s0 ig) t xll omgasm xnodes em xinc xn) =
  snd (DeepSpaceSecular s0 t xll omgasm xnodes em xinc xn).
Proof.
  intro H. unfold DeepSpaceSecular.
  change (d_resonance_flag_ (set_integ s0 ig)) with (d_resonance_flag_ s0).
  destruct (negb (d_resonance_flag_ s0)); [reflexivity |].
  rewrite H. reflexivity.
Qed.

Lemma sdp4_secular_history (s0 : SGP4) (ig : Integrator) (t : double) :
  integrate_to (set_integ s0 ig) t = integrate_to s0 t ->
  snd (fst (sdp4_secular (set_integ s0 ig) t)) = snd (fst (sdp4_secular s0 t)) /\
  snd (sdp4_secular (set_integ s0 ig) t) = snd (sdp4_secular s0 t).
Proof.
  intro H. unfold sdp4_secular. cbn [fst snd]. split; [| reflexivity].
  apply (DeepSpaceSecular_history s0 ig t _ _ _ _ _ _ H).
Qed.

Lemma sdp4_periodics_history (s0 : SGP4) (ig : Integrator) (t : double) :
  integrate_to (set_integ s0 ig) t = integrate_to s0 t ->
  sdp4_periodics (set_integ s0 ig) t = sdp4_periodics s0 t.
Proof.
  intro H. destruct (sdp4_secular_history s0 ig t H) as [H1 H2].
  unfold sdp4_periodics.
  destruct (sdp4_secular (set_integ s0 ig) t) as [[sa va] wa].
  destruct (sdp4_secular s0 t) as [[sb vb] wb].
  cbn [fst snd] in H1, H2. subst va wa.
  reflexivity.
Qed.

Lemma FindPositionSDP4_history (s0 : SGP4) (ig : Integrator) (t : double) :
  integrate_to (set_integ s0 ig) t = integrate_to s0 t ->
  snd (FindPositionSDP4 (set_integ s0 ig) t) = snd (FindPositionSDP4 s0 t).
Proof.
  intro H. unfold FindPositionSDP4. cbn [snd].
  unfold sdp4_kepler_input. rewrite (sdp4_periodics_history s0 ig t H).
  reflexivity.
Qed.

Lemma FindPositionSGP4_history (s0 : SGP4) (ig : Integrator) (t : double) :
  snd (FindPositionSGP4 (set_integ s0 ig) t) = snd (FindPositionSGP4 s0 t).
Proof. reflexivity. Qed.

Lemma FindPosition_history (s0 s : SGP4) (t : double) :
  d_atime_ (integ s0) == 0 ->
  integrator_reachable s0 s ->
  snd (FindPosition s t) = snd (FindPosition s0 t) /\
  integrator_reachable s0 (fst (FindPosition s t)).
Proof.
  intros H0 Hr.
  pose proof (integrate_to_history s0 s t H0 Hr) as Hi.
  pose proof Hr as [[ig Hig] _].
  split.
  - rewrite Hig in Hi |- *. unfold FindPosition.
    change (i_use_deep_space_ (set_integ s0 ig)) with (i_use_deep_space_ s0).
    destruct (i_use_deep_space_ s0).
    + apply FindPositionSDP4_history. exact Hi.
    + apply FindPositionSGP4_history.
  - unfold FindPosition, FindPositionSDP4, FindPositionSGP4, sdp4_secular,
      DeepSpaceSecular.
    destruct (i_use_deep_space_ s); [| exact Hr].
    cbn [fst]. destruct (negb (d_resonance_flag_ s)); cbn [fst]; [exact Hr |].
    rewrite Hi. apply integrate_to_reachable. exact H0.
Qed.

Lemma propagate_all_reachable (s0 : SGP4) (ts : list double) (s : SGP4) :
  d_atime_ (integ s0) == 0 ->
  integrator_reachable s0 s ->
  integrator_reachable s0 (propagate_all s ts).
Proof.
  intro H0. unfold propagate_all. revert s.
  induction ts as [| t ts IH]; intros s Hr; cbn [fold_left]; [exact Hr |].
  apply IH. apply (FindPosition_history s0 s t H0 Hr).
Qed.

Lemma SetTle_atime (tle : Tle) (s : SGP4) :
  SetTle tle = Ok s -> d_atime_ (integ s) == 0.
Proof.
  intro H. destruct (SetTle_resonance_flag tle s H) as [(_ & _ & _ & Ha) | Hu].
  - rewrite Ha. reflexivity.
  - destruct Hu as (_ & _ & Hi & _). rewrite Hi. reflexivity.
Qed.

(** C3.  Propagation is history-independent: after a successful [SetTle],
    whatever calls of [FindPosition] were made before (at the times [ts],
    returning or throwing), the call at the time [t] returns, or throws,
    what it does on the object just initialized from the same element
    set. *)
Theorem propagation_is_history_independent (tle : Tle) (s0 : SGP4)
  (ts : list double) (t : double) :
  SetTle tle = Ok s0 ->
  snd (FindPosition (propagate_all s0 ts) t) = snd (FindPosition s0 t).
Proof.
  intro Hset.
  pose proof (SetTle_atime tle s0 Hset) as H0.
  assert (Hr : integrator_reachable s0 s0)
    by (split; [apply same_constants_refl | left; exact H0]).
  apply (FindPosition_history s0 _ t H0).
  apply propagate_all_reachable; assumption.
Qed.

(** ** The flags of an initialized object, from its recovered elements *)

Lemma SetTle_elements (tle : Tle) (s : SGP4) :
  SetTle tle = Ok s ->
  elems s = r_elems (recover_elements tle) /\
  i_use_deep_space_ s = (period_ (r_elems (recover_elements tle)) >=? 225.0) /\
  RecoveredMeanMotion s = recovered_mean_motion_ (r_elems (recover_elements tle)) /\
  Eccentricity s = tle_Eccentricity tle.
Proof.
  intro H. apply SetTle_Ok_inv in H. destruct H as (-> & _).
  unfold recover_and_initialize. cbv zeta.
  match goal with
  | |- context [Initialize ?s0 ?a ?b ?c ?d] =>
      destruct (Initialize_frame s0 a b c d) as (He & _ & Hd);
      set (s1 := Initialize s0 a b c d) in *
  end.
  unfold RecoveredMeanMotion, Eccentricity. rewrite He, Hd.
  repeat split; reflexivity.
Qed.

Lemma flags_from_recovered_elements (tle : Tle) (s : SGP4) :
  SetTle tle = Ok s ->
  let el := r_elems (recover_elements tle) in
  let n := recovered_mean_motion_ el in
  let sync := (n <? 0.0052359877) && (n >? 0.0034906585) in
  let none := (n <? 8.26e-3) || (n >? 9.24e-3) || (tle_Eccentricity tle <? 0.5) in
  RecoveredMeanMotion s = n /\
  i_use_deep_space_ s = (period_ el >=? 225.0) /\
  ((period_ el >=? 225.0) = true ->
     d_synchronous_flag_ s = sync /\
     d_resonance_flag_ s = (sync || negb none)) /\
  ((period_ el >=? 225.0) = false -> integrator_untouched s).
Proof.
  intros Hset el n sync none.
  destruct (SetTle_elements tle s Hset) as (_ & Hd & Hn & He).
  fold el in Hd, Hn. fold n in Hn.
  split; [exact Hn | split; [exact Hd | split]].
  - intro Hp. rewrite Hp in Hd.
    destruct (resonance_flags tle s Hset Hd) as (F1 & F2 & _).
    unfold synchronous_test, no_resonance_test in F1, F2.
    rewrite Hn in F1. rewrite Hn, He in F2. split; assumption.
  - intro Hp. rewrite Hp in Hd.
    apply SetTle_state in Hset. destruct Hset as (_ & _ & Hs).
    rewrite Hd in Hs. exact Hs.
Qed.

Lemma zm_after_SetTle (tle : Tle) (s : SGP4) (t : double) :
  SetTle tle = Ok s ->
  solar_zm s t = d_zmos_ s + 1.19459E-5 * t /\
  lunar_zm s t = d_zmol_ s + 1.5835218E-4 * t.
Proof.
  intro H. apply SetTle_state in H. destruct H as (_ & Hf & _).
  unfold solar_zm, lunar_zm. rewrite Hf. split; reflexivity.
Qed.

Lemma zm_not_at_epoch (tle : Tle) (s : SGP4) :
  SetTle tle = Ok s ->
  ~ solar_zm s 360 == d_zmos_ s /\ ~ lunar_zm s 360 == d_zmol_ s.
Proof.
  intro H. destruct (zm_after_SetTle tle s 360 H) as (Zs & Zl).
  rewrite Zs, Zl. split; intro G; qlra.
Qed.

(** * Further properties of the code *)

(** ** The exceptions of [SetTle] *)

(** X1.  [SetTle] throws "Eccentricity out of range" exactly when the
    eccentricity is below 0 or above [1.0 - 1.0e-3]; it throws "Inclination
    out of range" exactly when the eccentricity is in range and the
    inclination is negative; in every other case, whatever the other fields
    and however large the inclination, the element set is accepted. *)
Theorem SetTle_error_messages (tle : Tle) :
  (SetTle tle = Throw "Eccentricity out of range" <->
     tle_Eccentricity tle < 0.0 \/ 1.0 - 1.0e-3 < tle_Eccentricity tle) /\
  (SetTle tle = Throw "Inclination out of range" <->
     0.0 <= tle_Eccentricity tle /\ tle_Eccentricity tle <= 1.0 - 1.0e-3 /\
     tle_Inclination tle < 0.0) /\
  (SetTle tle = Ok (recover_and_initialize tle) <->
     0.0 <= tle_Eccentricity tle /\ tle_Eccentricity tle <= 1.0 - 1.0e-3 /\
     0.0 <= tle_Inclination tle).
Proof.
  unfold SetTle.
  destruct ((tle_Eccentricity tle <? 0.0) || (tle_Eccentricity tle >? 1.0 - 1.0e-3))
    eqn:He.
  - assert (Hout : tle_Eccentricity tle < 0.0 \/
                   1.0 - 1.0e-3 < tle_Eccentricity tle)
      by (cmp_hyps; auto).
    split; [| split].
    + split; [intros _; exact Hout | reflexivity].
    + split; [discriminate |]. intros (H1 & H2 & _). destruct Hout; qlra.
    + split; [discriminate |]. intros (H1 & H2 & _). destruct Hout; qlra.
  - cmp_hyps.
    destruct ((tle_Inclination tle <? 0.0) || (tle_Eccentricity tle >? PI)) eqn:Hi.
    + assert (Hneg : tle_Inclination tle < 0.0).
      { cmp_hyps; [assumption |]. exfalso. unfold PI in Hi. qlra. }
      split; [| split].
      * split; [discriminate |]. intros [G | G]; qlra.
      * split; [intros _; auto | reflexivity].
      * split; [discriminate |]. intros (_ & _ & G). lra.
    + cmp_hyps. split; [| split].
      * split; [discriminate |]. intros [G | G]; qlra.
      * split; [discriminate |]. intros (_ & _ & G). lra.
      * split; [intros _; auto | reflexivity].
Qed.

(** ** The choice of the propagation model *)

Lemma Initialize_simple_model (s : SGP4) (theta2 betao2 betao eosq : double) :
  let s' := Initialize s theta2 betao2 betao eosq in
  i_use_simple_model_ s' =
    (if Period s >=? 225.0 then i_use_simple_model_ s else Perigee s <? 220.0) /\
  Period s' = Period s /\ Perigee s' = Perigee s.
Proof.
  destruct (Initialize_frame s theta2 betao2 betao eosq) as (He & _ & _).
  cbv zeta. unfold Period at 2, Perigee at 2. rewrite He.
  split; [| split; reflexivity].
  unfold Initialize. cbv zeta.
  destruct (Period s >=? 225.0).
  - match goal with
    | |- context [DeepSpaceInitialize ?s1 ?a ?b ?c ?d ?e ?f ?g ?h ?i] =>
        destruct (DeepSpaceInitialize_frame s1 a b c d e f g h i)
          as (_ & _ & _ & _ & _ & H6 & _)
    end.
    cbn [i_use_simple_model_ set_first_run]. rewrite H6. reflexivity.
  - reflexivity.
Qed.

Lemma SetTle_model_flags (tle : Tle) (s : SGP4) :
  SetTle tle = Ok s ->
  i_use_deep_space_ s = (Period s >=? 225.0) /\
  i_use_simple_model_ s =
    (if Period s >=? 225.0 then false else Perigee s <? 220.0).
Proof.
  intro H. apply SetTle_Ok_inv in H. destruct H as (-> & _).
  unfold recover_and_initialize. cbv zeta.
  match goal with
  | |- context [Initialize ?s0 ?a ?b ?c ?d] =>
      destruct (Initialize_frame s0 a b c d) as (_ & _ & Hd);
      destruct (Initialize_simple_model s0 a b c d) as (Hs & Hp & Hq);
      set (s1 := Initialize s0 a b c d) in *
  end.
  rewrite Hd, Hs, Hp, Hq. split; reflexivity.
Qed.

(** X2.  After a successful [SetTle] the deep-space model (SDP4) is used
    exactly when the period is at least 225 minutes; the simple-model flag
    is set exactly for a near-space object whose perigee is below 220 km;
    and [FindPosition] goes to [FindPositionSDP4] or [FindPositionSGP4] by
    the period alone. *)
Theorem propagation_model_selection (tle : Tle) (s : SGP4) :
  SetTle tle = Ok s ->
  (i_use_deep_space_ s = true <-> 225.0 <= Period s) /\
  (i_use_simple_model_ s = true <-> Period s < 225.0 /\ Perigee s < 220.0) /\
  (forall t : double,
     FindPosition s t =
     if Period s >=? 225.0 then FindPositionSDP4 s t else FindPositionSGP4 s t).
Proof.
  intro H. destruct (SetTle_model_flags tle s H) as (Hd & Hs).
  split; [| split].
  - rewrite Hd. split; intro G; cmp_hyps; [exact G | cmp_goal; exact G].
  - rewrite Hs. destruct (Period s >=? 225.0) eqn:Hp.
    + split; [discriminate |]. intros [G _]. cmp_hyps. lra.
    + split; intro G; cmp_hyps.
      * split; assumption.
      * destruct G as [_ G]. cmp_goal. exact G.
  - intro t. unfold FindPosition. rewrite Hd. reflexivity.
Qed.

(** ** The members of the model that is not used *)

Lemma Initialize_unused (s : SGP4) (theta2 betao2 betao eosq : double) :
  let s' := Initialize s theta2 betao2 betao eosq in
  if Period s >=? 225.0 then near s' = near s
  else
    d_gsto_ s' = d_gsto_ s /\ d_zmol_ s' = d_zmol_ s /\ d_zmos_ s' = d_zmos_ s /\
    secular s' = secular s /\ periodic s' = periodic s /\
    ((Perigee s <? 220.0) = true ->
       n_d2_ (near s') = n_d2_ (near s) /\ n_d3_ (near s') = n_d3_ (near s) /\
       n_d4_ (near s') = n_d4_ (near s) /\
       n_t3cof_ (near s') = n_t3cof_ (near s) /\
       n_t4cof_ (near s') = n_t4cof_ (near s) /\
       n_t5cof_ (near s') = n_t5cof_ (near s)).
Proof.
  unfold Initialize. cbv zeta.
  destruct (Period s >=? 225.0).
  - match goal with
    | |- context [DeepSpaceInitialize ?s1 ?a ?b ?c ?d ?e ?f ?g ?h ?i] =>
        destruct (DeepSpaceInitialize_frame s1 a b c d e f g h i)
          as (_ & _ & H3 & _)
    end.
    cbn [near set_first_run]. rewrite H3. reflexivity.
  - cbn [d_gsto_ d_zmol_ d_zmos_ secular periodic near set_first_run
         set_initialized].
    repeat (split; [reflexivity |]).
    intro Hp. unfold near_space_constants. cbv zeta. rewrite Hp.
    cbn [negb]. repeat split; reflexivity.
Qed.

(** X3.  [SetTle] leaves the members of the model that is not used as
    [ResetGlobalVariables] set them: a deep-space object has all its
    near-space constants zero; a near-space object has the sidereal time,
    the lunar and solar constants, the resonance terms and the integrator
    members zero and no resonance flag; and under the simple model the
    higher-order drag coefficients [d2], [d3], [d4], [t3cof], [t4cof] and
    [t5cof] are zero. *)
Theorem unused_model_members_stay_zero (tle : Tle) (s : SGP4) :
  SetTle tle = Ok s ->
  (i_use_deep_space_ s = true -> near s = zero_near) /\
  (i_use_deep_space_ s = false ->
     d_gsto_ s = 0.0 /\ d_zmol_ s = 0.0 /\ d_zmos_ s = 0.0 /\
     secular s = zero_secular /\ periodic s = zero_periodic /\
     resonance s = zero_resonance /\ integ s = zero_integ /\
     d_resonance_flag_ s = false /\ d_synchronous_flag_ s = false) /\
  (i_use_simple_model_ s = true ->
     n_d2_ (near s) = 0.0 /\ n_d3_ (near s) = 0.0 /\ n_d4_ (near s) = 0.0 /\
     n_t3cof_ (near s) = 0.0 /\ n_t4cof_ (near s) = 0.0 /\
     n_t5cof_ (near s) = 0.0).
Proof.
  intro H.
  destruct (SetTle_model_flags tle s H) as (Hd & Hs).
  pose proof (SetTle_state tle s H) as (_ & _ & Hu).
  apply SetTle_Ok_inv in H. destruct H as (Heq & _).
  assert (Hi : let s0 := s in
               if Period s >=? 225.0 then near s0 = zero_near
               else
                 d_gsto_ s0 = 0.0 /\ d_zmol_ s0 = 0.0 /\ d_zmos_ s0 = 0.0 /\
                 secular s0 = zero_secular /\ periodic s0 = zero_periodic /\
                 ((Perigee s <? 220.0) = true ->
                    n_d2_ (near s0) = 0.0 /\ n_d3_ (near s0) = 0.0 /\
                    n_d4_ (near s0) = 0.0 /\ n_t3cof_ (near s0) = 0.0 /\
                    n_t4cof_ (near s0) = 0.0 /\ n_t5cof_ (near s0) = 0.0)).
  { rewrite Heq. unfold recover_and_initialize. cbv zeta.
    match goal with
    | |- context [Initialize ?s0 ?a ?b ?c ?d] =>
        pose proof (Initialize_unused s0 a b c d) as Hun;
        destruct (Initialize_simple_model s0 a b c d) as (_ & Hp & Hq);
        set (s1 := Initialize s0 a b c d) in *
    end.
    cbv zeta in Hun. rewrite Hp, Hq. exact Hun. }
  cbv zeta in Hi. clear Heq.
  split; [| split].
  - intro G. rewrite Hd in G. rewrite G in Hi. exact Hi.
  - intro G. rewrite G in Hu. rewrite Hd in G. rewrite G in Hi.
    destruct Hi as (I1 & I2 & I3 & I4 & I5 & _).
    destruct Hu as (U1 & U2 & U3 & U4 & _).
    repeat split; assumption.
  - intro G. rewrite Hs in G.
    destruct (Period s >=? 225.0); [discriminate |].
    destruct Hi as (_ & _ & _ & _ & _ & Hi). exact (Hi G).
Qed.

(** ** The first passes of the Kepler solver *)

Lemma fabs_le (x y : Q) : fabs x <= y <-> - y <= x /\ x <= y.
Proof. unfold fabs. apply Qabs_Qle_condition. Qed.

Lemma fabs_nonneg (x : Q) : 0 <= fabs x.
Proof. unfold fabs. apply Qabs_nonneg. Qed.

(** X4.  The first pass of the Newton-Raphson loop, with its
    "sensibility check".  The first pass moves the eccentric anomaly away
    from its starting value [capu] by at most [1.25 * fabs (sqrt elsq)].
    When the residual of Kepler's equation at [capu] is already below the
    tolerance, as it is for [axn = ayn = 0], the loop makes exactly this
    one pass and the eccentric anomaly is [capu] itself, with its sine and
    cosine; otherwise the loop goes on to a second pass at least. *)
Theorem first_pass_of_the_kepler_loop (capu axn ayn elsq : double) :
  let mnn := 1.25 * fabs (sqrt elsq) in
  let k1 := kepler_body capu axn ayn mnn 0 (kepler_start capu) in
  let r := solve_kepler capu axn ayn elsq in
  r = kepler_loop capu axn ayn mnn 9 1 k1 /\
  fabs (epw k1 - capu) <= mnn /\
  (fabs (kepler_f capu axn ayn capu) < 1.0e-12 ->
     fst r = 1%nat /\ kepler_running (snd r) = false /\
     epw (snd r) = capu /\
     sinepw (snd r) = sin capu /\ cosepw (snd r) = cos capu) /\
  (1.0e-12 <= fabs (kepler_f capu axn ayn capu) ->
     kepler_running k1 = true /\ (2 <= fst r)%nat).
Proof.
  intros mnn k1 r.
  assert (Hr : r = kepler_loop capu axn ayn mnn 9 1 k1) by reflexivity.
  split; [exact Hr |].
  assert (Hm : 0 <= mnn).
  { subst mnn. pose proof (fabs_nonneg (sqrt elsq)). lra. }
  unfold kepler_f. cbv zeta.
  assert (Hk1 : k1 = kepler_body capu axn ayn mnn 0 (kepler_start capu))
    by reflexivity.
  unfold kepler_body in Hk1. cbn [epw kepler_start kepler_running] in Hk1.
  set (f := capu - capu + (axn * sin capu - ayn * cos capu)) in *.
  set (d := f / (1.0 - (axn * cos capu + ayn * sin capu))) in *.
  destruct (fabs f <? 1.0e-12) eqn:Hf; cmp_hyps.
  - split; [| split].
    + rewrite Hk1. cbn [epw]. apply fabs_le. split; lra.
    + intros _. rewrite Hr, Hk1, kepler_loop_unfold.
      cbn [kepler_running fst snd epw sinepw cosepw].
      repeat split; reflexivity.
    + intro G. lra.
  - split; [| split].
    + rewrite Hk1. cbn [epw].
      destruct (d >? mnn) eqn:H1; [| destruct (d <? - mnn) eqn:H2];
        cmp_hyps; apply fabs_le; split; lra.
    + intro G. lra.
    + intros _.
      assert (Hrun : kepler_running k1 = true) by (rewrite Hk1; reflexivity).
      split; [exact Hrun |].
      rewrite Hr, kepler_loop_unfold, Hrun.
      destruct (kepler_loop_spec capu axn ayn mnn 8 2
                  (kepler_body capu axn ayn mnn 1 k1)
                  (kepler_body_converged capu axn ayn mnn 1 k1 Hrun))
        as (G & _).
      lia.
Qed.

(** ** The clock of the resonance integrator *)

(** The integration leaves [atime] between its value on entry and [t]. *)
Lemma advance_integrator_between (s : SGP4) (t : double) :
  let a := d_atime_ (integ s) in
  let a' := d_atime_ (integ (advance_integrator s t)) in
  fabs (t - a') < STEP /\
  (a <= t -> a <= a' /\ a' <= t) /\
  (t <= a -> t <= a' /\ a' <= a).
Proof.
  intros a a'. subst a'.
  pose proof (advance_integrator_spec s t) as Hspec. cbv zeta in Hspec.
  fold a in Hspec.
  destruct (fabs (t - a) >=? STEP) eqn:Hfar.
  - destruct Hspec as (n & Hn1 & _ & Hlo & _ & _ & Hadv & Hstop).
    rewrite Hadv. split; [exact Hstop |].
    pose proof (passes_atime n (step_toward (t - a)) s) as Ha. fold a in Ha.
    pose proof (N2Q_nonneg n) as Hn0.
    apply Qgeb_true in Hfar. apply fabs_ge in Hfar.
    unfold fabs in Hlo.
    destruct (step_toward_cases (t - a)) as [[Hs Hd] | [Hs Hd]];
      rewrite Hd in *.
    + rewrite Qabs_pos in Hlo by exact Hs. unfold STEP in *.
      split; intro G; split; nra.
    + rewrite Qabs_neg in Hlo by lra. unfold STEP in *.
      split; intro G; split; nra.
  - destruct Hspec as [Hadv Hnear]. rewrite Hadv. fold a.
    split; [exact Hnear |]. split; intro G; split; lra.
Qed.

Lemma restart_from_epoch_twice (s : SGP4) :
  restart_from_epoch (restart_from_epoch s) = restart_from_epoch s.
Proof. reflexivity. Qed.

(** A call within one step of the epoch restarts from the epoch values. *)
Lemma integrate_to_near_epoch (s : SGP4) (t : double) :
  fabs t < STEP -> integrate_to s t = restart_from_epoch s.
Proof.
  intro Hn. unfold integrate_to, restart_condition.
  replace (fabs t <? STEP) with true by (symmetry; cmp_goal; exact Hn).
  cbn [orb].
  pose proof (advance_integrator_spec (restart_from_epoch s) t) as Hspec.
  cbv zeta in Hspec.
  change (d_atime_ (integ (restart_from_epoch s))) with 0.0 in Hspec.
  assert (Hft : fabs (t - 0.0) == fabs t).
  { unfold fabs. apply Qabs_wd. lra. }
  replace (fabs (t - 0.0) >=? STEP) with false in Hspec
    by (symmetry; cmp_goal; rewrite Hft; exact Hn).
  apply Hspec.
Qed.

Lemma integrate_to_between (s : SGP4) (t : double) :
  let a' := d_atime_ (integ (integrate_to s t)) in
  fabs (t - a') < STEP /\
  ((0 <= a' /\ a' <= t) \/ (t <= a' /\ a' <= 0)) /\
  0 <= t * a' /\ fabs a' <= fabs t.
Proof.
  intro a'. subst a'. unfold integrate_to.
  set (s1 := if restart_condition s t then restart_from_epoch s else s).
  destruct (advance_integrator_between s1 t) as (Hstop & Hup & Hdown).
  set (a1 := d_atime_ (integ s1)) in *.
  set (a' := d_atime_ (integ (advance_integrator s1 t))) in *.
  assert (H1 : (0 <= a1 /\ a1 <= t) \/ (t <= a1 /\ a1 <= 0)).
  { subst a1 s1. destruct (restart_condition s t) eqn:Hrc.
    - change (d_atime_ (integ (restart_from_epoch s))) with 0.0.
      destruct (Qlt_le_dec t 0); [right | left]; split; lra.
    - unfold restart_condition in Hrc.
      apply orb_false_iff in Hrc. destruct Hrc as [Hrc Hin].
      apply orb_false_iff in Hrc. destruct Hrc as [_ Hsign].
      apply Qltb_false in Hin. apply Qleb_false in Hsign.
      assert (Hsign' : 0 < t * d_atime_ (integ s)) by lra.
      apply Qmult_pos_cases in Hsign'. unfold fabs in Hin.
      destruct Hsign' as [[Ht Ha] | [Ht Ha]].
      + rewrite (Qabs_pos t), (Qabs_pos (d_atime_ (integ s))) in Hin by lra.
        left. split; lra.
      + rewrite (Qabs_neg t), (Qabs_neg (d_atime_ (integ s))) in Hin by lra.
        right. split; lra. }
  assert (H2 : (0 <= a' /\ a' <= t) \/ (t <= a' /\ a' <= 0)).
  { destruct H1 as [[G1 G2] | [G1 G2]].
    - destruct (Hup G2). left. split; lra.
    - destruct (Hdown G1). right. split; lra. }
  split; [exact Hstop | split; [exact H2 |]].
  unfold fabs. destruct H2 as [[G1 G2] | [G1 G2]].
  - rewrite (Qabs_pos a'), (Qabs_pos t) by lra. split; [nra | lra].
  - rewrite (Qabs_neg a'), (Qabs_neg t) by lra. split; [nra | lra].
Qed.

(** The clock that the embedding leaves is the clock that the clock
    control leaves in exact arithmetic. *)
Lemma clock_integrate_to_exact (s : SGP4) (t : double) :
  let s1 := if restart_condition s t then restart_from_epoch s else s in
  forall fuel : nat,
    (integrator_fuel (t - d_atime_ (integ s1))%Q <= fuel)%nat ->
    clock_integrate_to exact_clock fuel t (d_atime_ (integ s)) =
    Some (d_atime_ (integ (integrate_to s t))).
Proof.
  intros s1 fuel Hfuel. unfold clock_integrate_to. cbv zeta.
  rewrite <- (restart_test_clock s t). fold s1.
  change (clock_loop_entered exact_clock t (d_atime_ (integ s1)))
    with (fabs (t - d_atime_ (integ s1)) >=? STEP).
  change (clock_delt exact_clock (c_sub exact_clock t (d_atime_ (integ s1))))
    with (step_toward (t - d_atime_ (integ s1))).
  pose proof (advance_integrator_spec s1 t) as Hspec. cbv zeta in Hspec.
  change (integrate_to s t) with (advance_integrator s1 t).
  destruct (fabs (t - d_atime_ (integ s1)) >=? STEP).
  - destruct Hspec as (n & _ & Hn & _ & _ & Hloop & Hadv & _).
    rewrite <- integrator_loop_clock, Hloop by lia.
    rewrite Hadv. reflexivity.
  - destruct Hspec as [Hadv _]. rewrite Hadv. reflexivity.
Qed.

(** X5.  Whatever the integrator state on entry, after the integration
    to [t] the clock [atime] is less than one step away from [t], lies
    between the epoch and [t] (never beyond [t], never on the other side of
    the epoch), and is not zero when [t] is a step or more away from the
    epoch: in exact arithmetic, where the clock is the one that the clock
    control [clock_integrate_to] leaves; and in binary64, for a finite time
    below [2^53] minutes in absolute value and a clock that is a whole
    number of minutes, where the clock control terminates and leaves such
    a clock again. *)
Theorem integrator_clock_between_epoch_and_target (s : SGP4) (t : double) :
  let a' := d_atime_ (integ (integrate_to s t)) in
  fabs (t - a') < STEP /\
  ((0 <= a' /\ a' <= t) \/ (t <= a' /\ a' <= 0)) /\
  0 <= t * a' /\ fabs a' <= fabs t /\
  (STEP <= fabs t -> ~ a' == 0) /\
  (exists n : nat, forall fuel : nat, (n <= fuel)%nat ->
     clock_integrate_to exact_clock fuel t (d_atime_ (integ s)) = Some a') /\
  (forall tf a0 : PrimFloat.float,
     PrimFloat.is_finite tf = true ->
     Qabs (Binary64.F2Q tf) < 9007199254740992 ->
     PrimFloat.is_finite a0 = true ->
     (exists k : Z, Binary64.F2Q a0 == inject_Z k) ->
     exists (n : nat) (af : PrimFloat.float),
       (forall fuel, (n <= fuel)%nat ->
          clock_integrate_to Binary64.binary64_clock fuel tf a0 = Some af) /\
       PrimFloat.is_finite af = true /\
       (exists k : Z, Binary64.F2Q af == inject_Z k) /\
       fabs (Binary64.F2Q tf - Binary64.F2Q af) < STEP /\
       (0 <= Binary64.F2Q af /\ Binary64.F2Q af <= Binary64.F2Q tf \/
        Binary64.F2Q tf <= Binary64.F2Q af /\ Binary64.F2Q af <= 0) /\
       (STEP <= fabs (Binary64.F2Q tf) -> ~ Binary64.F2Q af == 0)).
Proof.
  intro a'.
  destruct (integrate_to_between s t) as (H1 & H2 & H3 & H4).
  fold a' in H1, H2, H3, H4.
  repeat (split; [assumption |]).
  split; [| split].
  - intros Hfar Hz. apply fabs_lt in H1. apply fabs_ge in Hfar.
    rewrite Hz in H1. destruct Hfar; lra.
  - eexists. apply clock_integrate_to_exact.
  - intros tf a0 Htf Hsmall Ha0 Hint.
    destruct (Binary64Facts.binary64_integrate_to tf a0 Htf Hsmall Ha0 Hint)
      as (n & af & G1 & G2 & G3 & G4 & G5 & G6 & _).
    exists n, af. repeat (split; [assumption |]). exact G6.
Qed.

(** The integration to [t], done a second time, changes nothing. *)
Lemma integrate_to_twice (s : SGP4) (t : double) :
  integrate_to (integrate_to s t) t = integrate_to s t.
Proof.
  destruct (Qlt_le_dec (fabs t) STEP) as [Hnear | Hfar].
  - rewrite !integrate_to_near_epoch by exact Hnear.
    apply restart_from_epoch_twice.
  - destruct (integrate_to_between s t) as (H1 & H2 & H3 & H4).
    set (s2 := integrate_to s t) in *.
    set (a' := d_atime_ (integ s2)) in *.
    assert (Hrc : restart_condition s2 t = false).
    { unfold restart_condition. fold a'.
      pose proof H1 as H1'. apply fabs_lt in H1'.
      pose proof Hfar as Hfar'. apply fabs_ge in Hfar'.
      cmp_goal.
      - exact Hfar.
      - unfold STEP in *. destruct H2 as [[G1 G2] | [G1 G2]];
          destruct Hfar'; nra.
      - exact H4. }
    unfold integrate_to at 1. rewrite Hrc.
    pose proof (advance_integrator_spec s2 t) as Hspec. cbv zeta in Hspec.
    fold a' in Hspec.
    replace (fabs (t - a') >=? STEP) with false in Hspec
      by (symmetry; cmp_goal; exact H1).
    apply Hspec.
Qed.

Lemma FindPosition_state (s : SGP4) (t : double) :
  fst (FindPosition s t) =
  if i_use_deep_space_ s && d_resonance_flag_ s then integrate_to s t else s.
Proof.
  unfold FindPosition, FindPositionSDP4, FindPositionSGP4, sdp4_secular,
    DeepSpaceSecular.
  destruct (i_use_deep_space_ s); [| reflexivity].
  cbn [fst andb]. destruct (d_resonance_flag_ s); reflexivity.
Qed.

(** X6.  A call of [FindPosition] repeated with the same time, on the
    object as the first call left it, returns (or throws) the same and
    leaves the object as it is: this for every object state, initialized
    by [SetTle] or not. *)
Theorem FindPosition_repeated (s : SGP4) (t : double) :
  FindPosition (fst (FindPosition s t)) t = FindPosition s t.
Proof.
  pose proof (FindPosition_constants s t) as [ig Hig].
  pose proof (FindPosition_state s t) as Hst.
  set (s2 := fst (FindPosition s t)) in *.
  assert (Hi : i_use_deep_space_ s && d_resonance_flag_ s = true ->
               integrate_to s2 t = integrate_to s t).
  { intro Hf. rewrite Hf in Hst. rewrite Hst. apply integrate_to_twice. }
  assert (Hfst : fst (FindPosition s2 t) = s2).
  { rewrite FindPosition_state. rewrite Hig at 1 2.
    change (i_use_deep_space_ (set_integ s ig)) with (i_use_deep_space_ s).
    change (d_resonance_flag_ (set_integ s ig)) with (d_resonance_flag_ s).
    destruct (i_use_deep_space_ s && d_resonance_flag_ s) eqn:Hf;
      [| reflexivity].
    rewrite (Hi eq_refl). symmetry. exact Hst. }
  assert (Hsnd : snd (FindPosition s2 t) = snd (FindPosition s t)).
  { destruct (i_use_deep_space_ s && d_resonance_flag_ s) eqn:Hf.
    - specialize (Hi eq_refl). rewrite Hig in Hi |- *. unfold FindPosition.
      change (i_use_deep_space_ (set_integ s ig)) with (i_use_deep_space_ s).
      destruct (i_use_deep_space_ s).
      + apply FindPositionSDP4_history. exact Hi.
      + apply FindPositionSGP4_history.
    - rewrite Hst. reflexivity. }
  apply injective_projections; [exact Hfst | exact Hsnd].
Qed.

(** X7.  In a resonant object, a call at a time less than one step
    (720 minutes) from the epoch restarts the integrator from the epoch
    values, whatever state the calls before left: the clock is zero, [xli]
    and [xni] are [xlamo] and the recovered mean motion, the dot terms are
    those precomputed for the epoch, and the mean motion handed back is the
    second-order expansion about the epoch. *)
Theorem call_near_epoch_restarts_integrator (s : SGP4)
  (t xll omgasm xnodes em xinc xn : double) :
  fabs t < STEP ->
  d_resonance_flag_ s = true ->
  let r := DeepSpaceSecular s t xll omgasm xnodes em xinc xn in
  fst r = restart_from_epoch s /\
  integ (fst r) =
    {| d_xli_ := d_xlamo_ s; d_xni_ := RecoveredMeanMotion s; d_atime_ := 0.0;
       d_xndot_t_ := d_xndot_0_ s; d_xnddt_t_ := d_xnddt_0_ s;
       d_xldot_t_ := d_xldot_0_ s |} /\
  snd (snd r) ==
    RecoveredMeanMotion s + d_xndot_0_ s * t + d_xnddt_0_ s * t * t * 0.5.
Proof.
  intros Hn Hf r. subst r. unfold DeepSpaceSecular. rewrite Hf. cbn [negb].
  rewrite (integrate_to_near_epoch s t Hn). cbn [fst snd].
  split; [reflexivity | split; [reflexivity |]].
  cbn [integ restart_from_epoch set_integ d_xni_ d_xndot_t_ d_xnddt_t_ d_atime_].
  lra.
Qed.

(** The clock after the integration from a zero clock. *)
Lemma integrate_to_clock (s : SGP4) (t : double) :
  d_atime_ (integ s) == 0 ->
  d_atime_ (integ (integrate_to s t)) ==
  step_toward t * inject_Z (Qfloor (fabs t / STEP)).
Proof.
  intro H0. unfold integrate_to. rewrite (restart_condition_at_zero s t H0).
  pose proof (advance_integrator_spec (restart_from_epoch s) t) as Hspec.
  cbv zeta in Hspec.
  change (d_atime_ (integ (restart_from_epoch s))) with 0.0 in Hspec.
  assert (Hft : fabs (t - 0.0) == fabs t).
  { unfold fabs. apply Qabs_wd. lra. }
  assert (Hst : step_toward (t - 0.0) = step_toward t).
  { unfold step_toward.
    destruct (t - 0.0 >=? 0.0) eqn:H1; destruct (t >=? 0.0) eqn:H2;
      trivial; cmp_hyps; lra. }
  assert (Hfl : Qfloor (fabs (t - 0.0) / STEP) = Qfloor (fabs t / STEP)).
  { apply Qfloor_comp. rewrite Hft. reflexivity. }
  destruct (fabs (t - 0.0) >=? STEP) eqn:Hfar.
  - destruct Hspec as (n & Hn1 & Hfuel & _ & _ & _ & Hadv & _).
    rewrite Hadv, passes_atime.
    change (d_atime_ (integ (restart_from_epoch s))) with 0.0.
    rewrite Hst. unfold integrator_fuel in Hfuel. apply Nat.succ_inj in Hfuel.
    rename Hfuel into Hn. rewrite Hfl in Hn.
    assert (HN : N2Q n == inject_Z (Qfloor (fabs t / STEP))).
    { unfold N2Q. rewrite <- Hn. rewrite Z2Nat.id; [reflexivity |].
      assert (G : 0 <= fabs t / STEP).
      { pose proof (fabs_nonneg t) as G.
        apply Qle_shift_div_l; [reflexivity | lra]. }
      apply Qfloor_resp_le in G. change 0 with (inject_Z 0) in G.
      rewrite Qfloor_Z in G. exact G. }
    rewrite HN. lra.
  - destruct Hspec as [Hadv Hnear]. rewrite Hadv.
    change (d_atime_ (integ (restart_from_epoch s))) with 0.0.
    rewrite Hft in Hnear.
    assert (Hz : Qfloor (fabs t / STEP) = 0%Z).
    { pose proof (fabs_nonneg t) as G.
      assert (G0 : 0 <= fabs t / STEP)
        by (apply Qle_shift_div_l; [reflexivity | lra]).
      assert (G1 : fabs t / STEP < 1)
        by (apply Qlt_shift_div_r; [reflexivity | lra]).
      pose proof (Qfloor_le (fabs t / STEP)) as Hlo.
      apply Qfloor_resp_le in G0. change 0 with (inject_Z 0) in G0.
      rewrite Qfloor_Z in G0.
      assert (Hlt : inject_Z (Qfloor (fabs t / STEP)) < inject_Z 1)
        by (change (inject_Z 1) with 1; lra).
      rewrite <- Zlt_Qlt in Hlt. lia. }
    rewrite Hz. change (inject_Z 0) with 0. lra.
Qed.

Lemma resonance_flag_deep_space (tle : Tle) (s : SGP4) :
  SetTle tle = Ok s -> d_resonance_flag_ s = true -> i_use_deep_space_ s = true.
Proof.
  intros H Hf. apply SetTle_state in H. destruct H as (_ & _ & Hs).
  destruct (i_use_deep_space_ s); [reflexivity |].
  destruct Hs as (G & _). congruence.
Qed.

(** The clock after calls on a resonant deep-space object is the clock
    after the calls of the clock control, in exact arithmetic. *)
Lemma clock_calls_exact (s : SGP4) (ts : list double) :
  i_use_deep_space_ s = true -> d_resonance_flag_ s = true ->
  exists n : nat, forall fuel : nat, (n <= fuel)%nat ->
    clock_calls exact_clock fuel ts (d_atime_ (integ s)) =
    Some (d_atime_ (integ (propagate_all s ts))).
Proof.
  revert s. induction ts as [| t ts IH]; intros s Hd Hf.
  - exists 0%nat. intros. reflexivity.
  - assert (Hstep : fst (FindPosition s t) = integrate_to s t)
      by (rewrite FindPosition_state, Hd, Hf; reflexivity).
    destruct (integrate_to_constants s t) as [ig Hig].
    destruct (IH (integrate_to s t)) as [n Hn].
    + rewrite Hig. exact Hd.
    + rewrite Hig. exact Hf.
    + set (s1 := if restart_condition s t then restart_from_epoch s else s).
      exists (Nat.max n (integrator_fuel (t - d_atime_ (integ s1)))).
      intros fuel Hfuel. cbn [clock_calls].
      rewrite (clock_integrate_to_exact s t fuel) by (fold s1; lia).
      unfold propagate_all. cbn [fold_left]. rewrite Hstep.
      apply Hn. lia.
Qed.

(** X8.  In a resonant object initialized by [SetTle], after any calls
    at the times [ts] and a call at the time [t], the clock of the
    integrator is the whole number of steps of 720 minutes that fit between
    the epoch and [t], on the side of [t]: [720 * floor (|t| / 720)] for
    [t >= 0] and the opposite for [t < 0].  This in exact arithmetic, where
    the clock is the one that the clock control leaves after these calls
    from the clock of [SetTle], zero; and in binary64, for calls at finite times below
    [2^53] minutes in absolute value. *)
Theorem integrator_clock_closed_form (tle : Tle) (s0 : SGP4)
  (ts : list double) (t : double) :
  SetTle tle = Ok s0 ->
  d_resonance_flag_ s0 = true ->
  d_atime_ (integ (fst (FindPosition (propagate_all s0 ts) t))) ==
    step_toward t * inject_Z (Qfloor (fabs t / STEP)) /\
  d_atime_ (integ s0) == 0 /\
  (exists n : nat, forall fuel : nat, (n <= fuel)%nat ->
     clock_calls exact_clock fuel (ts ++ [t]) (d_atime_ (integ s0)) =
     Some (d_atime_ (integ (fst (FindPosition (propagate_all s0 ts) t))))) /\
  (forall (tfs : list PrimFloat.float) (tf : PrimFloat.float),
     (forall x, In x (tf :: tfs) ->
        PrimFloat.is_finite x = true /\
        Qabs (Binary64.F2Q x) < 9007199254740992) ->
     exists (n : nat) (a af : PrimFloat.float),
       (forall fuel, (n <= fuel)%nat ->
          clock_calls Binary64.binary64_clock fuel tfs
            (c_zero Binary64.binary64_clock) = Some a /\
          clock_integrate_to Binary64.binary64_clock fuel tf a = Some af) /\
       Binary64.F2Q af ==
         step_toward (Binary64.F2Q tf) *
         inject_Z (Qfloor (fabs (Binary64.F2Q tf) / STEP))).
Proof.
  intros Hset Hf.
  pose proof (resonance_flag_deep_space tle s0 Hset Hf) as Hd.
  pose proof (SetTle_atime tle s0 Hset) as H0.
  split; [| split; [exact H0 | split]].
  - assert (Hr : integrator_reachable s0 (propagate_all s0 ts)).
    { apply propagate_all_reachable; [exact H0 |].
      split; [apply same_constants_refl | left; exact H0]. }
    pose proof (integrate_to_history s0 _ t H0 Hr) as Hi.
    destruct Hr as [[ig Hig] _].
    rewrite FindPosition_state. rewrite Hig at 1 2.
    change (i_use_deep_space_ (set_integ s0 ig)) with (i_use_deep_space_ s0).
    change (d_resonance_flag_ (set_integ s0 ig)) with (d_resonance_flag_ s0).
    rewrite Hd, Hf. cbn [andb]. rewrite Hi.
    apply integrate_to_clock. exact H0.
  - destruct (clock_calls_exact s0 (ts ++ [t]) Hd Hf) as [n Hn].
    exists n. intros fuel Hfuel. rewrite (Hn fuel Hfuel).
    unfold propagate_all.
    rewrite fold_left_app. reflexivity.
  - intros tfs tf Hall.
    exact (Binary64Facts.binary64_clock_closed_form tfs tf Hall).
Qed.

(** ** Objects without resonance *)

Lemma FindPosition_without_resonance (s : SGP4) (t : double) :
  i_use_deep_space_ s && d_resonance_flag_ s = false ->
  fst (FindPosition s t) = s.
Proof. intro Hf. rewrite FindPosition_state, Hf. reflexivity. Qed.

Lemma propagate_all_without_resonance (s : SGP4) (ts : list double) :
  i_use_deep_space_ s && d_resonance_flag_ s = false ->
  propagate_all s ts = s.
Proof.
  intro Hf. unfold propagate_all.
  induction ts as [| t ts IH]; cbn [fold_left]; [reflexivity |].
  rewrite (FindPosition_without_resonance s t Hf). exact IH.
Qed.

(** X9.  Propagation changes an object only through the resonance
    integrator: a near-space object, and a deep-space object without
    resonance, is left exactly as it was by every call of [FindPosition],
    and so by any sequence of calls. *)
Theorem propagation_without_resonance_keeps_object (s : SGP4) :
  i_use_deep_space_ s = false \/ d_resonance_flag_ s = false ->
  (forall t : double, fst (FindPosition s t) = s) /\
  (forall ts : list double, propagate_all s ts = s).
Proof.
  intro H.
  assert (Hf : i_use_deep_space_ s && d_resonance_flag_ s = false).
  { destruct H as [H | H]; rewrite H; [reflexivity | apply andb_false_r]. }
  split.
  - intro t. apply FindPosition_without_resonance. exact Hf.
  - intro ts. apply propagate_all_without_resonance. exact Hf.
Qed.

(** X10.  The object that a call of [FindPosition] leaves does not
    depend on the calls made before it either: after a successful [SetTle]
    and any calls at the times [ts], the call at the time [t] leaves the
    object in the state in which it leaves the object just initialized. *)
Theorem state_after_a_call_is_history_independent (tle : Tle) (s0 : SGP4)
  (ts : list double) (t : double) :
  SetTle tle = Ok s0 ->
  fst (FindPosition (propagate_all s0 ts) t) = fst (FindPosition s0 t).
Proof.
  intro Hset.
  destruct (i_use_deep_space_ s0 && d_resonance_flag_ s0) eqn:Hf.
  - pose proof (SetTle_atime tle s0 Hset) as H0.
    assert (Hr : integrator_reachable s0 (propagate_all s0 ts)).
    { apply propagate_all_reachable; [exact H0 |].
      split; [apply same_constants_refl | left; exact H0]. }
    pose proof (integrate_to_history s0 _ t H0 Hr) as Hi.
    destruct Hr as [[ig Hig] _].
    rewrite !FindPosition_state. rewrite Hig at 1 2.
    change (i_use_deep_space_ (set_integ s0 ig)) with (i_use_deep_space_ s0).
    change (d_resonance_flag_ (set_integ s0 ig)) with (d_resonance_flag_ s0).
    rewrite Hf. exact Hi.
  - rewrite (propagate_all_without_resonance s0 ts Hf). reflexivity.
Qed.

(** ** The order of the checks in the propagation paths *)

Lemma sdp4_periodics_throws_2 (s : SGP4) (t : double) :
  sdp4_periodics s t = Throw error_2_xn <-> sdp4_xn s t <= 0.0.
Proof.
  unfold sdp4_periodics, sdp4_xn.
  destruct (sdp4_secular s t)
    as [[s' [[[[[xmdf omgadf] xnode] e] xincl] xn]] [[tempa tempe] templ]].
  destruct (xn <=? 0.0) eqn:Hxn; cmp_hyps.
  - split; [intros _; exact Hxn | reflexivity].
  - split; [| intro G; lra].
    unfold check_eccentricity.
    destruct ((e - tempe >=? 1.0) || (e - tempe <? -0.001)); cbn [bind].
    + discriminate.
    + destruct (DeepSpacePeriodics s t _ xincl omgadf xnode
                  (xmdf + RecoveredMeanMotion s * templ))
        as [[[[e1 x1] o1] n1] m1].
      discriminate.
Qed.

Lemma FindPositionSGP4_throws_2 (s : SGP4) (t : double) :
  snd (FindPositionSGP4 s t) = Throw error_2_xl <-> sgp4_xl s t <= 0.0.
Proof.
  unfold FindPositionSGP4, sgp4_xl. cbn [snd]. unfold sgp4_kepler_input.
  destruct (sgp4_secular s t) as [[[[[e a] omega] xl] xnode] xincl].
  destruct (xl <=? 0.0) eqn:Hxl; cmp_hyps.
  - cbn [bind]. split; [intros _; exact Hxl | reflexivity].
  - split; [| intro G; lra].
    unfold check_eccentricity.
    destruct ((e >=? 1.0) || (e <? -0.001)); cbn [bind].
    + discriminate.
    + intro H. apply call_CalculateFinalPositionVelocity_errors in H.
      destruct H; discriminate.
Qed.

Lemma FindPositionSGP4_throws_1 (s : SGP4) (t : double) :
  snd (FindPositionSGP4 s t) = Throw error_1 <->
  0.0 < sgp4_xl s t /\ (1.0 <= sgp4_e s t \/ sgp4_e s t < -0.001).
Proof.
  unfold FindPositionSGP4, sgp4_xl, sgp4_e. cbn [snd]. unfold sgp4_kepler_input.
  destruct (sgp4_secular s t) as [[[[[e a] omega] xl] xnode] xincl].
  destruct (xl <=? 0.0) eqn:Hxl; cmp_hyps.
  - cbn [bind]. split; [discriminate | intros [G _]; lra].
  - rewrite <- check_eccentricity_throws.
    destruct (check_eccentricity e) as [e' | msg]; cbn [bind].
    + split; [| intros [_ G]; discriminate].
      intro H. apply call_CalculateFinalPositionVelocity_errors in H.
      destruct H; discriminate.
    + split.
      * intro H. injection H as ->. split; [exact Hxl | reflexivity].
      * intros [_ H]. injection H as ->. reflexivity.
Qed.

Lemma FindPositionSDP4_periodics_throw (s : SGP4) (t : double) (msg : string) :
  msg = error_1 \/ msg = error_2_xn ->
  (snd (FindPositionSDP4 s t) = Throw msg <-> sdp4_periodics s t = Throw msg).
Proof.
  intro Hmsg. unfold FindPositionSDP4. cbn [snd].
  pose proof (sdp4_kepler_input_cases s t) as Hc.
  destruct (sdp4_periodics s t)
    as [[[[[[e xincl] omgadf] xnode] xmam] a] | msg'].
  - split; [| discriminate].
    destruct ((e <? 0.0) || (e >? 1.0)).
    + rewrite Hc. cbn [bind]. destruct Hmsg as [-> | ->]; discriminate.
    + destruct Hc as (k & Hk & _). rewrite Hk. cbn [bind].
      intro H. apply call_CalculateFinalPositionVelocity_errors in H.
      destruct Hmsg as [-> | ->]; destruct H; discriminate.
  - rewrite Hc. cbn [bind].
    split; intro H; injection H as ->; reflexivity.
Qed.

Lemma FindPositionSDP4_throws_2 (s : SGP4) (t : double) :
  snd (FindPositionSDP4 s t) = Throw error_2_xn <-> sdp4_xn s t <= 0.0.
Proof.
  rewrite <- sdp4_periodics_throws_2.
  apply FindPositionSDP4_periodics_throw. right. reflexivity.
Qed.

Lemma FindPositionSDP4_throws_1 (s : SGP4) (t : double) :
  snd (FindPositionSDP4 s t) = Throw error_1 <->
  0.0 < sdp4_xn s t /\ (1.0 <= sdp4_e s t \/ sdp4_e s t < -0.001).
Proof.
  rewrite FindPositionSDP4_periodics_throw by (left; reflexivity).
  destruct (Qlt_le_dec 0.0 (sdp4_xn s t)) as [Hxn | Hxn].
  - rewrite (sdp4_periodics_throws_1 s t Hxn), check_eccentricity_throws.
    tauto.
  - apply sdp4_periodics_throws_2 in Hxn. rewrite Hxn.
    split; [discriminate |]. intros [G _].
    apply sdp4_periodics_throws_2 in Hxn. lra.
Qed.

(** X11.  The order of the first two checks of a propagation call.  In
    the near-space path the call throws error #2 ([xl <= 0.0]) exactly when
    the longitude [xl] of the secular update is not positive, and error #1
    exactly when [xl] is positive and the eccentricity [e] of the secular
    update has [e >= 1] or [e < -0.001]; in the deep-space path the same
    holds with the mean motion [xn] that [DeepSpaceSecular] hands back in
    the place of [xl].  A nonpositive [xl] or [xn] hides an eccentricity out
    of range. *)
Theorem error_2_precedes_error_1 (s : SGP4) (t : double) :
  (snd (FindPositionSGP4 s t) = Throw error_2_xl <-> sgp4_xl s t <= 0.0) /\
  (snd (FindPositionSGP4 s t) = Throw error_1 <->
     0.0 < sgp4_xl s t /\ (1.0 <= sgp4_e s t \/ sgp4_e s t < -0.001)) /\
  (snd (FindPositionSDP4 s t) = Throw error_2_xn <-> sdp4_xn s t <= 0.0) /\
  (snd (FindPositionSDP4 s t) = Throw error_1 <->
     0.0 < sdp4_xn s t /\ (1.0 <= sdp4_e s t \/ sdp4_e s t < -0.001)).
Proof.
  split; [apply FindPositionSGP4_throws_2 |].
  split; [apply FindPositionSGP4_throws_1 |].
  split; [apply FindPositionSDP4_throws_2 | apply FindPositionSDP4_throws_1].
Qed.

(** ** The date of the result *)

Lemma CalculateFinalPositionVelocity_date (s : SGP4)
  (tsince e a omega xl xnode xincl xlcof aycof x3thm1 x1mth2 x7thm1 cosio sinio
     : double) (eci : Eci) :
  CalculateFinalPositionVelocity s tsince e a omega xl xnode xincl xlcof aycof
    x3thm1 x1mth2 x7thm1 cosio sinio = Ok eci ->
  eci_date eci = AddMin (Epoch s) tsince.
Proof.
  unfold CalculateFinalPositionVelocity. cbv zeta.
  match goal with
  | |- (if ?c then _ else _) = _ -> _ => destruct c
  end; [discriminate |].
  match goal with
  | |- (if ?c then _ else _) = _ -> _ => destruct c
  end; [discriminate |].
  intro H.
  exact (eq_sym (f_equal (fun r : result Eci =>
                            match r with
                            | Ok x => eci_date x
                            | Throw _ => eci_date eci
                            end) H)).
Qed.

Lemma FindPosition_date_of_result (s : SGP4) (t : double) (eci : Eci) :
  snd (FindPosition s t) = Ok eci -> eci_date eci = AddMin (Epoch s) t.
Proof.
  unfold FindPosition.
  destruct (i_use_deep_space_ s).
  - unfold FindPositionSDP4. cbn [snd].
    destruct (sdp4_kepler_input s t) as [k | msg]; cbn [bind]; [| discriminate].
    unfold call_CalculateFinalPositionVelocity.
    apply CalculateFinalPositionVelocity_date.
  - unfold FindPositionSGP4. cbn [snd].
    destruct (sgp4_kepler_input s t) as [k | msg]; cbn [bind]; [| discriminate].
    unfold call_CalculateFinalPositionVelocity.
    apply CalculateFinalPositionVelocity_date.
Qed.

(** X12.  The position returned by either overload of [FindPosition]
    carries the date "epoch plus [tsince] minutes"; the overload that takes
    a date does what the other does at the span, in minutes, from the epoch
    to that date, so that its result is dated by the epoch and that span and
    not by the date handed in. *)
Theorem result_is_dated_from_the_epoch (s : SGP4) :
  (forall (t : double) (eci : Eci),
     snd (FindPosition s t) = Ok eci -> eci_date eci = AddMin (Epoch s) t) /\
  (forall date : Julian,
     FindPosition_date s date = FindPosition s (SpanMin date (Epoch s))) /\
  (forall (date : Julian) (eci : Eci),
     snd (FindPosition_date s date) = Ok eci ->
     eci_date eci = AddMin (Epoch s) (SpanMin date (Epoch s))).
Proof.
  split; [| split].
  - apply FindPosition_date_of_result.
  - reflexivity.
  - intros date eci. apply FindPosition_date_of_result.
Qed.

(** ** The guards against a division by zero *)

(** The quotient of lines 191-194 and 353-356: the divisor is [1 + cosio]
    or, when that is within [1.5e-12] of zero, [1.5e-12]. *)
Lemma guarded_quotient (num cosio : double) :
  exists d : double,
    1.5e-12 <= fabs d /\
    (if fabs (cosio + 1.0) >? 1.5e-12
     then num / (1.0 + cosio) else num / 1.5e-12) * d == num.
Proof.
  destruct (fabs (cosio + 1.0) >? 1.5e-12) eqn:Hc; cmp_hyps.
  - exists (1.0 + cosio).
    assert (Hd : fabs (1.0 + cosio) == fabs (cosio + 1.0)).
    { unfold fabs. apply Qabs_wd. lra. }
    split; [rewrite Hd; lra |].
    assert (Hnz : ~ 1.0 + cosio == 0).
    { intro Hz. rewrite Hz in Hd. unfold fabs in Hd, Hc.
      rewrite <- Hd in Hc. revert Hc. qlits. cbn [Qabs Z.abs Qnum Qden]. lra. }
    field. exact Hnz.
  - exists 1.5e-12. split.
    + unfold fabs. qlits. cbn [Qabs Z.abs Qnum Qden]. lra.
    + qlits. field.
Qed.

(** X13.  The coefficient [xlcof] never comes from a division by zero,
    at initialization as in the deep-space path: it is its numerator
    [0.125 * a3ovk2 * sinio * (3 + 5 * cosio)] divided by a number of
    absolute value at least [1.5e-12], for every inclination, 180 degrees
    ([cosio = -1]) included. *)
Theorem xlcof_divisor_is_bounded_away_from_zero (s : SGP4) :
  (forall theta2 betao2 betao eosq s4 qoms24 : double,
     let ic := fst (generate_constants s theta2 betao2 betao eosq s4 qoms24) in
     exists d : double,
       1.5e-12 <= fabs d /\
       i_xlcof_ ic * d ==
       0.125 * i_a3ovk2_ ic * i_sinio_ ic * (3.0 + 5.0 * i_cosio_ ic)) /\
  (forall (t : double) (k : KeplerInput),
     sdp4_kepler_input s t = Ok k ->
     exists d : double,
       1.5e-12 <= fabs d /\
       k_xlcof k * d ==
       0.125 * i_a3ovk2_ (init s) * k_sinio k * (3.0 + 5.0 * k_cosio k)).
Proof.
  split.
  - intros theta2 betao2 betao eosq s4 qoms24 ic. subst ic.
    unfold generate_constants. cbv zeta.
    cbn [fst i_xlcof_ i_a3ovk2_ i_sinio_ i_cosio_].
    apply guarded_quotient.
  - intros t k. unfold sdp4_kepler_input.
    destruct (sdp4_periodics s t)
      as [[[[[[e xincl] omgadf] xnode] xmam] a] | msg];
      cbn [bind]; [| discriminate].
    destruct (xincl <? 0.0); destruct ((e <? 0.0) || (e >? 1.0));
      try discriminate;
      intro H; injection H as <-; cbn [k_xlcof k_sinio k_cosio];
      apply guarded_quotient.
Qed.

(** ** The lunar and solar secular rates at low inclination *)

Lemma third_body_shdq (s : SGP4)
  (eosq sinio cosio betao betao2 sing cosg xnoi : double)
  (zcosg zsing zcosi zsini zcosh zsinh cc zn ze : double) :
  (Inclination s <? 5.2359877e-2) || (Inclination s >? PI - 5.2359877e-2) = true ->
  tb_shdq (third_body_terms s eosq sinio cosio betao betao2 sing cosg xnoi
             zcosg zsing zcosi zsini zcosh zsinh cc zn ze) = 0.0.
Proof.
  intro H. unfold third_body_terms. cbv zeta. cbn [tb_shdq]. rewrite H.
  reflexivity.
Qed.

Lemma lunar_solar_ssh (s : SGP4) (eosq sinio cosio betao betao2 : double) :
  (Inclination s <? 5.2359877e-2) || (Inclination s >? PI - 5.2359877e-2) = true ->
  d_ssh_ (ls_secular (lunar_solar_terms s eosq sinio cosio betao betao2))
  = 0.0 + 0.0.
Proof.
  intro H. unfold lunar_solar_terms. cbv zeta. cbn [ls_secular d_ssh_].
  rewrite !(third_body_shdq s) by exact H. reflexivity.
Qed.

Lemma DeepSpaceInitialize_secular (s : SGP4)
  (eosq sinio cosio betao theta2 betao2 xmdot omgdot xnodot : double) :
  secular (DeepSpaceInitialize s eosq sinio cosio betao theta2 betao2
             xmdot omgdot xnodot) =
  ls_secular (lunar_solar_terms s eosq sinio cosio betao betao2).
Proof.
  unfold DeepSpaceInitialize. cbv zeta.
  match goal with
  | |- context [resonance_initialize ?s1 ?a ?b ?c ?d ?e ?f ?g] =>
      destruct (resonance_initialize_frame s1 a b c d e f g)
        as (_ & _ & _ & _ & _ & _ & _ & _ & _ & H10 & _)
  end.
  rewrite H10. reflexivity.
Qed.

Lemma SetTle_ssh (tle : Tle) (s : SGP4) :
  SetTle tle = Ok s ->
  i_use_deep_space_ s = true ->
  (tle_Inclination tle <? 5.2359877e-2) ||
  (tle_Inclination tle >? PI - 5.2359877e-2) = true ->
  d_ssh_ (secular s) = 0.0 + 0.0.
Proof.
  intros H Hd Hi.
  destruct (SetTle_model_flags tle s H) as (Hd' & _). rewrite Hd in Hd'.
  apply SetTle_Ok_inv in H. destruct H as (Heq & _).
  revert Hd'. rewrite Heq. unfold recover_and_initialize. cbv zeta.
  match goal with
  | |- context [Initialize ?s0 ?a ?b ?c ?d] =>
      destruct (Initialize_simple_model s0 a b c d) as (_ & Hp & _);
      rewrite Hp; unfold Initialize; cbv zeta;
      set (s1 := s0)
  end.
  intro Hper. rewrite <- Hper.
  cbn [secular set_first_run]. rewrite DeepSpaceInitialize_secular.
  apply lunar_solar_ssh. exact Hi.
Qed.

(** X14.  For a deep-space element set with an inclination below
    [5.2359877e-2] radians (3 degrees) or above pi less that much, the
    lunar and solar secular rate of the node, [d_ssh_], is zero, no
    division by [sinio] being made: the node that [DeepSpaceSecular] hands
    back is the node it was given, at every time. *)
Theorem low_inclination_has_no_node_drift (tle : Tle) (s : SGP4) :
  SetTle tle = Ok s ->
  i_use_deep_space_ s = true ->
  tle_Inclination tle < 5.2359877e-2 \/
  PI - 5.2359877e-2 < tle_Inclination tle ->
  d_ssh_ (secular s) == 0 /\
  (forall t xll omgasm xnodes em xinc xn : double,
     snd (fst (fst (fst (snd
       (DeepSpaceSecular s t xll omgasm xnodes em xinc xn))))) == xnodes).
Proof.
  intros H Hd Hi.
  assert (Hb : (tle_Inclination tle <? 5.2359877e-2) ||
               (tle_Inclination tle >? PI - 5.2359877e-2) = true).
  { cmp_goal. destruct Hi; [left | right]; cmp_goal; assumption. }
  pose proof (SetTle_ssh tle s H Hd Hb) as Hssh.
  split; [rewrite Hssh; lra |].
  intros t xll omgasm xnodes em xinc xn. unfold DeepSpaceSecular.
  destruct (negb (d_resonance_flag_ s)).
  - cbn [fst snd]. rewrite Hssh. lra.
  - cbv zeta. cbn [fst snd]. rewrite Hssh. lra.
Qed.

(** ** A call at the epoch *)

Lemma fabs_zero_lt_STEP : fabs 0.0 < STEP.
Proof. unfold fabs, STEP. cbn [Qabs Z.abs Qnum Qden]. lra. Qed.

Lemma sdp4_at_epoch (s : SGP4) :
  sdp4_xn s 0.0 == RecoveredMeanMotion s /\
  sdp4_e s 0.0 == Eccentricity s.
Proof.
  unfold sdp4_xn, sdp4_e, sdp4_secular, DeepSpaceSecular.
  destruct (negb (d_resonance_flag_ s)).
  - split; lra.
  - rewrite (integrate_to_near_epoch s 0.0 fabs_zero_lt_STEP). cbv zeta.
    cbn [integ restart_from_epoch set_integ d_xni_ d_xli_ d_atime_
         d_xndot_t_ d_xnddt_t_ d_xldot_t_].
    destruct (d_synchronous_flag_ (restart_from_epoch s)); split; lra.
Qed.

(** X15.  A deep-space call at the epoch ([tsince = 0]), in any
    integrator state: the mean motion and the eccentricity that are checked
    are the recovered mean motion and the eccentricity of the element set.
    So the call throws error #2 exactly when the recovered mean motion is
    not positive, and error #1 exactly when that is positive and the
    eccentricity is at least 1 or below -0.001, which no element set
    accepted by [SetTle] has. *)
Theorem deep_space_call_at_epoch (s : SGP4) :
  sdp4_xn s 0.0 == RecoveredMeanMotion s /\
  sdp4_e s 0.0 == Eccentricity s /\
  (snd (FindPositionSDP4 s 0.0) = Throw error_2_xn <->
     RecoveredMeanMotion s <= 0) /\
  (snd (FindPositionSDP4 s 0.0) = Throw error_1 <->
     0 < RecoveredMeanMotion s /\
     (1 <= Eccentricity s \/ Eccentricity s < -0.001)) /\
  (forall tle : Tle,
     SetTle tle = Ok s -> snd (FindPositionSDP4 s 0.0) <> Throw error_1).
Proof.
  destruct (sdp4_at_epoch s) as [Hxn He].
  assert (H1 : snd (FindPositionSDP4 s 0.0) = Throw error_1 <->
               0 < RecoveredMeanMotion s /\
               (1 <= Eccentricity s \/ Eccentricity s < -0.001)).
  { rewrite FindPositionSDP4_throws_1, Hxn, He. split; intros [G1 G2];
      (split; [lra | destruct G2; [left | right]; lra]). }
  split; [exact Hxn | split; [exact He | split; [| split; [exact H1 |]]]].
  - rewrite FindPositionSDP4_throws_2, Hxn. split; intro G; lra.
  - intros tle Hset Hthrow. apply H1 in Hthrow. destruct Hthrow as [_ Hthrow].
    destruct (SetTle_elements tle s Hset) as (_ & _ & _ & Hecc).
    apply SetTle_Ok_inv in Hset. destruct Hset as (_ & G1 & G2 & _).
    rewrite Hecc in Hthrow. destruct Hthrow; qlra.
Qed.

Lemma Initialize_epoch_values (s : SGP4) (theta2 betao2 betao eosq : double) :
  (Period s >=? 225.0) = false ->
  let s' := Initialize s theta2 betao2 betao eosq in
  n_delmo_ (near s') = pow (1.0 + i_eta_ (init s') * cos (MeanAnomoly s)) 3.0 /\
  n_sinmo_ (near s') = sin (MeanAnomoly s).
Proof.
  intro Hp. unfold Initialize. cbv zeta. rewrite Hp.
  cbn [near init set_first_run set_initialized].
  unfold near_space_constants. cbv zeta.
  destruct (negb (Perigee s <? 220.0)); cbn [n_delmo_ n_sinmo_];
    split; reflexivity.
Qed.

Lemma SetTle_epoch_values (tle : Tle) (s : SGP4) :
  SetTle tle = Ok s ->
  i_use_deep_space_ s = false ->
  n_delmo_ (near s) = pow (1.0 + i_eta_ (init s) * cos (MeanAnomoly s)) 3.0 /\
  n_sinmo_ (near s) = sin (MeanAnomoly s).
Proof.
  intros H Hd.
  destruct (SetTle_model_flags tle s H) as (Hd' & _). rewrite Hd in Hd'.
  apply SetTle_Ok_inv in H. destruct H as (Heq & _).
  revert Hd'. rewrite Heq. unfold recover_and_initialize. cbv zeta.
  match goal with
  | |- context [Initialize ?s0 ?a ?b ?c ?d] =>
      destruct (Initialize_simple_model s0 a b c d) as (_ & Hp & _);
      destruct (Initialize_frame s0 a b c d) as (He & _);
      pose proof (Initialize_epoch_values s0 a b c d) as Hv;
      set (s1 := Initialize s0 a b c d) in *
  end.
  rewrite Hp. intro Hper. symmetry in Hper. specialize (Hv Hper).
  unfold MeanAnomoly. rewrite He. exact Hv.
Qed.

Lemma Qmult_diff_zero (a p q : Q) : p == q -> a * (p - q) == 0.
Proof. intro H. rewrite H. ring. Qed.

Section AtEpoch.

(** The routines of [<cmath>] give equal results at equal numbers. *)
Hypothesis sin_comp : forall x y : double, x == y -> sin x == sin y.
Hypothesis cos_comp : forall x y : double, x == y -> cos x == cos y.
Hypothesis pow_comp : forall x y z : double, x == y -> pow x z == pow y z.

Lemma sgp4_at_epoch (s : SGP4) :
  n_delmo_ (near s) = pow (1.0 + i_eta_ (init s) * cos (MeanAnomoly s)) 3.0 ->
  n_sinmo_ (near s) = sin (MeanAnomoly s) ->
  sgp4_e s 0.0 == Eccentricity s /\
  sgp4_xl s 0.0 == MeanAnomoly s + ArgumentPerigee s + AscendingNode s.
Proof.
  intros Hdel Hsin.
  unfold sgp4_e, sgp4_xl, sgp4_secular. cbv zeta.
  destruct (negb (i_use_simple_model_ s)).
  - set (xmdf := MeanAnomoly s + i_xmdot_ (init s) * 0.0).
    assert (Hx : xmdf == MeanAnomoly s) by (subst xmdf; lra).
    assert (Hb : 1.0 + i_eta_ (init s) * cos xmdf ==
                 1.0 + i_eta_ (init s) * cos (MeanAnomoly s))
      by (rewrite (cos_comp _ _ Hx); reflexivity).
    pose proof (pow_comp _ _ 3.0 Hb) as Hpw. rewrite <- Hdel in Hpw.
    set (pw := pow (1.0 + i_eta_ (init s) * cos xmdf) 3.0) in *.
    pose proof (Qmult_diff_zero (n_xmcof_ (near s)) _ _ Hpw) as Hdelm.
    set (delm := n_xmcof_ (near s) * (pw - n_delmo_ (near s))) in *.
    assert (Hxmp : xmdf + (n_omgcof_ (near s) * 0.0 + delm) == MeanAnomoly s)
      by lra.
    pose proof (sin_comp _ _ Hxmp) as Hs. rewrite <- Hsin in Hs.
    set (sn := sin (xmdf + (n_omgcof_ (near s) * 0.0 + delm))) in *.
    pose proof (Qmult_diff_zero (BStar s * n_c5_ (near s)) _ _ Hs) as Hte.
    split; lra.
  - split; lra.
Qed.

(** X16.  A near-space call at the epoch ([tsince = 0]), the routines
    of [<cmath>] giving equal results at equal numbers: the eccentricity
    that is validated is the one of the element set, so that the call never
    throws error #1; and the longitude that is checked is the sum of the
    mean anomaly, the argument of perigee and the ascending node of the
    element set, so that the call throws error #2 exactly when that sum is
    not positive, as it is for an element set with the three angles zero. *)
Theorem near_space_call_at_epoch (tle : Tle) (s : SGP4) :
  SetTle tle = Ok s ->
  i_use_deep_space_ s = false ->
  sgp4_e s 0.0 == tle_Eccentricity tle /\
  sgp4_xl s 0.0 ==
    tle_MeanAnomaly tle + tle_ArgumentPerigee tle + tle_RightAscendingNode tle /\
  snd (FindPosition s 0.0) <> Throw error_1 /\
  (snd (FindPosition s 0.0) = Throw error_2_xl <->
     tle_MeanAnomaly tle + tle_ArgumentPerigee tle + tle_RightAscendingNode tle
     <= 0).
Proof.
  intros Hset Hd.
  destruct (SetTle_epoch_values tle s Hset Hd) as (Hdel & Hsin).
  destruct (sgp4_at_epoch s Hdel Hsin) as (He & Hxl).
  destruct (SetTle_elements tle s Hset) as (Hel & _ & _ & Hecc).
  assert (Hang : MeanAnomoly s + ArgumentPerigee s + AscendingNode s =
                 tle_MeanAnomaly tle + tle_ArgumentPerigee tle +
                 tle_RightAscendingNode tle).
  { unfold MeanAnomoly, ArgumentPerigee, AscendingNode. rewrite Hel.
    reflexivity. }
  rewrite Hang in Hxl. rewrite Hecc in He.
  apply SetTle_Ok_inv in Hset. destruct Hset as (_ & G1 & G2 & _).
  unfold FindPosition. rewrite Hd.
  split; [exact He | split; [exact Hxl | split]].
  - intro Hthrow. apply FindPositionSGP4_throws_1 in Hthrow.
    destruct Hthrow as [_ Hthrow]. rewrite He in Hthrow.
    destruct Hthrow; qlra.
  - rewrite FindPositionSGP4_throws_2, Hxl. split; intro G; lra.
Qed.

End AtEpoch.

(** ** The node in the Lyddane branch of the periodics *)

Lemma TWOPI_value : TWOPI == 2 * PI.
Proof. unfold TWOPI. lra. Qed.

Lemma PI_pos : 0 < PI.
Proof. unfold PI. lra. Qed.

(** [fmod x y] for a positive [y] lies strictly between [- y] and [y]. *)
Lemma fmod_range (x y : Q) :
  0 < y -> - y < fmod x y /\ fmod x y < y.
Proof.
  intro Hy. unfold fmod, Qtrunc.
  assert (Hq : x == (x / y) * y) by (field; lra).
  set (q := x / y) in *.
  destruct (0 <=? q) eqn:H0; cmp_hyps.
  - pose proof (Qfloor_le q) as Hlo. pose proof (Qlt_floor q) as Hhi.
    rewrite inject_Z_plus in Hhi. change (inject_Z 1) with 1 in Hhi.
    set (n := inject_Z (Qfloor q)) in *.
    assert (A : 0 <= (q - n) * y) by (apply Qmult_le_0_compat; lra).
    assert (B : 0 < (n + 1 - q) * y) by (apply Qmult_lt_0_compat; lra).
    split; nra.
  - pose proof (Qle_ceiling q) as Hhi. pose proof (Qceiling_lt q) as Hlo.
    unfold Z.sub in Hlo. rewrite inject_Z_plus in Hlo.
    change (inject_Z (Z.opp 1)) with (-1) in Hlo.
    set (n := inject_Z (Qceiling q)) in *.
    assert (A : 0 <= (n - q) * y) by (apply Qmult_le_0_compat; lra).
    assert (B : 0 < (q - n + 1) * y) by (apply Qmult_lt_0_compat; lra).
    split; nra.
Qed.

Lemma lyddane_oldxnodes_range (xnodes : double) :
  0 <= lyddane_oldxnodes xnodes /\ lyddane_oldxnodes xnodes < TWOPI.
Proof.
  assert (Hp : 0 < TWOPI) by (pose proof PI_pos; pose proof TWOPI_value; lra).
  unfold lyddane_oldxnodes. cbv zeta.
  destruct (fmod_range xnodes TWOPI Hp) as [Hlo Hhi].
  destruct (fmod xnodes TWOPI <? 0.0) eqn:Hneg; cmp_hyps; split; lra.
Qed.

(** Lines 1063-1077: the new node is brought within pi of the old one. *)
Lemma same_quadrant (old v : double) :
  0 <= old -> old < TWOPI -> - PI <= v -> v <= PI ->
  let x := if v <? 0.0 then v + TWOPI else v in
  let x' := if fabs (old - x) >? PI
            then if x <? old then x + TWOPI else x - TWOPI
            else x in
  fabs (old - x') <= PI.
Proof.
  intros H0 H1 H2 H3 x x'. pose proof TWOPI_value as Htp.
  assert (Hx : 0 <= x /\ x < TWOPI).
  { subst x. destruct (v <? 0.0) eqn:Hv; cmp_hyps; split; lra. }
  subst x'. destruct (fabs (old - x) >? PI) eqn:Hfar; cmp_hyps.
  - assert (G : old - x < - PI \/ PI < old - x).
    { unfold fabs in Hfar.
      destruct (Qlt_le_dec (old - x) 0) as [Hn | Hp].
      - rewrite Qabs_neg in Hfar by lra. left. lra.
      - rewrite Qabs_pos in Hfar by lra. right. lra. }
    destruct (x <? old) eqn:Hlt; cmp_hyps; apply fabs_le; split;
      destruct G; lra.
  - exact Hfar.
Qed.

(** X17.  In the Lyddane branch of [DeepSpacePeriodics] (taken when the
    perturbed inclination is below 0.2 radians), with [atan2] returning a
    value between minus pi and pi, the node handed back is within pi of the
    node handed in as lines 1050-1052 reduce it to the interval from 0
    (included) to 2 pi (excluded). *)
Theorem lyddane_node_stays_within_pi (s : SGP4)
  (t em xinc omgasm xnodes xll : double) :
  let r := DeepSpacePeriodics s t em xinc omgasm xnodes xll in
  first_run_ s = false ->
  periodics_xinc r < 0.2 ->
  - PI <= lyddane_atan2 s t xinc xnodes ->
  lyddane_atan2 s t xinc xnodes <= PI ->
  0 <= lyddane_oldxnodes xnodes /\ lyddane_oldxnodes xnodes < TWOPI /\
  fabs (lyddane_oldxnodes xnodes - periodics_xnodes r) <= PI.
Proof.
  intros r Hf Hlow Hv1 Hv2.
  destruct (lyddane_oldxnodes_range xnodes) as [Ho1 Ho2].
  split; [exact Ho1 | split; [exact Ho2 |]].
  pose proof (same_quadrant _ _ Ho1 Ho2 Hv1 Hv2) as Hq. cbv zeta in Hq.
  subst r. unfold periodics_xinc, periodics_xnodes in *.
  unfold DeepSpacePeriodics in *. unfold lyddane_atan2 in Hq.
  unfold lyddane_oldxnodes in *.
  destruct (DeepSpaceCalculateLunarSolarTerms s t) as [[[[pe pinc] pl] pgh] ph].
  rewrite Hf in *. cbn [negb] in *. cbv zeta in *.
  destruct (xinc + pinc >=? 0.2) eqn:Hbr; cmp_hyps.
  - cbn [fst snd] in Hlow. lra.
  - cbn [fst snd]. exact Hq.
Qed.

(** ** The two sets of resonance coefficients *)

Lemma resonance_initialize_coefficients (s : SGP4)
  (eosq sinio cosio theta2 xmdot omgdot xnodot : double) :
  let r0 := resonance s in
  let r := resonance
             (resonance_initialize s eosq sinio cosio theta2 xmdot omgdot xnodot) in
  if synchronous_test s then
    d_d2201_ r = d_d2201_ r0 /\ d_d2211_ r = d_d2211_ r0 /\
    d_d3210_ r = d_d3210_ r0 /\ d_d3222_ r = d_d3222_ r0 /\
    d_d4410_ r = d_d4410_ r0 /\ d_d4422_ r = d_d4422_ r0 /\
    d_d5220_ r = d_d5220_ r0 /\ d_d5232_ r = d_d5232_ r0 /\
    d_d5421_ r = d_d5421_ r0 /\ d_d5433_ r = d_d5433_ r0
  else if no_resonance_test s then r = r0
  else
    d_del1_ r = d_del1_ r0 /\ d_del2_ r = d_del2_ r0 /\ d_del3_ r = d_del3_ r0.
Proof.
  unfold resonance_initialize. cbv zeta.
  destruct (synchronous_test s); [| destruct (no_resonance_test s)].
  - repeat split; reflexivity.
  - reflexivity.
  - unfold initialize_integrator. cbv zeta.
    cbn [resonance set_dot_0 set_resonance].
    unfold geopotential_terms. cbv zeta.
    destruct (Eccentricity _ <=? 0.65); destruct (Eccentricity _ <? 0.7);
      repeat split; reflexivity.
Qed.

Lemma Initialize_coefficients (s : SGP4) (theta2 betao2 betao eosq : double) :
  let r0 := resonance s in
  let s' := Initialize s theta2 betao2 betao eosq in
  let r := resonance s' in
  if i_use_deep_space_ s' then
    if synchronous_test s' then
      d_d2201_ r = d_d2201_ r0 /\ d_d2211_ r = d_d2211_ r0 /\
      d_d3210_ r = d_d3210_ r0 /\ d_d3222_ r = d_d3222_ r0 /\
      d_d4410_ r = d_d4410_ r0 /\ d_d4422_ r = d_d4422_ r0 /\
      d_d5220_ r = d_d5220_ r0 /\ d_d5232_ r = d_d5232_ r0 /\
      d_d5421_ r = d_d5421_ r0 /\ d_d5433_ r = d_d5433_ r0
    else if no_resonance_test s' then r = r0
    else
      d_del1_ r = d_del1_ r0 /\ d_del2_ r = d_del2_ r0 /\ d_del3_ r = d_del3_ r0
  else r = r0.
Proof.
  intros r0 s' r.
  destruct (Initialize_frame s theta2 betao2 betao eosq) as (He & _ & Hd).
  fold s' in He, Hd.
  assert (Hsync : synchronous_test s' = synchronous_test s)
    by (unfold synchronous_test, RecoveredMeanMotion; rewrite He; reflexivity).
  assert (Hnone : no_resonance_test s' = no_resonance_test s)
    by (unfold no_resonance_test, RecoveredMeanMotion, Eccentricity;
        rewrite He; reflexivity).
  rewrite Hd, Hsync, Hnone. clear He Hd Hsync Hnone.
  subst r s' r0. unfold Initialize. cbv zeta.
  destruct (Period s >=? 225.0); [| reflexivity].
  cbn [resonance set_first_run].
  unfold DeepSpaceInitialize. cbv zeta.
  match goal with
  | |- context [resonance_initialize ?s1 ?a ?b ?c ?d ?e ?f ?g] =>
      exact (resonance_initialize_coefficients s1 a b c d e f g)
  end.
Qed.

(** X18.  The two kinds of resonance keep separate coefficients: after
    [SetTle], an object in synchronous resonance has the ten coefficients
    [d_d2201_] ... [d_d5433_] of the 12-hour resonance zero, and an object in
    12-hour resonance has the three coefficients [d_del1_], [d_del2_],
    [d_del3_] of the synchronous resonance zero. *)
Theorem resonance_coefficients_are_exclusive (tle : Tle) (s : SGP4) :
  SetTle tle = Ok s ->
  (d_synchronous_flag_ s = true ->
     d_d2201_ (resonance s) = 0.0 /\ d_d2211_ (resonance s) = 0.0 /\
     d_d3210_ (resonance s) = 0.0 /\ d_d3222_ (resonance s) = 0.0 /\
     d_d4410_ (resonance s) = 0.0 /\ d_d4422_ (resonance s) = 0.0 /\
     d_d5220_ (resonance s) = 0.0 /\ d_d5232_ (resonance s) = 0.0 /\
     d_d5421_ (resonance s) = 0.0 /\ d_d5433_ (resonance s) = 0.0) /\
  (d_resonance_flag_ s = true -> d_synchronous_flag_ s = false ->
     d_del1_ (resonance s) = 0.0 /\ d_del2_ (resonance s) = 0.0 /\
     d_del3_ (resonance s) = 0.0).
Proof.
  intro H.
  pose proof (SetTle_state tle s H) as (_ & _ & Hs).
  apply SetTle_Ok_inv in H. destruct H as (Heq & _).
  assert (Hc : let s' := s in
               let r := resonance s' in
               if i_use_deep_space_ s' then
                 if synchronous_test s' then
                   d_d2201_ r = 0.0 /\ d_d2211_ r = 0.0 /\
                   d_d3210_ r = 0.0 /\ d_d3222_ r = 0.0 /\
                   d_d4410_ r = 0.0 /\ d_d4422_ r = 0.0 /\
                   d_d5220_ r = 0.0 /\ d_d5232_ r = 0.0 /\
                   d_d5421_ r = 0.0 /\ d_d5433_ r = 0.0
                 else if no_resonance_test s' then r = zero_resonance
                 else d_del1_ r = 0.0 /\ d_del2_ r = 0.0 /\ d_del3_ r = 0.0
               else r = zero_resonance).
  { rewrite Heq. unfold recover_and_initialize. cbv zeta.
    match goal with
    | |- context [Initialize ?s0 ?a ?b ?c ?d] =>
        exact (Initialize_coefficients s0 a b c d)
    end. }
  cbv zeta in Hc. clear Heq.
  destruct (i_use_deep_space_ s).
  - destruct (synchronous_test s); [| destruct (no_resonance_test s)].
    + destruct Hs as (_ & F2 & _). split; [intros _; exact Hc |].
      intros _ G. congruence.
    + destruct Hs as (F1 & F2 & _). split; intros; congruence.
    + destruct Hs as (_ & F2 & _). split; [intro G; congruence |].
      intros _ _. exact Hc.
  - destruct Hs as (F1 & F2 & _). split; intros; congruence.
Qed.

(** ** The rate of the resonance angle *)

Lemma DeepSpaceCalcDotTerms_xldot (s : SGP4) :
  snd (DeepSpaceCalcDotTerms s) = d_xni_ (integ s) + d_xfact_ s.
Proof.
  unfold DeepSpaceCalcDotTerms. cbv zeta.
  destruct (d_synchronous_flag_ s); reflexivity.
Qed.

Lemma integrator_step_xldot (delt : double) (s : SGP4) :
  d_xldot_t_ (integ (integrator_step delt s)) =
  d_xni_ (integ (integrator_step delt s)) + d_xfact_ s.
Proof.
  unfold integrator_step. cbv zeta.
  cbn [integ set_integ set_dot_t d_xldot_t_ d_xni_].
  rewrite DeepSpaceCalcDotTerms_xldot. reflexivity.
Qed.

Lemma passes_xfact (n : nat) (delt : double) (s : SGP4) :
  d_xfact_ (passes n delt s) = d_xfact_ s.
Proof.
  destruct (passes_constants n delt s) as [ig ->]. reflexivity.
Qed.

Lemma passes_xldot (n : nat) (delt : double) (s : SGP4) :
  (1 <= n)%nat ->
  d_xldot_t_ (integ (passes n delt s)) =
  d_xni_ (integ (passes n delt s)) + d_xfact_ s.
Proof.
  intro Hn. destruct n as [| n]; [lia |].
  rewrite passes_S, integrator_step_xldot, passes_xfact. reflexivity.
Qed.

Lemma resonance_initialize_xldot (s : SGP4)
  (eosq sinio cosio theta2 xmdot omgdot xnodot : double) :
  let s' := resonance_initialize s eosq sinio cosio theta2 xmdot omgdot xnodot in
  d_resonance_flag_ s' = true ->
  d_xldot_0_ s' = RecoveredMeanMotion s + d_xfact_ s'.
Proof.
  unfold resonance_initialize. cbv zeta.
  destruct (synchronous_test s); [| destruct (no_resonance_test s)].
  - intros _. unfold initialize_integrator. cbv zeta.
    cbn [d_xldot_0_ set_dot_0 d_xfact_]. rewrite DeepSpaceCalcDotTerms_xldot.
    reflexivity.
  - cbn [d_resonance_flag_ set_resonance]. discriminate.
  - intros _. unfold initialize_integrator. cbv zeta.
    cbn [d_xldot_0_ set_dot_0 d_xfact_]. rewrite DeepSpaceCalcDotTerms_xldot.
    reflexivity.
Qed.

Lemma Initialize_xldot (s : SGP4) (theta2 betao2 betao eosq : double) :
  d_resonance_flag_ s = false ->
  let s' := Initialize s theta2 betao2 betao eosq in
  d_resonance_flag_ s' = true ->
  d_xldot_0_ s' = RecoveredMeanMotion s + d_xfact_ s'.
Proof.
  intro Hf. unfold Initialize. cbv zeta.
  destruct (Period s >=? 225.0).
  - cbn [d_resonance_flag_ d_xldot_0_ d_xfact_ set_first_run].
    unfold DeepSpaceInitialize. cbv zeta.
    match goal with
    | |- context [resonance_initialize ?s1 ?a ?b ?c ?d ?e ?f ?g] =>
        exact (resonance_initialize_xldot s1 a b c d e f g)
    end.
  - cbn [d_resonance_flag_ set_first_run set_initialized]. rewrite Hf.
    discriminate.
Qed.

Lemma SetTle_xldot (tle : Tle) (s : SGP4) :
  SetTle tle = Ok s ->
  d_resonance_flag_ s = true ->
  d_xldot_0_ s = RecoveredMeanMotion s + d_xfact_ s.
Proof.
  intros H Hf. apply SetTle_Ok_inv in H. destruct H as (Heq & _).
  revert Hf. rewrite Heq. unfold recover_and_initialize. cbv zeta.
  match goal with
  | |- context [Initialize ?s0 ?a ?b ?c ?d] =>
      pose proof (Initialize_xldot s0 a b c d eq_refl) as Hx;
      destruct (Initialize_frame s0 a b c d) as (He & _);
      set (s1 := Initialize s0 a b c d) in *
  end.
  cbv zeta in Hx. intro Hf. rewrite (Hx Hf).
  unfold RecoveredMeanMotion. rewrite He. reflexivity.
Qed.

(** X19.  In a resonant object initialized by [SetTle], after any calls
    of [FindPosition], the rate [xldot] that the integrator keeps for the
    resonance angle is the mean motion [xni] it keeps plus the constant
    [xfact]: at the epoch values, and after every pass of the integration
    loop. *)
Theorem integrator_rate_is_mean_motion_plus_xfact (tle : Tle) (s0 : SGP4)
  (ts : list double) (t : double) :
  SetTle tle = Ok s0 ->
  d_resonance_flag_ s0 = true ->
  let s := fst (FindPosition (propagate_all s0 ts) t) in
  d_xfact_ s = d_xfact_ s0 /\
  d_xldot_t_ (integ s) = d_xni_ (integ s) + d_xfact_ s.
Proof.
  intros Hset Hf s.
  pose proof (resonance_flag_deep_space tle s0 Hset Hf) as Hd.
  pose proof (SetTle_atime tle s0 Hset) as H0.
  pose proof (SetTle_xldot tle s0 Hset Hf) as Hx.
  assert (Hr : integrator_reachable s0 (propagate_all s0 ts)).
  { apply propagate_all_reachable; [exact H0 |].
    split; [apply same_constants_refl | left; exact H0]. }
  pose proof (integrate_to_history s0 _ t H0 Hr) as Hi.
  destruct Hr as [[ig Hig] _].
  assert (Hs : s = integrate_to s0 t).
  { subst s. rewrite FindPosition_state. rewrite Hig at 1 2.
    change (i_use_deep_space_ (set_integ s0 ig)) with (i_use_deep_space_ s0).
    change (d_resonance_flag_ (set_integ s0 ig)) with (d_resonance_flag_ s0).
    rewrite Hd, Hf. cbn [andb]. exact Hi. }
  rewrite Hs. clear Hs Hi Hig s.
  unfold integrate_to. rewrite (restart_condition_at_zero s0 t H0).
  pose proof (advance_integrator_spec (restart_from_epoch s0) t) as Hspec.
  cbv zeta in Hspec.
  destruct (fabs (t - d_atime_ (integ (restart_from_epoch s0))) >=? STEP).
  - destruct Hspec as (n & Hn1 & _ & _ & _ & _ & Hadv & _).
    rewrite Hadv, passes_xfact, (passes_xldot n _ _ Hn1).
    split; reflexivity.
  - destruct Hspec as [Hadv _]. rewrite Hadv.
    split; [reflexivity |].
    cbn [integ restart_from_epoch set_integ d_xldot_t_ d_xni_ d_xfact_].
    exact Hx.
Qed.
End Properties.

(** * Examples on concrete element sets

    The external interface is [RefMath.extern]: the recovered elements are
    computed, and the flags of the initialized object follow by the lemmas
    above. *)

(** An order between two numbers, by computation. *)
Ltac qclosed := vm_compute; first [reflexivity | discriminate].

Lemma tle_geosynchronous_accepted :
  @SetTle RefMath.extern tle_geosynchronous =
  Ok (@recover_and_initialize RefMath.extern tle_geosynchronous).
Proof. apply SetTle_Ok_intro; qclosed. Qed.

Lemma tle_geosynchronous_tests :
  let el := r_elems (@recover_elements RefMath.extern tle_geosynchronous) in
  let n := recovered_mean_motion_ el in
  (period_ el >=? 225.0) = true /\
  ((n <? 0.0052359877) && (n >? 0.0034906585)) = true /\
  ~ n == 0.
Proof. vm_compute. repeat split; try reflexivity. discriminate. Qed.

Lemma tle_deep_space_accepted :
  @SetTle RefMath.extern tle_deep_space =
  Ok (@recover_and_initialize RefMath.extern tle_deep_space).
Proof. apply SetTle_Ok_intro; qclosed. Qed.

Lemma tle_deep_space_tests :
  let el := r_elems (@recover_elements RefMath.extern tle_deep_space) in
  let n := recovered_mean_motion_ el in
  (period_ el >=? 225.0) = true /\
  ((n <? 0.0052359877) && (n >? 0.0034906585)) = false /\
  ((n <? 8.26e-3) || (n >? 9.24e-3) ||
   (tle_Eccentricity tle_deep_space <? 0.5)) = true.
Proof. vm_compute. repeat split; reflexivity. Qed.

Lemma tle_molniya_accepted :
  @SetTle RefMath.extern tle_molniya =
  Ok (@recover_and_initialize RefMath.extern tle_molniya).
Proof. apply SetTle_Ok_intro; qclosed. Qed.

Lemma tle_molniya_tests :
  let el := r_elems (@recover_elements RefMath.extern tle_molniya) in
  let n := recovered_mean_motion_ el in
  (period_ el >=? 225.0) = true /\
  ((n <? 0.0052359877) && (n >? 0.0034906585)) = false /\
  ((n <? 8.26e-3) || (n >? 9.24e-3) ||
   (tle_Eccentricity tle_molniya <? 0.5)) = false.
Proof. vm_compute. repeat split; reflexivity. Qed.

Lemma tle_near_earth_accepted :
  @SetTle RefMath.extern tle_near_earth =
  Ok (@recover_and_initialize RefMath.extern tle_near_earth).
Proof. apply SetTle_Ok_intro; qclosed. Qed.

Lemma tle_near_earth_tests :
  let el := r_elems (@recover_elements RefMath.extern tle_near_earth) in
  (period_ el >=? 225.0) = false.
Proof. vm_compute. reflexivity. Qed.

Lemma tle_zero_mean_motion_accepted :
  @SetTle RefMath.extern tle_zero_mean_motion =
  Ok (@recover_and_initialize RefMath.extern tle_zero_mean_motion).
Proof. apply SetTle_Ok_intro; qclosed. Qed.

Lemma tle_zero_mean_motion_tests :
  let el := r_elems (@recover_elements RefMath.extern tle_zero_mean_motion) in
  (period_ el >=? 225.0) = false /\
  recovered_mean_motion_ el == 0.
Proof. vm_compute. split; reflexivity. Qed.

(** The near-Earth test case is propagated by SGP4, and the three
    deep-space element sets fall in the three resonance classes. *)
Example classification_of_the_element_sets :
  i_use_deep_space_ (@recover_and_initialize RefMath.extern tle_near_earth)
    = false /\
  (i_use_deep_space_ (@recover_and_initialize RefMath.extern tle_deep_space)
     = true /\
   d_resonance_flag_ (@recover_and_initialize RefMath.extern tle_deep_space)
     = false) /\
  (i_use_deep_space_ (@recover_and_initialize RefMath.extern tle_geosynchronous)
     = true /\
   d_resonance_flag_ (@recover_and_initialize RefMath.extern tle_geosynchronous)
     = true /\
   d_synchronous_flag_ (@recover_and_initialize RefMath.extern tle_geosynchronous)
     = true) /\
  (i_use_deep_space_ (@recover_and_initialize RefMath.extern tle_molniya)
     = true /\
   d_resonance_flag_ (@recover_and_initialize RefMath.extern tle_molniya)
     = true /\
   d_synchronous_flag_ (@recover_and_initialize RefMath.extern tle_molniya)
     = false).
Proof.
  split; [| split; [| split]].
  - destruct (flags_from_recovered_elements _ _ tle_near_earth_accepted)
      as (_ & Hd & _).
    rewrite Hd. exact tle_near_earth_tests.
  - destruct (flags_from_recovered_elements _ _ tle_deep_space_accepted)
      as (_ & Hd & Hf & _).
    destruct tle_deep_space_tests as (T1 & T2 & T3).
    destruct (Hf T1) as (F1 & F2).
    rewrite Hd, F2, T1, T2, T3. split; reflexivity.
  - destruct (flags_from_recovered_elements _ _ tle_geosynchronous_accepted)
      as (_ & Hd & Hf & _).
    destruct tle_geosynchronous_tests as (T1 & T2 & _).
    destruct (Hf T1) as (F1 & F2).
    rewrite Hd, F1, F2, T1, T2. repeat split; reflexivity.
  - destruct (flags_from_recovered_elements _ _ tle_molniya_accepted)
      as (_ & Hd & Hf & _).
    destruct tle_molniya_tests as (T1 & T2 & T3).
    destruct (Hf T1) as (F1 & F2).
    rewrite Hd, F1, F2, T1, T2, T3. repeat split; reflexivity.
Qed.

(** ** The claims on concrete element sets *)

(** C2 does not hold as stated.  For the deep-space test case of
    Spacetrack Report 3, on the first call after [SetTle], at
    [t = 360] minutes, the solar and lunar mean arguments are not their
    epoch values [d_zmos_] and [d_zmol_]. *)
Lemma first_call_periodics_not_at_epoch :
  @SetTle RefMath.extern tle_deep_space = Ok obj_deep_space /\
  i_use_deep_space_ obj_deep_space = true /\
  first_run_ obj_deep_space = false /\
  ~ solar_zm obj_deep_space 360 == d_zmos_ obj_deep_space /\
  ~ lunar_zm obj_deep_space 360 == d_zmol_ obj_deep_space.
Proof.
  pose proof tle_deep_space_accepted as Hset.
  destruct (flags_from_recovered_elements _ _ Hset) as (_ & Hd & _).
  destruct tle_deep_space_tests as (T1 & _).
  pose proof (SetTle_state _ _ Hset) as (_ & Hf & _).
  split; [exact Hset | split; [rewrite Hd; exact T1 | split; [exact Hf |]]].
  exact (zm_not_at_epoch _ _ Hset).
Qed.

(** C2, witness: the deep-space test case of Spacetrack Report 3. *)
Lemma periodics_use_requested_time_witness :
  @SetTle RefMath.extern tle_deep_space = Ok obj_deep_space /\
  first_run_ obj_deep_space = false /\
  (forall (ts : list double) (t : double),
     solar_zm (propagate_all obj_deep_space ts) t =
     d_zmos_ obj_deep_space + 1.19459E-5 * t).
Proof.
  pose proof tle_deep_space_accepted as Hset.
  destruct (periodics_use_requested_time _ _ Hset) as (A & B & _).
  split; [exact Hset | split; [exact A |]].
  intros ts t. destruct (B ts t) as (_ & _ & _ & Hz & _). exact Hz.
Defined.

(** C3, witness: the geosynchronous element set, propagated to -1000 and
    then to 2000 minutes. *)
Lemma propagation_is_history_independent_witness :
  @SetTle RefMath.extern tle_geosynchronous = Ok obj_geosynchronous /\
  snd (FindPosition (propagate_all obj_geosynchronous [-1000.0; 2000.0]) 2000.0)
  = snd (FindPosition obj_geosynchronous 2000.0).
Proof.
  pose proof tle_geosynchronous_accepted as Hset.
  split; [exact Hset |].
  exact (propagation_is_history_independent
           tle_geosynchronous obj_geosynchronous [-1000.0; 2000.0] 2000.0 Hset).
Defined.

(** C4 does not hold as stated.  The element set with a mean motion of
    zero is accepted, has no resonance, and its integrator state is the
    triple [(atime = 0, xli = xlamo, xni = n'')], all four being zero.
    (Here the period, [TWOPI / 0], is zero and the object is a near-space
    one; in IEEE arithmetic it is infinite and the object a deep-space one
    without resonance: the members in question are the same.) *)
Lemma zero_mean_motion_at_epoch_without_resonance :
  @SetTle RefMath.extern tle_zero_mean_motion = Ok obj_zero_mean_motion /\
  d_resonance_flag_ obj_zero_mean_motion = false /\
  integrator_at_epoch obj_zero_mean_motion.
Proof.
  pose proof tle_zero_mean_motion_accepted as Hset.
  destruct (flags_from_recovered_elements _ _ Hset) as (Hn & _ & _ & Hu).
  destruct tle_zero_mean_motion_tests as (T1 & T2).
  specialize (Hu T1).
  split; [exact Hset | split; [apply Hu |]].
  apply (integrator_untouched_at_epoch _ Hu). rewrite Hn. exact T2.
Qed.

(** C4, witness: the geosynchronous element set. *)
Lemma integrator_state_after_SetTle_witness :
  @SetTle RefMath.extern tle_geosynchronous = Ok obj_geosynchronous /\
  ~ RecoveredMeanMotion obj_geosynchronous == 0 /\
  (integrator_at_epoch obj_geosynchronous <->
   d_resonance_flag_ obj_geosynchronous = true).
Proof.
  pose proof tle_geosynchronous_accepted as Hset.
  destruct (flags_from_recovered_elements _ _ Hset) as (Hn & _).
  destruct tle_geosynchronous_tests as (_ & _ & T3).
  assert (Hnz : ~ RecoveredMeanMotion obj_geosynchronous == 0)
    by (rewrite Hn; exact T3).
  destruct (integrator_state_after_SetTle _ _ Hset) as (_ & _ & C).
  split; [exact Hset | split; [exact Hnz | exact (C Hnz)]].
Defined.

(** C5, witness: the geosynchronous element set. *)
Lemma resonance_classification_witness :
  @SetTle RefMath.extern tle_geosynchronous = Ok obj_geosynchronous /\
  i_use_deep_space_ obj_geosynchronous = true /\
  (d_resonance_flag_ obj_geosynchronous = true /\
   d_synchronous_flag_ obj_geosynchronous = true <->
   0.0034906585 < RecoveredMeanMotion obj_geosynchronous /\
   RecoveredMeanMotion obj_geosynchronous < 0.0052359877).
Proof.
  pose proof tle_geosynchronous_accepted as Hset.
  destruct (flags_from_recovered_elements _ _ Hset) as (_ & Hd & _).
  destruct tle_geosynchronous_tests as (T1 & _).
  assert (Hdeep : i_use_deep_space_ obj_geosynchronous = true)
    by (rewrite Hd; exact T1).
  destruct (resonance_classification _ _ Hset Hdeep) as (C & _).
  split; [exact Hset | split; [exact Hdeep | exact C]].
Defined.

(** C6 does not hold as stated.  The eccentricity [-0.001] is not inside
    the open interval from [-0.001] to [1.0e-6]; it passes the validation
    and is replaced by [1.0e-6]. *)
Lemma eccentricity_at_lower_end_is_replaced :
  ~ (-0.001 < -0.001 /\ -0.001 < 1.0e-6) /\
  check_eccentricity (-0.001) = Ok 1.0e-6 /\
  ~ 1.0e-6 == -0.001.
Proof.
  split; [| split].
  - intros [H _]. revert H. qclosed.
  - vm_compute. reflexivity.
  - qclosed.
Qed.

(** C8 does not hold as stated, for every finite time: in binary64, with
    the clock at [2^63] minutes, which one pass from [2^63 - 1024] minutes
    reaches, and [t = 1e19] minutes, a finite double.  The restart test
    keeps the clock, the loop is entered with [delt = 720], a pass leaves
    the clock where it is, at least 720 minutes from [t], and the loop
    does not terminate within any number of passes.  Nor does a pass add
    exactly 720 minutes: to [2^58] minutes it adds 704. *)
Lemma binary64_integrator_loop_does_not_terminate :
  let A := Binary64.binary64_clock in
  let t := Binary64.ten_19 in
  let atime := Binary64.two_63 in
  PrimFloat.is_finite t = true /\
  Binary64.F2Q t == 10000000000000000000 /\
  Binary64.F2Q atime == 9223372036854775808 /\
  clock_after_restart_test A t atime = atime /\
  clock_loop_entered A t atime = true /\
  clock_delt A (c_sub A t atime) = c_STEP A /\
  c_add A atime (c_STEP A) = atime /\
  c_leb A (c_STEP A) (c_fabs A (c_sub A t atime)) = true /\
  (forall fuel : nat, clock_loop A fuel t (c_STEP A) atime = None) /\
  c_add A Binary64.below_two_63 (c_STEP A) = atime /\
  Binary64.F2Q Binary64.below_two_63 == 9223372036854774784 /\
  Binary64.F2Q Binary64.two_58 == 288230376151711744 /\
  c_sub A (c_add A Binary64.two_58 (c_STEP A)) Binary64.two_58 =
    Binary64.minutes_704.
Proof.
  cbv zeta.
  assert (Hadd : c_add Binary64.binary64_clock Binary64.two_63
                   (c_STEP Binary64.binary64_clock) = Binary64.two_63)
    by (vm_compute; reflexivity).
  assert (Hfar : c_leb Binary64.binary64_clock (c_STEP Binary64.binary64_clock)
                   (c_fabs Binary64.binary64_clock
                      (c_sub Binary64.binary64_clock Binary64.ten_19
                         Binary64.two_63)) = true)
    by (vm_compute; reflexivity).
  split; [vm_compute; reflexivity |].
  split; [vm_compute; reflexivity |].
  split; [vm_compute; reflexivity |].
  split; [vm_compute; reflexivity |].
  split; [vm_compute; reflexivity |].
  split; [vm_compute; reflexivity |].
  split; [exact Hadd | split; [exact Hfar |]].
  split; [| repeat split; vm_compute; reflexivity].
  induction fuel as [| fuel IH]; [reflexivity |].
  cbn [clock_loop]. cbv zeta. rewrite Hadd, Hfar. exact IH.
Qed.

(** C8, witness: in binary64, a call at 2000.5 minutes with the clock at
    zero. *)
Lemma integrator_terminates_within_one_step_witness :
  let A := Binary64.binary64_clock in
  let t := Binary64.minutes_2000_5 in
  PrimFloat.is_finite t = true /\
  Qabs (Binary64.F2Q t) < 9007199254740992 /\
  exists n : nat,
    (1 <= n)%nat /\
    (forall fuel, (n <= fuel)%nat ->
       clock_loop A fuel t (c_STEP A) (c_zero A) =
       Some (clock_passes A n (c_STEP A) (c_zero A))) /\
    Qabs (Binary64.F2Q t - Binary64.F2Q (clock_passes A n (c_STEP A) (c_zero A)))
      < 720.
Proof.
  cbv zeta.
  assert (H1 : PrimFloat.is_finite Binary64.minutes_2000_5 = true)
    by (vm_compute; reflexivity).
  assert (H2 : Qabs (Binary64.F2Q Binary64.minutes_2000_5) < 9007199254740992)
    by (vm_compute; reflexivity).
  assert (H3 : PrimFloat.is_finite (c_zero Binary64.binary64_clock) = true)
    by (vm_compute; reflexivity).
  assert (H4 : exists k : Z,
             Binary64.F2Q (c_zero Binary64.binary64_clock) == inject_Z k)
    by (exists 0%Z; vm_compute; reflexivity).
  split; [exact H1 | split; [exact H2 |]].
  destruct (@integrator_terminates_within_one_step RefMath.extern
              ResetGlobalVariables 0) as (_ & _ & _ & _ & _ & HB).
  specialize (HB Binary64.minutes_2000_5 (c_zero Binary64.binary64_clock)
                H1 H2 H3 H4).
  cbv zeta in HB.
  replace (clock_after_restart_test Binary64.binary64_clock
             Binary64.minutes_2000_5 (c_zero Binary64.binary64_clock))
    with (c_zero Binary64.binary64_clock) in HB by (vm_compute; reflexivity).
  replace (clock_delt Binary64.binary64_clock
             (c_sub Binary64.binary64_clock Binary64.minutes_2000_5
                (c_zero Binary64.binary64_clock)))
    with (c_STEP Binary64.binary64_clock) in HB by (vm_compute; reflexivity).
  replace (clock_loop_entered Binary64.binary64_clock Binary64.minutes_2000_5
             (c_zero Binary64.binary64_clock))
    with true in HB by (vm_compute; reflexivity).
  destruct HB as (_ & _ & n & Hn & Hloop & _ & Hnear & _).
  exists n. split; [exact Hn | split; [exact Hloop | exact Hnear]].
Defined.

(** ** Small runs *)

Example check_eccentricity_runs :
  check_eccentricity 1.0 = Throw error_1 /\
  check_eccentricity (-0.002) = Throw error_1 /\
  check_eccentricity 0.5 = Ok 0.5 /\
  check_eccentricity 5.0e-7 = Ok 1.0e-6.
Proof. vm_compute. repeat split; reflexivity. Qed.

Example select_s4_below_98_km :
  fst (@select_s4_qoms24 RefMath.extern 90.0) == 20 / XKMPER + 1 /\
  fst (@select_s4_qoms24 RefMath.extern 120.0) == 42 / XKMPER + 1 /\
  fst (@select_s4_qoms24 RefMath.extern 400.0) == 1 + 78 / XKMPER.
Proof. vm_compute. repeat split; reflexivity. Qed.

Example integrator_fuel_runs :
  integrator_fuel 2000.0 = 3%nat /\ integrator_fuel (-720.0) = 2%nat.
Proof. vm_compute. split; reflexivity. Qed.

(** The geosynchronous object propagated to 2000 minutes: the integrator
    clock stops at 1440 minutes, two steps from the epoch. *)
Example integrator_clock_at_2000_minutes :
  d_atime_ (integ (integrate_to obj_geosynchronous 2000.0)) == 1440.
Proof. lazy. reflexivity. Qed.

(** ** The further properties on concrete element sets *)

Lemma obj_flags :
  i_use_deep_space_ obj_near_earth = false /\
  (i_use_deep_space_ obj_deep_space = true /\
   d_resonance_flag_ obj_deep_space = false) /\
  (i_use_deep_space_ obj_geosynchronous = true /\
   d_resonance_flag_ obj_geosynchronous = true) /\
  (i_use_deep_space_ obj_molniya = true /\
   d_resonance_flag_ obj_molniya = true /\
   d_synchronous_flag_ obj_molniya = false).
Proof.
  destruct classification_of_the_element_sets
    as (N & (D1 & D2) & (G1 & G2 & G3) & (M1 & M2 & M3)).
  exact (conj N (conj (conj D1 D2) (conj (conj G1 G2)
           (conj M1 (conj M2 M3))))).
Qed.

(** X2, witness: the near-Earth test case. *)
Lemma propagation_model_selection_witness :
  @SetTle RefMath.extern tle_near_earth = Ok obj_near_earth /\
  (i_use_deep_space_ obj_near_earth = true <-> 225.0 <= Period obj_near_earth).
Proof.
  pose proof tle_near_earth_accepted as Hset.
  split; [exact Hset |].
  exact (proj1 (propagation_model_selection tle_near_earth obj_near_earth Hset)).
Defined.

(** X3, witness: the deep-space test case. *)
Lemma unused_model_members_stay_zero_witness :
  @SetTle RefMath.extern tle_deep_space = Ok obj_deep_space /\
  (i_use_deep_space_ obj_deep_space = true -> near obj_deep_space = zero_near).
Proof.
  pose proof tle_deep_space_accepted as Hset.
  split; [exact Hset |].
  exact (proj1 (unused_model_members_stay_zero tle_deep_space obj_deep_space Hset)).
Defined.

(** X8, witness: the geosynchronous element set, propagated to -1000 and
    then to 2000 minutes. *)
Lemma integrator_clock_closed_form_witness :
  @SetTle RefMath.extern tle_geosynchronous = Ok obj_geosynchronous /\
  d_resonance_flag_ obj_geosynchronous = true /\
  d_atime_ (integ (fst (FindPosition
                          (propagate_all obj_geosynchronous [-1000.0; 2000.0])
                          2000.0))) ==
  step_toward 2000.0 * inject_Z (Qfloor (fabs 2000.0 / STEP)).
Proof.
  pose proof tle_geosynchronous_accepted as Hset.
  destruct obj_flags as (_ & _ & (_ & Hf) & _).
  split; [exact Hset | split; [exact Hf |]].
  exact (proj1 (integrator_clock_closed_form tle_geosynchronous
                  obj_geosynchronous [-1000.0; 2000.0] 2000.0 Hset Hf)).
Defined.

(** X7, witness: the geosynchronous object, 100 minutes after the
    epoch. *)
Lemma call_near_epoch_restarts_integrator_witness :
  fabs 100.0 < STEP /\
  d_resonance_flag_ obj_geosynchronous = true /\
  fst (DeepSpaceSecular obj_geosynchronous 100.0 0.0 0.0 0.0 0.0 0.0 0.0) =
  restart_from_epoch obj_geosynchronous.
Proof.
  assert (Hn : fabs 100.0 < STEP) by qclosed.
  destruct obj_flags as (_ & _ & (_ & Hf) & _).
  split; [exact Hn | split; [exact Hf |]].
  exact (proj1 (call_near_epoch_restarts_integrator obj_geosynchronous
                  100.0 0.0 0.0 0.0 0.0 0.0 0.0 Hn Hf)).
Defined.

(** X9, witness: the deep-space test case, which has no resonance. *)
Lemma propagation_without_resonance_keeps_object_witness :
  d_resonance_flag_ obj_deep_space = false /\
  (forall ts : list double, propagate_all obj_deep_space ts = obj_deep_space).
Proof.
  destruct obj_flags as (_ & (_ & Hf) & _).
  split; [exact Hf |].
  exact (proj2 (propagation_without_resonance_keeps_object obj_deep_space
                  (or_intror Hf))).
Defined.

(** X10, witness: the Molniya-type element set. *)
Lemma state_after_a_call_is_history_independent_witness :
  @SetTle RefMath.extern tle_molniya = Ok obj_molniya /\
  fst (FindPosition (propagate_all obj_molniya [3000.0; -3000.0]) 1500.0) =
  fst (FindPosition obj_molniya 1500.0).
Proof.
  pose proof tle_molniya_accepted as Hset.
  split; [exact Hset |].
  exact (state_after_a_call_is_history_independent tle_molniya obj_molniya
           [3000.0; -3000.0] 1500.0 Hset).
Defined.

(** X14, witness: the geosynchronous element set, inclined by 0.05
    degrees. *)
Lemma low_inclination_has_no_node_drift_witness :
  @SetTle RefMath.extern tle_geosynchronous = Ok obj_geosynchronous /\
  i_use_deep_space_ obj_geosynchronous = true /\
  tle_Inclination tle_geosynchronous < 5.2359877e-2 /\
  d_ssh_ (secular obj_geosynchronous) == 0.
Proof.
  pose proof tle_geosynchronous_accepted as Hset.
  destruct obj_flags as (_ & _ & (Hd & _) & _).
  assert (Hi : tle_Inclination tle_geosynchronous < 5.2359877e-2) by qclosed.
  split; [exact Hset | split; [exact Hd | split; [exact Hi |]]].
  exact (proj1 (low_inclination_has_no_node_drift tle_geosynchronous
                  obj_geosynchronous Hset Hd (or_introl Hi))).
Defined.

(** X18, witness: the Molniya-type element set, in 12-hour resonance. *)
Lemma resonance_coefficients_are_exclusive_witness :
  @SetTle RefMath.extern tle_molniya = Ok obj_molniya /\
  d_resonance_flag_ obj_molniya = true /\
  d_synchronous_flag_ obj_molniya = false /\
  d_del1_ (resonance obj_molniya) = 0.0.
Proof.
  pose proof tle_molniya_accepted as Hset.
  destruct obj_flags as (_ & _ & _ & (_ & Hf & Hs)).
  split; [exact Hset | split; [exact Hf | split; [exact Hs |]]].
  exact (proj1 (proj2 (resonance_coefficients_are_exclusive tle_molniya
                         obj_molniya Hset) Hf Hs)).
Defined.

(** X19, witness: the geosynchronous element set. *)
Lemma integrator_rate_is_mean_motion_plus_xfact_witness :
  @SetTle RefMath.extern tle_geosynchronous = Ok obj_geosynchronous /\
  d_resonance_flag_ obj_geosynchronous = true /\
  d_xfact_ (fst (FindPosition (propagate_all obj_geosynchronous [5000.0]) 1000.0))
  = d_xfact_ obj_geosynchronous.
Proof.
  pose proof tle_geosynchronous_accepted as Hset.
  destruct obj_flags as (_ & _ & (_ & Hf) & _).
  split; [exact Hset | split; [exact Hf |]].
  exact (proj1 (integrator_rate_is_mean_motion_plus_xfact tle_geosynchronous
                  obj_geosynchronous [5000.0] 1000.0 Hset Hf)).
Defined.

(** The reference routines give equal results at equal numbers. *)
Lemma RefMath_rnd_comp (x y : Q) : x == y -> RefMath.rnd x = RefMath.rnd y.
Proof.
  intro H. unfold RefMath.rnd.
  assert (G : Qfloor (x * inject_Z (Zpos RefMath.prec)) =
              Qfloor (y * inject_Z (Zpos RefMath.prec)))
    by (apply Qfloor_comp; rewrite H; reflexivity).
  rewrite G. reflexivity.
Qed.

Lemma RefMath_sin_comp (x y : Q) : x == y -> RefMath.sin x == RefMath.sin y.
Proof.
  intro H. unfold RefMath.sin, RefMath.reduce.
  rewrite (RefMath_rnd_comp x y H). reflexivity.
Qed.

Lemma RefMath_cos_comp (x y : Q) : x == y -> RefMath.cos x == RefMath.cos y.
Proof.
  intro H. unfold RefMath.cos, RefMath.reduce.
  rewrite (RefMath_rnd_comp x y H). reflexivity.
Qed.

Lemma RefMath_pow_comp (x y z : Q) :
  x == y -> RefMath.pow x z == RefMath.pow y z.
Proof.
  intro H. unfold RefMath.pow. cbv zeta.
  assert (Hgt : (x >? 0) = (y >? 0)).
  { destruct (x >? 0) eqn:H1; destruct (y >? 0) eqn:H2; trivial;
      cmp_hyps; lra. }
  assert (Hln : RefMath.ln x = RefMath.ln y)
    by (unfold RefMath.ln; rewrite (RefMath_rnd_comp x y H); reflexivity).
  destruct (Qden (Qred z)).
  - rewrite Hgt, Hln. reflexivity.
  - rewrite Hgt, Hln. reflexivity.
  - rewrite (RefMath_rnd_comp (Qpower x (Qnum (Qred z)))
               (Qpower y (Qnum (Qred z)))); [reflexivity |].
    rewrite H. reflexivity.
Qed.

(** X16, witness: the near-Earth test case, with the reference
    routines. *)
Lemma near_space_call_at_epoch_witness :
  @SetTle RefMath.extern tle_near_earth = Ok obj_near_earth /\
  i_use_deep_space_ obj_near_earth = false /\
  snd (FindPosition obj_near_earth 0.0) <> Throw error_1.
Proof.
  pose proof tle_near_earth_accepted as Hset.
  destruct obj_flags as (Hd & _).
  split; [exact Hset | split; [exact Hd |]].
  exact (proj1 (proj2 (proj2
           (@near_space_call_at_epoch RefMath.extern
              RefMath_sin_comp RefMath_cos_comp RefMath_pow_comp
              tle_near_earth obj_near_earth Hset Hd)))).
Defined.

(** X17, witness: an object with zero lunar and solar constants, an
    inclination of 0.1 radians and a node of 7 radians. *)
Lemma lyddane_node_stays_within_pi_witness :
  first_run_ obj_reset_first_run_cleared = false /\
  periodics_xinc
    (DeepSpacePeriodics obj_reset_first_run_cleared 0.0 0.1 0.1 1.0 7.0 0.5)
    < 0.2 /\
  - PI <= lyddane_atan2 obj_reset_first_run_cleared 0.0 0.1 7.0 /\
  lyddane_atan2 obj_reset_first_run_cleared 0.0 0.1 7.0 <= PI /\
  fabs (lyddane_oldxnodes 7.0 -
        periodics_xnodes
          (DeepSpacePeriodics obj_reset_first_run_cleared 0.0 0.1 0.1 1.0 7.0 0.5))
  <= PI.
Proof.
  assert (H1 : first_run_ obj_reset_first_run_cleared = false) by reflexivity.
  assert (H2 : periodics_xinc
                 (DeepSpacePeriodics obj_reset_first_run_cleared
                    0.0 0.1 0.1 1.0 7.0 0.5) < 0.2) by qclosed.
  assert (H3 : - PI <= lyddane_atan2 obj_reset_first_run_cleared 0.0 0.1 7.0)
    by qclosed.
  assert (H4 : lyddane_atan2 obj_reset_first_run_cleared 0.0 0.1 7.0 <= PI)
    by qclosed.
  split; [exact H1 | split; [exact H2 | split; [exact H3 | split; [exact H4 |]]]].
  exact (proj2 (proj2
           (lyddane_node_stays_within_pi obj_reset_first_run_cleared
              0.0 0.1 0.1 1.0 7.0 0.5 H1 H2 H3 H4))).
Defined.
